(** * Amplify access-log downloader: range generation, adaptive fetch, statistics

    Shallow embedding of
      - [local/amplify_logs.py]  (class [AmplifyLogDownloader]), in [Module Local];
      - [amplify-stack-backup/extracted_lambda/amplifylogs-logging-.../lambda_function.py]
        ([download_amplify_logs], [handle_large_time_range]), in [Module Lambda].

    Python values are modelled as follows.
      - [datetime]: microseconds since 0001-01-01T00:00:00 as [Z]; the range of
        Python's [datetime] (years 1..9999) is kept, arithmetic leaving it raises
        [OverflowError];
      - [timedelta]: a signed number of microseconds as [Z];
      - [date]: the proleptic Gregorian ordinal ([date.toordinal()]) as [Z];
      - exceptions: a result type with a [Raise] outcome, caught by [try_except];
      - the outside world (AWS CLI, HTTP, file system, S3, sleeping): an abstract
        world state threaded through every call, together with a trace of the
        calls made. *)

From Stdlib Require Import ZArith List String Ascii Bool Lia.
Import ListNotations.
Open Scope Z_scope.

(* ================================================================== *)
(** ** Results and exceptions *)

(** Subclasses of Python's [Exception] that the code tells apart. *)
Inductive exn : Type :=
| OverflowError
| TypeError
| JSONDecodeError
| CalledProcessError (stderr : string)
| BadRequestException (msg : string)
| ResourceNotFoundException (msg : string)
| OtherException (msg : string).

(** Outcome of running a piece of Python code.  [Diverge] is the outcome of a
    loop or recursion that exhausts the fuel of the model; it is not an
    exception and no handler catches it. *)
Inductive result (A : Type) : Type :=
| Ret (a : A)
| Raise (e : exn)
| Diverge.
Arguments Ret {A} a.
Arguments Raise {A} e.
Arguments Diverge {A}.

Definition rbind {A B} (r : result A) (k : A -> result B) : result B :=
  match r with
  | Ret a => k a
  | Raise e => Raise e
  | Diverge => Diverge
  end.

Notation "x <~ c ;; k" := (rbind c (fun x => k))
  (at level 61, c at next level, right associativity).

(* ================================================================== *)
(** ** Dates, datetimes and timedeltas *)

Definition datetime := Z.
Definition timedelta := Z.
Definition date := Z.

Definition US_PER_SECOND : Z := 1000000.
Definition US_PER_DAY : Z := 86400 * US_PER_SECOND.

(** [date.max.toordinal()] *)
Definition MAXORDINAL : Z := 3652059.
Definition datetime_min : datetime := 0.
Definition datetime_max : datetime := MAXORDINAL * US_PER_DAY - 1.

(** [timedelta(days=n)] *)
Definition timedelta_days (n : Z) : result timedelta :=
  if (-999999999 <=? n) && (n <=? 999999999)
  then Ret (n * US_PER_DAY) else Raise OverflowError.

(** [timedelta(seconds=n)], for the small constants of the code. *)
Definition timedelta_seconds (n : Z) : timedelta := n * US_PER_SECOND.

(** [t + d] on a datetime and a timedelta. *)
Definition datetime_add (t : datetime) (d : timedelta) : result datetime :=
  let r := t + d in
  if (datetime_min <=? r) && (r <=? datetime_max)
  then Ret r else Raise OverflowError.

(** [t - d] on a datetime and a timedelta. *)
Definition datetime_sub (t : datetime) (d : timedelta) : result datetime :=
  datetime_add t (- d).

(** [datetime.combine(d, datetime.min.time())] *)
Definition start_of_day (d : date) : datetime := (d - 1) * US_PER_DAY.

(** [datetime.combine(d, datetime.max.time().replace(microsecond=0))] *)
Definition end_of_day (d : date) : datetime :=
  (d - 1) * US_PER_DAY + 86399 * US_PER_SECOND.

(** Calendar arithmetic of the datetime module, used to name concrete days. *)
Definition is_leap (y : Z) : bool :=
  (y mod 4 =? 0) && (negb (y mod 100 =? 0) || (y mod 400 =? 0)).

Definition days_before_year (year : Z) : Z :=
  let y := year - 1 in y * 365 + y / 4 - y / 100 + y / 400.

Definition days_before_month (year month : Z) : Z :=
  nth (Z.to_nat month) [0; 0; 31; 59; 90; 120; 151; 181; 212; 243; 273; 304; 334] 0
  + (if (2 <? month) && is_leap year then 1 else 0).

Definition ymd2ord (year month day : Z) : date :=
  days_before_year year + days_before_month year month + day.

(** [datetime(y, m, d, hh, mm, ss)] *)
Definition mk_datetime (y m d hh mm ss : Z) : datetime :=
  (ymd2ord y m d - 1) * US_PER_DAY + (hh * 3600 + mm * 60 + ss) * US_PER_SECOND.

(** [_ord2ymd] of the datetime module: the year, month and day of an
    ordinal. *)
Definition ord2ymd (ordinal : date) : Z * Z * Z :=
  let n := ordinal - 1 in
  let n400 := n / 146097 in
  let n := n mod 146097 in
  let n100 := n / 36524 in
  let n := n mod 36524 in
  let n4 := n / 1461 in
  let n := n mod 1461 in
  let n1 := n / 365 in
  let n := n mod 365 in
  let year := n400 * 400 + 1 + n100 * 100 + n4 * 4 + n1 in
  if (n1 =? 4) || (n100 =? 4) then (year - 1, 12, 31)
  else
    let month := Z.shiftr (n + 50) 5 in
    let month := if n <? days_before_month year month then month - 1 else month in
    (year, month, n - days_before_month year month + 1).

(** A time range is the pair [(start_time, end_time)] of the code; the API
    takes both bounds as inclusive. *)
Definition time_range : Type := datetime * datetime.

Definition in_range (t : datetime) (r : time_range) : Prop :=
  fst r <= t <= snd r.

(* ================================================================== *)
(** ** Python values and the operators the code applies to them *)

(** Values produced by [json.loads] and returned by the fetch functions
    ([Union[str, Dict, None]] and whatever else the JSON text denotes). *)
#[local] Unset Elimination Schemes.
Inductive pyval : Type :=
| PNone
| PBool (b : bool)
| PInt (z : Z)
| PFloat (repr : string)
| PStr (s : string)
| PList (l : list pyval)
| PDict (kv : list (string * pyval)).
#[local] Set Elimination Schemes.

(** [needle in hay] on two [str]. *)
Fixpoint contains (needle hay : string) : bool :=
  if String.prefix needle hay then true
  else match hay with
       | EmptyString => false
       | String _ rest => contains needle rest
       end.

(** [key in v] for a [str] key. *)
Definition py_contains (key : string) (v : pyval) : result bool :=
  match v with
  | PDict kv => Ret (existsb (fun p => String.eqb (fst p) key) kv)
  | PStr s => Ret (contains key s)
  | PList l =>
      Ret (existsb (fun x => match x with PStr s => String.eqb s key | _ => false end) l)
  | _ => Raise TypeError
  end.

(** [v[key]] for a [str] key. *)
Definition py_getitem (v : pyval) (key : string) : result pyval :=
  match v with
  | PDict kv =>
      match find (fun p => String.eqb (fst p) key) kv with
      | Some p => Ret (snd p)
      | None => Raise (OtherException "KeyError")
      end
  | _ => Raise TypeError
  end.

(** [v == s] for a [str] literal [s]. *)
Definition py_eq_str (v : pyval) (s : string) : bool :=
  match v with
  | PStr s' => String.eqb s' s
  | _ => false
  end.

(** [v is None] *)
Definition py_is_none (v : pyval) : bool :=
  match v with
  | PNone => true
  | _ => false
  end.

(** [range(n)] *)
Definition py_range (n : Z) : list Z := map Z.of_nat (seq 0 (Z.to_nat n)).

(** [time.sleep(seconds)] for an [int]: the delay is first converted to
    nanoseconds in a signed 64-bit integer, which raises [OverflowError] when
    it does not fit; a negative delay then raises
    [ValueError("sleep length must be non-negative")].  [None]: the call
    sleeps. *)
Definition MAX_SLEEP : Z := 9223372036.

Definition sleep_error (seconds : Z) : option exn :=
  if (seconds <? - MAX_SLEEP) || (MAX_SLEEP <? seconds) then Some OverflowError
  else if seconds <? 0 then Some (OtherException "sleep length must be non-negative")
  else None.

(** [s.startswith('/')] and [s.endswith('/')] *)
Definition starts_with_sep (s : string) : bool :=
  match s with
  | EmptyString => false
  | String c _ => Ascii.eqb c "/"
  end.

Fixpoint ends_with_sep (s : string) : bool :=
  match s with
  | EmptyString => false
  | String c EmptyString => Ascii.eqb c "/"
  | String _ rest => ends_with_sep rest
  end.

(** ['/' in s] *)
Fixpoint has_sep (s : string) : bool :=
  match s with
  | EmptyString => false
  | String c rest => Ascii.eqb c "/" || has_sep rest
  end.

(** [os.path.join(a, b)] of [posixpath]; [os.path.join(a, b, c)] is
    [os.path.join(os.path.join(a, b), c)]. *)
Definition os_path_join (a b : string) : string :=
  if starts_with_sep b then b
  else if String.eqb a EmptyString || ends_with_sep a then (a ++ b)%string
  else (a ++ "/" ++ b)%string.

(** The pieces of a string between its slashes; [cur] is the piece being
    read. *)
Fixpoint split_sep (cur s : string) : list string :=
  match s with
  | EmptyString => [cur]
  | String c rest =>
      if Ascii.eqb c "/" then cur :: split_sep EmptyString rest
      else split_sep (cur ++ String c EmptyString) rest
  end.

(** The components pathlib reads in a relative segment: its pieces, the
    empty ones and the single dots left out.  [Path(p) / segment] has the
    components of [p] followed by those of [segment]. *)
Definition path_parts (segment : string) : list string :=
  filter (fun x => negb (String.eqb x EmptyString || String.eqb x "."))
         (split_sep EmptyString segment).

(** [str] of the absolute path with these components. *)
Definition posix_path (parts : list string) : string :=
  ("/" ++ String.concat "/" parts)%string.

(** Result of a call into the outside world: it returns or raises. *)
Inductive completed (A : Type) : Type :=
| Done (a : A)
| Failed (e : exn).
Arguments Done {A} a.
Arguments Failed {A} e.

(* ================================================================== *)
(** ** Code that reads and writes a state and may raise *)

Section Monad.

Context {S : Type}.

Definition M (A : Type) : Type := S -> result A * S.

Definition ret {A} (a : A) : M A := fun st => (Ret a, st).

Definition bind {A B} (m : M A) (k : A -> M B) : M B :=
  fun st =>
    match m st with
    | (Ret a, st') => k a st'
    | (Raise e, st') => (Raise e, st')
    | (Diverge, st') => (Diverge, st')
    end.

Definition raise {A} (e : exn) : M A := fun st => (Raise e, st).

Definition diverge {A} : M A := fun st => (Diverge, st).

Definition lift {A} (r : result A) : M A := fun st => (r, st).

(** [try: body except Exception as e: handler e] *)
Definition try_except {A} (body : M A) (handler : exn -> M A) : M A :=
  fun st =>
    match body st with
    | (Raise e, st') => handler e st'
    | r => r
    end.

End Monad.

Arguments M S A : clear implicits.

Notation "x <- c ;; k" := (bind c (fun x => k))
  (at level 61, c at next level, right associativity).

(* ================================================================== *)
(** ** local/amplify_logs.py *)

Module Local.

Definition FIXED_OUTPUT_DIR : string := "/home/hylmarj/_scratch".
Definition S3_PROFILE : string := "HylmarJ".
Definition S3_BUCKET : string := "amplifylogs-logging-intite-ss1-inftes-182059100462".
Definition S3_PREFIX : string := EmptyString.

(** The [app_config] dictionary built by [main]. *)
Record app_config : Type := {
  profile : string;
  region : string;
  appId : string;
  domainName : string;
  appName : string
}.

(** Calls that leave the process, recorded in the order they are made. *)
Inductive event : Type :=
| EvGenerateAccessLogs (start_time end_time : datetime)
| EvHttpGet (url : pyval)
| EvMkdir (path : string)
| EvWriteFile (path content : string)
| EvGetsize (path : string)
| EvS3Cp (local_file s3_uri : string)
| EvRemove (path : string)
| EvSleep (seconds : Z).

(** The collaborators of the downloader over a world state [W].  Each call
    returns or raises, and yields the next world. *)
Class Primitives (W : Type) : Type := {
  (** [subprocess.run(["aws", "amplify", "generate-access-logs", ...], check=True)],
      returning [result.stdout] *)
  run_generate_access_logs :
    app_config -> datetime -> datetime -> W -> completed string * W;
  json_loads : string -> option pyval;
  (** [requests.get(url)], returning [(status_code, text)] *)
  requests_get : pyval -> W -> completed (Z * string) * W;
  (** [date_path.mkdir(parents=True, exist_ok=True)] *)
  path_mkdir : string -> W -> completed unit * W;
  (** [with open(log_file, 'w') as f: f.write(content)] *)
  write_text : string -> string -> W -> completed unit * W;
  (** [os.path.getsize(log_file)] *)
  path_getsize : string -> W -> completed Z * W;
  (** [subprocess.run(["aws", "s3", "cp", local_file, s3_uri, ...], check=True)] *)
  run_s3_cp : string -> string -> W -> completed string * W;
  os_remove : string -> W -> completed unit * W;
  time_sleep : Z -> W -> W;
  (** [timestamp.strftime(format)], [t.isoformat()], [json.dump(v, f, indent=2)] *)
  strftime : datetime -> string -> string;
  isoformat : datetime -> string;
  json_dumps : pyval -> string
}.

(** An entry of [self.stats['failed_ranges']]. *)
Record failed_range : Type := {
  fr_app_name : string;
  fr_start_time : string;
  fr_end_time : string
}.

(** [self.stats] *)
Record overall_stats : Type := {
  total_chunks : Z;
  successful_chunks : Z;
  failed_chunks : Z;
  empty_logs_chunks : Z;
  upload_failures : Z;
  failed_ranges : list failed_range
}.

(** [app_stats], local to one call of [download_logs]. *)
Record app_stats : Type := {
  app_name : string;
  app_total_chunks : Z;
  app_successful_chunks : Z;
  app_empty_logs_chunks : Z;
  app_failed_chunks : Z;
  app_failed_ranges : list time_range
}.

(** The dictionary returned by [download_logs]. *)
Record report : Type := {
  report_overall_stats : overall_stats;
  report_app_stats : app_stats
}.

(** [self.stats] as set by [__init__]. *)
Definition init_stats : overall_stats :=
  {| total_chunks := 0; successful_chunks := 0; failed_chunks := 0;
     empty_logs_chunks := 0; upload_failures := 0; failed_ranges := [] |}.

Section Downloader.

Context {W : Type} {P : Primitives W}.

(** What the code reads and writes: the world, the calls made so far and the
    mutable [self.stats]. *)
Record state : Type := {
  world : W;
  trace : list event;
  stats : overall_stats
}.

(** A call into the world: logged in the trace, then returns or raises. *)
Definition call {A} (ev : event) (prim : W -> completed A * W) : M state A :=
  fun st =>
    let (c, w') := prim (world st) in
    let st' := {| world := w'; trace := trace st ++ [ev]; stats := stats st |} in
    match c with
    | Done a => (Ret a, st')
    | Failed e => (Raise e, st')
    end.

(** [time.sleep(seconds)]; the code calls it with the constant 1 only. *)
Definition sleep (seconds : Z) : M state unit :=
  fun st =>
    (Ret tt, {| world := time_sleep seconds (world st);
                trace := trace st ++ [EvSleep seconds];
                stats := stats st |}).

Definition modify_stats (f : overall_stats -> overall_stats) : M state unit :=
  fun st =>
    (Ret tt, {| world := world st; trace := trace st; stats := f (stats st) |}).

Definition get_stats : M state overall_stats := fun st => (Ret (stats st), st).

End Downloader.

Arguments state W : clear implicits.

Section Methods.

Context {W : Type} {P : Primitives W}.

(** [self.app] and [self.chunk_size_days] *)
Variable app : app_config.
Variable chunk_size_days : Z.

(** [get_amplify_logs] (lines 81-141). *)
Definition get_amplify_logs (start_time end_time : datetime) : M (state W) pyval :=
  try_except
    (stdout <- call (EvGenerateAccessLogs start_time end_time)
                    (run_generate_access_logs app start_time end_time) ;;
     if negb (stdout =? EmptyString)%string then
       response <- lift (match json_loads stdout with
                         | Some v => Ret v
                         | None => Raise JSONDecodeError
                         end) ;;
       has_url <- lift (py_contains "logUrl" response) ;;
       if has_url : bool then
         log_url <- lift (py_getitem response "logUrl") ;;
         log_content <- call (EvHttpGet log_url) (requests_get log_url) ;;
         if fst log_content =? 200
         then ret (PStr (snd log_content))
         else ret PNone
       else ret response
     else ret PNone)
    (fun e =>
       match e with
       | CalledProcessError stderr =>
           if contains "reduce time range" stderr
           then ret (PStr "REDUCE_RANGE")
           else ret PNone
       | _ => ret PNone
       end).

(** [is_empty = (logs is the empty str) if isinstance(logs, str) else False] *)
Definition is_empty_logs (logs : pyval) : bool :=
  match logs with
  | PStr s => (s =? EmptyString)%string
  | _ => false
  end.

(** [FIXED_OUTPUT_DIR / "type=amplify_logs" / f"app={appName}" /
    f"date_export={...}"] (lines 165-166) and [date_path / f"log_{...}"]
    (line 169).  Every segment starts with a fixed word, so none is absolute
    and pathlib appends its components, dropping empty ones and single
    dots. *)
Definition date_parts_of (timestamp : datetime) : list string :=
  path_parts FIXED_OUTPUT_DIR ++ path_parts "type=amplify_logs"
  ++ path_parts ("app=" ++ appName app)
  ++ path_parts ("date_export=" ++ strftime timestamp "%Y-%m-%d").

Definition date_path_of (timestamp : datetime) : string :=
  posix_path (date_parts_of timestamp).

Definition log_file_of (timestamp : datetime) : string :=
  posix_path (date_parts_of timestamp
              ++ path_parts ("log_" ++ strftime timestamp "%Y%m%d_%H%M%S")).

(** What is written to the file: the text itself or [json.dump(logs, f, indent=2)]. *)
Definition file_content (logs : pyval) : string :=
  match logs with
  | PStr s => s
  | _ => json_dumps logs
  end.

(** [save_logs_locally] (lines 143-183); the handler logs and re-raises. *)
Definition save_logs_locally (logs : pyval) (timestamp : datetime)
  : M (state W) (option string) :=
  try_except
    (if is_empty_logs logs then ret None
     else
       let date_path := date_path_of timestamp in
       _ <- call (EvMkdir date_path) (path_mkdir date_path) ;;
       let log_file := log_file_of timestamp in
       _ <- call (EvWriteFile log_file (file_content logs))
                 (write_text log_file (file_content logs)) ;;
       _ <- call (EvGetsize log_file) (path_getsize log_file) ;;
       ret (Some log_file))
    (fun e => raise e).

(** [os.path.join(S3_PREFIX, "type=amplify_logs", f"app={appName}",
    f"date_export={...}", f"log_{...}")] (lines 198-204), and the URI. *)
Definition s3_key_of (timestamp : datetime) : string :=
  os_path_join
    (os_path_join
       (os_path_join (os_path_join S3_PREFIX "type=amplify_logs")
                     ("app=" ++ appName app))
       ("date_export=" ++ strftime timestamp "%Y-%m-%d"))
    ("log_" ++ strftime timestamp "%Y%m%d_%H%M%S").

Definition s3_uri_of (timestamp : datetime) : string :=
  ("s3://" ++ S3_BUCKET ++ "/" ++ s3_key_of timestamp)%string.

Definition incr_upload_failures (s : overall_stats) : overall_stats :=
  {| total_chunks := total_chunks s;
     successful_chunks := successful_chunks s;
     failed_chunks := failed_chunks s;
     empty_logs_chunks := empty_logs_chunks s;
     upload_failures := upload_failures s + 1;
     failed_ranges := failed_ranges s |}.

(** [upload_to_s3] (lines 185-239). *)
Definition upload_to_s3 (local_file : string) (timestamp : datetime)
    (delete_after_upload : bool) : M (state W) bool :=
  let s3_uri := s3_uri_of timestamp in
  try_except
    (_ <- call (EvS3Cp local_file s3_uri) (run_s3_cp local_file s3_uri) ;;
     _ <- (if delete_after_upload
           then try_except (call (EvRemove local_file) (os_remove local_file))
                           (fun _ => ret tt)
           else ret tt) ;;
     ret true)
    (fun _ =>
       _ <- modify_stats incr_upload_failures ;;
       ret false).

(** [mid_time = start_time + (end_time - start_time) // 2]; the floor division
    of a timedelta works on microseconds.  Between two datetimes of the valid
    range the midpoint is in the range too, so this addition does not
    overflow (lemma [bisect_no_overflow]). *)
Definition mid_time_of (start_time end_time : datetime) : datetime :=
  start_time + (end_time - start_time) / 2.

(** The two ranges handed to the recursive calls. *)
Definition bisect (r : time_range) : time_range * time_range :=
  let mid_time := mid_time_of (fst r) (snd r) in
  ((fst r, mid_time), (mid_time, snd r)).

(** [process_time_range] (lines 241-304).  The recursion is on [depth]; [fuel]
    only makes it structural, and [process_time_range] below supplies enough. *)
Fixpoint process_time_range_rec (fuel : nat) (start_time end_time : datetime)
    (depth : Z) (delete_after_upload : bool) : M (state W) (bool * bool) :=
  match fuel with
  | O => diverge
  | S fuel' =>
      if 2 <? depth then ret (false, false)
      else
        try_except
          (logs <- get_amplify_logs start_time end_time ;;
           if py_eq_str logs "REDUCE_RANGE" then
             let mid_time := mid_time_of start_time end_time in
             r1 <- process_time_range_rec fuel' start_time mid_time (depth + 1)
                                          delete_after_upload ;;
             _ <- sleep 1 ;;
             r2 <- process_time_range_rec fuel' mid_time end_time (depth + 1)
                                          delete_after_upload ;;
             ret (fst r1 || fst r2, snd r1 && snd r2)
           else if negb (py_is_none logs) then
             if is_empty_logs logs then ret (true, true)
             else
               local_file <- save_logs_locally logs end_time ;;
               s3_success <- match local_file with
                             | Some f => upload_to_s3 f end_time delete_after_upload
                             | None => ret true
                             end ;;
               ret (s3_success, false)
           else ret (false, false))
          (fun _ => ret (false, false))
  end.

Definition process_time_range (start_time end_time : datetime) (depth : Z)
    (delete_after_upload : bool) : M (state W) (bool * bool) :=
  process_time_range_rec (S (Z.to_nat (3 - depth))) start_time end_time depth
                         delete_after_upload.

(** The [while current_start <= end_time] loop of [generate_time_ranges];
    [ranges] is the list built so far. *)
Fixpoint generate_loop (fuel : nat) (end_time : datetime)
    (current_start : datetime) (ranges : list time_range)
  : result (list time_range) :=
  match fuel with
  | O => Diverge
  | S fuel' =>
      if current_start <=? end_time then
        d <~ timedelta_days chunk_size_days ;;
        t1 <~ datetime_add current_start d ;;
        t2 <~ datetime_sub t1 (timedelta_seconds 1) ;;
        let chunk_end := Z.min t2 end_time in
        next <~ datetime_add chunk_end (timedelta_seconds 1) ;;
        generate_loop fuel' end_time next (ranges ++ [(current_start, chunk_end)])
      else Ret ranges
  end.

(** [generate_time_ranges] (lines 306-334). *)
Definition generate_time_ranges (fuel : nat) (start_date end_date : date)
  : result (list time_range) :=
  let start_time := start_of_day start_date in
  let end_time := end_of_day end_date in
  generate_loop fuel end_time start_time [].

(** Updates of [self.stats] and of [app_stats] made by the chunk loop. *)
Definition set_total (n : Z) (s : overall_stats) : overall_stats :=
  {| total_chunks := n;
     successful_chunks := successful_chunks s;
     failed_chunks := failed_chunks s;
     empty_logs_chunks := empty_logs_chunks s;
     upload_failures := upload_failures s;
     failed_ranges := failed_ranges s |}.

Definition incr_successful (s : overall_stats) : overall_stats :=
  {| total_chunks := total_chunks s;
     successful_chunks := successful_chunks s + 1;
     failed_chunks := failed_chunks s;
     empty_logs_chunks := empty_logs_chunks s;
     upload_failures := upload_failures s;
     failed_ranges := failed_ranges s |}.

Definition incr_empty (s : overall_stats) : overall_stats :=
  {| total_chunks := total_chunks s;
     successful_chunks := successful_chunks s;
     failed_chunks := failed_chunks s;
     empty_logs_chunks := empty_logs_chunks s + 1;
     upload_failures := upload_failures s;
     failed_ranges := failed_ranges s |}.

Definition record_failed (r : time_range) (s : overall_stats) : overall_stats :=
  {| total_chunks := total_chunks s;
     successful_chunks := successful_chunks s;
     failed_chunks := failed_chunks s + 1;
     empty_logs_chunks := empty_logs_chunks s;
     upload_failures := upload_failures s;
     failed_ranges :=
       failed_ranges s ++ [ {| fr_app_name := appName app;
                               fr_start_time := isoformat (fst r);
                               fr_end_time := isoformat (snd r) |} ] |}.

Definition app_set_total (n : Z) (a : app_stats) : app_stats :=
  {| app_name := app_name a;
     app_total_chunks := n;
     app_successful_chunks := app_successful_chunks a;
     app_empty_logs_chunks := app_empty_logs_chunks a;
     app_failed_chunks := app_failed_chunks a;
     app_failed_ranges := app_failed_ranges a |}.

Definition app_incr_successful (a : app_stats) : app_stats :=
  {| app_name := app_name a;
     app_total_chunks := app_total_chunks a;
     app_successful_chunks := app_successful_chunks a + 1;
     app_empty_logs_chunks := app_empty_logs_chunks a;
     app_failed_chunks := app_failed_chunks a;
     app_failed_ranges := app_failed_ranges a |}.

Definition app_incr_empty (a : app_stats) : app_stats :=
  {| app_name := app_name a;
     app_total_chunks := app_total_chunks a;
     app_successful_chunks := app_successful_chunks a;
     app_empty_logs_chunks := app_empty_logs_chunks a + 1;
     app_failed_chunks := app_failed_chunks a;
     app_failed_ranges := app_failed_ranges a |}.

Definition app_record_failed (r : time_range) (a : app_stats) : app_stats :=
  {| app_name := app_name a;
     app_total_chunks := app_total_chunks a;
     app_successful_chunks := app_successful_chunks a;
     app_empty_logs_chunks := app_empty_logs_chunks a;
     app_failed_chunks := app_failed_chunks a + 1;
     app_failed_ranges := app_failed_ranges a ++ [r] |}.

(** [app_stats] at the start of [download_logs]. *)
Definition init_app_stats : app_stats :=
  {| app_name := appName app;
     app_total_chunks := 0;
     app_successful_chunks := 0;
     app_empty_logs_chunks := 0;
     app_failed_chunks := 0;
     app_failed_ranges := [] |}.

(** One iteration of the [for] loop of [download_logs] (lines 364-387). *)
Definition process_chunk (delete_after_upload : bool) (acc : app_stats)
    (r : time_range) : M (state W) app_stats :=
  res <- process_time_range (fst r) (snd r) 0 delete_after_upload ;;
  acc' <- (if fst res then
             _ <- modify_stats incr_successful ;;
             if snd res then
               _ <- modify_stats incr_empty ;;
               ret (app_incr_empty (app_incr_successful acc))
             else ret (app_incr_successful acc)
           else
             _ <- modify_stats (record_failed r) ;;
             ret (app_record_failed r acc)) ;;
  _ <- sleep 1 ;;
  ret acc'.

(** The whole [for] loop over [time_ranges]. *)
Fixpoint chunk_loop (delete_after_upload : bool) (time_ranges : list time_range)
    (acc : app_stats) : M (state W) app_stats :=
  match time_ranges with
  | [] => ret acc
  | r :: rest =>
      acc' <- process_chunk delete_after_upload acc r ;;
      chunk_loop delete_after_upload rest acc'
  end.

(** [download_logs] (lines 336-393); [fuel] bounds the loop of
    [generate_time_ranges]. *)
Definition download_logs (fuel : nat) (start_date end_date : date)
    (delete_after_upload : bool) : M (state W) report :=
  time_ranges <- lift (generate_time_ranges fuel start_date end_date) ;;
  let n := Z.of_nat (List.length time_ranges) in
  _ <- modify_stats (set_total n) ;;
  acc <- chunk_loop delete_after_upload time_ranges
                    (app_set_total n init_app_stats) ;;
  overall <- get_stats ;;
  ret {| report_overall_stats := overall; report_app_stats := acc |}.

End Methods.

(** Views of a trace. *)
Definition is_persist (ev : event) : bool :=
  match ev with
  | EvMkdir _ | EvWriteFile _ _ | EvS3Cp _ _ => true
  | _ => false
  end.

Definition is_sleep (ev : event) : bool :=
  match ev with
  | EvSleep _ => true
  | _ => false
  end.

(** The ranges of the fetch attempts of a trace, in order. *)
Fixpoint fetched_ranges (tr : list event) : list time_range :=
  match tr with
  | [] => []
  | EvGenerateAccessLogs s e :: rest => (s, e) :: fetched_ranges rest
  | _ :: rest => fetched_ranges rest
  end.

(** A downloader right after [__init__], in world [w]. *)
Definition init_state {W : Type} (w : W) : state W :=
  {| world := w; trace := []; stats := init_stats |}.

End Local.

(* ================================================================== *)
(** ** extracted_lambda/amplifylogs-logging-.../lambda_function.py *)

Module Lambda.

(** The ["app"] entry of the Lambda event. *)
Record app_config : Type := {
  region : string;
  appId : string;
  domainName : string;
  appName : string
}.

Inductive event : Type :=
| EvMakedirs (path : string)
| EvClient (region_name : string)
| EvGenerateAccessLogs (start_time end_time : datetime)
| EvHttpGet (url : pyval)
| EvWriteFile (path content : string)
| EvSleep (seconds : Z).

Class Primitives (W : Type) : Type := {
  (** [os.makedirs(output_dir, exist_ok=True)] *)
  os_makedirs : string -> W -> completed unit * W;
  (** [boto3.client('amplify', region_name=...)] *)
  boto3_client : string -> W -> completed unit * W;
  (** [amplify_client.generate_access_logs(...)], returning the response *)
  generate_access_logs :
    app_config -> datetime -> datetime -> W -> completed pyval * W;
  (** [requests.get(url)], returning [(status_code, text)] *)
  requests_get : pyval -> W -> completed (Z * string) * W;
  (** [with open(path, 'w') as f: f.write(content)] *)
  write_text : string -> string -> W -> completed unit * W;
  time_sleep : Z -> W -> W;
  strftime : datetime -> string -> string;
  (** [str(t)] of a datetime *)
  str_datetime : datetime -> string
}.

Record state (W : Type) : Type := {
  world : W;
  trace : list event
}.
Arguments world {W} s.
Arguments trace {W} s.

(** [timedelta / n]: the quotient of the microseconds, rounded half to even
    ([_divide_and_round] of the datetime module). *)
Definition divide_and_round (a b : Z) : Z :=
  let q := a / b in
  let r := 2 * (a mod b) in
  let greater_than_half := if 0 <? b then b <? r else r <? b in
  if greater_than_half || ((r =? b) && (q mod 2 =? 1)) then q + 1 else q.

(** [mid_time = start_time + time_diff / 2] *)
Definition mid_time_of (start_time end_time : datetime) : datetime :=
  start_time + divide_and_round (end_time - start_time) 2.

(** The two ranges handed to [download_amplify_logs] by
    [handle_large_time_range]. *)
Definition bisect (r : time_range) : time_range * time_range :=
  let mid_time := mid_time_of (fst r) (snd r) in
  ((fst r, mid_time), (mid_time, snd r)).

Section Functions.

Context {W : Type} {P : Primitives W}.

Variable app : app_config.

Definition call {A} (ev : event) (prim : W -> completed A * W) : M (state W) A :=
  fun st =>
    let (c, w') := prim (world st) in
    let st' := {| world := w'; trace := trace st ++ [ev] |} in
    match c with
    | Done a => (Ret a, st')
    | Failed e => (Raise e, st')
    end.

(** [time.sleep(seconds)]: a delay that [time.sleep] refuses raises and
    leaves the world as it is. *)
Definition sleep (seconds : Z) : M (state W) unit :=
  fun st =>
    match sleep_error seconds with
    | Some e => (Raise e, {| world := world st;
                             trace := trace st ++ [EvSleep seconds] |})
    | None => (Ret tt, {| world := time_sleep seconds (world st);
                          trace := trace st ++ [EvSleep seconds] |})
    end.

(** The three places where a failed attempt is retried read alike: sleep
    [retry_delay * (2 ** retry)] and go on with the next attempt unless this
    was the last one, in which case the function returns the empty list.
    [None] stands for "go on with the loop", [Some v] for [return v]. *)
Definition retry_or_give_up (retry max_retries retry_delay : Z)
  : M (state W) (option (list string)) :=
  if retry <? max_retries - 1 then
    _ <- sleep (retry_delay * 2 ^ retry) ;;
    ret None
  else ret (Some []).

(** The body of [for retry in range(max_retries)] (lines 172-235). *)
Definition attempt (handle_large : M (state W) (list string))
    (start_time end_time : datetime) (log_file_path : string)
    (max_retries retry_delay : Z) (retry : Z)
  : M (state W) (option (list string)) :=
  try_except
    (response <- call (EvGenerateAccessLogs start_time end_time)
                      (generate_access_logs app start_time end_time) ;;
     has_url <- lift (py_contains "logUrl" response) ;;
     if has_url : bool then
       log_url <- lift (py_getitem response "logUrl") ;;
       log_response <- call (EvHttpGet log_url) (requests_get log_url) ;;
       if fst log_response =? 200 then
         _ <- call (EvWriteFile log_file_path (snd log_response))
                   (write_text log_file_path (snd log_response)) ;;
         ret (Some [log_file_path])
       else retry_or_give_up retry max_retries retry_delay
     else
       let note := ("# No logs found for " ++ appName app ++ " from "
                    ++ str_datetime start_time ++ " to "
                    ++ str_datetime end_time ++ String "010" EmptyString)%string in
       _ <- call (EvWriteFile log_file_path note) (write_text log_file_path note) ;;
       ret (Some [log_file_path]))
    (fun e =>
       match e with
       | BadRequestException msg =>
           if contains "reduce time range" msg || contains "Too many records" msg
           then
             paths <- handle_large ;;
             ret (Some paths)
           else retry_or_give_up retry max_retries retry_delay
       | ResourceNotFoundException _ => ret (Some [])
       | _ => retry_or_give_up retry max_retries retry_delay
       end).

(** The [for] loop; falling out of it is the final [return []]. *)
Fixpoint retry_loop (attempt_at : Z -> M (state W) (option (list string)))
    (retries : list Z) : M (state W) (list string) :=
  match retries with
  | [] => ret []
  | retry :: rest =>
      r <- attempt_at retry ;;
      match r with
      | Some paths => ret paths
      | None => retry_loop attempt_at rest
      end
  end.

(** [os.path.join(temp_dir, f"type=amplify_logs/app={appName}/date_export=
    {date_str}")] (lines 152-155) and [os.path.join(output_dir, f"log_{...}")]
    (line 166). *)
Definition output_dir_of (temp_dir : string) (start_time : datetime) : string :=
  os_path_join temp_dir
    ("type=amplify_logs/app=" ++ appName app
     ++ "/date_export=" ++ strftime start_time "%Y-%m-%d").

Definition log_file_path_of (temp_dir : string) (start_time : datetime) : string :=
  os_path_join (output_dir_of temp_dir start_time)
               ("log_" ++ strftime start_time "%Y%m%d_%H%M%S").

(** [download_amplify_logs] (lines 134-243) with the call of
    [handle_large_time_range] on its own range left open. *)
Definition download_with (handle_large : M (state W) (list string))
    (start_time end_time : datetime) (temp_dir : string)
    (max_retries retry_delay : Z) : M (state W) (list string) :=
  try_except
    (let output_dir := output_dir_of temp_dir start_time in
     _ <- call (EvMakedirs output_dir) (os_makedirs output_dir) ;;
     _ <- call (EvClient (region app)) (boto3_client (region app)) ;;
     let log_file_path := log_file_path_of temp_dir start_time in
     retry_loop (attempt handle_large start_time end_time log_file_path
                         max_retries retry_delay)
                (py_range max_retries))
    (fun _ => ret []).

(** [handle_large_time_range] (lines 245-284) over the function it calls for
    the two halves. *)
Definition handle_large_time_range
    (download : datetime -> datetime -> M (state W) (list string))
    (start_time end_time : datetime) (depth max_depth : Z)
  : M (state W) (list string) :=
  if max_depth <=? depth then ret []
  else
    let mid_time := mid_time_of start_time end_time in
    first_half <- download start_time mid_time ;;
    _ <- sleep 1 ;;
    second_half <- download mid_time end_time ;;
    ret (first_half ++ second_half)%list.

(** The two functions call each other: [download_amplify_logs] calls
    [handle_large_time_range(app, start_time, end_time, temp_dir)], leaving
    [depth] and [max_depth] at their defaults 0 and 3, and that one calls
    [download_amplify_logs(app, ..., temp_dir)] with the default
    [max_retries=3], [retry_delay=2].  [fuel] bounds the nesting. *)
Fixpoint download_amplify_logs (fuel : nat) (start_time end_time : datetime)
    (temp_dir : string) (max_retries retry_delay : Z)
  : M (state W) (list string) :=
  match fuel with
  | O => diverge
  | S fuel' =>
      download_with
        (handle_large_time_range
           (fun s e => download_amplify_logs fuel' s e temp_dir 3 2)
           start_time end_time 0 3)
        start_time end_time temp_dir max_retries retry_delay
  end.

End Functions.

(** The ranges of the API calls of a trace, and its sleeps, in order. *)
Fixpoint api_calls (tr : list event) : list time_range :=
  match tr with
  | [] => []
  | EvGenerateAccessLogs s e :: rest => (s, e) :: api_calls rest
  | _ :: rest => api_calls rest
  end.

Fixpoint sleeps (tr : list event) : list Z :=
  match tr with
  | [] => []
  | EvSleep d :: rest => d :: sleeps rest
  | _ :: rest => sleeps rest
  end.

(** Errors of the API call that [attempt] answers with a retry: anything but
    the range-size signal and [ResourceNotFoundException]. *)
Definition transient (e : exn) : bool :=
  match e with
  | BadRequestException msg =>
      negb (contains "reduce time range" msg || contains "Too many records" msg)
  | ResourceNotFoundException _ => false
  | _ => true
  end.

End Lambda.

(* ================================================================== *)
(** ** Vocabulary of the properties *)

(** A list of ranges in which every range starts [gap] after the end of the
    one before it. *)
Fixpoint adjacent_by (gap : Z) (l : list time_range) : Prop :=
  match l with
  | a :: (b :: _) as tl => fst b = snd a + gap /\ adjacent_by gap tl
  | _ => True
  end.

(** Chronological order without overlap: an earlier range ends before a later
    one starts. *)
Definition ordered_disjoint (l : list time_range) : Prop :=
  forall i j a b, (i < j)%nat ->
    nth_error l i = Some a -> nth_error l j = Some b -> snd a < fst b.

(** Every whole second between [lo] and [hi] lies in a range of [l]; the
    bounds of the ranges are inclusive and given to the second. *)
Definition covers_seconds (l : list time_range) (lo hi : datetime) : Prop :=
  forall t, lo <= t <= hi -> (US_PER_SECOND | t) ->
    exists r, In r l /\ in_range t r.

(** Every instant between [lo] and [hi] lies in a range of [l] or in the
    second that follows its end. *)
Definition covers_instants (l : list time_range) (lo hi : datetime) : Prop :=
  forall t, lo <= t <= hi ->
    exists r, In r l /\ fst r <= t < snd r + timedelta_seconds 1.

(** Every range but the last spans [span], counting its last second. *)
Definition non_final_span (span : timedelta) (l : list time_range) : Prop :=
  forall i a, (S i < List.length l)%nat -> nth_error l i = Some a ->
    snd a + timedelta_seconds 1 - fst a = span.

(** The chunks of span [span] from [cur] up to [end_time], the last one cut
    at [end_time]. *)
Fixpoint chunks_from (span : timedelta) (end_time cur : datetime)
    (l : list time_range) : Prop :=
  match l with
  | [] => end_time < cur
  | r :: l' =>
      cur <= end_time
      /\ r = (cur, Z.min (cur + span - timedelta_seconds 1) end_time)
      /\ chunks_from span end_time
                     (Z.min (cur + span - timedelta_seconds 1) end_time
                      + timedelta_seconds 1) l'
  end.

(** [post m st Q]: the run of [m] from [st] ends in a result and a state
    that satisfy [Q]. *)
Definition post {S A : Type} (m : M S A) (st : S) (Q : result A -> S -> Prop)
  : Prop :=
  Q (fst (m st)) (snd (m st)).


(** The state after a call into the world. *)
Definition logged {W : Type} (st : Local.state W) (w' : W) (ev : Local.event)
  : Local.state W :=
  {| Local.world := w'; Local.trace := Local.trace st ++ [ev];
     Local.stats := Local.stats st |}.


(** The state after the pause that ends an iteration. *)
Definition slept {W : Type} {P : Local.Primitives W} (st : Local.state W)
  : Local.state W :=
  logged st (Local.time_sleep 1 (Local.world st)) (Local.EvSleep 1).


(** The state in which the loop of [download_logs] starts. *)
Definition with_total {W : Type} (n : Z) (st : Local.state W) : Local.state W :=
  {| Local.world := Local.world st; Local.trace := Local.trace st;
     Local.stats := Local.set_total n (Local.stats st) |}.


(** [b] has the counters and failed ranges of [a]; only the upload failures
    may have grown. *)
Definition same_counts (a b : Local.overall_stats) : Prop :=
  Local.total_chunks b = Local.total_chunks a
  /\ Local.successful_chunks b = Local.successful_chunks a
  /\ Local.failed_chunks b = Local.failed_chunks a
  /\ Local.empty_logs_chunks b = Local.empty_logs_chunks a
  /\ Local.failed_ranges b = Local.failed_ranges a
  /\ Local.upload_failures a <= Local.upload_failures b.

(** The counters of [self.stats] after [k] chunks. *)
Definition stats_inv (k : Z) (s : Local.overall_stats) : Prop :=
  Local.successful_chunks s + Local.failed_chunks s = k
  /\ Z.of_nat (List.length (Local.failed_ranges s)) = Local.failed_chunks s
  /\ 0 <= Local.empty_logs_chunks s <= Local.successful_chunks s.

(** The counters of [app_stats] after [k] chunks. *)
Definition app_stats_inv (k : Z) (a : Local.app_stats) : Prop :=
  Local.app_successful_chunks a + Local.app_failed_chunks a = k
  /\ Z.of_nat (List.length (Local.app_failed_ranges a)) = Local.app_failed_chunks a
  /\ 0 <= Local.app_empty_logs_chunks a <= Local.app_successful_chunks a.

(** What the chunk loop does to [self.stats] and to [app_stats] for a chunk
    whose processing returned [(success, is_empty)]. *)
Definition tally {W : Type} {P : Local.Primitives W}
    (app : Local.app_config) (success is_empty : bool)
    (r : time_range) (s : Local.overall_stats) : Local.overall_stats :=
  if success then
    if is_empty then Local.incr_empty (Local.incr_successful s)
    else Local.incr_successful s
  else Local.record_failed app r s.

Definition app_tally (success is_empty : bool) (r : time_range)
    (a : Local.app_stats) : Local.app_stats :=
  if success then
    if is_empty then Local.app_incr_empty (Local.app_incr_successful a)
    else Local.app_incr_successful a
  else Local.app_record_failed r a.

(** The calls made for a range that is split [levels] times over. *)
Fixpoint split_events (levels : nat) (s e : datetime) : list Local.event :=
  match levels with
  | O => []
  | Datatypes.S k =>
      [Local.EvGenerateAccessLogs s e]
      ++ split_events k s (Local.mid_time_of s e)
      ++ [Local.EvSleep 1]
      ++ split_events k (Local.mid_time_of s e) e
  end.

(** The API asks to reduce every range, in every world. *)
Definition always_split {W : Type} {P : Local.Primitives W}
    (app : Local.app_config) : Prop :=
  forall s e w, exists stderr w',
    Local.run_generate_access_logs app s e w
    = (Failed (CalledProcessError stderr), w')
    /\ contains "reduce time range" stderr = true.

(** An attempt on [(s, e)] from world [w] ends in a failure that is answered
    with a retry: the API call raises a transient error, or its response
    cannot be read, or the download of the log URL raises a transient error
    or answers with a status other than 200. *)
Definition transient_attempt {W : Type} {P : Lambda.Primitives W}
    (app : Lambda.app_config) (s e : datetime) (w : W) : Prop :=
  match Lambda.generate_access_logs app s e w with
  | (Failed ex, _) => Lambda.transient ex = true
  | (Done response, w1) =>
      match py_contains "logUrl" response with
      | Ret true =>
          match py_getitem response "logUrl" with
          | Ret url =>
              match Lambda.requests_get url w1 with
              | (Done r, _) => fst r <> 200
              | (Failed ex, _) => Lambda.transient ex = true
              end
          | Raise ex => Lambda.transient ex = true
          | Diverge => False
          end
      | Ret false => False
      | Raise ex => Lambda.transient ex = true
      | Diverge => False
      end
  end.

(** Every delay of the backoff, [retry_delay * 2 ** retry] for the attempts
    but the last, is one that [time.sleep] accepts. *)
Definition delays_accepted (max_retries retry_delay : Z) : Prop :=
  forall retry, 0 <= retry < max_retries - 1 ->
    sleep_error (retry_delay * 2 ^ retry) = None.

(** The API asks to reduce every range, in every world. *)
Definition lambda_always_split {W : Type} {P : Lambda.Primitives W}
    (app : Lambda.app_config) : Prop :=
  forall s e w, exists msg w',
    Lambda.generate_access_logs app s e w = (Failed (BadRequestException msg), w')
    /\ contains "reduce time range" msg || contains "Too many records" msg = true.

(* ================================================================== *)
(** ** Concrete worlds *)

(** Worlds without a state of their own, whose answers depend on the
    arguments of the call only.  They serve as the inputs at which the
    properties below are evaluated. *)
Module Scenarios.

Definition demo_app : Local.app_config :=
  {| Local.profile := "default"; Local.region := "eu-west-1";
     Local.appId := "d3hgg9jtwyuijn"; Local.domainName := "danse.tech";
     Local.appName := "danse_tech" |}.

(** An application whose name holds slashes. *)
Definition nested_app : Local.app_config :=
  {| Local.profile := "default"; Local.region := "eu-west-1";
     Local.appId := "d3hgg9jtwyuijn"; Local.domainName := "danse.tech";
     Local.appName := "danse//tech/" |}.

(** A CLI world: [fetch] answers [aws amplify generate-access-logs], [get]
    the download of the log URL, [upload] the [aws s3 cp]; the file system
    answers every call with [fs].  The output [{}] of the CLI is read as the
    empty object and any other output as an object whose [logUrl] is that
    output; timestamps are printed as the format asked for. *)
Definition cli_world (fetch : datetime -> datetime -> completed string)
    (get : completed (Z * string)) (fs : completed unit)
    (upload : completed string) : Local.Primitives unit :=
  {| Local.run_generate_access_logs := fun _ s e w => (fetch s e, w);
     Local.json_loads := fun out =>
       if (out =? "{}")%string then Some (PDict [])
       else Some (PDict [("logUrl"%string, PStr out)]);
     Local.requests_get := fun _ w => (get, w);
     Local.path_mkdir := fun _ w => (fs, w);
     Local.write_text := fun _ _ w => (fs, w);
     Local.path_getsize := fun _ w =>
       (match fs with Done _ => Done 1 | Failed e => Failed e end, w);
     Local.run_s3_cp := fun _ _ w => (upload, w);
     Local.os_remove := fun _ w => (fs, w);
     Local.time_sleep := fun _ w => w;
     Local.strftime := fun _ fmt => fmt;
     Local.isoformat := fun _ => "T"%string;
     Local.json_dumps := fun _ => "{}"%string |}.

(** [strftime] as the datetime module computes it for the two formats of
    the code, [%Y-%m-%d] and [%Y%m%d_%H%M%S]. *)
Definition digit (n : Z) : string :=
  String (Ascii.ascii_of_N (48 + Z.to_N (n mod 10))) EmptyString.

Definition two_digits (n : Z) : string := (digit (n / 10) ++ digit n)%string.

Definition four_digits (n : Z) : string :=
  (two_digits (n / 100) ++ two_digits n)%string.

Definition calendar_strftime (t : datetime) (format : string) : string :=
  let '(year, month, day) := ord2ymd (t / US_PER_DAY + 1) in
  let seconds := (t mod US_PER_DAY) / US_PER_SECOND in
  let hh := two_digits (seconds / 3600) in
  let mm := two_digits (seconds / 60 mod 60) in
  let ss := two_digits (seconds mod 60) in
  if (format =? "%Y-%m-%d")%string then
    (four_digits year ++ "-" ++ two_digits month ++ "-" ++ two_digits day)%string
  else if (format =? "%Y%m%d_%H%M%S")%string then
    (four_digits year ++ two_digits month ++ two_digits day ++ "_"
     ++ hh ++ mm ++ ss)%string
  else format.

(** The same world with the calendar of the datetime module. *)
Definition dated (P : Local.Primitives unit) : Local.Primitives unit :=
  {| Local.run_generate_access_logs := Local.run_generate_access_logs (Primitives := P);
     Local.json_loads := Local.json_loads (Primitives := P);
     Local.requests_get := Local.requests_get (Primitives := P);
     Local.path_mkdir := Local.path_mkdir (Primitives := P);
     Local.write_text := Local.write_text (Primitives := P);
     Local.path_getsize := Local.path_getsize (Primitives := P);
     Local.run_s3_cp := Local.run_s3_cp (Primitives := P);
     Local.os_remove := Local.os_remove (Primitives := P);
     Local.time_sleep := Local.time_sleep (Primitives := P);
     Local.strftime := calendar_strftime;
     Local.isoformat := Local.isoformat (Primitives := P);
     Local.json_dumps := Local.json_dumps (Primitives := P) |}.

Definition reduce_error : exn :=
  CalledProcessError "An error occurred (BadRequestException): Please reduce time range".

Definition network_error : exn := OtherException "Connection reset by peer".

(** The API asks to reduce every range. *)
Definition always_split_world : Local.Primitives unit :=
  cli_world (fun _ _ => Failed reduce_error)
            (Done (200, "GET / 200"%string)) (Done tt) (Done "upload ok"%string).

(** Every fetch fails with a network error. *)
Definition always_transient_world : Local.Primitives unit :=
  cli_world (fun _ _ => Failed network_error)
            (Done (200, "GET / 200"%string)) (Done tt) (Done "upload ok"%string).

(** Every fetch yields a log URL whose content is one log line. *)
Definition always_ok_world : Local.Primitives unit :=
  cli_world (fun _ _ => Done "https://logs/1"%string)
            (Done (200, "GET / 200"%string)) (Done tt) (Done "upload ok"%string).

(** Every fetch yields a log URL whose content is empty. *)
Definition empty_logs_world : Local.Primitives unit :=
  cli_world (fun _ _ => Done "https://logs/1"%string)
            (Done (200, EmptyString)) (Done tt) (Done "upload ok"%string).

(** Every fetch yields a response without [logUrl]. *)
Definition no_url_world : Local.Primitives unit :=
  cli_world (fun _ _ => Done "{}"%string)
            (Done (200, "GET / 200"%string)) (Done tt) (Done "upload ok"%string).

(** The fetch works, the upload to S3 does not. *)
Definition upload_fails_world : Local.Primitives unit :=
  cli_world (fun _ _ => Done "https://logs/1"%string)
            (Done (200, "GET / 200"%string)) (Done tt)
            (Failed (CalledProcessError "upload failed: Access Denied")).

(** Every fetch yields a response without [logUrl], and the upload to S3
    fails. *)
Definition no_url_upload_fails_world : Local.Primitives unit :=
  cli_world (fun _ _ => Done "{}"%string)
            (Done (200, "GET / 200"%string)) (Done tt)
            (Failed (CalledProcessError "upload failed: Access Denied")).

(** The second chunk of January 2024 at a chunk size of 14 days. *)
Definition chunk2_start : datetime := mk_datetime 2024 1 15 0 0 0.
Definition chunk2_end : datetime := mk_datetime 2024 1 28 23 59 59.

(** Every call into the world raises. *)
Definition all_raise_world : Local.Primitives unit :=
  cli_world (fun _ _ => Failed network_error)
            (Failed network_error) (Failed network_error) (Failed network_error).

(** The first day of the calendar as a chunk, and its two halves. *)
Definition day1_start : datetime := start_of_day 1.
Definition day1_end : datetime := end_of_day 1.
Definition day1_mid : datetime := Local.mid_time_of day1_start day1_end.

(** The whole chunk is too large, its first half is served, its second half
    fails with a network error. *)
Definition half_fails_world : Local.Primitives unit :=
  cli_world (fun s e =>
               if (s =? day1_start) && (e =? day1_end) then Failed reduce_error
               else if s =? day1_start then Done "https://logs/1"%string
               else Failed network_error)
            (Done (200, "GET / 200"%string)) (Done tt) (Done "upload ok"%string).

Definition lambda_app : Lambda.app_config :=
  {| Lambda.region := "eu-west-1"; Lambda.appId := "d3hgg9jtwyuijn";
     Lambda.domainName := "danse.tech"; Lambda.appName := "danse_tech" |}.

(** A Lambda world whose API call always answers [api]. *)
Definition lambda_world (api : completed pyval) : Lambda.Primitives unit :=
  {| Lambda.os_makedirs := fun _ w => (Done tt, w);
     Lambda.boto3_client := fun _ w => (Done tt, w);
     Lambda.generate_access_logs := fun _ _ _ w => (api, w);
     Lambda.requests_get := fun _ w => (Done (503, EmptyString), w);
     Lambda.write_text := fun _ _ w => (Done tt, w);
     Lambda.time_sleep := fun _ w => w;
     Lambda.strftime := fun _ fmt => fmt;
     Lambda.str_datetime := fun _ => "T"%string |}.

Definition lambda_transient_world : Lambda.Primitives unit :=
  lambda_world (Failed network_error).

Definition lambda_split_world : Lambda.Primitives unit :=
  lambda_world (Failed (BadRequestException "Too many records, reduce time range")).

(** A downloader right after [__init__]. *)
Definition fresh : Local.state unit := Local.init_state tt.

Definition lambda_init : Lambda.state unit :=
  {| Lambda.world := tt; Lambda.trace := [] |}.

End Scenarios.

(* ================================================================== *)
(** ** Further vocabulary *)

(** [l1] is [l2] with some elements left out, the others in their order. *)
Inductive subsequence {A : Type} : list A -> list A -> Prop :=
| subsequence_nil : subsequence [] []
| subsequence_skip x l1 l2 : subsequence l1 l2 -> subsequence l1 (x :: l2)
| subsequence_take x l1 l2 : subsequence l1 l2 -> subsequence (x :: l1) (x :: l2).

(** The entry of [self.stats['failed_ranges']] written for a failed chunk. *)
Definition failed_entry {W : Type} {P : Local.Primitives W}
    (app : Local.app_config) (r : time_range) : Local.failed_range :=
  {| Local.fr_app_name := Local.appName app;
     Local.fr_start_time := Local.isoformat (fst r);
     Local.fr_end_time := Local.isoformat (snd r) |}.

(** What [get_amplify_logs] returns when the CLI call raises [ex]. *)
Definition signal_of_error (ex : exn) : pyval :=
  match ex with
  | CalledProcessError stderr =>
      if contains "reduce time range" stderr then PStr "REDUCE_RANGE" else PNone
  | _ => PNone
  end.

(** The three file-system calls of [save_logs_locally], in order. *)
Definition save_events {W : Type} {P : Local.Primitives W}
    (app : Local.app_config) (logs : pyval) (timestamp : datetime)
  : list Local.event :=
  [ Local.EvMkdir (Local.date_path_of app timestamp);
    Local.EvWriteFile (Local.log_file_of app timestamp) (Local.file_content logs);
    Local.EvGetsize (Local.log_file_of app timestamp) ].

Definition is_upload (ev : Local.event) : bool :=
  match ev with
  | Local.EvS3Cp _ _ => true
  | _ => false
  end.

(** Number of fetches and of uploads in a list of calls. *)
Definition count_fetches (evs : list Local.event) : nat :=
  List.length (Local.fetched_ranges evs).

Definition count_uploads (evs : list Local.event) : nat :=
  List.length (filter is_upload evs).

(** What a run of [process_time_range] with [n] levels left may cost. *)
Definition within_budget {W : Type} (n : nat) (st st' : Local.state W) : Prop :=
  exists evs,
    Local.trace st' = Local.trace st ++ evs
    /\ (count_fetches evs + 1 <= 2 ^ n)%nat
    /\ (2 * count_uploads evs <= 2 ^ n)%nat
    /\ Local.upload_failures (Local.stats st')
       <= Local.upload_failures (Local.stats st) + Z.of_nat (count_uploads evs).

(** [p] was opened for writing by one of the calls [evs]. *)
Definition written (evs : list Lambda.event) (p : string) : Prop :=
  exists content, In (Lambda.EvWriteFile p content) evs.

(** The state after a call of the Lambda into the world. *)
Definition noted {W : Type} (st : Lambda.state W) (w' : W) (ev : Lambda.event)
  : Lambda.state W :=
  {| Lambda.world := w'; Lambda.trace := Lambda.trace st ++ [ev] |}.

(** The run went from [st] to [st'] by calls [evs] and, if it returned
    paths, each of them was written by one of these calls. *)
Definition returns_written {W : Type} {A : Type} (paths_of : A -> list string)
    (st : Lambda.state W) (r : result A) (st' : Lambda.state W) : Prop :=
  exists evs,
    Lambda.trace st' = Lambda.trace st ++ evs
    /\ forall a, r = Ret a -> Forall (written evs) (paths_of a).

Definition paths_of_option (o : option (list string)) : list string :=
  match o with
  | Some paths => paths
  | None => []
  end.

(* ================================================================== *)
(** ** extracted_lambda/amplifylogs-orchestration-.../lambda_function.py *)

Module Orchestration.

Section Ranges.

(** [datetime.isoformat()] *)
Variable isoformat : datetime -> string.

(** The dict appended for the range from [current_start] to [chunk_end]. *)
Definition range_dict (r : time_range) : pyval :=
  PDict [ ("startTime"%string, PStr (isoformat (fst r)));
          ("endTime"%string, PStr (isoformat (snd r))) ].

(** The [while current_start < end_date] loop of [generate_time_ranges]
    (lines 84-99), for an integer chunk size. *)
Fixpoint generate_loop (chunk_size_days : Z) (fuel : nat)
    (end_date current_start : datetime) (time_ranges : list pyval)
  : result (list pyval) :=
  match fuel with
  | O => Diverge
  | S fuel' =>
      if current_start <? end_date then
        d <~ timedelta_days chunk_size_days ;;
        t <~ datetime_add current_start d ;;
        let chunk_end := if end_date <? t then end_date else t in
        generate_loop chunk_size_days fuel' end_date chunk_end
                      (time_ranges ++ [range_dict (current_start, chunk_end)])
      else Ret time_ranges
  end.

(** [generate_time_ranges] (lines 68-101). *)
Definition generate_time_ranges (fuel : nat) (start_date end_date : datetime)
    (chunk_size_days : Z) : result (list pyval) :=
  generate_loop chunk_size_days fuel end_date start_date [].

End Ranges.

End Orchestration.

(** The slices of span [span] from [cur] up to [end_date], the last one cut
    at [end_date]; each starts where the one before it ends. *)
Fixpoint slices_from (span : timedelta) (end_date cur : datetime)
    (l : list time_range) : Prop :=
  match l with
  | [] => end_date <= cur
  | r :: l' =>
      cur < end_date
      /\ r = (cur, Z.min (cur + span) end_date)
      /\ slices_from span end_date (Z.min (cur + span) end_date) l'
  end.

(* ================================================================== *)
(** ** The handler of the logging Lambda and its upload to S3 *)

(** [try: body finally: final]: [final] runs once [body] has returned or
    raised, and an exception of [final] replaces the outcome of [body]. *)
Definition try_finally {S A : Type} (body : M S A) (final : M S unit) : M S A :=
  fun st =>
    match body st with
    | (Diverge, st') => (Diverge, st')
    | (r, st') =>
        match final st' with
        | (Ret _, st'') => (r, st'')
        | (Raise e, st'') => (Raise e, st'')
        | (Diverge, st'') => (Diverge, st'')
        end
    end.

Module Handler.

(** The entries [app], [timeRange] and [s3] of the event are JSON objects
    whose values are strings, as in the expected event format (lines
    21-37). *)
Definition sdict : Type := list (string * string).

(** [key in d] *)
Definition has_key (key : string) (d : sdict) : bool :=
  existsb (fun p => String.eqb (fst p) key) d.

(** [d[key]] *)
Definition getitem (d : sdict) (key : string) : result string :=
  match find (fun p => String.eqb (fst p) key) d with
  | Some p => Ret (snd p)
  | None => Raise (OtherException "KeyError")
  end.

(** [d.get(key, default)] *)
Definition get (d : sdict) (key default : string) : string :=
  match find (fun p => String.eqb (fst p) key) d with
  | Some p => snd p
  | None => default
  end.

(** [not d] *)
Definition is_empty (d : sdict) : bool :=
  match d with
  | [] => true
  | _ => false
  end.

(** The event: a JSON object in which each of the three entries may be
    missing. *)
Record event : Type := {
  ev_app : option sdict;
  ev_timeRange : option sdict;
  ev_s3 : option sdict
}.

(** [event.get(key, {})] *)
Definition entry (o : option sdict) : sdict :=
  match o with
  | Some d => d
  | None => []
  end.

(** The [for key in required_..._keys] loops (lines 116-118, 124-126);
    [ValueError(msg)] is [OtherException msg]. *)
Fixpoint require_keys (message : string) (keys : list string) (d : sdict)
  : result unit :=
  match keys with
  | [] => Ret tt
  | key :: rest =>
      if has_key key d then require_keys message rest d
      else Raise (OtherException (message ++ key))
  end.

(** [validate_parameters] (lines 110-132). *)
Definition validate_parameters (app time_range s3_config : sdict) : result unit :=
  if is_empty app then
    Raise (OtherException "Missing 'app' configuration in event")
  else
    _ <~ require_keys "Missing required app parameter: "
                      ["region"; "appId"; "domainName"; "appName"]%string app ;;
    if is_empty time_range then
      Raise (OtherException "Missing 'timeRange' configuration in event")
    else
      _ <~ require_keys "Missing required time range parameter: "
                        ["startTime"; "endTime"]%string time_range ;;
      if is_empty s3_config then
        Raise (OtherException "Missing 's3' configuration in event")
      else if has_key "bucket" s3_config then Ret tt
      else Raise (OtherException "Missing required S3 parameter: bucket").

(** [s.replace('Z', '+00:00')] *)
Fixpoint replace_Z (s : string) : string :=
  match s with
  | EmptyString => EmptyString
  | String c rest =>
      if Ascii.eqb c "Z" then ("+00:00" ++ replace_Z rest)%string
      else String c (replace_Z rest)
  end.

(** [s.lstrip('/')] *)
Fixpoint lstrip_slash (s : string) : string :=
  match s with
  | EmptyString => EmptyString
  | String c rest => if Ascii.eqb c "/" then lstrip_slash rest else s
  end.

(** [s.startswith('/')] *)
Definition starts_with_slash (s : string) : bool :=
  match s with
  | EmptyString => false
  | String c _ => Ascii.eqb c "/"
  end.

(** [s.endswith(suffix)] *)
Definition ends_with (suffix s : string) : bool :=
  let n := String.length s in
  let k := String.length suffix in
  (k <=? n)%nat && String.eqb (substring (n - k) k s) suffix.

(** [os.path.join(a, b)] of [posixpath]. *)
Definition path_join (a b : string) : string :=
  if starts_with_slash b then b
  else if String.eqb a EmptyString || ends_with "/" a then (a ++ b)%string
  else (a ++ "/" ++ b)%string.

(** The content type chosen from the file name (lines 323-327). *)
Definition content_type_of (local_file_path : string) : string :=
  if ends_with ".json" local_file_path then "application/json"%string
  else if ends_with ".csv" local_file_path then "text/csv"%string
  else "text/plain"%string.

(** The S3 key of a file whose path relative to the temporary directory is
    [relative_path] (lines 317-320). *)
Definition s3_key_of (s3_config : sdict) (relative_path : string) : string :=
  lstrip_slash (path_join (get s3_config "prefix" EmptyString) relative_path).

(** The calls into the world; those of [download_amplify_logs] are the
    [EvFetch] ones. *)
Inductive call_event : Type :=
| EvMkdtemp
| EvS3Client (region_name : string)
| EvHeadBucket (bucket : string)
| EvFetch (ev : Lambda.event)
| EvExists (path : string)
| EvGetsize (path : string)
| EvRelpath (path start : string)
| EvUploadFile (path bucket key content_type : string)
| EvSleep (seconds : Z)
| EvRmtree (path : string).

Class Primitives (W : Type) : Type := {
  (** what [download_amplify_logs] calls *)
  fetcher : Lambda.Primitives W;
  (** [tempfile.mkdtemp()] *)
  tempfile_mkdtemp : W -> completed string * W;
  (** [datetime.fromisoformat(s)]; [None] stands for its [ValueError].  Both
      times are read as datetimes of one kind, so that they compare and
      subtract. *)
  fromisoformat : string -> option datetime;
  (** [boto3.client('s3', region_name=...)] *)
  boto3_client_s3 : string -> W -> completed unit * W;
  (** [s3_client.head_bucket(Bucket=...)] *)
  head_bucket : string -> W -> completed unit * W;
  (** [os.path.exists(path)], which raises nothing *)
  path_exists : string -> W -> bool * W;
  (** [os.path.getsize(path)] *)
  path_getsize : string -> W -> completed Z * W;
  (** [os.path.relpath(path, start)] *)
  path_relpath : string -> string -> W -> completed string * W;
  (** [s3_client.upload_file(path, bucket, key, ExtraArgs={'ContentType':
      content_type, 'ServerSideEncryption': 'AES256'})] *)
  upload_file : string -> string -> string -> string -> W -> completed unit * W;
  (** [shutil.rmtree(path)] *)
  shutil_rmtree : string -> W -> completed unit * W
}.

(** The body of a response. *)
Inductive body : Type :=
| BodyError (e : exn)
    (** [f"Error: {str(e)}"] *)
| BodyBucket (bucket : string)
    (** [f"S3 bucket {bucket} does not exist or is not accessible"] *)
| BodyNoLogs (app : string) (timeRange : sdict)
    (** with the message ['No logs found for the specified time range'] and
        [uploadedFiles] empty *)
| BodyUploaded (app : string) (timeRange : sdict) (uploadedFiles : list string).

Record response : Type := {
  statusCode : Z;
  response_body : body
}.

(** The world, the calls made so far, and the list [uploaded_files] of
    [upload_logs_to_s3], which its handlers read after a failure. *)
Record state (W : Type) : Type := {
  world : W;
  trace : list call_event;
  uploaded_files : list string
}.
Arguments world {W} s.
Arguments trace {W} s.
Arguments uploaded_files {W} s.

Section Functions.

Context {W : Type} {P : Primitives W}.

Definition call {A} (ev : call_event) (prim : W -> completed A * W)
  : M (state W) A :=
  fun st =>
    let (c, w') := prim (world st) in
    let st' := {| world := w'; trace := trace st ++ [ev];
                  uploaded_files := uploaded_files st |} in
    match c with
    | Done a => (Ret a, st')
    | Failed e => (Raise e, st')
    end.

(** A call that raises nothing. *)
Definition call_total {A} (ev : call_event) (prim : W -> A * W) : M (state W) A :=
  fun st =>
    let (a, w') := prim (world st) in
    (Ret a, {| world := w'; trace := trace st ++ [ev];
               uploaded_files := uploaded_files st |}).

(** [time.sleep(seconds)]: a delay that [time.sleep] refuses raises and
    leaves the world as it is. *)
Definition sleep (seconds : Z) : M (state W) unit :=
  fun st =>
    match sleep_error seconds with
    | Some e => (Raise e, {| world := world st;
                             trace := trace st ++ [EvSleep seconds];
                             uploaded_files := uploaded_files st |})
    | None => (Ret tt, {| world := Lambda.time_sleep (Primitives := fetcher)
                                     seconds (world st);
                          trace := trace st ++ [EvSleep seconds];
                          uploaded_files := uploaded_files st |})
    end.

(** [uploaded_files = []] and [uploaded_files.append(s3_key)] *)
Definition reset_uploaded : M (state W) unit :=
  fun st => (Ret tt, {| world := world st; trace := trace st;
                        uploaded_files := [] |}).

Definition append_uploaded (s3_key : string) : M (state W) unit :=
  fun st => (Ret tt, {| world := world st; trace := trace st;
                        uploaded_files := uploaded_files st ++ [s3_key] |}).

Definition get_uploaded : M (state W) (list string) :=
  fun st => (Ret (uploaded_files st), st).

(** A run of a function of the download, its calls noted as [EvFetch]. *)
Definition call_fetch {A} (m : M (Lambda.state W) A) : M (state W) A :=
  fun st =>
    let (r, fetched) := m {| Lambda.world := world st; Lambda.trace := [] |} in
    (r, {| world := Lambda.world fetched;
           trace := trace st ++ map EvFetch (Lambda.trace fetched);
           uploaded_files := uploaded_files st |}).

(** The [for retry in range(max_retries)] loop of one file (lines 330-363):
    both [except] clauses read alike; [true] stands for the [break]. *)
Fixpoint upload_retries (local_file_path s3_key content_type : string)
    (s3_config : sdict) (max_retries retry_delay : Z) (retries : list Z)
  : M (state W) unit :=
  match retries with
  | [] => ret tt
  | retry :: rest =>
      done <- try_except
                (bucket <- lift (getitem s3_config "bucket") ;;
                 _ <- call (EvUploadFile local_file_path bucket s3_key content_type)
                           (upload_file local_file_path bucket s3_key content_type) ;;
                 _ <- append_uploaded s3_key ;;
                 ret true)
                (fun _ =>
                   if retry <? max_retries - 1 then
                     _ <- sleep (retry_delay * 2 ^ retry) ;;
                     ret false
                   else ret false) ;;
      if done : bool then ret tt
      else upload_retries local_file_path s3_key content_type s3_config
                          max_retries retry_delay rest
  end.

(** The body of [for local_file_path in log_file_paths] (lines 305-363). *)
Definition upload_one (local_file_path temp_dir : string) (s3_config : sdict)
    (max_retries retry_delay : Z) : M (state W) unit :=
  found <- call_total (EvExists local_file_path) (path_exists local_file_path) ;;
  if negb found then ret tt
  else
    size <- call (EvGetsize local_file_path) (path_getsize local_file_path) ;;
    if size =? 0 then ret tt
    else
      relative_path <- call (EvRelpath local_file_path temp_dir)
                            (path_relpath local_file_path temp_dir) ;;
      upload_retries local_file_path (s3_key_of s3_config relative_path)
                     (content_type_of local_file_path) s3_config
                     max_retries retry_delay (py_range max_retries).

Fixpoint upload_loop (log_file_paths : list string) (temp_dir : string)
    (s3_config : sdict) (max_retries retry_delay : Z) : M (state W) unit :=
  match log_file_paths with
  | [] => ret tt
  | local_file_path :: rest =>
      _ <- upload_one local_file_path temp_dir s3_config max_retries retry_delay ;;
      upload_loop rest temp_dir s3_config max_retries retry_delay
  end.

(** [upload_logs_to_s3] (lines 286-369). *)
Definition upload_logs_to_s3 (log_file_paths : list string) (temp_dir : string)
    (s3_config : sdict) (max_retries retry_delay : Z)
  : M (state W) (list string) :=
  _ <- reset_uploaded ;;
  try_except
    (_ <- upload_loop log_file_paths temp_dir s3_config max_retries retry_delay ;;
     get_uploaded)
    (fun _ => get_uploaded).

(** [datetime.fromisoformat(s.replace('Z', '+00:00'))] *)
Definition parse_time (s : string) : result datetime :=
  match fromisoformat (replace_Z s) with
  | Some t => Ret t
  | None => Raise (OtherException "Invalid isoformat string")
  end.

(** The [app] dict as [download_amplify_logs] reads it. *)
Definition app_config_of (app : sdict) : result Lambda.app_config :=
  region <~ getitem app "region" ;;
  appId <~ getitem app "appId" ;;
  domainName <~ getitem app "domainName" ;;
  appName <~ getitem app "appName" ;;
  Ret {| Lambda.region := region; Lambda.appId := appId;
         Lambda.domainName := domainName; Lambda.appName := appName |}.

(** The [try: head_bucket except: return 500] of lines 61-69; [Some] is the
    response returned by the handler. *)
Definition check_bucket (s3_config : sdict) : M (state W) (option response) :=
  try_except
    (bucket <- lift (getitem s3_config "bucket") ;;
     _ <- call (EvHeadBucket bucket) (head_bucket bucket) ;;
     ret None)
    (fun _ =>
       bucket <- lift (getitem s3_config "bucket") ;;
       ret (Some {| statusCode := 500; response_body := BodyBucket bucket |})).

(** The inner [try] of the handler (lines 55-96). *)
Definition handle (fuel : nat) (app time_range s3_config : sdict)
    (temp_dir : string) : M (state W) response :=
  start_string <- lift (getitem time_range "startTime") ;;
  start_time <- lift (parse_time start_string) ;;
  end_string <- lift (getitem time_range "endTime") ;;
  end_time <- lift (parse_time end_string) ;;
  region <- lift (getitem app "region") ;;
  _ <- call (EvS3Client region) (boto3_client_s3 region) ;;
  refused <- check_bucket s3_config ;;
  match refused with
  | Some answer => ret answer
  | None =>
      config <- lift (app_config_of app) ;;
      log_file_paths <-
        call_fetch (Lambda.download_amplify_logs (P := fetcher) config fuel
                      start_time end_time temp_dir 3 2) ;;
      match log_file_paths with
      | [] =>
          app_name <- lift (getitem app "appName") ;;
          ret {| statusCode := 200;
                 response_body := BodyNoLogs app_name time_range |}
      | _ :: _ =>
          uploaded <- upload_logs_to_s3 log_file_paths temp_dir s3_config 3 2 ;;
          app_name <- lift (getitem app "appName") ;;
          ret {| statusCode := 200;
                 response_body := BodyUploaded app_name time_range uploaded |}
      end
  end.

(** [lambda_handler] (lines 17-108); [fuel] bounds the nesting of the
    download. *)
Definition lambda_handler (fuel : nat) (ev : event) : M (state W) response :=
  try_except
    (let app := entry (ev_app ev) in
     let time_range := entry (ev_timeRange ev) in
     let s3_config := entry (ev_s3 ev) in
     _ <- lift (validate_parameters app time_range s3_config) ;;
     temp_dir <- call EvMkdtemp tempfile_mkdtemp ;;
     try_finally
       (handle fuel app time_range s3_config temp_dir)
       (call (EvRmtree temp_dir) (shutil_rmtree temp_dir)))
    (fun e => ret {| statusCode := 500; response_body := BodyError e |}).

End Functions.

End Handler.

(** The state of the handler after a call into the world. *)
Definition marked {W : Type} (st : Handler.state W) (w' : W)
    (ev : Handler.call_event) : Handler.state W :=
  {| Handler.world := w'; Handler.trace := Handler.trace st ++ [ev];
     Handler.uploaded_files := Handler.uploaded_files st |}.

(** The keys of the [upload_file] calls of a trace, and its sleeps, in
    order. *)
Fixpoint upload_keys (evs : list Handler.call_event) : list string :=
  match evs with
  | [] => []
  | Handler.EvUploadFile _ _ key _ :: rest => key :: upload_keys rest
  | _ :: rest => upload_keys rest
  end.

Fixpoint pauses (evs : list Handler.call_event) : list Z :=
  match evs with
  | [] => []
  | Handler.EvSleep d :: rest => d :: pauses rest
  | _ :: rest => pauses rest
  end.

(** The calls [upload_logs_to_s3] makes. *)
Definition is_upload_step (ev : Handler.call_event) : bool :=
  match ev with
  | Handler.EvExists _ | Handler.EvGetsize _ | Handler.EvRelpath _ _
  | Handler.EvUploadFile _ _ _ _ | Handler.EvSleep _ => true
  | _ => false
  end.

Definition is_rmtree (ev : Handler.call_event) : bool :=
  match ev with
  | Handler.EvRmtree _ => true
  | _ => false
  end.

Definition is_fetch (ev : Handler.call_event) : bool :=
  match ev with
  | Handler.EvFetch _ => true
  | _ => false
  end.

(** The run from [st] to [st'] made upload steps only and appended [keys]
    to [uploaded_files]: keys without a leading slash, each the key of an
    [upload_file] call of the run, in the order of these calls. *)
Definition uploaded_by {W : Type} (st st' : Handler.state W)
    (keys : list string) : Prop :=
  exists evs,
    Handler.trace st' = Handler.trace st ++ evs
    /\ Handler.uploaded_files st' = Handler.uploaded_files st ++ keys
    /\ subsequence keys (upload_keys evs)
    /\ Forall (fun key => Handler.starts_with_slash key = false) keys
    /\ forallb is_upload_step evs = true.

(** The run from [st] to [st'] made only calls that satisfy [ok]. *)
Definition extends_by {W : Type} (ok : Handler.call_event -> bool)
    (st st' : Handler.state W) : Prop :=
  exists evs,
    Handler.trace st' = Handler.trace st ++ evs /\ forallb ok evs = true.

Definition no_cleanup (ev : Handler.call_event) : bool := negb (is_rmtree ev).

(** An event has what [validate_parameters] asks for. *)
Definition well_formed (ev : Handler.event) : Prop :=
  (forall key, In key ["region"; "appId"; "domainName"; "appName"]%string ->
     Handler.has_key key (Handler.entry (Handler.ev_app ev)) = true)
  /\ (forall key, In key ["startTime"; "endTime"]%string ->
        Handler.has_key key (Handler.entry (Handler.ev_timeRange ev)) = true)
  /\ Handler.has_key "bucket" (Handler.entry (Handler.ev_s3 ev)) = true.

(* ================================================================== *)
(** ** Further concrete worlds *)

Module MoreScenarios.

Import Scenarios.

(** The fetch works, the file system refuses every call. *)
Definition disk_full_world : Local.Primitives unit :=
  cli_world (fun _ _ => Done "https://logs/1"%string)
            (Done (200, "GET / 200"%string))
            (Failed (OtherException "No space left on device"))
            (Done "upload ok"%string).

(** A Lambda world whose API call answers [api] and whose download of the
    log URL answers [get]. *)
Definition lambda_world_with (api : completed pyval) (get : completed (Z * string))
  : Lambda.Primitives unit :=
  {| Lambda.os_makedirs := fun _ w => (Done tt, w);
     Lambda.boto3_client := fun _ w => (Done tt, w);
     Lambda.generate_access_logs := fun _ _ _ w => (api, w);
     Lambda.requests_get := fun _ w => (get, w);
     Lambda.write_text := fun _ _ w => (Done tt, w);
     Lambda.time_sleep := fun _ w => w;
     Lambda.strftime := fun _ fmt => fmt;
     Lambda.str_datetime := fun _ => "T"%string |}.

(** Every API call yields a log URL whose content is one log line. *)
Definition lambda_ok_world : Lambda.Primitives unit :=
  lambda_world_with (Done (PDict [("logUrl"%string, PStr "https://logs/1")]))
                    (Done (200, "GET / 200"%string)).

(** Every API call yields a response without [logUrl]. *)
Definition lambda_no_url_world : Lambda.Primitives unit :=
  lambda_world_with (Done (PDict [])) (Done (200, "GET / 200"%string)).

(** The app is not known to the API. *)
Definition lambda_not_found_world : Lambda.Primitives unit :=
  lambda_world_with (Failed (ResourceNotFoundException "App not found"))
                    (Done (200, "GET / 200"%string)).

(** The event of the docstring of [lambda_handler], for one day. *)
Definition demo_event : Handler.event :=
  {| Handler.ev_app :=
       Some [ ("region", "eu-west-1"); ("appId", "d3hgg9jtwyuijn");
              ("domainName", "danse.tech"); ("appName", "danse_tech") ]%string;
     Handler.ev_timeRange :=
       Some [ ("startTime", "2023-10-01T00:00:00");
              ("endTime", "2023-10-01T23:59:59") ]%string;
     Handler.ev_s3 :=
       Some [ ("bucket"%string,
               "amplifylogs-logging-intite-ss2-inftes-182059100462"%string);
              ("prefix"%string, EmptyString) ] |}.

(** An event without its [s3] entry. *)
Definition event_without_s3 : Handler.event :=
  {| Handler.ev_app := Handler.ev_app demo_event;
     Handler.ev_timeRange := Handler.ev_timeRange demo_event;
     Handler.ev_s3 := None |}.

(** A handler world: [fetch] serves the download; [mkdtemp] always answers
    [/tmp/tmpdir]; the two times of [demo_event] are the only strings
    [fromisoformat] reads; [head] answers [head_bucket], [found] and [size]
    the questions about a file, [upload] every [upload_file] and [rmtree]
    the removal of the directory; the path of a file relative to a directory
    is what follows the directory and its slash. *)
Definition handler_world (fetch : Lambda.Primitives unit)
    (head : completed unit) (found : string -> bool) (size : completed Z)
    (upload : completed unit) (rmtree : completed unit)
  : Handler.Primitives unit :=
  {| Handler.fetcher := fetch;
     Handler.tempfile_mkdtemp := fun w => (Done "/tmp/tmpdir"%string, w);
     Handler.fromisoformat := fun s =>
       if (s =? "2023-10-01T00:00:00")%string
       then Some (mk_datetime 2023 10 1 0 0 0)
       else if (s =? "2023-10-01T23:59:59")%string
       then Some (mk_datetime 2023 10 1 23 59 59)
       else None;
     Handler.boto3_client_s3 := fun _ w => (Done tt, w);
     Handler.head_bucket := fun _ w => (head, w);
     Handler.path_exists := fun p w => (found p, w);
     Handler.path_getsize := fun _ w => (size, w);
     Handler.path_relpath := fun p start w =>
       (Done (substring (S (String.length start))
                        (String.length p - S (String.length start)) p), w);
     Handler.upload_file := fun _ _ _ _ w => (upload, w);
     Handler.shutil_rmtree := fun _ w => (rmtree, w) |}.

Definition access_denied : exn := OtherException "An error occurred (403)".

(** Logs are there and every call goes through. *)
Definition handler_ok_world : Handler.Primitives unit :=
  handler_world lambda_ok_world (Done tt) (fun _ => true) (Done 9) (Done tt)
                (Done tt).

(** The bucket cannot be reached. *)
Definition no_bucket_world : Handler.Primitives unit :=
  handler_world lambda_ok_world (Failed access_denied) (fun _ => true) (Done 9)
                (Done tt) (Done tt).

(** Every upload is refused. *)
Definition upload_refused_world : Handler.Primitives unit :=
  handler_world lambda_ok_world (Done tt) (fun _ => true) (Done 9)
                (Failed access_denied) (Done tt).

(** The size of no file can be read. *)
Definition unreadable_world : Handler.Primitives unit :=
  handler_world lambda_ok_world (Done tt) (fun _ => true)
                (Failed (OtherException "No such file or directory"))
                (Done tt) (Done tt).

(** No file exists. *)
Definition no_file_world : Handler.Primitives unit :=
  handler_world lambda_ok_world (Done tt) (fun _ => false) (Done 9) (Done tt)
                (Done tt).

(** A handler that has made no call yet. *)
Definition handler_init : Handler.state unit :=
  {| Handler.world := tt; Handler.trace := []; Handler.uploaded_files := [] |}.

(** Contents of the bucket configuration of [demo_event]. *)
Definition demo_s3 : Handler.sdict := Handler.entry (Handler.ev_s3 demo_event).

(** A datetime printer for the ranges of the orchestration. *)
Definition show_seconds (t : datetime) : string :=
  match t / US_PER_SECOND with
  | Z0 => "0"%string
  | Zpos p => String (ascii_of_pos p) EmptyString
  | Zneg _ => "-"%string
  end.

End MoreScenarios.

(* ================================================================== *)
(** * Properties *)

(** ** The monad *)

Section MonadFacts.

Context {S : Type}.

Lemma bind_ret_run {A B} (m : M S A) (k : A -> M S B) st a st' :
  m st = (Ret a, st') -> bind m k st = k a st'.
Proof. intros H. unfold bind. rewrite H. reflexivity. Qed.

End MonadFacts.

(** ** Range generation *)

Ltac unfold_time :=
  unfold timedelta_seconds, start_of_day, end_of_day, datetime_max, datetime_min,
         MAXORDINAL, US_PER_DAY, US_PER_SECOND in *.

Ltac tlia := unfold_time; lia.

Lemma timedelta_days_ok n :
  -999999999 <= n <= 999999999 -> timedelta_days n = Ret (n * US_PER_DAY).
Proof.
  intros H. unfold timedelta_days.
  destruct (Z.leb_spec (-999999999) n); [| lia].
  destruct (Z.leb_spec n 999999999); [reflexivity | lia].
Qed.

Lemma datetime_add_ok t d :
  datetime_min <= t + d <= datetime_max -> datetime_add t d = Ret (t + d).
Proof.
  intros H. unfold datetime_add. cbv zeta.
  destruct (Z.leb_spec datetime_min (t + d)); [| lia].
  destruct (Z.leb_spec (t + d) datetime_max); [reflexivity | lia].
Qed.

Lemma datetime_sub_ok t d :
  datetime_min <= t - d <= datetime_max -> datetime_sub t d = Ret (t - d).
Proof.
  intros H. unfold datetime_sub. rewrite datetime_add_ok; [f_equal | ]; lia.
Qed.

Lemma generate_loop_unfold c fuel end_time cur acc :
  Local.generate_loop c (S fuel) end_time cur acc
  = if cur <=? end_time then
      d <~ timedelta_days c ;;
      t1 <~ datetime_add cur d ;;
      t2 <~ datetime_sub t1 (timedelta_seconds 1) ;;
      next <~ datetime_add (Z.min t2 end_time) (timedelta_seconds 1) ;;
      Local.generate_loop c fuel end_time next (acc ++ [(cur, Z.min t2 end_time)])
    else Ret acc.
Proof. reflexivity. Qed.

Section GenerateFacts.

Variable chunk_size_days : Z.
Variable end_time : datetime.

Hypothesis chunk_pos : 1 <= chunk_size_days.
Hypothesis room : end_time + chunk_size_days * US_PER_DAY <= datetime_max.

Lemma generate_loop_done fuel cur acc :
  end_time < cur ->
  Local.generate_loop chunk_size_days (S fuel) end_time cur acc = Ret acc.
Proof.
  intros H. rewrite generate_loop_unfold.
  destruct (Z.leb_spec cur end_time); [lia | reflexivity].
Qed.

Lemma generate_loop_step fuel cur acc :
  0 <= cur <= end_time ->
  Local.generate_loop chunk_size_days (S fuel) end_time cur acc
  = Local.generate_loop chunk_size_days fuel end_time
      (Z.min (cur + (chunk_size_days * US_PER_DAY) - timedelta_seconds 1) end_time + timedelta_seconds 1)
      (acc ++ [(cur, Z.min (cur + (chunk_size_days * US_PER_DAY) - timedelta_seconds 1) end_time)]).
Proof.
  intros H. rewrite generate_loop_unfold.
  destruct (Z.leb_spec cur end_time); [| lia].
  rewrite timedelta_days_ok by (revert room; unfold_time; lia).
  cbn [rbind].
  rewrite datetime_add_ok by (revert room; unfold_time; lia).
  cbn [rbind].
  rewrite datetime_sub_ok by (revert room; unfold_time; lia).
  cbn [rbind].
  rewrite datetime_add_ok by (revert room; unfold_time; lia).
  reflexivity.
Qed.

Lemma generate_loop_spec fuel : forall cur acc,
  0 <= cur <= end_time + timedelta_seconds 1 ->
  end_time + timedelta_seconds 1 - cur < Z.of_nat fuel ->
  exists l,
    Local.generate_loop chunk_size_days fuel end_time cur acc = Ret (acc ++ l)
    /\ chunks_from (chunk_size_days * US_PER_DAY) end_time cur l.
Proof.
  induction fuel as [| fuel IH]; intros cur acc Hcur Hfuel.
  - exfalso. change (Z.of_nat 0) with 0 in Hfuel. lia.
  - destruct (Z_le_gt_dec cur end_time) as [Hle | Hgt].
    + rewrite generate_loop_step by lia.
      destruct (IH (Z.min (cur + (chunk_size_days * US_PER_DAY) - timedelta_seconds 1) end_time
                    + timedelta_seconds 1)
                   (acc ++ [(cur, Z.min (cur + (chunk_size_days * US_PER_DAY) - timedelta_seconds 1) end_time)]))
        as [l [Hrun Hl]].
      * revert room. unfold_time. lia.
      * revert Hfuel room. unfold_time. lia.
      * exists ((cur, Z.min (cur + (chunk_size_days * US_PER_DAY) - timedelta_seconds 1) end_time) :: l).
        split.
        -- rewrite Hrun. rewrite <- app_assoc. reflexivity.
        -- cbn [chunks_from]. auto.
    + exists []. split.
      * rewrite generate_loop_done by lia. rewrite app_nil_r. reflexivity.
      * cbn [chunks_from]. lia.
Qed.

End GenerateFacts.

(** What a list of chunks looks like. *)
Section ChunkFacts.

Variable span : timedelta.
Variable end_time : datetime.
Hypothesis span_ge : timedelta_seconds 1 <= span.

Lemma chunks_from_bounds l : forall cur r,
  chunks_from span end_time cur l -> In r l ->
  cur <= fst r /\ fst r <= snd r /\ snd r <= end_time.
Proof.
  induction l as [| a l IH]; intros cur r H Hin; [destruct Hin |].
  cbn [chunks_from] in H. destruct H as (Hle & -> & H).
  destruct Hin as [<- | Hin].
  - cbn [fst snd]. tlia.
  - specialize (IH _ _ H Hin). tlia.
Qed.

Lemma chunks_from_adjacent l : forall cur,
  chunks_from span end_time cur l -> adjacent_by (timedelta_seconds 1) l.
Proof.
  induction l as [| a l IH]; intros cur H; [exact I |].
  cbn [chunks_from] in H. destruct H as (Hle & -> & H).
  destruct l as [| b l]; [exact I |].
  split.
  - cbn [chunks_from] in H. destruct H as (_ & -> & _). reflexivity.
  - eapply IH. exact H.
Qed.

Lemma chunks_from_ordered l : forall cur,
  chunks_from span end_time cur l -> ordered_disjoint l.
Proof.
  induction l as [| r l IH]; intros cur H i j a b Hij Ha Hb.
  - destruct i; discriminate.
  - cbn [chunks_from] in H. destruct H as (Hle & -> & H).
    destruct j as [| j]; [lia |]. cbn [nth_error] in Hb.
    destruct i as [| i].
    + cbn [nth_error] in Ha. injection Ha as <-.
      apply nth_error_In in Hb.
      destruct (chunks_from_bounds _ _ _ H Hb) as (Hb1 & _).
      cbn [snd]. revert Hb1 span_ge. unfold_time. tlia.
    + cbn [nth_error] in Ha.
      apply (IH _ H i j); [lia | assumption | assumption].
Qed.

Lemma chunks_from_covers l : forall cur,
  chunks_from span end_time cur l -> covers_instants l cur end_time.
Proof.
  induction l as [| r l IH]; intros cur H t Ht.
  - cbn [chunks_from] in H. tlia.
  - cbn [chunks_from] in H. destruct H as (Hle & -> & H).
    set (chunk_end := Z.min (cur + span - timedelta_seconds 1) end_time) in *.
    destruct (Z_lt_ge_dec t (chunk_end + timedelta_seconds 1)) as [Hlt | Hge].
    + exists (cur, chunk_end). split; [left; reflexivity |]. cbn [fst snd]. tlia.
    + destruct (IH _ H t) as (r & Hin & Hr); [lia |].
      exists r. split; [right; assumption | assumption].
Qed.

Lemma chunks_from_span l : forall cur,
  chunks_from span end_time cur l -> non_final_span span l.
Proof.
  induction l as [| r l IH]; intros cur H i a Hi Ha.
  - destruct i; discriminate.
  - cbn [chunks_from] in H. destruct H as (Hle & -> & H).
    destruct i as [| i].
    + cbn [nth_error] in Ha. injection Ha as <-.
      destruct l as [| b l]; [cbn in Hi; lia |].
      cbn [chunks_from] in H. destruct H as (Hnext & _).
      cbn [fst snd]. tlia.
    + cbn [nth_error] in Ha. cbn [List.length] in Hi.
      apply (IH _ H i a); [lia | assumption].
Qed.

Lemma chunks_from_first l cur :
  chunks_from span end_time cur l -> cur <= end_time ->
  exists r, hd_error l = Some r /\ fst r = cur.
Proof.
  destruct l as [| r l]; cbn [chunks_from]; intros H Hle; [lia |].
  destruct H as (_ & -> & _). eexists. split; reflexivity.
Qed.

Lemma chunks_from_last l : forall cur,
  (US_PER_SECOND | span) -> (US_PER_SECOND | end_time) -> (US_PER_SECOND | cur) ->
  chunks_from span end_time cur l -> cur <= end_time ->
  snd (last l (0, 0)) = end_time.
Proof.
  induction l as [| r l IH]; intros cur Hs He Hc H Hle; cbn [chunks_from] in H;
    [lia |].
  destruct H as (_ & -> & H).
  destruct l as [| b l].
  - cbn [chunks_from] in H. cbn [last snd].
    destruct Hs as [ks Hs], He as [ke He], Hc as [kc Hc].
    revert H. rewrite Hs, He, Hc. tlia.
  - change (last ((cur, Z.min (cur + span - timedelta_seconds 1) end_time) :: b :: l) (0, 0))
      with (last (b :: l) (0, 0)).
    eapply IH; [assumption | assumption | | exact H |].
    + apply Z.min_case.
      * replace (cur + span - timedelta_seconds 1 + timedelta_seconds 1)
          with (cur + span) by lia.
        apply Z.divide_add_r; assumption.
      * apply Z.divide_add_r; [assumption |].
        exists 1. unfold timedelta_seconds. lia.
    + cbn [chunks_from] in H. tlia.
Qed.

(** Bounds given to the second stay on whole seconds. *)
Lemma chunks_from_whole_seconds l : forall cur r,
  (US_PER_SECOND | span) -> (US_PER_SECOND | end_time) -> (US_PER_SECOND | cur) ->
  chunks_from span end_time cur l -> In r l ->
  (US_PER_SECOND | fst r) /\ (US_PER_SECOND | snd r).
Proof.
  induction l as [| a l IH]; intros cur r Hs He Hc H Hin; [destruct Hin |].
  cbn [chunks_from] in H. destruct H as (Hle & -> & H).
  assert (Hend : (US_PER_SECOND | Z.min (cur + span - timedelta_seconds 1) end_time)).
  { apply Z.min_case; [| assumption].
    apply Z.divide_sub_r; [apply Z.divide_add_r; assumption |].
    unfold timedelta_seconds. exists 1. reflexivity. }
  destruct Hin as [<- | Hin].
  - cbn [fst snd]. split; assumption.
  - eapply (IH _ r Hs He); [| exact H | exact Hin].
    apply Z.divide_add_r; [assumption |].
    unfold timedelta_seconds. exists 1. reflexivity.
Qed.

End ChunkFacts.

(** More fuel does not change a result. *)
Lemma generate_loop_mono c end_time fuel : forall cur acc l,
  Local.generate_loop c fuel end_time cur acc = Ret l ->
  Local.generate_loop c (S fuel) end_time cur acc = Ret l.
Proof.
  induction fuel as [| fuel IH]; intros cur acc l H; [discriminate |].
  rewrite generate_loop_unfold in H. rewrite generate_loop_unfold.
  destruct (cur <=? end_time); [| assumption].
  destruct (timedelta_days c) as [d | |]; cbn [rbind] in *; try discriminate.
  destruct (datetime_add cur d) as [t1 | |]; cbn [rbind] in *; try discriminate.
  destruct (datetime_sub t1 (timedelta_seconds 1)) as [t2 | |];
    cbn [rbind] in *; try discriminate.
  destruct (datetime_add (Z.min t2 end_time) (timedelta_seconds 1)) as [next | |];
    cbn [rbind] in *; try discriminate.
  apply IH. assumption.
Qed.

Lemma generate_time_ranges_mono c sd ed fuel fuel' l :
  (fuel <= fuel')%nat ->
  Local.generate_time_ranges c fuel sd ed = Ret l ->
  Local.generate_time_ranges c fuel' sd ed = Ret l.
Proof.
  intros Hle H. induction Hle as [| fuel' Hle IH]; [assumption |].
  unfold Local.generate_time_ranges in *. apply generate_loop_mono. assumption.
Qed.

(** For a positive chunk size and dates that leave room before
    [datetime.max], the loop runs to its end, also when there is nothing to
    generate. *)
Lemma generate_time_ranges_returns c sd ed :
  1 <= c -> 1 <= sd ->
  end_of_day ed + c * US_PER_DAY <= datetime_max ->
  exists fuel0 ranges,
    forall fuel, (fuel0 <= fuel)%nat ->
      Local.generate_time_ranges c fuel sd ed = Ret ranges.
Proof.
  intros Hc Hsd Hroom.
  destruct (Z_le_gt_dec (start_of_day sd) (end_of_day ed)) as [Hle | Hgt].
  - set (fuel0 := S (Z.to_nat (end_of_day ed + timedelta_seconds 1
                               - start_of_day sd))).
    destruct (generate_loop_spec c (end_of_day ed) Hc Hroom fuel0
                (start_of_day sd) []) as [l [Hrun _]].
    { tlia. }
    { subst fuel0. rewrite Nat2Z.inj_succ, Z2Nat.id; tlia. }
    exists fuel0, l. intros fuel Hfuel.
    apply (generate_time_ranges_mono c sd ed fuel0 fuel l Hfuel). exact Hrun.
  - exists 1%nat, []. intros fuel Hfuel.
    apply (generate_time_ranges_mono c sd ed 1%nat fuel [] Hfuel).
    unfold Local.generate_time_ranges. apply generate_loop_done. lia.
Qed.

Lemma whole_second_start d : (US_PER_SECOND | start_of_day d).
Proof. exists ((d - 1) * 86400). tlia. Qed.

Lemma whole_second_end d : (US_PER_SECOND | end_of_day d).
Proof. exists ((d - 1) * 86400 + 86399). tlia. Qed.

Lemma whole_second_span c : (US_PER_SECOND | c * US_PER_DAY).
Proof. exists (c * 86400). tlia. Qed.

(** C6 (as amended): for [chunk_size_days >= 1], valid dates
    [start_date <= end_date] and an end date at least [chunk_size_days] days
    before [datetime.max], [generate_time_ranges] returns a list of ranges in
    chronological order, none overlapping another, the first starting at the
    start of [start_date], the last ending at the end of [end_date], each
    starting exactly one second after the one before it ends, so that every
    second in between is covered; every chunk but the last spans exactly
    [chunk_size_days] days, the last one at most that.  For 2024-01-01 to
    2024-01-31 in chunks of 14 days the result is the three ranges
    01-01..01-14, 01-15..01-28 and 01-29..01-31. *)
Theorem generate_time_ranges_partition :
  (forall chunk_size_days start_date end_date,
      1 <= chunk_size_days ->
      1 <= start_date -> start_date <= end_date ->
      end_of_day end_date + chunk_size_days * US_PER_DAY <= datetime_max ->
      exists fuel0 ranges,
        (forall fuel, (fuel0 <= fuel)%nat ->
           Local.generate_time_ranges chunk_size_days fuel start_date end_date
           = Ret ranges)
        /\ ordered_disjoint ranges
        /\ (forall r, In r ranges -> fst r <= snd r)
        /\ adjacent_by (timedelta_seconds 1) ranges
        /\ (exists r, hd_error ranges = Some r /\ fst r = start_of_day start_date)
        /\ snd (last ranges (0, 0)) = end_of_day end_date
        /\ covers_seconds ranges (start_of_day start_date) (end_of_day end_date)
        /\ covers_instants ranges (start_of_day start_date) (end_of_day end_date)
        /\ non_final_span (chunk_size_days * US_PER_DAY) ranges
        /\ (forall r, In r ranges ->
              snd r + timedelta_seconds 1 - fst r <= chunk_size_days * US_PER_DAY))
  /\ (forall fuel, (4 <= fuel)%nat ->
        Local.generate_time_ranges 14 fuel (ymd2ord 2024 1 1) (ymd2ord 2024 1 31)
        = Ret [ (mk_datetime 2024 1 1 0 0 0, mk_datetime 2024 1 14 23 59 59);
                (mk_datetime 2024 1 15 0 0 0, mk_datetime 2024 1 28 23 59 59);
                (mk_datetime 2024 1 29 0 0 0, mk_datetime 2024 1 31 23 59 59) ]).
Proof.
  split.
  - intros c sd ed Hc Hsd Hle Hroom.
    set (end_time := end_of_day ed) in *.
    set (start_time := start_of_day sd).
    assert (Hstart : 0 <= start_time <= end_time)
      by (subst start_time end_time; tlia).
    assert (Hspan : timedelta_seconds 1 <= c * US_PER_DAY) by tlia.
    set (fuel0 := S (Z.to_nat (end_time + timedelta_seconds 1 - start_time))).
    destruct (generate_loop_spec c end_time Hc Hroom fuel0 start_time [])
      as [l [Hrun Hl]].
    { tlia. }
    { subst fuel0. rewrite Nat2Z.inj_succ, Z2Nat.id; tlia. }
    cbn [app] in Hrun.
    exists fuel0, l. subst start_time end_time.
    split; [| split; [| split; [| split; [| split; [| split; [| split; [| split; [| split]]]]]]]].
    + intros fuel Hfuel.
      apply (generate_time_ranges_mono c sd ed fuel0 fuel l Hfuel). exact Hrun.
    + eapply chunks_from_ordered; eassumption.
    + intros r Hin. eapply chunks_from_bounds; eassumption.
    + eapply chunks_from_adjacent; eassumption.
    + apply chunks_from_first with (span := c * US_PER_DAY) (end_time := end_of_day ed);
        [exact Hl | lia].
    + apply chunks_from_last with (span := c * US_PER_DAY) (cur := start_of_day sd);
        auto using whole_second_span, whole_second_end, whole_second_start;
        tlia.
    + intros t Ht Hdiv.
      destruct (chunks_from_covers _ _ l _ Hl t Ht) as (r & Hin & Hr).
      exists r. split; [assumption |].
      assert (Hw : (US_PER_SECOND | fst r) /\ (US_PER_SECOND | snd r)).
      { apply chunks_from_whole_seconds
          with (span := c * US_PER_DAY) (end_time := end_of_day ed) (l := l)
               (cur := start_of_day sd);
          auto using whole_second_span, whole_second_end, whole_second_start. }
      destruct Hw as [_ [k Hk]].
      destruct Hdiv as [kt Hkt].
      unfold in_range. revert Hr. rewrite Hk, Hkt. tlia.
    + eapply chunks_from_covers; eassumption.
    + eapply chunks_from_span; eassumption.
    + intros r Hin.
      clear Hrun fuel0. revert Hstart Hl. generalize (start_of_day sd).
      induction l as [| a l IH]; intros cur Hcur Hl; [destruct Hin |].
      cbn [chunks_from] in Hl. destruct Hl as (Hle' & -> & Hl).
      destruct Hin as [<- | Hin].
      * cbn [fst snd]. tlia.
      * destruct l as [| b l]; [destruct Hin |].
        apply (IH Hin (Z.min (cur + c * US_PER_DAY - timedelta_seconds 1)
                             (end_of_day ed)
                       + timedelta_seconds 1)); [| exact Hl].
        cbn [chunks_from] in Hl. tlia.
  - intros fuel Hfuel.
    apply (generate_time_ranges_mono 14 _ _ 4%nat fuel _ Hfuel).
    vm_compute. reflexivity.
Qed.

Lemma generate_time_ranges_partition_witness :
  1 <= 14 /\ 1 <= ymd2ord 2024 1 1 /\ ymd2ord 2024 1 1 <= ymd2ord 2024 1 31
  /\ end_of_day (ymd2ord 2024 1 31) + 14 * US_PER_DAY <= datetime_max
  /\ (exists fuel0 ranges,
       (forall fuel, (fuel0 <= fuel)%nat ->
          Local.generate_time_ranges 14 fuel (ymd2ord 2024 1 1) (ymd2ord 2024 1 31)
          = Ret ranges)
       /\ ordered_disjoint ranges)
  /\ Local.generate_time_ranges 14 4 (ymd2ord 2024 1 1) (ymd2ord 2024 1 31)
     = Ret [ (mk_datetime 2024 1 1 0 0 0, mk_datetime 2024 1 14 23 59 59);
             (mk_datetime 2024 1 15 0 0 0, mk_datetime 2024 1 28 23 59 59);
             (mk_datetime 2024 1 29 0 0 0, mk_datetime 2024 1 31 23 59 59) ].
Proof.
  assert (H1 : 1 <= 14) by discriminate.
  assert (H2 : 1 <= ymd2ord 2024 1 1) by discriminate.
  assert (H3 : ymd2ord 2024 1 1 <= ymd2ord 2024 1 31) by discriminate.
  assert (H4 : end_of_day (ymd2ord 2024 1 31) + 14 * US_PER_DAY <= datetime_max)
    by discriminate.
  repeat (split; [assumption |]). split.
  - destruct (proj1 generate_time_ranges_partition 14 (ymd2ord 2024 1 1)
                (ymd2ord 2024 1 31) H1 H2 H3 H4)
      as (fuel0 & ranges & Hrun & Hord & _).
    exists fuel0, ranges. split; assumption.
  - exact (proj2 generate_time_ranges_partition 4%nat (le_n 4)).
Defined.

(** With [chunk_size_days = 0] the loop never advances. *)
Lemma generate_loop_zero_stuck end_time fuel : forall cur acc,
  timedelta_seconds 1 <= cur <= end_time -> end_time <= datetime_max ->
  Local.generate_loop 0 fuel end_time cur acc = Diverge.
Proof.
  induction fuel as [| fuel IH]; intros cur acc Hcur Hend; [reflexivity |].
  rewrite generate_loop_unfold.
  destruct (Z.leb_spec cur end_time); [| lia].
  rewrite timedelta_days_ok by lia. cbn [rbind].
  rewrite datetime_add_ok by tlia. cbn [rbind].
  rewrite datetime_sub_ok by tlia. cbn [rbind].
  rewrite datetime_add_ok by tlia. cbn [rbind].
  replace (Z.min (cur + 0 * US_PER_DAY - timedelta_seconds 1) end_time
           + timedelta_seconds 1) with cur by tlia.
  apply IH; assumption.
Qed.

(** C6 (as stated) fails for 2024-01-01 to 2024-01-31 with
    [chunk_size_days = 0]: [start <= end] holds and the function returns no
    list, whatever the number of iterations allowed. *)
Lemma generate_time_ranges_zero_chunk_diverges :
  ymd2ord 2024 1 1 <= ymd2ord 2024 1 31
  /\ ~ (exists fuel ranges,
          Local.generate_time_ranges 0 fuel (ymd2ord 2024 1 1) (ymd2ord 2024 1 31)
          = Ret ranges).
Proof.
  split; [discriminate |].
  intros (fuel & ranges & H).
  unfold Local.generate_time_ranges in H.
  rewrite generate_loop_zero_stuck in H; [discriminate | |].
  - vm_compute. split; discriminate.
  - vm_compute. discriminate.
Qed.

(** An end date on the last day of the calendar overflows [datetime]. *)
Lemma generate_time_ranges_overflow_at_max_date :
  Local.generate_time_ranges 14 5 (ymd2ord 9999 12 1) (ymd2ord 9999 12 31)
  = Raise OverflowError.
Proof. vm_compute. reflexivity. Qed.


(** ** Bisection *)

Lemma local_mid_between s e :
  s <= e ->
  s <= Local.mid_time_of s e <= e
  /\ 0 <= (e - Local.mid_time_of s e) - (Local.mid_time_of s e - s) <= 1.
Proof.
  intros H. unfold Local.mid_time_of.
  pose proof (Z.div_mod (e - s) 2 ltac:(lia)) as Hd.
  pose proof (Z.mod_pos_bound (e - s) 2 ltac:(lia)) as Hm.
  lia.
Qed.

Lemma divide_and_round_half d :
  Lambda.divide_and_round d 2 = d / 2 + (if (d mod 2 =? 1) && ((d / 2) mod 2 =? 1) then 1 else 0).
Proof.
  unfold Lambda.divide_and_round. cbv zeta.
  change (0 <? 2) with true. cbv iota.
  pose proof (Z.mod_pos_bound d 2 ltac:(lia)) as Hm.
  destruct (Z.ltb_spec 2 (2 * (d mod 2))); [lia |].
  cbn [orb].
  destruct (Z.eqb_spec (2 * (d mod 2)) 2), (Z.eqb_spec (d mod 2) 1); try lia;
    cbn [andb]; destruct (d / 2 mod 2 =? 1); lia.
Qed.

Lemma lambda_mid_between s e :
  s <= e ->
  s <= Lambda.mid_time_of s e <= e
  /\ -1 <= (e - Lambda.mid_time_of s e) - (Lambda.mid_time_of s e - s) <= 1.
Proof.
  intros H. unfold Lambda.mid_time_of. rewrite divide_and_round_half.
  pose proof (Z.div_mod (e - s) 2 ltac:(lia)) as Hd.
  pose proof (Z.mod_pos_bound (e - s) 2 ltac:(lia)) as Hm.
  destruct (Z.eqb_spec ((e - s) mod 2) 1); cbn [andb];
    [destruct ((e - s) / 2 mod 2 =? 1) |]; lia.
Qed.

(** Between two datetimes of the valid range the midpoint is computed
    without overflow. *)
Lemma bisect_no_overflow s e :
  datetime_min <= s -> s <= e -> e <= datetime_max ->
  datetime_add s ((e - s) / 2) = Ret (Local.mid_time_of s e).
Proof.
  intros Hs Hle He. unfold datetime_add. cbv zeta.
  fold (Local.mid_time_of s e).
  pose proof (local_mid_between s e Hle) as [Hm _].
  destruct (Z.leb_spec datetime_min (Local.mid_time_of s e)); [| lia].
  destruct (Z.leb_spec (Local.mid_time_of s e) datetime_max); [reflexivity | lia].
Qed.

Section Halves.

Variables (s e mid : datetime).
Hypothesis mid_between : s <= mid <= e.

Lemma halves_cover t :
  in_range t (s, e) <-> in_range t (s, mid) \/ in_range t (mid, e).
Proof. unfold in_range. cbn [fst snd]. lia. Qed.

Lemma halves_meet t :
  in_range t (s, mid) /\ in_range t (mid, e) <-> t = mid.
Proof. unfold in_range. cbn [fst snd]. lia. Qed.

End Halves.

(** C5 (as amended): for [start <= end], the bisection of the CLI and the one
    of the Lambda each yield [(start, mid)] and [(mid, end)] with
    [start <= mid <= end] and [mid] within one microsecond of the middle; the
    two halves cover exactly the range, and with the inclusive bounds of the
    API they share exactly the instant [mid]: the second half starts at [mid],
    not after it. *)
Theorem bisect_halves_share_midpoint (s e : datetime) :
  s <= e ->
  (let mid := Local.mid_time_of s e in
   Local.bisect (s, e) = ((s, mid), (mid, e))
   /\ s <= mid <= e
   /\ 0 <= (e - mid) - (mid - s) <= 1
   /\ (forall t, in_range t (s, e)
                 <-> in_range t (fst (Local.bisect (s, e)))
                     \/ in_range t (snd (Local.bisect (s, e))))
   /\ (forall t, in_range t (fst (Local.bisect (s, e)))
                 /\ in_range t (snd (Local.bisect (s, e))) <-> t = mid))
  /\
  (let mid := Lambda.mid_time_of s e in
   Lambda.bisect (s, e) = ((s, mid), (mid, e))
   /\ s <= mid <= e
   /\ -1 <= (e - mid) - (mid - s) <= 1
   /\ (forall t, in_range t (s, e)
                 <-> in_range t (fst (Lambda.bisect (s, e)))
                     \/ in_range t (snd (Lambda.bisect (s, e))))
   /\ (forall t, in_range t (fst (Lambda.bisect (s, e)))
                 /\ in_range t (snd (Lambda.bisect (s, e))) <-> t = mid)).
Proof.
  intros H.
  destruct (local_mid_between s e H) as [Hl1 Hl2].
  destruct (lambda_mid_between s e H) as [Hm1 Hm2].
  split; cbv zeta; (split; [reflexivity |]); (split; [assumption |]);
    (split; [assumption |]); split; intros t.
  - apply halves_cover; assumption.
  - apply halves_meet; assumption.
  - apply halves_cover; assumption.
  - apply halves_meet; assumption.
Qed.

Lemma bisect_halves_share_midpoint_witness :
  0 <= 10 * US_PER_SECOND
  /\ Local.bisect (0, 10 * US_PER_SECOND)
     = ((0, 5 * US_PER_SECOND), (5 * US_PER_SECOND, 10 * US_PER_SECOND)).
Proof.
  split; [discriminate |].
  exact (proj1 (proj1 (bisect_halves_share_midpoint 0 (10 * US_PER_SECOND)
                         ltac:(discriminate)))).
Defined.

(** C5 (as stated) fails on the ten seconds from 0, for the CLI and for the
    Lambda alike: the second half does not start after the end of the first
    one, and the instant 5 s lies in both. *)
Lemma bisect_second_half_starts_at_mid :
  (let halves := Local.bisect (0, 10 * US_PER_SECOND) in
   ~ (exists eps, 0 < eps /\ fst (snd halves) = snd (fst halves) + eps)
   /\ in_range (5 * US_PER_SECOND) (fst halves)
   /\ in_range (5 * US_PER_SECOND) (snd halves))
  /\
  (let halves := Lambda.bisect (0, 10 * US_PER_SECOND) in
   ~ (exists eps, 0 < eps /\ fst (snd halves) = snd (fst halves) + eps)
   /\ in_range (5 * US_PER_SECOND) (fst halves)
   /\ in_range (5 * US_PER_SECOND) (snd halves)).
Proof.
  cbv zeta. split; split.
  - intros [eps [Hpos Heq]]. cbn [Local.bisect fst snd] in Heq. lia.
  - unfold in_range. vm_compute. intuition discriminate.
  - intros [eps [Hpos Heq]]. cbn [Lambda.bisect fst snd] in Heq. lia.
  - unfold in_range. vm_compute. intuition discriminate.
Qed.

(** ** Reasoning about runs *)

Section PostFacts.

Context {S : Type}.

Lemma post_run {A} (m : M S A) st Q :
  post m st Q -> exists r st', m st = (r, st') /\ Q r st'.
Proof.
  unfold post. destruct (m st) as [r st']. intros H. exists r, st'. auto.
Qed.

Lemma post_weaken {A} (m : M S A) st (Q Q' : result A -> S -> Prop) :
  post m st Q -> (forall r st', Q r st' -> Q' r st') -> post m st Q'.
Proof. unfold post. auto. Qed.

Lemma post_ret {A} (a : A) st (Q : result A -> S -> Prop) :
  Q (Ret a) st -> post (ret a) st Q.
Proof. auto. Qed.

Lemma post_raise {A} e st (Q : result A -> S -> Prop) :
  Q (Raise e) st -> post (raise e) st Q.
Proof. auto. Qed.

Lemma post_lift {A} (r : result A) st (Q : result A -> S -> Prop) :
  Q r st -> post (lift r) st Q.
Proof. auto. Qed.

Lemma post_bind {A B} (m : M S A) (k : A -> M S B) st (Q : result B -> S -> Prop) :
  post m st (fun r st' =>
               match r with
               | Ret a => post (k a) st' Q
               | Raise e => Q (Raise e) st'
               | Diverge => Q Diverge st'
               end) ->
  post (bind m k) st Q.
Proof.
  unfold post, bind. destruct (m st) as [[a | e |] st']; cbn [fst snd]; auto.
Qed.

Lemma post_try {A} (m : M S A) h st (Q : result A -> S -> Prop) :
  post m st (fun r st' =>
               match r with
               | Ret a => Q (Ret a) st'
               | Raise e => post (h e) st' Q
               | Diverge => Q Diverge st'
               end) ->
  post (try_except m h) st Q.
Proof.
  unfold post, try_except. destruct (m st) as [[a | e |] st']; cbn [fst snd]; auto.
Qed.

End PostFacts.

Lemma py_contains_returns key v : py_contains key v <> Diverge.
Proof. destruct v; discriminate. Qed.

Lemma py_getitem_returns v key : py_getitem v key <> Diverge.
Proof.
  destruct v; cbn [py_getitem]; try discriminate.
  destruct (find _ kv); discriminate.
Qed.

Lemma option_result_returns {A} (o : option A) e :
  match o with Some v => Ret v | None => Raise e end <> Diverge.
Proof. destruct o; discriminate. Qed.

Ltac absurd_diverge :=
  match goal with
  | H : py_contains _ _ = Diverge |- _ => destruct (py_contains_returns _ _ H)
  | H : py_getitem _ _ = Diverge |- _ => destruct (py_getitem_returns _ _ H)
  | H : match _ with Some _ => Ret _ | None => Raise _ end = Diverge |- _ =>
      destruct (option_result_returns _ _ H)
  end.

Section LocalRuns.

Import Local.

Context {W : Type} {P : Primitives W}.

Lemma post_call {A} ev (prim : W -> completed A * W) st
    (Q : result A -> state W -> Prop) :
  (forall c w', prim (world st) = (c, w') ->
     match c with
     | Done a => Q (Ret a) (logged st w' ev)
     | Failed e => Q (Raise e) (logged st w' ev)
     end) ->
  post (call ev prim) st Q.
Proof.
  unfold post, call. intros H.
  destruct (prim (world st)) as [c w'] eqn:Hp.
  specialize (H c w' eq_refl). destruct c; exact H.
Qed.

Lemma post_sleep seconds st (Q : result unit -> state W -> Prop) :
  Q (Ret tt) (logged st (time_sleep seconds (world st)) (EvSleep seconds)) ->
  post (sleep seconds) st Q.
Proof. auto. Qed.

Lemma post_modify f st (Q : result unit -> state W -> Prop) :
  Q (Ret tt) {| world := world st; trace := trace st; stats := f (stats st) |} ->
  post (modify_stats f) st Q.
Proof. auto. Qed.

End LocalRuns.

Ltac post_step :=
  lazymatch goal with
  | |- post (ret _) _ _ => apply post_ret
  | |- post (raise _) _ _ => apply post_raise
  | |- post (lift _) _ _ => apply post_lift
  | |- post (bind _ _) _ _ => apply post_bind
  | |- post (try_except _ _) _ _ => apply post_try
  | |- post (Local.call _ _) _ _ =>
      apply post_call; let c := fresh "c" in intros c ? ?; destruct c
  | |- post (Local.sleep _) _ _ => apply post_sleep
  | |- post (Local.modify_stats _) _ _ => apply post_modify
  | |- post (if ?b then _ else _) _ _ => destruct b eqn:?
  | |- post (match ?x with _ => _ end) _ _ => destruct x eqn:?
  | |- match ?r with Ret _ => _ | Raise _ => _ | Diverge => _ end =>
      destruct r eqn:?
  end.

Ltac post_steps := repeat (post_step; cbv beta iota).

Section LocalFacts.

Import Local.

Context {W : Type} {P : Primitives W}.
Variable app : app_config.

(** [get_amplify_logs] returns and never raises: it makes one call of the
    CLI, then at most one download, and leaves [self.stats] alone. *)
Lemma get_amplify_logs_spec start_time end_time st :
  post (get_amplify_logs app start_time end_time) st
       (fun r st' =>
          exists logs rest,
            r = Ret logs
            /\ trace st' = trace st ++ EvGenerateAccessLogs start_time end_time :: rest
            /\ (rest = [] \/ exists url, rest = [EvHttpGet url])
            /\ stats st' = stats st).
Proof.
  unfold get_amplify_logs.
  post_steps; try absurd_diverge.
  all: cbn [logged trace stats]; try rewrite <- app_assoc; cbn [List.app];
    eauto 8.
Qed.


Lemma save_logs_locally_spec logs timestamp st :
  post (save_logs_locally app logs timestamp) st
       (fun r st' => r <> Diverge /\ stats st' = stats st).
Proof.
  unfold save_logs_locally.
  post_steps; cbn [logged stats]; split; (discriminate || reflexivity).
Qed.

Lemma upload_to_s3_spec local_file timestamp delete_after_upload st :
  post (upload_to_s3 app local_file timestamp delete_after_upload) st
       (fun r st' =>
          (r = Ret true /\ stats st' = stats st)
          \/ (r = Ret false /\ stats st' = incr_upload_failures (stats st))).
Proof.
  unfold upload_to_s3. cbv zeta.
  post_steps; cbn [logged stats]; auto.
Qed.

(** [process_time_range] without the fuel: its two defining equations. *)
Lemma process_time_range_deep start_time end_time depth delete_after_upload :
  2 < depth ->
  process_time_range app start_time end_time depth delete_after_upload
  = ret (false, false).
Proof.
  intros H. unfold process_time_range. cbn [process_time_range_rec].
  destruct (Z.ltb_spec 2 depth); [reflexivity | lia].
Qed.

Lemma process_time_range_unfold start_time end_time depth delete_after_upload :
  depth <= 2 ->
  process_time_range app start_time end_time depth delete_after_upload
  = try_except
      (logs <- get_amplify_logs app start_time end_time ;;
       if py_eq_str logs "REDUCE_RANGE" then
         r1 <- process_time_range app (fst (fst (bisect (start_time, end_time))))
                 (snd (fst (bisect (start_time, end_time)))) (depth + 1)
                 delete_after_upload ;;
         _ <- sleep 1 ;;
         r2 <- process_time_range app (fst (snd (bisect (start_time, end_time))))
                 (snd (snd (bisect (start_time, end_time)))) (depth + 1)
                 delete_after_upload ;;
         ret (fst r1 || fst r2, snd r1 && snd r2)
       else if negb (py_is_none logs) then
         if is_empty_logs logs then ret (true, true)
         else
           local_file <- save_logs_locally app logs end_time ;;
           s3_success <- match local_file with
                         | Some f => upload_to_s3 app f end_time delete_after_upload
                         | None => ret true
                         end ;;
           ret (s3_success, false)
       else ret (false, false))
      (fun _ => ret (false, false)).
Proof.
  intros H. unfold process_time_range.
  replace (Z.to_nat (3 - depth)) with (Datatypes.S (Z.to_nat (3 - (depth + 1))))
    by lia.
  cbn [process_time_range_rec bisect fst snd].
  destruct (Z.ltb_spec 2 depth); [lia | reflexivity].
Qed.

End LocalFacts.

Section LocalTotal.

Import Local.

Context {W : Type} {P : Primitives W}.
Variable app : app_config.

Lemma same_counts_refl s : same_counts s s.
Proof. unfold same_counts. repeat split; lia. Qed.

Lemma same_counts_trans a b c :
  same_counts a b -> same_counts b c -> same_counts a c.
Proof.
  unfold same_counts.
  intros (-> & -> & -> & -> & -> & ?) (? & ? & ? & ? & ? & ?).
  repeat split; try assumption; lia.
Qed.

Lemma same_counts_eq a b : b = a -> same_counts a b.
Proof. intros ->. apply same_counts_refl. Qed.

Lemma same_counts_upload s : same_counts s (incr_upload_failures s).
Proof. unfold same_counts. cbn. repeat split; lia. Qed.

(** [process_time_range] always returns a pair, whatever the world does, and
    touches no counter of [self.stats] but the upload failures. *)
Lemma process_time_range_spec delete_after_upload (n : nat) :
  forall start_time end_time depth st,
    3 - depth <= Z.of_nat n ->
    post (process_time_range app start_time end_time depth delete_after_upload) st
         (fun r st' =>
            exists success is_empty,
              r = Ret (success, is_empty)
              /\ (success = false -> is_empty = false)
              /\ same_counts (stats st) (stats st')).
Proof.
  induction n as [| n IH]; intros s e depth st Hn.
  - rewrite process_time_range_deep by lia. apply post_ret.
    exists false, false. auto using same_counts_refl.
  - destruct (Z_lt_le_dec 2 depth) as [Hd | Hd].
    { rewrite process_time_range_deep by lia. apply post_ret.
      exists false, false. auto using same_counts_refl. }
    rewrite process_time_range_unfold by assumption.
    apply post_try, post_bind.
    eapply post_weaken; [apply get_amplify_logs_spec |].
    intros r st1 (logs & rest & -> & _ & _ & Hst1). cbv beta iota.
    destruct (py_eq_str logs "REDUCE_RANGE").
    + apply post_bind.
      eapply post_weaken; [apply IH; lia |].
      intros r1 st2 (s1 & e1 & -> & He1 & Hst2). cbv beta iota.
      apply post_bind, post_sleep, post_bind.
      eapply post_weaken; [apply IH; lia |].
      intros r2 st3 (s2 & e2 & -> & He2 & Hst3). cbv beta iota.
      apply post_ret. cbn [fst snd logged stats] in *.
      exists (s1 || s2), (e1 && e2). split; [reflexivity |]. split.
      * intros Hf. apply orb_false_elim in Hf as [-> ->].
        rewrite He1; auto.
      * rewrite <- Hst1.
        eapply same_counts_trans; eassumption.
    + destruct (negb (py_is_none logs)); [| apply post_ret;
        exists false, false; auto using same_counts_eq].
      destruct (is_empty_logs logs); [apply post_ret;
        exists true, true; split; [reflexivity |]; split;
        [discriminate | auto using same_counts_eq] |].
      apply post_bind.
      eapply post_weaken; [apply save_logs_locally_spec |].
      intros r2 st2 (Hr2 & Hst2).
      destruct r2 as [local_file | ex |]; [| | congruence].
      * apply post_bind.
        destruct local_file as [f |].
        -- eapply post_weaken; [apply upload_to_s3_spec |].
           intros r3 st3 [(-> & Hst3) | (-> & Hst3)]; cbv beta iota;
             apply post_ret; eexists _, false; (split; [reflexivity |]);
             (split; [reflexivity |]); rewrite Hst3, Hst2, Hst1;
             auto using same_counts_refl, same_counts_upload.
        -- apply post_ret, post_ret. exists true, false.
           split; [reflexivity |]. split; [discriminate |].
           rewrite Hst2, Hst1. apply same_counts_refl.
      * apply post_ret. exists false, false.
        split; [reflexivity |]. split; [reflexivity |].
        rewrite Hst2, Hst1. apply same_counts_refl.
Qed.

End LocalTotal.

Section ChunkLoop.

Import Local.

Context {W : Type} {P : Primitives W}.
Variable app : app_config.

Lemma process_time_range_returns s e depth delete_after_upload st :
  exists success is_empty st',
    process_time_range app s e depth delete_after_upload st
    = (Ret (success, is_empty), st')
    /\ (success = false -> is_empty = false)
    /\ same_counts (stats st) (stats st').
Proof.
  destruct (post_run _ _ _
              (process_time_range_spec app delete_after_upload
                 (Z.to_nat (3 - depth)) s e depth st ltac:(lia)))
    as (r & st' & Hrun & success & is_empty & -> & Hs & Hc).
  exists success, is_empty, st'. auto.
Qed.

(** One iteration of the loop, given what [process_time_range] returned. *)
Lemma process_chunk_run delete_after_upload acc r st success is_empty st1 :
  process_time_range app (fst r) (snd r) 0 delete_after_upload st
  = (Ret (success, is_empty), st1) ->
  process_chunk app delete_after_upload acc r st
  = (Ret (app_tally success is_empty r acc),
     {| world := time_sleep 1 (world st1);
        trace := trace st1 ++ [EvSleep 1];
        stats := tally app success is_empty r (stats st1) |}).
Proof.
  intros H. unfold process_chunk.
  rewrite (bind_ret_run _ _ _ _ _ H).
  destruct success, is_empty; reflexivity.
Qed.

Lemma tally_inv k s0 s1 success is_empty r :
  same_counts s0 s1 -> stats_inv k s0 ->
  stats_inv (k + 1) (tally app success is_empty r s1).
Proof.
  unfold same_counts, stats_inv.
  intros (_ & Hs & Hf & He & Hr & _) (H1 & H2 & H3).
  rewrite <- Hs, <- Hf, <- He, <- Hr in *.
  destruct success, is_empty; cbn; try rewrite length_app; cbn; lia.
Qed.

Lemma app_tally_inv k a success is_empty r :
  app_stats_inv k a -> app_stats_inv (k + 1) (app_tally success is_empty r a).
Proof.
  unfold app_stats_inv. intros (H1 & H2 & H3).
  destruct success, is_empty; cbn; try rewrite length_app; cbn; lia.
Qed.

Lemma tally_total s success is_empty r :
  total_chunks (tally app success is_empty r s) = total_chunks s.
Proof. destruct success, is_empty; reflexivity. Qed.

Lemma app_tally_total a success is_empty r :
  app_total_chunks (app_tally success is_empty r a) = app_total_chunks a.
Proof. destruct success, is_empty; reflexivity. Qed.

(** The loop over any list of chunks returns, and keeps the counters in
    step with the number of chunks processed. *)
Lemma chunk_loop_spec delete_after_upload ranges : forall acc st k,
  app_stats_inv k acc -> stats_inv k (stats st) ->
  exists acc' st',
    chunk_loop app delete_after_upload ranges acc st = (Ret acc', st')
    /\ app_stats_inv (k + Z.of_nat (List.length ranges)) acc'
    /\ stats_inv (k + Z.of_nat (List.length ranges)) (stats st')
    /\ app_total_chunks acc' = app_total_chunks acc
    /\ total_chunks (stats st') = total_chunks (stats st).
Proof.
  induction ranges as [| r ranges IH]; intros acc st k Ha Hs.
  - exists acc, st. cbn [chunk_loop List.length]. rewrite Z.add_0_r.
    repeat split; solve [reflexivity | apply Ha | apply Hs].
  - destruct (process_time_range_returns (fst r) (snd r) 0 delete_after_upload st)
      as (success & is_empty & st1 & Hrun & _ & Hc).
    cbn [chunk_loop].
    rewrite (bind_ret_run _ _ _ _ _
               (process_chunk_run delete_after_upload acc r st _ _ _ Hrun)).
    destruct (IH (app_tally success is_empty r acc)
                 {| world := time_sleep 1 (world st1);
                    trace := trace st1 ++ [EvSleep 1];
                    stats := tally app success is_empty r (stats st1) |}
                 (k + 1))
      as (acc' & st' & Hloop & Ha' & Hs' & Ht & HT).
    + apply app_tally_inv. exact Ha.
    + cbn [stats]. eapply tally_inv; eassumption.
    + exists acc', st'. split; [exact Hloop |].
      cbn [List.length]. rewrite Nat2Z.inj_succ.
      replace (k + Z.succ (Z.of_nat (List.length ranges)))
        with (k + 1 + Z.of_nat (List.length ranges)) by lia.
      split; [exact Ha' |]. split; [exact Hs' |].
      rewrite Ht, HT, app_tally_total. cbn [stats]. rewrite tally_total.
      split; [reflexivity |]. apply Hc.
Qed.

(** The loop over [l1 ++ l2] is the loop over [l1] followed by the loop over
    [l2]: the state after the first [length l1] iterations is the outcome of
    the loop over [l1]. *)
Lemma chunk_loop_app delete_after_upload l1 l2 : forall acc st,
  chunk_loop app delete_after_upload (l1 ++ l2) acc st
  = bind (chunk_loop app delete_after_upload l1 acc)
         (fun acc' => chunk_loop app delete_after_upload l2 acc') st.
Proof.
  induction l1 as [| r l1 IH]; intros acc st.
  - reflexivity.
  - cbn [List.app chunk_loop]. unfold bind in *.
    destruct (process_chunk app delete_after_upload acc r st) as [[a | e |] st1];
      try reflexivity.
    apply IH.
Qed.

End ChunkLoop.

Section LocalClaims.

Import Local.

Context {W : Type} {P : Primitives W}.
Variable app : app_config.

(** What [process_time_range] does once the fetch has answered, at a depth
    where it fetches. *)
Lemma process_time_range_fetched s e depth delete_after_upload st logs st1 :
  depth <= 2 ->
  get_amplify_logs app s e st = (Ret logs, st1) ->
  process_time_range app s e depth delete_after_upload st
  = try_except
      (if py_eq_str logs "REDUCE_RANGE" then
         r1 <- process_time_range app s (mid_time_of s e) (depth + 1)
                                  delete_after_upload ;;
         _ <- sleep 1 ;;
         r2 <- process_time_range app (mid_time_of s e) e (depth + 1)
                                  delete_after_upload ;;
         ret (fst r1 || fst r2, snd r1 && snd r2)
       else if negb (py_is_none logs) then
         if is_empty_logs logs then ret (true, true)
         else
           local_file <- save_logs_locally app logs e ;;
           s3_success <- match local_file with
                         | Some f => upload_to_s3 app f e delete_after_upload
                         | None => ret true
                         end ;;
           ret (s3_success, false)
       else ret (false, false))
      (fun _ => ret (false, false)) st1.
Proof.
  intros Hd H. rewrite process_time_range_unfold by assumption.
  unfold try_except at 1 2. unfold bind at 1. rewrite H.
  reflexivity.
Qed.

Lemma get_amplify_logs_trace s e st logs st1 :
  get_amplify_logs app s e st = (Ret logs, st1) ->
  stats st1 = stats st
  /\ exists rest,
       trace st1 = trace st ++ EvGenerateAccessLogs s e :: rest
       /\ (rest = [] \/ exists url, rest = [EvHttpGet url]).
Proof.
  intros H.
  pose proof (get_amplify_logs_spec app s e st) as Hp.
  unfold post in Hp. rewrite H in Hp. cbn [fst snd] in Hp.
  destruct Hp as (logs' & rest & _ & Ht & Hr & Hs). eauto.
Qed.

(** C7: a chunk whose fetch returns the empty string is counted as
    successful and as empty, both in [app_stats] and in [self.stats]: the
    successful chunks and the empty-logs chunks each grow by exactly one,
    the failed chunks, the failed ranges, the upload failures and the total
    stay as they were; and the calls made for it comprise no creation of a
    directory, no writing of a file and no upload. *)
Theorem empty_payload_is_success_without_persist
    delete_after_upload acc s e st st1 :
  get_amplify_logs app s e st = (Ret (PStr EmptyString), st1) ->
  process_time_range app s e 0 delete_after_upload st = (Ret (true, true), st1)
  /\ exists st' acc',
       process_chunk app delete_after_upload acc (s, e) st = (Ret acc', st')
       /\ acc' = app_incr_empty (app_incr_successful acc)
       /\ stats st' = incr_empty (incr_successful (stats st))
       /\ successful_chunks (stats st') = successful_chunks (stats st) + 1
       /\ empty_logs_chunks (stats st') = empty_logs_chunks (stats st) + 1
       /\ failed_chunks (stats st') = failed_chunks (stats st)
       /\ failed_ranges (stats st') = failed_ranges (stats st)
       /\ upload_failures (stats st') = upload_failures (stats st)
       /\ total_chunks (stats st') = total_chunks (stats st)
       /\ app_successful_chunks acc' = app_successful_chunks acc + 1
       /\ app_empty_logs_chunks acc' = app_empty_logs_chunks acc + 1
       /\ app_failed_chunks acc' = app_failed_chunks acc
       /\ app_failed_ranges acc' = app_failed_ranges acc
       /\ exists evs,
            trace st' = trace st ++ evs
            /\ filter is_persist evs = [].
Proof.
  intros H.
  assert (Hrun : process_time_range app s e 0 delete_after_upload st
                 = (Ret (true, true), st1)).
  { rewrite (process_time_range_fetched s e 0 delete_after_upload st _ st1 ltac:(lia) H). reflexivity. }
  split; [exact Hrun |].
  destruct (get_amplify_logs_trace _ _ _ _ _ H) as (Hs & rest & Ht & Hr).
  exists {| world := time_sleep 1 (world st1);
            trace := trace st1 ++ [EvSleep 1];
            stats := tally app true true (s, e) (stats st1) |}.
  exists (app_tally true true (s, e) acc).
  split.
  { apply (process_chunk_run app delete_after_upload acc (s, e) st true true st1).
    exact Hrun. }
  split; [reflexivity |].
  cbn [stats tally app_tally]. rewrite Hs.
  do 11 (split; [reflexivity |]).
  cbn [trace]. rewrite Ht, <- app_assoc.
  eexists. split; [reflexivity |].
  destruct Hr as [-> | [url ->]]; reflexivity.
Qed.

(** C2 (as amended): a chunk whose fetch returns a payload that is neither
    the split signal nor [None] nor empty, whose file is saved, and whose
    [aws s3 cp] fails, is counted as failed: the upload failures and the
    failed chunks both grow by one, the successful chunks do not, and the
    range is appended to the failed ranges of [app_stats] and of
    [self.stats]. *)
Theorem upload_failure_counts_chunk_as_failed
    delete_after_upload acc s e st logs st1 f st2 ex w3 :
  get_amplify_logs app s e st = (Ret logs, st1) ->
  py_eq_str logs "REDUCE_RANGE" = false ->
  py_is_none logs = false ->
  is_empty_logs logs = false ->
  save_logs_locally app logs e st1 = (Ret (Some f), st2) ->
  run_s3_cp f (s3_uri_of app e) (world st2) = (Failed ex, w3) ->
  exists st',
    process_chunk app delete_after_upload acc (s, e) st
    = (Ret (app_record_failed (s, e) acc), st')
    /\ stats st' = record_failed app (s, e) (incr_upload_failures (stats st))
    /\ upload_failures (stats st') = upload_failures (stats st) + 1
    /\ failed_chunks (stats st') = failed_chunks (stats st) + 1
    /\ successful_chunks (stats st') = successful_chunks (stats st)
    /\ failed_ranges (stats st')
       = failed_ranges (stats st)
         ++ [ {| fr_app_name := appName app;
                 fr_start_time := isoformat s;
                 fr_end_time := isoformat e |} ].
Proof.
  intros Hget Hr Hn He Hsave Hcp.
  destruct (get_amplify_logs_trace _ _ _ _ _ Hget) as (Hs1 & _).
  assert (Hs2 : stats st2 = stats st1).
  { pose proof (save_logs_locally_spec app logs e st1) as Hp.
    unfold post in Hp. rewrite Hsave in Hp. apply Hp. }
  assert (Hrun : process_time_range app s e 0 delete_after_upload st
                 = (Ret (false, false),
                    {| world := w3;
                       trace := trace st2 ++ [EvS3Cp f (s3_uri_of app e)];
                       stats := incr_upload_failures (stats st2) |})).
  { rewrite (process_time_range_fetched s e 0 delete_after_upload st _ st1 ltac:(lia) Hget).
    rewrite Hr, Hn, He. cbn [negb].
    unfold try_except at 1. unfold bind at 1. rewrite Hsave.
    unfold bind at 1. unfold upload_to_s3. cbv zeta.
    unfold try_except at 1. unfold bind at 1. unfold call at 1.
    rewrite Hcp. reflexivity. }
  eexists. split; [| split].
  - apply (process_chunk_run app delete_after_upload acc (s, e) st false false).
    exact Hrun.
  - cbn [stats tally]. rewrite Hs2, Hs1. reflexivity.
  - cbn [stats tally]. rewrite Hs2, Hs1. cbn. auto.
Qed.

(** C1 (as amended): when the fetch asks to reduce the range of a chunk, its
    first half succeeds and its second half fails, [process_time_range]
    reports the chunk as a success, and the loop counts it among the
    successful chunks; the failed chunks and the failed ranges, of
    [app_stats] and of [self.stats] alike, stay as they were: the failed
    half is recorded nowhere. *)
Theorem partial_success_is_success
    delete_after_upload acc s e st st1 empty1 st2 empty2 st3 :
  get_amplify_logs app s e st = (Ret (PStr "REDUCE_RANGE"), st1) ->
  process_time_range app s (mid_time_of s e) 1 delete_after_upload st1
  = (Ret (true, empty1), st2) ->
  process_time_range app (mid_time_of s e) e 1 delete_after_upload (slept st2)
  = (Ret (false, empty2), st3) ->
  process_time_range app s e 0 delete_after_upload st = (Ret (true, false), st3)
  /\ exists st',
       process_chunk app delete_after_upload acc (s, e) st
       = (Ret (app_incr_successful acc), st')
       /\ app_failed_ranges (app_incr_successful acc) = app_failed_ranges acc
       /\ app_failed_chunks (app_incr_successful acc) = app_failed_chunks acc
       /\ successful_chunks (stats st') = successful_chunks (stats st) + 1
       /\ failed_chunks (stats st') = failed_chunks (stats st)
       /\ failed_ranges (stats st') = failed_ranges (stats st).
Proof.
  intros Hget H1 H2.
  assert (He2 : empty2 = false).
  { destruct (process_time_range_returns app (mid_time_of s e) e 1
                delete_after_upload (slept st2))
      as (b1 & b2 & st'' & Hrun & Himp & _).
    rewrite H2 in Hrun. injection Hrun as <- <- _. auto. }
  subst empty2.
  assert (Hrun : process_time_range app s e 0 delete_after_upload st
                 = (Ret (true, false), st3)).
  { rewrite (process_time_range_fetched s e 0 delete_after_upload st _ st1 ltac:(lia) Hget).
    cbn [py_eq_str String.eqb Ascii.eqb Bool.eqb andb].
    change (0 + 1) with 1.
    unfold try_except at 1. unfold bind at 1. rewrite H1.
    unfold bind at 1. unfold sleep at 1. unfold bind at 1.
    fold (slept st2). unfold slept, logged in H2 |- *. rewrite H2.
    cbn [fst snd ret orb andb]. rewrite andb_false_r. reflexivity. }
  split; [exact Hrun |].
  destruct (get_amplify_logs_trace _ _ _ _ _ Hget) as (Hs1 & _).
  destruct (process_time_range_returns app s e 0 delete_after_upload st)
    as (b1 & b2 & st'' & Hrun' & _ & Hc).
  rewrite Hrun in Hrun'. injection Hrun' as <- <- <-.
  destruct Hc as (_ & Hsucc & Hfail & _ & Hfr & _).
  eexists. split; [| split; [| split; [| split; [| split]]]].
  - apply (process_chunk_run app delete_after_upload acc (s, e) st true false).
    exact Hrun.
  - reflexivity.
  - reflexivity.
  - cbn [stats tally incr_successful successful_chunks]. lia.
  - cbn [stats tally incr_successful failed_chunks]. assumption.
  - cbn [stats tally incr_successful failed_ranges]. assumption.
Qed.

End LocalClaims.

Section LocalClaims2.

Import Local.

Context {W : Type} {P : Primitives W}.
Variable app : app_config.

Lemma is_empty_logs_iff v : is_empty_logs v = true <-> v = PStr EmptyString.
Proof.
  split.
  - destruct v; cbn [is_empty_logs]; try discriminate.
    intros H. apply String.eqb_eq in H. congruence.
  - intros ->. reflexivity.
Qed.

(** Names without a slash: pathlib and [os.path.join] put them together
    with one slash between two of them. *)
Lemma append_empty_r s : (s ++ EmptyString)%string = s.
Proof. induction s as [| c s IH]; cbn [append]; [| rewrite IH]; reflexivity. Qed.

Lemma append_assoc_string a b c : ((a ++ b) ++ c)%string = (a ++ b ++ c)%string.
Proof. induction a as [| x a IH]; cbn [append]; [| rewrite IH]; reflexivity. Qed.

Lemma split_sep_plain s :
  has_sep s = false -> forall cur, split_sep cur s = [(cur ++ s)%string].
Proof.
  induction s as [| c s IH]; cbn [has_sep split_sep]; intros H cur.
  - rewrite append_empty_r. reflexivity.
  - apply orb_false_iff in H. destruct H as (Hc & Hs). rewrite Hc.
    rewrite (IH Hs). rewrite append_assoc_string. reflexivity.
Qed.

Lemma path_parts_plain s :
  has_sep s = false -> s <> EmptyString -> s <> "."%string -> path_parts s = [s].
Proof.
  intros Hs He Hd. unfold path_parts. rewrite (split_sep_plain s Hs).
  cbn [append filter].
  apply String.eqb_neq in He, Hd. rewrite He, Hd. reflexivity.
Qed.

Lemma ends_with_sep_plain s : has_sep s = false -> ends_with_sep s = false.
Proof.
  induction s as [| c s IH]; [reflexivity |].
  cbn [has_sep ends_with_sep]. intros H.
  apply orb_false_iff in H. destruct H as (Hc & Hs).
  destruct s; [exact Hc | exact (IH Hs)].
Qed.

Lemma ends_with_sep_app a b :
  b <> EmptyString -> ends_with_sep (a ++ b) = ends_with_sep b.
Proof.
  intros Hb. induction a as [| c a IH]; [reflexivity |].
  cbn [append ends_with_sep]. rewrite IH.
  destruct (a ++ b)%string eqn:Hab; [| reflexivity].
  destruct a; cbn [append] in Hab; [contradiction | discriminate].
Qed.

Lemma os_path_join_plain a b :
  a <> EmptyString -> ends_with_sep a = false -> starts_with_sep b = false ->
  os_path_join a b = (a ++ "/" ++ b)%string.
Proof.
  intros Ha He Hb. unfold os_path_join. rewrite Hb, He.
  apply String.eqb_neq in Ha. rewrite Ha. reflexivity.
Qed.

Lemma os_path_join_ends a b :
  a <> EmptyString -> ends_with_sep a = false ->
  has_sep b = false -> b <> EmptyString ->
  os_path_join a b = (a ++ "/" ++ b)%string
  /\ (a ++ "/" ++ b)%string <> EmptyString
  /\ ends_with_sep (a ++ "/" ++ b) = false.
Proof.
  intros Ha He Hb Hne. split; [| split].
  - apply os_path_join_plain; try assumption.
    destruct b as [| c b]; [reflexivity |].
    cbn [has_sep] in Hb. apply orb_false_iff in Hb. exact (proj1 Hb).
  - destruct a; [contradiction | discriminate].
  - rewrite ends_with_sep_app by discriminate.
    cbn [append ends_with_sep].
    destruct b; [contradiction |]. apply ends_with_sep_plain. exact Hb.
Qed.

(** For an application whose name holds no slash, and a calendar that
    prints none, the directory, the file and the S3 URI of a timestamp read
    as the code spells them. *)
Lemma local_names_plain timestamp :
  has_sep (appName app) = false ->
  has_sep (strftime timestamp "%Y-%m-%d") = false ->
  has_sep (strftime timestamp "%Y%m%d_%H%M%S") = false ->
  date_path_of app timestamp
  = ("/home/hylmarj/_scratch/type=amplify_logs/app=" ++ appName app
     ++ "/date_export=" ++ strftime timestamp "%Y-%m-%d")%string
  /\ log_file_of app timestamp
     = ("/home/hylmarj/_scratch/type=amplify_logs/app=" ++ appName app
        ++ "/date_export=" ++ strftime timestamp "%Y-%m-%d"
        ++ "/log_" ++ strftime timestamp "%Y%m%d_%H%M%S")%string
  /\ s3_uri_of app timestamp
     = ("s3://amplifylogs-logging-intite-ss1-inftes-182059100462/"
        ++ "type=amplify_logs/app=" ++ appName app
        ++ "/date_export=" ++ strftime timestamp "%Y-%m-%d"
        ++ "/log_" ++ strftime timestamp "%Y%m%d_%H%M%S")%string.
Proof.
  intros Hname Hdate Hstamp.
  assert (H2 : path_parts ("app=" ++ appName app) = [("app=" ++ appName app)%string])
    by (apply path_parts_plain; [exact Hname | discriminate | discriminate]).
  assert (H3 : path_parts ("date_export=" ++ strftime timestamp "%Y-%m-%d")
               = [("date_export=" ++ strftime timestamp "%Y-%m-%d")%string])
    by (apply path_parts_plain; [exact Hdate | discriminate | discriminate]).
  assert (H4 : path_parts ("log_" ++ strftime timestamp "%Y%m%d_%H%M%S")
               = [("log_" ++ strftime timestamp "%Y%m%d_%H%M%S")%string])
    by (apply path_parts_plain; [exact Hstamp | discriminate | discriminate]).
  split; [| split].
  - unfold date_path_of, date_parts_of. rewrite H2, H3. reflexivity.
  - unfold log_file_of, date_parts_of. rewrite H2, H3, H4. reflexivity.
  - unfold s3_uri_of, s3_key_of.
    change (os_path_join S3_PREFIX "type=amplify_logs")
      with "type=amplify_logs"%string.
    destruct (os_path_join_ends "type=amplify_logs" ("app=" ++ appName app)
                ltac:(discriminate) eq_refl Hname ltac:(discriminate))
      as (-> & Hne2 & He2).
    destruct (os_path_join_ends _ ("date_export=" ++ strftime timestamp "%Y-%m-%d")
                Hne2 He2 Hdate ltac:(discriminate))
      as (-> & Hne3 & He3).
    destruct (os_path_join_ends _ ("log_" ++ strftime timestamp "%Y%m%d_%H%M%S")
                Hne3 He3 Hstamp ltac:(discriminate))
      as (-> & _ & _).
    rewrite !append_assoc_string. reflexivity.
Qed.

(** C10 (as amended): a fetch result that is neither a string nor [None] is
    never classified as empty, the empty classification being that of the
    empty string alone, and [process_time_range] answers
    [(s3_success, False)] for it without raising.  It first makes the
    directory named after the end of the range; once the directory is made
    and the file written and measured, it has written [json.dump] of the
    value to the log file named after the end of the range and has started
    the copy of that file to the S3 key named after the end of the range,
    removing the file after a successful copy if asked to.  It reports
    success exactly when the directory was made, the file written and
    measured and the copy went through; any of them failing, its answer is
    [(False, False)]. *)
Theorem non_string_result_is_persisted_as_json
    delete_after_upload s e depth st j st1 :
  depth <= 2 ->
  get_amplify_logs app s e st = (Ret j, st1) ->
  (forall text, j <> PStr text) -> j <> PNone ->
  let date := strftime e "%Y-%m-%d" in
  let stamp := strftime e "%Y%m%d_%H%M%S" in
  is_empty_logs j = false
  /\ (forall v, is_empty_logs v = true <-> v = PStr EmptyString)
  /\ (has_sep (appName app) = false -> has_sep date = false ->
      has_sep stamp = false ->
      date_path_of app e
      = ("/home/hylmarj/_scratch/type=amplify_logs/app=" ++ appName app
         ++ "/date_export=" ++ date)%string
      /\ log_file_of app e
         = ("/home/hylmarj/_scratch/type=amplify_logs/app=" ++ appName app
            ++ "/date_export=" ++ date ++ "/log_" ++ stamp)%string
      /\ s3_uri_of app e
         = ("s3://amplifylogs-logging-intite-ss1-inftes-182059100462/"
            ++ "type=amplify_logs/app=" ++ appName app
            ++ "/date_export=" ++ date ++ "/log_" ++ stamp)%string)
  /\ exists s3_success st' evs,
       process_time_range app s e depth delete_after_upload st
       = (Ret (s3_success, false), st')
       /\ trace st' = trace st1 ++ EvMkdir (date_path_of app e) :: evs
       /\ (s3_success = true
           <-> exists w1 w2 size w3 out w4,
                 path_mkdir (date_path_of app e) (world st1) = (Done tt, w1)
                 /\ write_text (log_file_of app e) (json_dumps j) w1
                    = (Done tt, w2)
                 /\ path_getsize (log_file_of app e) w2 = (Done size, w3)
                 /\ run_s3_cp (log_file_of app e) (s3_uri_of app e) w3
                    = (Done out, w4))
       /\ (forall w1 w2 size w3,
             path_mkdir (date_path_of app e) (world st1) = (Done tt, w1) ->
             write_text (log_file_of app e) (json_dumps j) w1 = (Done tt, w2) ->
             path_getsize (log_file_of app e) w2 = (Done size, w3) ->
             evs = [ EvWriteFile (log_file_of app e) (json_dumps j);
                     EvGetsize (log_file_of app e);
                     EvS3Cp (log_file_of app e) (s3_uri_of app e) ]
                   ++ (if s3_success && delete_after_upload
                       then [EvRemove (log_file_of app e)] else [])).
Proof.
  intros Hd Hget Hstr Hnone date stamp.
  assert (He : is_empty_logs j = false) by (destruct j; try reflexivity; congruence).
  assert (Hr : py_eq_str j "REDUCE_RANGE" = false)
    by (destruct j; try reflexivity; exfalso; eapply Hstr; reflexivity).
  assert (Hn : py_is_none j = false) by (destruct j; try reflexivity; congruence).
  assert (Hc : file_content j = json_dumps j)
    by (destruct j; try reflexivity; exfalso; eapply Hstr; reflexivity).
  split; [exact He |]. split; [exact is_empty_logs_iff |].
  split; [exact (local_names_plain e) |].
  rewrite (process_time_range_fetched app s e depth delete_after_upload st j st1 Hd Hget).
  rewrite Hr, Hn, He. cbn [negb].
  unfold try_except at 1. unfold bind at 1.
  unfold save_logs_locally. rewrite He, Hc. cbv zeta.
  unfold try_except at 1. unfold bind at 1. unfold call at 1.
  destruct (path_mkdir (date_path_of app e) (world st1)) as [[[] | ex1] w1] eqn:Hmk.
  2:{ exists false. eexists. exists []. split; [reflexivity |].
      cbn [trace]. split; [reflexivity |]. split.
      - split; [discriminate |].
        intros (w1' & w2' & size' & w3' & out' & w4' & H & _). discriminate H.
      - intros w1' w2' size' w3' H. discriminate H. }
  unfold bind at 1. unfold call at 1. cbn [world trace stats].
  destruct (write_text (log_file_of app e) (json_dumps j) w1)
    as [[[] | ex2] w2] eqn:Hwr.
  2:{ exists false. eexists. eexists. split; [reflexivity |].
      cbn [trace]. rewrite <- app_assoc. split; [reflexivity |]. split.
      - split; [discriminate |].
        intros (w1' & w2' & size' & w3' & out' & w4' & H1 & H2 & _).
        injection H1 as <-. rewrite Hwr in H2. discriminate H2.
      - intros w1' w2' size' w3' H1 H2.
        injection H1 as <-. rewrite Hwr in H2. discriminate H2. }
  unfold bind at 1. unfold call at 1. cbn [world trace stats].
  destruct (path_getsize (log_file_of app e) w2) as [[size | ex3] w3] eqn:Hsz.
  2:{ exists false. eexists. eexists. split; [reflexivity |].
      cbn [trace]. rewrite <- !app_assoc. split; [reflexivity |]. split.
      - split; [discriminate |].
        intros (w1' & w2' & size' & w3' & out' & w4' & H1 & H2 & H3 & _).
        injection H1 as <-. rewrite Hwr in H2. injection H2 as <-.
        rewrite Hsz in H3. discriminate H3.
      - intros w1' w2' size' w3' H1 H2 H3.
        injection H1 as <-. rewrite Hwr in H2. injection H2 as <-.
        rewrite Hsz in H3. discriminate H3. }
  unfold ret at 1. unfold bind at 1. unfold upload_to_s3. cbv zeta.
  unfold try_except at 1. unfold bind at 1. unfold call at 1.
  cbn [world trace stats].
  destruct (run_s3_cp (log_file_of app e) (s3_uri_of app e) w3)
    as [[out | ex4] w4] eqn:Hcp.
  - assert (Hyes : exists w1' w2' size' w3' out' w4',
               (Done tt, w1) = (Done tt, w1')
               /\ write_text (log_file_of app e) (json_dumps j) w1' = (Done tt, w2')
               /\ path_getsize (log_file_of app e) w2' = (Done size', w3')
               /\ run_s3_cp (log_file_of app e) (s3_uri_of app e) w3'
                  = (Done out', w4'))
      by (exists w1, w2, size, w3, out, w4; auto).
    unfold bind at 1.
    destruct delete_after_upload.
    + unfold try_except at 1. unfold call at 1. cbn [world trace stats].
      destruct (os_remove (log_file_of app e) w4) as [[[] | ex5] w5];
        (exists true; do 2 eexists; split; [reflexivity |]; cbn [trace];
         repeat rewrite <- app_assoc; cbn [List.app];
         split; [reflexivity |]; split; [split; auto |];
         intros w1' w2' size' w3' H1 H2 H3; reflexivity).
    + exists true. do 2 eexists. split; [reflexivity |]. cbn [trace].
      repeat rewrite <- app_assoc. cbn [List.app].
      split; [reflexivity |]. split; [split; auto |].
      intros w1' w2' size' w3' H1 H2 H3. reflexivity.
  - exists false. do 2 eexists. split; [reflexivity |]. cbn [trace].
    repeat rewrite <- app_assoc. cbn [List.app].
    split; [reflexivity |]. split.
    + split; [discriminate |].
      intros (w1' & w2' & size' & w3' & out' & w4' & H1 & H2 & H3 & H4).
      injection H1 as <-. rewrite Hwr in H2. injection H2 as <-.
      rewrite Hsz in H3. injection H3 as <- <-.
      rewrite Hcp in H4. discriminate H4.
    + intros w1' w2' size' w3' H1 H2 H3. reflexivity.
Qed.

(** ** Depth bound *)

Lemma get_amplify_logs_split s e st :
  always_split app ->
  exists w',
    get_amplify_logs app s e st
    = (Ret (PStr "REDUCE_RANGE"), logged st w' (EvGenerateAccessLogs s e)).
Proof.
  intros Hsplit.
  destruct (Hsplit s e (world st)) as (stderr & w' & Hrun & Hc).
  exists w'. unfold get_amplify_logs, try_except, bind, call.
  rewrite Hrun, Hc. reflexivity.
Qed.

Lemma process_time_range_always_split delete_after_upload (levels : nat) :
  always_split app ->
  forall s e depth st,
    depth = 3 - Z.of_nat levels ->
    exists w',
      process_time_range app s e depth delete_after_upload st
      = (Ret (false, false),
         {| world := w';
            trace := trace st ++ split_events levels s e;
            stats := stats st |}).
Proof.
  intros Hsplit. induction levels as [| levels IH]; intros s e depth st Hd.
  - rewrite process_time_range_deep by lia.
    exists (world st). cbn [split_events]. rewrite app_nil_r.
    destruct st; reflexivity.
  - destruct (get_amplify_logs_split s e st Hsplit) as (w1 & Hget).
    rewrite (process_time_range_fetched app s e depth delete_after_upload st _ _
               ltac:(lia) Hget).
    cbn [py_eq_str String.eqb Ascii.eqb Bool.eqb andb].
    destruct (IH s (mid_time_of s e) (depth + 1)
                 (logged st w1 (EvGenerateAccessLogs s e)) ltac:(lia))
      as (w2 & H1).
    unfold try_except at 1. unfold bind at 1. rewrite H1.
    unfold bind at 1. unfold sleep at 1. unfold bind at 1.
    cbn [world trace stats].
    match goal with
    | |- context [process_time_range app (mid_time_of s e) e (depth + 1)
                    delete_after_upload ?st2] =>
        destruct (IH (mid_time_of s e) e (depth + 1) st2 ltac:(lia)) as (w3 & H2)
    end.
    rewrite H2. exists w3. cbn [fst snd ret orb andb trace stats logged].
    cbn [split_events]. repeat rewrite <- app_assoc. reflexivity.
Qed.

(** C3 (as amended): at any depth above 2 [process_time_range] returns
    failure at once, in the state it was called in, so without a fetch.  When
    the API asks to reduce every range, the run from depth 0 ends in failure
    after exactly seven fetches, those of the range, of its two halves and of
    its four quarters (depth 2); the eight eighths are turned down at depth 3
    without a fetch. *)
Theorem depth_bound_is_two delete_after_upload :
  (forall s e depth st,
      2 < depth ->
      process_time_range app s e depth delete_after_upload st
      = (Ret (false, false), st))
  /\ (always_split app ->
      forall s e st,
      exists st' evs,
        process_time_range app s e 0 delete_after_upload st
        = (Ret (false, false), st')
        /\ trace st' = trace st ++ evs
        /\ stats st' = stats st
        /\ let m := mid_time_of s e in
           fetched_ranges evs
           = [ (s, e);
               (s, m); (s, mid_time_of s m); (mid_time_of s m, m);
               (m, e); (m, mid_time_of m e); (mid_time_of m e, e) ]).
Proof.
  split.
  - intros s e depth st Hd. rewrite process_time_range_deep by assumption.
    reflexivity.
  - intros Hsplit s e st.
    destruct (process_time_range_always_split delete_after_upload 3 Hsplit
                s e 0 st eq_refl) as (w' & Hrun).
    eexists. exists (split_events 3 s e).
    split; [exact Hrun |]. cbn [trace stats].
    split; [reflexivity |]. split; reflexivity.
Qed.

(** ** A transient failure is tried once *)

Lemma process_time_range_none s e depth delete_after_upload st st1 :
  depth <= 2 ->
  get_amplify_logs app s e st = (Ret PNone, st1) ->
  process_time_range app s e depth delete_after_upload st
  = (Ret (false, false), st1)
  /\ exists rest,
       trace st1 = trace st ++ EvGenerateAccessLogs s e :: rest
       /\ fetched_ranges rest = []
       /\ filter is_sleep rest = [].
Proof.
  intros Hd Hget. split.
  - rewrite (process_time_range_fetched app s e depth delete_after_upload st _ _
               Hd Hget). reflexivity.
  - destruct (get_amplify_logs_trace app _ _ _ _ _ Hget) as (_ & rest & Ht & Hr).
    exists rest. split; [exact Ht |].
    destruct Hr as [-> | [url ->]]; split; reflexivity.
Qed.

End LocalClaims2.

Section DownloadLogs.

Import Local.

Context {W : Type} {P : Primitives W}.
Variable app : app_config.
Variable chunk_size_days : Z.

Lemma download_logs_run fuel start_date end_date delete_after_upload st ranges acc st' :
  generate_time_ranges chunk_size_days fuel start_date end_date = Ret ranges ->
  chunk_loop app delete_after_upload ranges
    (app_set_total (Z.of_nat (List.length ranges)) (init_app_stats app))
    (with_total (Z.of_nat (List.length ranges)) st)
  = (Ret acc, st') ->
  download_logs app chunk_size_days fuel start_date end_date delete_after_upload st
  = (Ret {| report_overall_stats := stats st'; report_app_stats := acc |}, st').
Proof.
  intros Hgen Hloop. unfold download_logs.
  unfold bind at 1. unfold lift. rewrite Hgen. cbv zeta.
  unfold bind at 1. unfold modify_stats at 1.
  unfold bind at 1. fold (with_total (Z.of_nat (List.length ranges)) st).
  rewrite Hloop. reflexivity.
Qed.

Lemma tally_sum s0 s1 success is_empty r :
  same_counts s0 s1 ->
  successful_chunks (tally app success is_empty r s1)
  + failed_chunks (tally app success is_empty r s1)
  = successful_chunks s0 + failed_chunks s0 + 1.
Proof.
  intros (_ & Hs & Hf & _). rewrite <- Hs, <- Hf.
  destruct success, is_empty; cbn; lia.
Qed.

Lemma app_tally_sum a success is_empty r :
  app_successful_chunks (app_tally success is_empty r a)
  + app_failed_chunks (app_tally success is_empty r a)
  = app_successful_chunks a + app_failed_chunks a + 1.
Proof. destruct success, is_empty; cbn; lia. Qed.

(** The loop returns from any state, whatever the world does, having counted
    every chunk as successful or as failed. *)
Lemma chunk_loop_returns delete_after_upload ranges : forall acc st,
  exists acc' st',
    chunk_loop app delete_after_upload ranges acc st = (Ret acc', st')
    /\ app_successful_chunks acc' + app_failed_chunks acc'
       = app_successful_chunks acc + app_failed_chunks acc
         + Z.of_nat (List.length ranges)
    /\ successful_chunks (stats st') + failed_chunks (stats st')
       = successful_chunks (stats st) + failed_chunks (stats st)
         + Z.of_nat (List.length ranges)
    /\ app_total_chunks acc' = app_total_chunks acc
    /\ total_chunks (stats st') = total_chunks (stats st).
Proof.
  induction ranges as [| r ranges IH]; intros acc st.
  - exists acc, st. cbn [chunk_loop List.length]. change (Z.of_nat 0) with 0.
    repeat split; lia.
  - destruct (process_time_range_returns app (fst r) (snd r) 0
                delete_after_upload st)
      as (success & is_empty & st1 & Hrun & _ & Hc).
    cbn [chunk_loop].
    rewrite (bind_ret_run _ _ _ _ _
               (process_chunk_run app delete_after_upload acc r st _ _ _ Hrun)).
    destruct (IH (app_tally success is_empty r acc)
                 {| world := time_sleep 1 (world st1);
                    trace := trace st1 ++ [EvSleep 1];
                    stats := tally app success is_empty r (stats st1) |})
      as (acc' & st' & Hloop & Ha & Hs & Ht & HT).
    exists acc', st'. split; [exact Hloop |].
    cbn [List.length stats] in *. rewrite Nat2Z.inj_succ.
    rewrite (tally_sum (stats st) (stats st1)) in Hs by assumption.
    rewrite app_tally_sum in Ha.
    rewrite app_tally_total in Ht. rewrite tally_total in HT.
    destruct Hc as (Htot & _).
    repeat split; lia.
Qed.

(** C8: whatever the fetch and storage calls do, [process_time_range]
    returns a pair and raises nothing; the loop over any list of chunks runs
    to its end and returns, having counted each chunk as successful or as
    failed; once [generate_time_ranges] has returned the chunks,
    [download_logs] returns its report, in which the successful and the
    failed chunks add up to the total; and it does return the chunks for a
    positive chunk size and dates that leave room before [datetime.max], so
    that [download_logs] then returns its report. *)
Theorem no_error_escapes_the_chunk_loop delete_after_upload :
  (forall s e depth st,
      exists success is_empty st',
        process_time_range app s e depth delete_after_upload st
        = (Ret (success, is_empty), st'))
  /\ (forall ranges acc st,
        exists acc' st',
          chunk_loop app delete_after_upload ranges acc st = (Ret acc', st')
          /\ app_successful_chunks acc' + app_failed_chunks acc'
             = app_successful_chunks acc + app_failed_chunks acc
               + Z.of_nat (List.length ranges))
  /\ (forall fuel start_date end_date st ranges,
        generate_time_ranges chunk_size_days fuel start_date end_date = Ret ranges ->
        stats st = init_stats ->
        exists rep st',
          download_logs app chunk_size_days fuel start_date end_date
                        delete_after_upload st
          = (Ret rep, st')
          /\ total_chunks (report_overall_stats rep) = Z.of_nat (List.length ranges)
          /\ successful_chunks (report_overall_stats rep)
             + failed_chunks (report_overall_stats rep)
             = Z.of_nat (List.length ranges)
          /\ app_total_chunks (report_app_stats rep) = Z.of_nat (List.length ranges)
          /\ app_successful_chunks (report_app_stats rep)
             + app_failed_chunks (report_app_stats rep)
             = Z.of_nat (List.length ranges))
  /\ (forall start_date end_date st,
        1 <= chunk_size_days -> 1 <= start_date ->
        end_of_day end_date + chunk_size_days * US_PER_DAY <= datetime_max ->
        exists fuel0,
          forall fuel, (fuel0 <= fuel)%nat ->
            exists rep st',
              download_logs app chunk_size_days fuel start_date end_date
                            delete_after_upload st
              = (Ret rep, st')
              /\ app_successful_chunks (report_app_stats rep)
                 + app_failed_chunks (report_app_stats rep)
                 = app_total_chunks (report_app_stats rep)).
Proof.
  split; [| split; [| split]]; cycle 3.
  { intros sd ed st Hc Hsd Hroom.
    destruct (generate_time_ranges_returns chunk_size_days sd ed Hc Hsd Hroom)
      as (fuel0 & ranges & Hgen).
    exists fuel0. intros fuel Hfuel.
    destruct (chunk_loop_returns delete_after_upload ranges
                (app_set_total (Z.of_nat (List.length ranges)) (init_app_stats app))
                (with_total (Z.of_nat (List.length ranges)) st))
      as (acc' & st' & Hloop & Ha & _ & Ht & _).
    eexists. exists st'.
    split; [exact (download_logs_run _ _ _ _ _ _ _ _ (Hgen fuel Hfuel) Hloop) |].
    cbn [report_app_stats]. rewrite Ht.
    cbn [app_set_total init_app_stats app_total_chunks app_successful_chunks
         app_failed_chunks] in *.
    lia. }
  - intros s e depth st.
    destruct (process_time_range_returns app s e depth delete_after_upload st)
      as (success & is_empty & st' & Hrun & _).
    eauto.
  - intros ranges acc st.
    destruct (chunk_loop_returns delete_after_upload ranges acc st)
      as (acc' & st' & Hloop & Ha & _).
    eauto.
  - intros fuel sd ed st ranges Hgen Hinit.
    destruct (chunk_loop_returns delete_after_upload ranges
                (app_set_total (Z.of_nat (List.length ranges)) (init_app_stats app))
                (with_total (Z.of_nat (List.length ranges)) st))
      as (acc' & st' & Hloop & Ha & Hs & Ht & HT).
    eexists. exists st'.
    split; [exact (download_logs_run _ _ _ _ _ _ _ _ Hgen Hloop) |].
    cbn [report_overall_stats report_app_stats].
    cbn [with_total stats set_total total_chunks successful_chunks failed_chunks
         app_set_total init_app_stats app_total_chunks app_successful_chunks
         app_failed_chunks] in *.
    rewrite Hinit in Hs. cbn [init_stats successful_chunks failed_chunks] in Hs.
    repeat split; lia.
Qed.

(** C9: on a downloader fresh from [__init__], after each iteration of the
    loop, that is after the loop over the first [k] chunks, the successful
    and the failed chunks add up to [k], there are as many failed ranges as
    failed chunks, and no more empty chunks than successful ones, in
    [app_stats] and in [self.stats] alike; the loop over the whole list is
    the loop over the first [k] chunks followed by the loop over the others;
    and the report returned by [download_logs] satisfies the same with the
    total number of chunks. *)
Theorem counters_stay_consistent delete_after_upload :
  (forall ranges n st (k : nat),
      stats st = init_stats ->
      (k <= List.length ranges)%nat ->
      exists acc st',
        chunk_loop app delete_after_upload (firstn k ranges)
                   (app_set_total n (init_app_stats app)) (with_total n st)
        = (Ret acc, st')
        /\ chunk_loop app delete_after_upload ranges
                      (app_set_total n (init_app_stats app)) (with_total n st)
           = chunk_loop app delete_after_upload (skipn k ranges) acc st'
        /\ app_stats_inv (Z.of_nat k) acc
        /\ stats_inv (Z.of_nat k) (stats st'))
  /\ (forall fuel start_date end_date st rep st',
        stats st = init_stats ->
        download_logs app chunk_size_days fuel start_date end_date
                      delete_after_upload st
        = (Ret rep, st') ->
        stats_inv (total_chunks (report_overall_stats rep)) (report_overall_stats rep)
        /\ app_stats_inv (app_total_chunks (report_app_stats rep))
                         (report_app_stats rep)).
Proof.
  assert (Hinit_app : forall n, app_stats_inv 0 (app_set_total n (init_app_stats app))).
  { intros n. unfold app_stats_inv. cbn. lia. }
  assert (Hinit : forall n (st : state W),
             stats st = init_stats -> stats_inv 0 (stats (with_total n st))).
  { intros n st H. unfold stats_inv. cbn. rewrite H. cbn. lia. }
  split.
  - intros ranges n st k Hst Hk.
    destruct (chunk_loop_spec app delete_after_upload (firstn k ranges)
                (app_set_total n (init_app_stats app)) (with_total n st) 0
                (Hinit_app n) (Hinit n st Hst))
      as (acc & st' & Hloop & Ha & Hs & _).
    rewrite length_firstn, Nat.min_l in Ha, Hs by assumption.
    exists acc, st'. split; [exact Hloop |]. split; [| split; assumption].
    rewrite <- (firstn_skipn k ranges) at 1.
    rewrite chunk_loop_app. apply bind_ret_run. exact Hloop.
  - intros fuel sd ed st rep st' Hst Hrun.
    unfold download_logs in Hrun. unfold bind at 1 in Hrun. unfold lift in Hrun.
    destruct (generate_time_ranges chunk_size_days fuel sd ed) as [ranges | ex |];
      try discriminate.
    cbv zeta in Hrun. unfold bind at 1 in Hrun.
    unfold modify_stats at 1 in Hrun. unfold bind at 1 in Hrun.
    fold (with_total (Z.of_nat (List.length ranges)) st) in Hrun.
    destruct (chunk_loop_spec app delete_after_upload ranges
                (app_set_total (Z.of_nat (List.length ranges)) (init_app_stats app))
                (with_total (Z.of_nat (List.length ranges)) st) 0
                (Hinit_app _) (Hinit _ st Hst))
      as (acc & st1 & Hloop & Ha & Hs & Ht & HT).
    rewrite Hloop in Hrun. injection Hrun as <- <-.
    cbn [report_overall_stats report_app_stats].
    rewrite Ht, HT.
    cbn [with_total stats set_total total_chunks app_set_total app_total_chunks].
    split; assumption.
Qed.

End DownloadLogs.

(** ** The retry loop of the Lambda *)

Section LambdaFacts.

Context {W : Type} {P : Lambda.Primitives W}.
Variable app : Lambda.app_config.

Lemma api_calls_app a b :
  Lambda.api_calls (a ++ b) = Lambda.api_calls a ++ Lambda.api_calls b.
Proof.
  induction a as [| [] a IH]; cbn [List.app Lambda.api_calls]; rewrite ?IH;
    reflexivity.
Qed.

Lemma sleeps_app a b :
  Lambda.sleeps (a ++ b) = Lambda.sleeps a ++ Lambda.sleeps b.
Proof.
  induction a as [| [] a IH]; cbn [List.app Lambda.sleeps]; rewrite ?IH;
    reflexivity.
Qed.

Lemma sleep_error_accepted seconds :
  0 <= seconds <= MAX_SLEEP -> sleep_error seconds = None.
Proof.
  intros H. unfold sleep_error.
  destruct (Z.ltb_spec seconds (- MAX_SLEEP)); [unfold MAX_SLEEP in *; lia |].
  destruct (Z.ltb_spec MAX_SLEEP seconds); [lia |]. cbn [orb].
  destruct (Z.ltb_spec seconds 0); [lia | reflexivity].
Qed.

Lemma sleep_error_negative seconds :
  seconds < 0 -> exists ex, sleep_error seconds = Some ex.
Proof.
  intros H. unfold sleep_error.
  destruct ((seconds <? - MAX_SLEEP) || (MAX_SLEEP <? seconds));
    [eexists; reflexivity |].
  destruct (Z.ltb_spec seconds 0); [eexists; reflexivity | lia].
Qed.

(** The delays grow with the attempts, so the last one bounds them all. *)
Lemma delays_accepted_bound max_retries retry_delay :
  0 <= retry_delay -> retry_delay * 2 ^ (max_retries - 2) <= MAX_SLEEP ->
  delays_accepted max_retries retry_delay.
Proof.
  intros H0 Hmax retry Hr. apply sleep_error_accepted. split.
  - apply Z.mul_nonneg_nonneg; [exact H0 |]. apply Z.pow_nonneg. lia.
  - eapply Z.le_trans; [| exact Hmax].
    apply Z.mul_le_mono_nonneg_l; [exact H0 |].
    apply Z.pow_le_mono_r; lia.
Qed.

Lemma retry_or_give_up_run retry max_retries retry_delay (st : Lambda.state W) :
  Lambda.retry_or_give_up retry max_retries retry_delay st
  = if retry <? max_retries - 1
    then match sleep_error (retry_delay * 2 ^ retry) with
         | Some ex =>
             (Raise ex,
              {| Lambda.world := Lambda.world st;
                 Lambda.trace :=
                   Lambda.trace st ++ [Lambda.EvSleep (retry_delay * 2 ^ retry)] |})
         | None =>
             (Ret None,
              {| Lambda.world :=
                   Lambda.time_sleep (retry_delay * 2 ^ retry) (Lambda.world st);
                 Lambda.trace :=
                   Lambda.trace st ++ [Lambda.EvSleep (retry_delay * 2 ^ retry)] |})
         end
    else (Ret (Some []), st).
Proof.
  unfold Lambda.retry_or_give_up.
  destruct (retry <? max_retries - 1); [| reflexivity].
  unfold bind, Lambda.sleep. destruct (sleep_error (retry_delay * 2 ^ retry));
    reflexivity.
Qed.

(** The decision between retry and giving up when the delay is accepted. *)
Lemma retry_or_give_up_accepted retry max_retries retry_delay
    (st : Lambda.state W) :
  (retry < max_retries - 1 -> sleep_error (retry_delay * 2 ^ retry) = None) ->
  Lambda.retry_or_give_up retry max_retries retry_delay st
  = if retry <? max_retries - 1
    then (Ret None,
          {| Lambda.world :=
               Lambda.time_sleep (retry_delay * 2 ^ retry) (Lambda.world st);
             Lambda.trace :=
               Lambda.trace st ++ [Lambda.EvSleep (retry_delay * 2 ^ retry)] |})
    else (Ret (Some []), st).
Proof.
  intros H. rewrite retry_or_give_up_run.
  destruct (Z.ltb_spec retry (max_retries - 1)) as [Hlt | _]; [| reflexivity].
  rewrite (H Hlt). reflexivity.
Qed.

Lemma sleep_error_transient seconds ex :
  sleep_error seconds = Some ex -> Lambda.transient ex = true.
Proof.
  unfold sleep_error.
  destruct ((seconds <? - MAX_SLEEP) || (MAX_SLEEP <? seconds)).
  - intros H. injection H as <-. reflexivity.
  - destruct (seconds <? 0); [| discriminate].
    intros H. injection H as <-. reflexivity.
Qed.

Lemma transient_handler handle_large retry max_retries retry_delay ex
    (st : Lambda.state W) :
  Lambda.transient ex = true ->
  match ex with
  | BadRequestException msg =>
      if contains "reduce time range" msg || contains "Too many records" msg
      then paths <- handle_large ;; ret (Some paths)
      else Lambda.retry_or_give_up retry max_retries retry_delay
  | ResourceNotFoundException _ => ret (Some [])
  | _ => Lambda.retry_or_give_up retry max_retries retry_delay
  end st
  = Lambda.retry_or_give_up retry max_retries retry_delay st.
Proof.
  destruct ex; cbn [Lambda.transient]; intros H; try reflexivity; try discriminate.
  apply negb_true_iff in H. rewrite H. reflexivity.
Qed.

(** A transient attempt calls the API once, on the range itself, and goes on
    to the decision between retry and giving up. *)
Lemma attempt_transient handle_large s e path max_retries retry_delay retry
    (st : Lambda.state W) :
  transient_attempt app s e (Lambda.world st) ->
  exists st1 evs,
    Lambda.attempt app handle_large s e path max_retries retry_delay retry st
    = Lambda.retry_or_give_up retry max_retries retry_delay st1
    /\ Lambda.trace st1 = Lambda.trace st ++ evs
    /\ Lambda.api_calls evs = [(s, e)]
    /\ ((retry < max_retries - 1 ->
         sleep_error (retry_delay * 2 ^ retry) = None) ->
        Lambda.sleeps evs = []).
Proof.
  unfold transient_attempt, Lambda.attempt.
  unfold try_except at 1. unfold bind at 1. unfold Lambda.call at 1.
  destruct (Lambda.generate_access_logs app s e (Lambda.world st))
    as [[response | ex] w1].
  - unfold bind at 1. unfold lift at 1.
    destruct (py_contains "logUrl" response) as [[|] | ex |]; intros H;
      try contradiction.
    + unfold bind at 1. unfold lift at 1.
      destruct (py_getitem response "logUrl") as [url | ex |];
        try contradiction.
      * unfold bind at 1. unfold Lambda.call at 1. cbn [Lambda.world Lambda.trace].
        destruct (Lambda.requests_get url w1) as [[r | ex] w2].
        -- destruct (Z.eqb_spec (fst r) 200) as [Heq | _]; [contradiction |].
           rewrite retry_or_give_up_run. cbn [Lambda.world Lambda.trace].
           destruct (Z.ltb_spec retry (max_retries - 1)) as [Hlt | Hge].
           ++ destruct (sleep_error (retry_delay * 2 ^ retry)) as [ex |] eqn:Hs.
              ** rewrite (transient_handler _ _ _ _ _ _
                            (sleep_error_transient _ _ Hs)).
                 eexists.
                 exists [Lambda.EvGenerateAccessLogs s e; Lambda.EvHttpGet url;
                         Lambda.EvSleep (retry_delay * 2 ^ retry)].
                 split; [reflexivity |]. cbn [Lambda.trace].
                 rewrite <- !app_assoc. split; [reflexivity |].
                 split; [reflexivity |].
                 intros Hok. specialize (Hok Hlt). discriminate Hok.
              ** exists {| Lambda.world := w2;
                           Lambda.trace :=
                             (Lambda.trace st ++ [Lambda.EvGenerateAccessLogs s e])
                             ++ [Lambda.EvHttpGet url] |}.
                 exists [Lambda.EvGenerateAccessLogs s e; Lambda.EvHttpGet url].
                 split.
                 { rewrite retry_or_give_up_run.
                   destruct (Z.ltb_spec retry (max_retries - 1)); [| lia].
                   rewrite Hs. reflexivity. }
                 cbn [Lambda.trace]. rewrite <- app_assoc. repeat split.
           ++ exists {| Lambda.world := w2;
                        Lambda.trace :=
                          (Lambda.trace st ++ [Lambda.EvGenerateAccessLogs s e])
                          ++ [Lambda.EvHttpGet url] |}.
              exists [Lambda.EvGenerateAccessLogs s e; Lambda.EvHttpGet url].
              split.
              { rewrite retry_or_give_up_run.
                destruct (Z.ltb_spec retry (max_retries - 1)); [lia |].
                reflexivity. }
              cbn [Lambda.trace]. rewrite <- app_assoc. repeat split.
        -- rewrite transient_handler by assumption.
           eexists. exists [Lambda.EvGenerateAccessLogs s e; Lambda.EvHttpGet url].
           split; [reflexivity |]. cbn [Lambda.trace].
           rewrite <- app_assoc. repeat split.
      * rewrite transient_handler by assumption.
        eexists. exists [Lambda.EvGenerateAccessLogs s e].
        split; [reflexivity |]. repeat split.
    + rewrite transient_handler by assumption.
      eexists. exists [Lambda.EvGenerateAccessLogs s e].
      split; [reflexivity |]. repeat split.
  - intros H. rewrite transient_handler by assumption.
    eexists. exists [Lambda.EvGenerateAccessLogs s e].
    split; [reflexivity |]. repeat split.
Qed.

(** The loop over the attempts [k], [k+1], ..., [k+n-1], the last of which is
    attempt [max_retries - 1]. *)
Lemma retry_loop_transient handle_large s e path max_retries retry_delay (n : nat) :
  (forall w, transient_attempt app s e w) ->
  delays_accepted max_retries retry_delay ->
  forall (k : nat) (st : Lambda.state W),
    Z.of_nat k + Z.of_nat n = max_retries ->
    exists st' evs,
      Lambda.retry_loop
        (Lambda.attempt app handle_large s e path max_retries retry_delay)
        (map Z.of_nat (seq k n)) st
      = (Ret [], st')
      /\ Lambda.trace st' = Lambda.trace st ++ evs
      /\ Lambda.api_calls evs = repeat (s, e) n
      /\ Lambda.sleeps evs
         = map (fun i => retry_delay * 2 ^ Z.of_nat i) (seq k (n - 1)).
Proof.
  intros Htr Hok. induction n as [| n IH]; intros k st Hk.
  - exists st, []. cbn. rewrite app_nil_r. auto.
  - cbn [seq map Lambda.retry_loop].
    assert (Hk_ok : Z.of_nat k < max_retries - 1 ->
                    sleep_error (retry_delay * 2 ^ Z.of_nat k) = None).
    { intros Hlt. apply Hok. lia. }
    destruct (attempt_transient handle_large s e path max_retries retry_delay
                (Z.of_nat k) st (Htr _)) as (st1 & evs1 & Hrun & Ht1 & Ha1 & Hs1).
    specialize (Hs1 Hk_ok).
    unfold bind at 1. rewrite Hrun, (retry_or_give_up_accepted _ _ _ _ Hk_ok).
    destruct (Z.ltb_spec (Z.of_nat k) (max_retries - 1)) as [Hlt | Hge].
    + destruct n as [| n]; [lia |].
      match goal with
      | |- context [Lambda.retry_loop _ _ ?st2] =>
          destruct (IH (Datatypes.S k) st2 ltac:(lia))
            as (st' & evs & Hloop & Ht & Ha & Hs)
      end.
      rewrite Hloop. cbn [Lambda.trace] in Ht.
      exists st', (evs1 ++ [Lambda.EvSleep (retry_delay * 2 ^ Z.of_nat k)] ++ evs).
      split; [reflexivity |]. split; [| split].
      * rewrite Ht, Ht1. repeat rewrite <- app_assoc. reflexivity.
      * rewrite api_calls_app, Ha1. cbn [List.app Lambda.api_calls].
        rewrite Ha. reflexivity.
      * rewrite sleeps_app, Hs1. cbn [List.app Lambda.sleeps].
        rewrite Hs. cbn [Nat.sub]. rewrite Nat.sub_0_r. reflexivity.
    + assert (n = 0%nat) by lia. subst n.
      exists st1, evs1. cbn [ret]. split; [reflexivity |].
      split; [exact Ht1 |]. split; [exact Ha1 | exact Hs1].
Qed.

(** The function as a whole on a range whose attempts are all transient. *)
Lemma download_amplify_logs_transient fuel s e temp_dir max_retries retry_delay
    (st : Lambda.state W) w1 w2 :
  1 <= max_retries ->
  delays_accepted max_retries retry_delay ->
  Lambda.os_makedirs (Lambda.output_dir_of app temp_dir s) (Lambda.world st)
  = (Done tt, w1) ->
  Lambda.boto3_client (Lambda.region app) w1 = (Done tt, w2) ->
  (forall w, transient_attempt app s e w) ->
  exists st' evs,
    Lambda.download_amplify_logs app (Datatypes.S fuel) s e temp_dir
                                 max_retries retry_delay st
    = (Ret [], st')
    /\ Lambda.trace st'
       = Lambda.trace st
         ++ [ Lambda.EvMakedirs (Lambda.output_dir_of app temp_dir s);
              Lambda.EvClient (Lambda.region app) ] ++ evs
    /\ Lambda.api_calls evs = repeat (s, e) (Z.to_nat max_retries)
    /\ Lambda.sleeps evs
       = map (fun i => retry_delay * 2 ^ i) (py_range (max_retries - 1)).
Proof.
  intros Hmax Hok Hmk Hcl Htr.
  cbn [Lambda.download_amplify_logs]. unfold Lambda.download_with.
  unfold try_except at 1. unfold bind at 1. unfold Lambda.call at 1.
  rewrite Hmk. unfold bind at 1. unfold Lambda.call at 1.
  cbn [Lambda.world Lambda.trace]. rewrite Hcl.
  unfold py_range.
  match goal with
  | |- context [Lambda.retry_loop (Lambda.attempt app ?h s e ?p _ _) _ ?st2] =>
      destruct (retry_loop_transient h s e p max_retries retry_delay
                  (Z.to_nat max_retries) Htr Hok 0%nat st2 ltac:(lia))
        as (st' & evs & Hloop & Ht & Ha & Hs)
  end.
  rewrite Hloop. exists st', evs. split; [reflexivity |].
  cbn [Lambda.trace] in Ht. split; [| split].
  - rewrite Ht. repeat rewrite <- app_assoc. reflexivity.
  - exact Ha.
  - rewrite Hs, map_map. f_equal. f_equal. lia.
Qed.

(** With a delay that [time.sleep] refuses, the sleep after the first
    attempt raises and the function returns the empty list there. *)
Lemma download_amplify_logs_refused_delay fuel s e temp_dir max_retries retry_delay
    (st : Lambda.state W) w1 w2 :
  2 <= max_retries ->
  retry_delay < 0 ->
  Lambda.os_makedirs (Lambda.output_dir_of app temp_dir s) (Lambda.world st)
  = (Done tt, w1) ->
  Lambda.boto3_client (Lambda.region app) w1 = (Done tt, w2) ->
  transient_attempt app s e w2 ->
  exists st' evs,
    Lambda.download_amplify_logs app (Datatypes.S fuel) s e temp_dir
                                 max_retries retry_delay st
    = (Ret [], st')
    /\ Lambda.trace st'
       = Lambda.trace st
         ++ [ Lambda.EvMakedirs (Lambda.output_dir_of app temp_dir s);
              Lambda.EvClient (Lambda.region app) ] ++ evs
    /\ Lambda.api_calls evs = [(s, e)].
Proof.
  intros Hmax Hneg Hmk Hcl Htr.
  destruct (sleep_error_negative (retry_delay * 2 ^ 0) ltac:(lia)) as (ex & Hex).
  cbn [Lambda.download_amplify_logs]. unfold Lambda.download_with.
  unfold try_except at 1. unfold bind at 1. unfold Lambda.call at 1.
  rewrite Hmk. unfold bind at 1. unfold Lambda.call at 1.
  cbn [Lambda.world Lambda.trace]. rewrite Hcl.
  unfold py_range.
  destruct (Z.to_nat max_retries) as [| n] eqn:Hn; [lia |].
  cbn [seq map Lambda.retry_loop]. change (Z.of_nat 0) with 0.
  unfold bind at 1.
  match goal with
  | |- context [Lambda.attempt app ?h s e ?p _ _ _ ?st2] =>
      destruct (attempt_transient h s e p max_retries retry_delay 0 st2 Htr)
        as (st1 & evs1 & Hrun & Ht1 & Ha1 & _)
  end.
  rewrite Hrun, retry_or_give_up_run.
  destruct (Z.ltb_spec 0 (max_retries - 1)) as [_ | Hge]; [| lia].
  rewrite Hex. unfold ret.
  eexists. exists (evs1 ++ [Lambda.EvSleep (retry_delay * 2 ^ 0)]).
  split; [reflexivity |]. cbn [Lambda.trace] in Ht1 |- *. split.
  - rewrite Ht1. repeat rewrite <- app_assoc. reflexivity.
  - rewrite api_calls_app, Ha1. reflexivity.
Qed.

(** The depth guard of [handle_large_time_range] is never reached: every
    call passes the default depth 0, so an API that asks to reduce every
    range drives the recursion as deep as the fuel allows. *)
Lemma download_amplify_logs_split_unbounded fuel :
  lambda_always_split app ->
  forall s e temp_dir max_retries retry_delay (st : Lambda.state W),
    1 <= max_retries ->
    (forall p w, exists w', Lambda.os_makedirs p w = (Done tt, w')) ->
    (forall r w, exists w', Lambda.boto3_client r w = (Done tt, w')) ->
    fst (Lambda.download_amplify_logs app fuel s e temp_dir max_retries
                                      retry_delay st) = Diverge.
Proof.
  intros Hsplit. induction fuel as [| fuel IH];
    intros s e temp_dir max_retries retry_delay st Hmax Hmk Hcl; [reflexivity |].
  cbn [Lambda.download_amplify_logs]. unfold Lambda.download_with.
  unfold try_except at 1. unfold bind at 1. unfold Lambda.call at 1.
  destruct (Hmk (Lambda.output_dir_of app temp_dir s) (Lambda.world st))
    as (w1 & ->).
  unfold bind at 1. unfold Lambda.call at 1. cbn [Lambda.world Lambda.trace].
  destruct (Hcl (Lambda.region app) w1) as (w2 & ->).
  unfold py_range.
  destruct (Z.to_nat max_retries) as [| n] eqn:Hn; [lia |].
  cbn [seq map Lambda.retry_loop].
  unfold bind at 1. unfold Lambda.attempt at 1.
  unfold try_except at 1. unfold bind at 1. unfold Lambda.call at 1.
  cbn [Lambda.world Lambda.trace].
  destruct (Hsplit s e w2) as (msg & w3 & -> & ->).
  unfold bind at 1. unfold Lambda.handle_large_time_range at 1.
  change (3 <=? 0) with false. cbv iota.
  unfold bind at 1.
  match goal with
  | |- context [Lambda.download_amplify_logs app fuel ?a ?b ?c ?d ?f ?g] =>
      pose proof (IH a b c d f g ltac:(lia) Hmk Hcl) as Hd;
      destruct (Lambda.download_amplify_logs app fuel a b c d f g)
        as [[paths | ex |] st4]; cbn [fst] in Hd; try discriminate
  end.
  reflexivity.
Qed.

End LambdaFacts.

(** ** Retries *)

(** C4 (as amended): the fetcher of the Lambda, [download_amplify_logs], on a
    range whose every attempt ends in a transient failure, and with a
    [retry_delay] that is not negative and whose largest backoff
    [retry_delay * 2 ** (max_retries - 2)] is a delay [time.sleep] accepts,
    calls the API [max_retries] times on that same range, sleeping
    [retry_delay * 2 ** retry] after each attempt but the last, and returns
    the empty list without splitting the range; with the defaults these are
    three attempts and sleeps of 2 and 4 seconds.  With a negative
    [retry_delay] and at least two attempts allowed, the sleep after the
    first attempt raises, and the function returns the empty list after that
    one call of the API.  The fetcher of the CLI, [get_amplify_logs] under
    [process_time_range], has no retry: on a range whose fetch returns
    [None] it makes that one attempt, sleeps for no backoff, does not split,
    and reports failure. *)
Theorem transient_failure_retry_bound :
  (forall (W : Type) (P : Lambda.Primitives W) (app : Lambda.app_config)
          fuel s e temp_dir max_retries retry_delay (st : Lambda.state W) w1 w2,
      1 <= max_retries ->
      0 <= retry_delay ->
      retry_delay * 2 ^ (max_retries - 2) <= MAX_SLEEP ->
      Lambda.os_makedirs (Lambda.output_dir_of app temp_dir s) (Lambda.world st)
      = (Done tt, w1) ->
      Lambda.boto3_client (Lambda.region app) w1 = (Done tt, w2) ->
      (forall w, transient_attempt app s e w) ->
      exists st' evs,
        Lambda.download_amplify_logs app (S fuel) s e temp_dir
                                     max_retries retry_delay st
        = (Ret [], st')
        /\ Lambda.trace st'
           = Lambda.trace st
             ++ [ Lambda.EvMakedirs (Lambda.output_dir_of app temp_dir s);
                  Lambda.EvClient (Lambda.region app) ] ++ evs
        /\ Lambda.api_calls evs = repeat (s, e) (Z.to_nat max_retries)
        /\ Lambda.sleeps evs
           = map (fun retry => retry_delay * 2 ^ retry) (py_range (max_retries - 1))
        /\ (max_retries = 3 -> retry_delay = 2 ->
            Lambda.api_calls evs = [(s, e); (s, e); (s, e)]
            /\ Lambda.sleeps evs = [2; 4]))
  /\
  (forall (W : Type) (P : Lambda.Primitives W) (app : Lambda.app_config)
          fuel s e temp_dir max_retries retry_delay (st : Lambda.state W) w1 w2,
      2 <= max_retries ->
      retry_delay < 0 ->
      Lambda.os_makedirs (Lambda.output_dir_of app temp_dir s) (Lambda.world st)
      = (Done tt, w1) ->
      Lambda.boto3_client (Lambda.region app) w1 = (Done tt, w2) ->
      transient_attempt app s e w2 ->
      exists st' evs,
        Lambda.download_amplify_logs app (S fuel) s e temp_dir
                                     max_retries retry_delay st
        = (Ret [], st')
        /\ Lambda.trace st'
           = Lambda.trace st
             ++ [ Lambda.EvMakedirs (Lambda.output_dir_of app temp_dir s);
                  Lambda.EvClient (Lambda.region app) ] ++ evs
        /\ Lambda.api_calls evs = [(s, e)])
  /\
  (forall (W : Type) (P : Local.Primitives W) (app : Local.app_config)
          s e depth delete_after_upload (st st1 : Local.state W),
      depth <= 2 ->
      Local.get_amplify_logs app s e st = (Ret PNone, st1) ->
      Local.process_time_range app s e depth delete_after_upload st
      = (Ret (false, false), st1)
      /\ exists rest,
           Local.trace st1
           = Local.trace st ++ Local.EvGenerateAccessLogs s e :: rest
           /\ Local.fetched_ranges rest = []
           /\ filter Local.is_sleep rest = []).
Proof.
  split; [| split].
  - intros W P app fuel s e temp_dir max_retries retry_delay st w1 w2
           Hmax H0 Hbound Hmk Hcl Htr.
    destruct (download_amplify_logs_transient app fuel s e temp_dir max_retries
                retry_delay st w1 w2 Hmax
                (delays_accepted_bound _ _ H0 Hbound) Hmk Hcl Htr)
      as (st' & evs & Hrun & Ht & Ha & Hs).
    exists st', evs. repeat (split; [assumption |]).
    intros -> ->. rewrite Ha, Hs. split; reflexivity.
  - intros W P app fuel s e temp_dir max_retries retry_delay st w1 w2
           Hmax Hneg Hmk Hcl Htr.
    exact (download_amplify_logs_refused_delay app fuel s e temp_dir max_retries
             retry_delay st w1 w2 Hmax Hneg Hmk Hcl Htr).
  - intros W P app s e depth delete_after_upload st st1 Hd Hget.
    apply process_time_range_none; assumption.
Qed.

(** ** The properties at concrete inputs *)

Section Witnesses.

Import Scenarios.

Lemma transient_failure_retry_bound_witness :
  (exists st',
      Lambda.download_amplify_logs (P := lambda_transient_world) lambda_app 1
        day1_start day1_end "/tmp/logs" 3 2 lambda_init
      = (Ret [], st')
      /\ Lambda.api_calls (Lambda.trace st')
         = [ (day1_start, day1_end); (day1_start, day1_end);
             (day1_start, day1_end) ]
      /\ Lambda.sleeps (Lambda.trace st') = [2; 4])
  /\ (exists st',
        Lambda.download_amplify_logs (P := lambda_transient_world) lambda_app 1
          day1_start day1_end "/tmp/logs" 3 (-2) lambda_init
        = (Ret [], st')
        /\ Lambda.api_calls (Lambda.trace st') = [(day1_start, day1_end)])
  /\ Local.process_time_range (P := always_transient_world) demo_app
       day1_start day1_end 0 false fresh
     = (Ret (false, false),
        snd (Local.get_amplify_logs (P := always_transient_world) demo_app
               day1_start day1_end fresh)).
Proof.
  split; [| split].
  - destruct (proj1 transient_failure_retry_bound unit lambda_transient_world
                lambda_app 0%nat day1_start day1_end "/tmp/logs"%string 3 2
                lambda_init tt tt ltac:(discriminate) ltac:(discriminate)
                ltac:(discriminate) eq_refl eq_refl)
      as (st' & evs & Hrun & Ht & _ & _ & Hdef).
    + intros []. reflexivity.
    + destruct (Hdef eq_refl eq_refl) as [Ha Hs].
      exists st'. split; [exact Hrun |].
      rewrite Ht. cbn [Lambda.trace lambda_init List.app Lambda.api_calls
                       Lambda.sleeps].
      split; assumption.
  - destruct (proj1 (proj2 transient_failure_retry_bound) unit
                lambda_transient_world lambda_app 0%nat day1_start day1_end
                "/tmp/logs"%string 3 (-2) lambda_init tt tt
                ltac:(discriminate) eq_refl eq_refl eq_refl eq_refl)
      as (st' & evs & Hrun & Ht & Ha).
    exists st'. split; [exact Hrun |].
    rewrite Ht. cbn [Lambda.trace lambda_init List.app Lambda.api_calls].
    exact Ha.
  - apply (proj2 (proj2 transient_failure_retry_bound) unit
             always_transient_world demo_app day1_start day1_end 0 false fresh);
      [discriminate |].
    reflexivity.
Defined.

Lemma generate_day1 :
  Local.generate_time_ranges 14 5 1 1 = Ret [(day1_start, day1_end)].
Proof. vm_compute. reflexivity. Qed.

Lemma empty_payload_is_success_without_persist_witness :
  Local.get_amplify_logs (P := empty_logs_world) demo_app day1_start day1_end fresh
  = (Ret (PStr EmptyString),
     snd (Local.get_amplify_logs (P := empty_logs_world) demo_app
            day1_start day1_end fresh))
  /\ Local.process_time_range (P := empty_logs_world) demo_app
       day1_start day1_end 0 false fresh
     = (Ret (true, true),
        snd (Local.get_amplify_logs (P := empty_logs_world) demo_app
               day1_start day1_end fresh))
  /\ exists st' acc',
       Local.process_chunk (P := empty_logs_world) demo_app false
         (Local.init_app_stats demo_app) (day1_start, day1_end) fresh
       = (Ret acc', st')
       /\ Local.successful_chunks (Local.stats st') = 1
       /\ Local.empty_logs_chunks (Local.stats st') = 1
       /\ Local.failed_chunks (Local.stats st') = 0
       /\ Local.app_successful_chunks acc' = 1
       /\ Local.app_empty_logs_chunks acc' = 1
       /\ filter Local.is_persist (Local.trace st') = [].
Proof.
  assert (H : Local.get_amplify_logs (P := empty_logs_world) demo_app
                day1_start day1_end fresh
              = (Ret (PStr EmptyString),
                 snd (Local.get_amplify_logs (P := empty_logs_world) demo_app
                        day1_start day1_end fresh)))
    by reflexivity.
  split; [exact H |].
  destruct (empty_payload_is_success_without_persist (P := empty_logs_world)
              demo_app false (Local.init_app_stats demo_app)
              day1_start day1_end fresh _ H)
    as (Hrun & st' & acc' & Hchunk & _ & _ & Hs & He & Hf & _ & _ & _
        & Has & Hae & _ & _ & evs & Ht & Hp).
  split; [exact Hrun |].
  exists st', acc'. split; [exact Hchunk |].
  split; [exact Hs |]. split; [exact He |]. split; [exact Hf |].
  split; [exact Has |]. split; [exact Hae |].
  rewrite Ht. exact Hp.
Defined.

Lemma upload_failure_counts_chunk_as_failed_witness :
  exists st',
    Local.process_chunk (P := upload_fails_world) demo_app false
      (Local.init_app_stats demo_app) (day1_start, day1_end) fresh
    = (Ret (Local.app_record_failed (day1_start, day1_end)
              (Local.init_app_stats demo_app)), st')
    /\ Local.upload_failures (Local.stats st') = 1
    /\ Local.failed_chunks (Local.stats st') = 1
    /\ Local.successful_chunks (Local.stats st') = 0.
Proof.
  pose (st1 := snd (Local.get_amplify_logs (P := upload_fails_world) demo_app
                      day1_start day1_end fresh)).
  pose (logs := PStr "GET / 200").
  pose (st2 := snd (Local.save_logs_locally (P := upload_fails_world) demo_app
                      logs day1_end st1)).
  destruct (upload_failure_counts_chunk_as_failed (P := upload_fails_world)
              demo_app false (Local.init_app_stats demo_app)
              day1_start day1_end fresh logs st1
              (Local.log_file_of (P := upload_fails_world) demo_app day1_end) st2
              (CalledProcessError "upload failed: Access Denied") tt
              eq_refl eq_refl eq_refl eq_refl eq_refl eq_refl)
    as (st' & Hrun & _ & Hu & Hf & Hs & _).
  exists st'. split; [exact Hrun |]. split; [exact Hu |]. split; [exact Hf | exact Hs].
Defined.

Lemma partial_success_is_success_witness :
  Local.process_time_range (P := half_fails_world) demo_app
    day1_start day1_mid 1 false
    (snd (Local.get_amplify_logs (P := half_fails_world) demo_app
            day1_start day1_end fresh))
  = (Ret (true, false),
     snd (Local.process_time_range (P := half_fails_world) demo_app
            day1_start day1_mid 1 false
            (snd (Local.get_amplify_logs (P := half_fails_world) demo_app
                    day1_start day1_end fresh))))
  /\ fst (Local.process_time_range (P := half_fails_world) demo_app
            day1_start day1_end 0 false fresh)
     = Ret (true, false).
Proof.
  pose (st1 := snd (Local.get_amplify_logs (P := half_fails_world) demo_app
                      day1_start day1_end fresh)).
  pose (st2 := snd (Local.process_time_range (P := half_fails_world) demo_app
                      day1_start day1_mid 1 false st1)).
  pose (st3 := snd (Local.process_time_range (P := half_fails_world) demo_app
                      day1_mid day1_end 1 false
                      (slept (P := half_fails_world) st2))).
  assert (H1 : Local.process_time_range (P := half_fails_world) demo_app
                 day1_start day1_mid 1 false st1
               = (Ret (true, false), st2)) by reflexivity.
  split; [exact H1 |].
  rewrite (proj1 (partial_success_is_success (P := half_fails_world) demo_app
                    false (Local.init_app_stats demo_app) day1_start day1_end
                    fresh st1 false st2 false st3 eq_refl H1 eq_refl)).
  reflexivity.
Defined.

Lemma always_split_world_splits : always_split (P := always_split_world) demo_app.
Proof.
  intros s e [].
  exists "An error occurred (BadRequestException): Please reduce time range"%string, tt.
  split; reflexivity.
Qed.

Lemma depth_bound_is_two_witness :
  always_split (P := always_split_world) demo_app
  /\ (exists st' evs,
       Local.process_time_range (P := always_split_world) demo_app
         day1_start day1_end 0 false fresh
       = (Ret (false, false), st')
       /\ Local.trace st' = Local.trace fresh ++ evs
       /\ List.length (Local.fetched_ranges evs) = 7%nat)
  /\ (2 < 3
      /\ Local.process_time_range (P := always_ok_world) demo_app
           day1_start day1_end 3 false fresh
         = (Ret (false, false), fresh)).
Proof.
  split; [exact always_split_world_splits |]. split.
  - destruct (proj2 (depth_bound_is_two (P := always_split_world) demo_app false)
                always_split_world_splits day1_start day1_end fresh)
      as (st' & evs & Hrun & Ht & _ & Hf).
    exists st', evs. split; [exact Hrun |]. split; [exact Ht |].
    cbv zeta in Hf. rewrite Hf. reflexivity.
  - assert (H : 2 < 3) by reflexivity.
    split; [exact H |].
    exact (proj1 (depth_bound_is_two (P := always_ok_world) demo_app false)
             day1_start day1_end 3 fresh H).
Defined.

Lemma no_error_escapes_the_chunk_loop_witness :
  Local.generate_time_ranges 14 5 1 20
  = Ret [ (start_of_day 1, end_of_day 14); (start_of_day 15, end_of_day 20) ]
  /\ (exists rep st',
       Local.download_logs (P := all_raise_world) demo_app 14 5 1 20 false fresh
       = (Ret rep, st')
       /\ Local.total_chunks (Local.report_overall_stats rep) = 2)
  /\ exists fuel0,
       forall fuel, (fuel0 <= fuel)%nat ->
         exists rep st',
           Local.download_logs (P := all_raise_world) demo_app 14 fuel 1 20
                               false fresh
           = (Ret rep, st').
Proof.
  assert (Hgen : Local.generate_time_ranges 14 5 1 20
                 = Ret [ (start_of_day 1, end_of_day 14);
                         (start_of_day 15, end_of_day 20) ]) by reflexivity.
  split; [exact Hgen |]. split.
  - destruct (proj1 (proj2 (proj2 (no_error_escapes_the_chunk_loop
                                     (P := all_raise_world) demo_app 14 false)))
                5%nat 1 20 fresh _ Hgen eq_refl)
      as (rep & st' & Hrun & Htot & _).
    exists rep, st'. split; [exact Hrun | exact Htot].
  - destruct (proj2 (proj2 (proj2 (no_error_escapes_the_chunk_loop
                                     (P := all_raise_world) demo_app 14 false)))
                1 20 fresh ltac:(discriminate) ltac:(discriminate)
                ltac:(discriminate))
      as (fuel0 & Hall).
    exists fuel0. intros fuel Hfuel.
    destruct (Hall fuel Hfuel) as (rep & st' & Hrun & _).
    exists rep, st'. exact Hrun.
Defined.

Lemma counters_stay_consistent_witness :
  (exists acc st',
    Local.chunk_loop (P := half_fails_world) demo_app false
      (firstn 1 [(day1_start, day1_end)])
      (Local.app_set_total 1 (Local.init_app_stats demo_app))
      (with_total 1 fresh)
    = (Ret acc, st')
    /\ app_stats_inv 1 acc
    /\ stats_inv 1 (Local.stats st'))
  /\ (exists rep st',
        Local.download_logs (P := half_fails_world) demo_app 14 5 1 1 false fresh
        = (Ret rep, st')
        /\ stats_inv (Local.total_chunks (Local.report_overall_stats rep))
                     (Local.report_overall_stats rep)).
Proof.
  split.
  - destruct (proj1 (counters_stay_consistent (P := half_fails_world) demo_app 14
                       false)
                [(day1_start, day1_end)] 1 fresh 1%nat eq_refl (le_n 1))
      as (acc & st' & Hrun & _ & Ha & Hs).
    exists acc, st'. split; [exact Hrun |]. split; [exact Ha | exact Hs].
  - assert (H : exists rep st',
               Local.download_logs (P := half_fails_world) demo_app 14 5 1 1
                                   false fresh
               = (Ret rep, st'))
      by (do 2 eexists; vm_compute; reflexivity).
    destruct H as (rep & st' & H). exists rep, st'. split; [exact H |].
    exact (proj1 (proj2 (counters_stay_consistent (P := half_fails_world)
                           demo_app 14 false)
                    5%nat 1 1 fresh rep st' eq_refl H)).
Defined.

Lemma non_string_result_is_persisted_as_json_witness :
  Local.get_amplify_logs (P := dated no_url_world) demo_app
    chunk2_start chunk2_end fresh
  = (Ret (PDict []),
     snd (Local.get_amplify_logs (P := dated no_url_world) demo_app
            chunk2_start chunk2_end fresh))
  /\ Local.is_empty_logs (PDict []) = false
  /\ exists st',
       Local.process_time_range (P := dated no_url_world) demo_app
         chunk2_start chunk2_end 0 false fresh
       = (Ret (true, false), st')
       /\ Local.trace st'
          = [ Local.EvGenerateAccessLogs chunk2_start chunk2_end;
              Local.EvMkdir
                "/home/hylmarj/_scratch/type=amplify_logs/app=danse_tech/date_export=2024-01-28";
              Local.EvWriteFile
                "/home/hylmarj/_scratch/type=amplify_logs/app=danse_tech/date_export=2024-01-28/log_20240128_235959"
                "{}";
              Local.EvGetsize
                "/home/hylmarj/_scratch/type=amplify_logs/app=danse_tech/date_export=2024-01-28/log_20240128_235959";
              Local.EvS3Cp
                "/home/hylmarj/_scratch/type=amplify_logs/app=danse_tech/date_export=2024-01-28/log_20240128_235959"
                "s3://amplifylogs-logging-intite-ss1-inftes-182059100462/type=amplify_logs/app=danse_tech/date_export=2024-01-28/log_20240128_235959" ].
Proof.
  assert (H : Local.get_amplify_logs (P := dated no_url_world) demo_app
                chunk2_start chunk2_end fresh
              = (Ret (PDict []),
                 snd (Local.get_amplify_logs (P := dated no_url_world) demo_app
                        chunk2_start chunk2_end fresh)))
    by reflexivity.
  split; [exact H |].
  destruct (non_string_result_is_persisted_as_json (P := dated no_url_world)
              demo_app false chunk2_start chunk2_end 0 fresh (PDict []) _
              ltac:(discriminate) H ltac:(intros text; discriminate)
              ltac:(discriminate))
    as (He & _ & Hnames & ok & st' & evs & Hrun & Ht & Hok & Hevs).
  split; [exact He |].
  assert (Hyes : ok = true).
  { apply Hok. exists tt, tt, 1, tt, "upload ok"%string, tt.
    repeat split. }
  subst ok. exists st'. split; [exact Hrun |].
  rewrite Ht, (Hevs tt tt 1 tt eq_refl eq_refl eq_refl).
  destruct (Hnames eq_refl eq_refl eq_refl) as (-> & -> & ->).
  reflexivity.
Defined.

(** ** Where the specification as stated fails *)

(** C1 (as stated) fails on the first day of the calendar when the API asks
    to reduce the day, serves its first half and fails on its second half:
    the half fails, and the report of [download_logs] counts one successful
    chunk and lists no failed range at all. *)
Lemma failed_half_is_not_reported :
  fst (Local.get_amplify_logs (P := half_fails_world) demo_app
         day1_start day1_end fresh)
  = Ret (PStr "REDUCE_RANGE")
  /\ fst (Local.process_time_range (P := half_fails_world) demo_app
            day1_start day1_mid 1 false fresh) = Ret (true, false)
  /\ fst (Local.process_time_range (P := half_fails_world) demo_app
            day1_mid day1_end 1 false fresh) = Ret (false, false)
  /\ exists rep st',
       Local.download_logs (P := half_fails_world) demo_app 14 5 1 1 false fresh
       = (Ret rep, st')
       /\ Local.successful_chunks (Local.report_overall_stats rep) = 1
       /\ Local.failed_ranges (Local.report_overall_stats rep) = []
       /\ Local.app_failed_ranges (Local.report_app_stats rep) = [].
Proof.
  split; [reflexivity |]. split; [reflexivity |]. split; [reflexivity |].
  do 2 eexists. split; [vm_compute; reflexivity |].
  split; [reflexivity |]. split; reflexivity.
Qed.

(** C2 (as stated) fails on the first day of the calendar when the fetch
    yields a log line and [aws s3 cp] fails: the report counts one upload
    failure, no successful chunk and one failed chunk, whose range is in the
    failed ranges. *)
Lemma upload_failure_is_not_a_success :
  fst (Local.get_amplify_logs (P := upload_fails_world) demo_app
         day1_start day1_end fresh)
  = Ret (PStr "GET / 200")
  /\ exists rep st',
       Local.download_logs (P := upload_fails_world) demo_app 14 5 1 1 false fresh
       = (Ret rep, st')
       /\ Local.upload_failures (Local.report_overall_stats rep) = 1
       /\ Local.successful_chunks (Local.report_overall_stats rep) = 0
       /\ Local.failed_chunks (Local.report_overall_stats rep) = 1
       /\ List.length (Local.failed_ranges (Local.report_overall_stats rep)) = 1%nat
       /\ Local.app_failed_ranges (Local.report_app_stats rep)
          = [(day1_start, day1_end)].
Proof.
  split; [reflexivity |].
  do 2 eexists. split; [vm_compute; reflexivity |].
  repeat split; reflexivity.
Qed.

(** C3 (as stated) fails on the first day of the calendar: when the API asks
    to reduce every range, the run ends after seven fetches, four of them on
    the smallest ranges fetched, the quarters, and not after [2 ^ 3]; and at
    depth 3, which does not exceed 3, a range that the API would serve is
    turned down without a fetch. *)
Lemma always_split_makes_seven_fetches :
  (let run := Local.process_time_range (P := always_split_world) demo_app
                day1_start day1_end 0 false fresh in
   fst run = Ret (false, false)
   /\ List.length (Local.fetched_ranges (Local.trace (snd run))) = 7%nat
   /\ List.length
        (filter (fun r => snd r - fst r <=? (day1_end - day1_start) / 4 + 1)
                (Local.fetched_ranges (Local.trace (snd run)))) = 4%nat
   /\ Z.of_nat (List.length (Local.fetched_ranges (Local.trace (snd run))))
      <> 2 ^ 3)
  /\ fst (Local.get_amplify_logs (P := always_ok_world) demo_app
            day1_start day1_end fresh) = Ret (PStr "GET / 200")
  /\ Local.process_time_range (P := always_ok_world) demo_app
       day1_start day1_end 3 false fresh
     = (Ret (false, false), fresh).
Proof.
  cbv zeta. split; [| split; reflexivity].
  split; [reflexivity |]. split; [reflexivity |]. split; [reflexivity |].
  vm_compute. discriminate.
Qed.

(** C4 (as stated) fails for the CLI on the first day of the calendar when
    every fetch ends in a network error: the range is fetched once, not three
    times, and nothing sleeps in between. *)
Lemma cli_fetcher_tries_once :
  let run := Local.process_time_range (P := always_transient_world) demo_app
               day1_start day1_end 0 false fresh in
  fst run = Ret (false, false)
  /\ Local.fetched_ranges (Local.trace (snd run)) = [(day1_start, day1_end)]
  /\ List.length (Local.fetched_ranges (Local.trace (snd run))) <> 3%nat
  /\ filter Local.is_sleep (Local.trace (snd run)) = [].
Proof.
  cbv zeta. split; [reflexivity |]. split; [reflexivity |].
  split; [vm_compute; discriminate | reflexivity].
Qed.

(** The Lambda on the same kind of API: the recursion goes as deep as the
    fuel allows, the depth guard of [handle_large_time_range] is dead. *)
Lemma lambda_split_is_unbounded :
  forall fuel,
    fst (Lambda.download_amplify_logs (P := lambda_split_world) lambda_app fuel
           day1_start day1_end "/tmp/logs" 3 2 lambda_init) = Diverge.
Proof.
  intros fuel. apply download_amplify_logs_split_unbounded.
  - intros s e [].
    exists "Too many records, reduce time range"%string, tt. split; reflexivity.
  - discriminate.
  - intros p []. exists tt. reflexivity.
  - intros r []. exists tt. reflexivity.
Qed.

(** C10 (as stated) fails when the upload of the file fails: the response
    without [logUrl] is written as JSON to the file named after the end of
    the chunk, the copy to S3 is refused, and [process_time_range] reports
    the chunk as failed. *)
Lemma json_response_with_failed_upload_is_a_failure :
  fst (Local.get_amplify_logs (P := dated no_url_upload_fails_world) demo_app
         chunk2_start chunk2_end fresh)
  = Ret (PDict [])
  /\ Local.process_time_range (P := dated no_url_upload_fails_world) demo_app
       chunk2_start chunk2_end 0 false fresh
     = (Ret (false, false),
        {| Local.world := tt;
           Local.trace :=
             [ Local.EvGenerateAccessLogs chunk2_start chunk2_end;
               Local.EvMkdir
                 "/home/hylmarj/_scratch/type=amplify_logs/app=danse_tech/date_export=2024-01-28";
               Local.EvWriteFile
                 "/home/hylmarj/_scratch/type=amplify_logs/app=danse_tech/date_export=2024-01-28/log_20240128_235959"
                 "{}";
               Local.EvGetsize
                 "/home/hylmarj/_scratch/type=amplify_logs/app=danse_tech/date_export=2024-01-28/log_20240128_235959";
               Local.EvS3Cp
                 "/home/hylmarj/_scratch/type=amplify_logs/app=danse_tech/date_export=2024-01-28/log_20240128_235959"
                 "s3://amplifylogs-logging-intite-ss1-inftes-182059100462/type=amplify_logs/app=danse_tech/date_export=2024-01-28/log_20240128_235959" ];
           Local.stats := Local.incr_upload_failures Local.init_stats |}).
Proof. split; vm_compute; reflexivity. Qed.

End Witnesses.

(** * Further properties of local/amplify_logs.py *)

Section LocalFetch.

Import Local.

Context {W : Type} {P : Primitives W}.
Variable app : app_config.

(** X1: [get_amplify_logs] never raises, whatever the CLI, the JSON parser
    and the download do: it returns a value, having run the CLI exactly once
    and downloaded at most once, and leaves [self.stats] as it was. *)
Theorem get_amplify_logs_never_raises start_time end_time st :
  exists logs st' rest,
    get_amplify_logs app start_time end_time st = (Ret logs, st')
    /\ trace st' = trace st ++ EvGenerateAccessLogs start_time end_time :: rest
    /\ (rest = [] \/ exists url, rest = [EvHttpGet url])
    /\ stats st' = stats st.
Proof.
  destruct (post_run _ _ _ (get_amplify_logs_spec app start_time end_time st))
    as (r & st' & Hrun & logs & rest & -> & Ht & Hr & Hs).
  exists logs, st', rest. auto.
Qed.

(** X2: when the CLI call raises, [get_amplify_logs] downloads nothing and
    returns the split signal exactly for a [CalledProcessError] whose stderr
    contains "reduce time range"; for any other exception, whatever its
    text, it returns [None]. *)
Theorem get_amplify_logs_cli_error start_time end_time st ex w' :
  run_generate_access_logs app start_time end_time (world st) = (Failed ex, w') ->
  get_amplify_logs app start_time end_time st
  = (Ret (signal_of_error ex),
     logged st w' (EvGenerateAccessLogs start_time end_time))
  /\ (signal_of_error ex = PStr "REDUCE_RANGE"
      <-> exists stderr,
            ex = CalledProcessError stderr
            /\ contains "reduce time range" stderr = true).
Proof.
  intros H. split.
  - unfold get_amplify_logs, try_except, bind, call. rewrite H.
    destruct ex; try reflexivity.
    cbn [signal_of_error]. destruct (contains "reduce time range" stderr);
      reflexivity.
  - split.
    + destruct ex; cbn [signal_of_error]; try discriminate.
      destruct (contains "reduce time range" stderr) eqn:Hc; [| discriminate].
      intros _. exists stderr. auto.
    + intros (stderr & -> & Hc). cbn [signal_of_error]. rewrite Hc. reflexivity.
Qed.

(** X3: when the CLI call returns, [get_amplify_logs] returns [None] for an
    empty output and for an output that is not JSON; the parsed value itself
    for an object without [logUrl]; and for an object with a [logUrl] the
    body of the download if its status is 200, empty or not, and [None] for
    any other status, the body being dropped. *)
Theorem get_amplify_logs_cli_output start_time end_time st stdout w1 :
  run_generate_access_logs app start_time end_time (world st) = (Done stdout, w1) ->
  let st1 := logged st w1 (EvGenerateAccessLogs start_time end_time) in
  (stdout = EmptyString ->
   get_amplify_logs app start_time end_time st = (Ret PNone, st1))
  /\ (stdout <> EmptyString -> json_loads stdout = None ->
      get_amplify_logs app start_time end_time st = (Ret PNone, st1))
  /\ (forall kv,
        stdout <> EmptyString -> json_loads stdout = Some (PDict kv) ->
        find (fun p => String.eqb (fst p) "logUrl") kv = None ->
        get_amplify_logs app start_time end_time st = (Ret (PDict kv), st1))
  /\ (forall kv key url status text w2,
        stdout <> EmptyString -> json_loads stdout = Some (PDict kv) ->
        find (fun p => String.eqb (fst p) "logUrl") kv = Some (key, url) ->
        requests_get url w1 = (Done (status, text), w2) ->
        get_amplify_logs app start_time end_time st
        = (Ret (if status =? 200 then PStr text else PNone),
           logged st1 w2 (EvHttpGet url))).
Proof.
  intros H. cbv zeta.
  assert (Hne : forall s : string, s <> EmptyString -> (s =? EmptyString)%string = false)
    by (intros s Hs; apply String.eqb_neq; assumption).
  split; [| split; [| split]].
  - intros ->. unfold get_amplify_logs, try_except, bind, call. rewrite H.
    reflexivity.
  - intros Hs Hj. unfold get_amplify_logs, try_except, bind, call, lift.
    rewrite H, (Hne _ Hs), Hj. reflexivity.
  - intros kv Hs Hj Hf.
    unfold get_amplify_logs, try_except, bind, call, lift.
    rewrite H, (Hne _ Hs), Hj. cbn [negb py_contains].
    assert (Hex : existsb (fun p : string * pyval => (fst p =? "logUrl")%string) kv
                  = false).
    { destruct (existsb _ kv) eqn:He; [| reflexivity].
      apply existsb_exists in He as (p & Hin & Hp).
      eapply find_none in Hf; [| exact Hin]. cbv beta in Hf. congruence. }
    rewrite Hex. reflexivity.
  - intros kv key url status text w2 Hs Hj Hf Hget.
    unfold get_amplify_logs, try_except, bind, call, lift.
    rewrite H, (Hne _ Hs), Hj. cbn [negb py_contains py_getitem].
    assert (Hex : existsb (fun p : string * pyval => (fst p =? "logUrl")%string) kv
                  = true).
    { apply existsb_exists. apply find_some in Hf as [Hin Hp]. eauto. }
    rewrite Hex, Hf. cbn [snd world trace stats logged]. rewrite Hget.
    cbn [fst snd]. destruct (status =? 200); reflexivity.
Qed.

End LocalFetch.

Section LocalStore.

Import Local.

Context {W : Type} {P : Primitives W}.
Variable app : app_config.

Lemma save_logs_locally_cases logs timestamp st :
  match save_logs_locally app logs timestamp st with
  | (Ret None, st') => is_empty_logs logs = true /\ st' = st
  | (Ret (Some f), st') =>
      is_empty_logs logs = false
      /\ f = log_file_of app timestamp
      /\ trace st' = trace st ++ save_events app logs timestamp
      /\ stats st' = stats st
  | (Raise _, st') =>
      is_empty_logs logs = false
      /\ (exists k, (1 <= k <= 3)%nat
                    /\ trace st' = trace st ++ firstn k (save_events app logs timestamp))
      /\ stats st' = stats st
  | (Diverge, _) => False
  end.
Proof.
  unfold save_logs_locally, try_except, bind, call, ret, raise.
  destruct (is_empty_logs logs) eqn:He; [auto |].
  cbv zeta.
  destruct (path_mkdir (date_path_of app timestamp) (world st)) as [[[] | ex] w1];
    cbn [world trace stats];
    [| split; [reflexivity |]; split; [exists 1%nat; split; [lia | reflexivity]
                                      | reflexivity]].
  destruct (write_text (log_file_of app timestamp) (file_content logs) w1)
    as [[[] | ex] w2]; cbn [world trace stats];
    [| split; [reflexivity |]; split;
       [exists 2%nat; split; [lia | rewrite <- app_assoc; reflexivity]
       | reflexivity]].
  destruct (path_getsize (log_file_of app timestamp) w2) as [[size | ex] w3];
    cbn [world trace stats].
  - repeat split. repeat rewrite <- app_assoc. reflexivity.
  - split; [reflexivity |]. split; [| reflexivity].
    exists 3%nat. split; [lia |]. repeat rewrite <- app_assoc. reflexivity.
Qed.


Lemma upload_to_s3_cases local_file timestamp delete_after_upload st :
  exists ok st',
    upload_to_s3 app local_file timestamp delete_after_upload st = (Ret ok, st')
    /\ match run_s3_cp local_file (s3_uri_of app timestamp) (world st) with
       | (Done _, _) =>
           ok = true
           /\ stats st' = stats st
           /\ trace st'
              = trace st
                ++ EvS3Cp local_file (s3_uri_of app timestamp)
                   :: (if delete_after_upload then [EvRemove local_file] else [])
       | (Failed _, w1) =>
           ok = false
           /\ stats st' = incr_upload_failures (stats st)
           /\ trace st' = trace st ++ [EvS3Cp local_file (s3_uri_of app timestamp)]
           /\ world st' = w1
       end.
Proof.
  unfold upload_to_s3. cbv zeta.
  unfold try_except at 1. unfold bind at 1. unfold call at 1.
  destruct (run_s3_cp local_file (s3_uri_of app timestamp) (world st))
    as [[out | ex] w1].
  - unfold bind at 1. destruct delete_after_upload.
    + unfold try_except, call. cbn [world trace stats].
      destruct (os_remove local_file w1) as [[[] | ex] w2];
        (do 2 eexists; split; [reflexivity |]; cbn [trace stats];
         rewrite <- app_assoc; auto).
    + do 2 eexists. split; [reflexivity |]. cbn [trace stats]. auto.
  - do 2 eexists. split; [reflexivity |]. cbn [trace stats world]. auto.
Qed.

(** X5: [upload_to_s3] never raises and returns [True] exactly when
    [aws s3 cp] went through.  A failed copy adds one to the upload failures
    and is followed by no other call: the local file is never removed after
    a failed upload.  After a successful copy the file is removed if and
    only if deletion was asked for, and a removal that fails changes neither
    the result nor the statistics. *)
Theorem upload_to_s3_outcomes local_file timestamp delete_after_upload st :
  exists ok st',
    upload_to_s3 app local_file timestamp delete_after_upload st = (Ret ok, st')
    /\ match run_s3_cp local_file (s3_uri_of app timestamp) (world st) with
       | (Done _, _) =>
           ok = true
           /\ stats st' = stats st
           /\ trace st'
              = trace st
                ++ EvS3Cp local_file (s3_uri_of app timestamp)
                   :: (if delete_after_upload then [EvRemove local_file] else [])
       | (Failed _, w1) =>
           ok = false
           /\ stats st' = incr_upload_failures (stats st)
           /\ trace st' = trace st ++ [EvS3Cp local_file (s3_uri_of app timestamp)]
           /\ world st' = w1
       end.
Proof.
  exact (upload_to_s3_cases local_file timestamp delete_after_upload st).
Qed.

(** X6: when the fetch asks to reduce the range, [process_time_range] runs
    the first half, sleeps one second and runs the second half, whatever the
    first half returned: no outcome of the first half stops the second.  The
    range succeeds if either half does and counts as empty only if both
    halves are empty. *)
Theorem split_attempts_both_halves delete_after_upload s e depth st st1 :
  depth <= 2 ->
  get_amplify_logs app s e st = (Ret (PStr "REDUCE_RANGE"), st1) ->
  exists success1 empty1 st2 success2 empty2 st3,
    process_time_range app s (mid_time_of s e) (depth + 1) delete_after_upload st1
    = (Ret (success1, empty1), st2)
    /\ process_time_range app (mid_time_of s e) e (depth + 1) delete_after_upload
                          (slept st2)
       = (Ret (success2, empty2), st3)
    /\ process_time_range app s e depth delete_after_upload st
       = (Ret (success1 || success2, empty1 && empty2), st3).
Proof.
  intros Hd Hget.
  destruct (process_time_range_returns app s (mid_time_of s e) (depth + 1)
              delete_after_upload st1) as (s1 & e1 & st2 & H1 & _).
  destruct (process_time_range_returns app (mid_time_of s e) e (depth + 1)
              delete_after_upload (slept st2)) as (s2 & e2 & st3 & H2 & _).
  exists s1, e1, st2, s2, e2, st3. split; [exact H1 |]. split; [exact H2 |].
  rewrite (process_time_range_fetched app s e depth delete_after_upload st _ st1
             Hd Hget).
  cbn [py_eq_str String.eqb Ascii.eqb Bool.eqb andb].
  unfold try_except at 1. unfold bind at 1. rewrite H1.
  unfold bind at 1. unfold sleep at 1. unfold bind at 1.
  unfold slept, logged in H2. rewrite H2. reflexivity.
Qed.

(** X7: when the payload cannot be saved locally, the range fails without
    an upload: [process_time_range] returns [(False, False)] in the state
    the failed save left, the upload failures are not touched, and the calls
    made after the fetch are file-system calls of the save only. *)
Theorem save_failure_fails_without_upload
    delete_after_upload s e depth st logs st1 ex st2 :
  depth <= 2 ->
  get_amplify_logs app s e st = (Ret logs, st1) ->
  py_eq_str logs "REDUCE_RANGE" = false ->
  py_is_none logs = false ->
  save_logs_locally app logs e st1 = (Raise ex, st2) ->
  process_time_range app s e depth delete_after_upload st
  = (Ret (false, false), st2)
  /\ stats st2 = stats st
  /\ exists k, trace st2 = trace st1 ++ firstn k (save_events app logs e).
Proof.
  intros Hd Hget Hr Hn Hsave.
  pose proof (save_logs_locally_cases logs e st1) as Hout.
  rewrite Hsave in Hout. destruct Hout as (He & (k & _ & Ht) & Hs).
  destruct (get_amplify_logs_trace app _ _ _ _ _ Hget) as (Hs1 & _).
  split; [| split].
  - rewrite (process_time_range_fetched app s e depth delete_after_upload st _ st1
               Hd Hget).
    rewrite Hr, Hn, He. cbn [negb].
    unfold try_except at 1. unfold bind at 1. rewrite Hsave. reflexivity.
  - congruence.
  - exists k. exact Ht.
Qed.

(** X8: a non-empty text payload is stored under the end of its range: once
    the file-system calls and the copy go through, [process_time_range] has
    made the directory [date_export=] of the day of [end_time], written the
    text as it is to the file [log_] of [end_time] in it, copied that file
    to the S3 key of the same day and time, removed it if asked to, and
    returns [(True, False)] with [self.stats] unchanged.  The start of the
    range appears in none of the names; for an application name without a
    slash the names are those spelled out here. *)
Theorem text_payload_is_stored_under_end_time
    delete_after_upload s e depth st text st1 w1 w2 size w3 out w4 :
  depth <= 2 ->
  get_amplify_logs app s e st = (Ret (PStr text), st1) ->
  text <> EmptyString -> text <> "REDUCE_RANGE"%string ->
  path_mkdir (date_path_of app e) (world st1) = (Done tt, w1) ->
  write_text (log_file_of app e) text w1 = (Done tt, w2) ->
  path_getsize (log_file_of app e) w2 = (Done size, w3) ->
  run_s3_cp (log_file_of app e) (s3_uri_of app e) w3 = (Done out, w4) ->
  let date := strftime e "%Y-%m-%d" in
  let stamp := strftime e "%Y%m%d_%H%M%S" in
  (has_sep (appName app) = false -> has_sep date = false ->
   has_sep stamp = false ->
   date_path_of app e
   = ("/home/hylmarj/_scratch/type=amplify_logs/app=" ++ appName app
      ++ "/date_export=" ++ date)%string
   /\ log_file_of app e
      = ("/home/hylmarj/_scratch/type=amplify_logs/app=" ++ appName app
         ++ "/date_export=" ++ date ++ "/log_" ++ stamp)%string
   /\ s3_uri_of app e
      = ("s3://amplifylogs-logging-intite-ss1-inftes-182059100462/"
         ++ "type=amplify_logs/app=" ++ appName app
         ++ "/date_export=" ++ date ++ "/log_" ++ stamp)%string)
  /\ date_path_of app e
     = posix_path (path_parts "/home/hylmarj/_scratch"
                   ++ path_parts "type=amplify_logs"
                   ++ path_parts ("app=" ++ appName app)
                   ++ path_parts ("date_export=" ++ date))
  /\ log_file_of app e
     = posix_path (path_parts "/home/hylmarj/_scratch"
                   ++ path_parts "type=amplify_logs"
                   ++ path_parts ("app=" ++ appName app)
                   ++ path_parts ("date_export=" ++ date)
                   ++ path_parts ("log_" ++ stamp))
  /\ s3_uri_of app e
     = ("s3://amplifylogs-logging-intite-ss1-inftes-182059100462/"
        ++ os_path_join
             (os_path_join
                (os_path_join (os_path_join EmptyString "type=amplify_logs")
                              ("app=" ++ appName app))
                ("date_export=" ++ date))
             ("log_" ++ stamp))%string
  /\ exists st',
       process_time_range app s e depth delete_after_upload st
       = (Ret (true, false), st')
       /\ trace st'
          = trace st1
            ++ [ EvMkdir (date_path_of app e);
                 EvWriteFile (log_file_of app e) text;
                 EvGetsize (log_file_of app e);
                 EvS3Cp (log_file_of app e) (s3_uri_of app e) ]
            ++ (if delete_after_upload then [EvRemove (log_file_of app e)] else [])
       /\ stats st' = stats st.
Proof.
  intros Hd Hget Hne Hsig Hmk Hwr Hsz Hcp date stamp.
  split; [exact (local_names_plain app e) |].
  split; [reflexivity |].
  split; [unfold log_file_of, date_parts_of; rewrite <- !app_assoc; reflexivity |].
  split; [reflexivity |].
  destruct (get_amplify_logs_trace app _ _ _ _ _ Hget) as (Hs1 & _).
  apply String.eqb_neq in Hne, Hsig.
  rewrite (process_time_range_fetched app s e depth delete_after_upload st _ st1
             Hd Hget).
  cbn [py_eq_str py_is_none is_empty_logs negb]. rewrite Hsig, Hne.
  assert (Hsave : save_logs_locally app (PStr text) e st1
                  = (Ret (Some (log_file_of app e)),
                     {| world := w3;
                        trace := trace st1
                                 ++ [ EvMkdir (date_path_of app e);
                                      EvWriteFile (log_file_of app e) text;
                                      EvGetsize (log_file_of app e) ];
                        stats := stats st1 |})).
  { unfold save_logs_locally. cbn [is_empty_logs file_content]. rewrite Hne.
    cbv zeta. unfold try_except, bind, call, ret.
    rewrite Hmk. cbn [world trace stats]. rewrite Hwr.
    cbn [world trace stats]. rewrite Hsz.
    repeat rewrite <- app_assoc. reflexivity. }
  unfold try_except at 1. unfold bind at 1. rewrite Hsave.
  unfold bind at 1.
  destruct (upload_to_s3_cases (log_file_of app e) e delete_after_upload
              {| world := w3;
                 trace := trace st1
                          ++ [ EvMkdir (date_path_of app e);
                               EvWriteFile (log_file_of app e) text;
                               EvGetsize (log_file_of app e) ];
                 stats := stats st1 |})
    as (ok & st' & Hup & Hcase).
  cbn [world] in Hcase. rewrite Hcp in Hcase.
  destruct Hcase as (-> & Hs & Ht).
  rewrite Hup. exists st'. split; [reflexivity |].
  cbn [trace stats] in Hs, Ht. split.
  - rewrite Ht. repeat rewrite <- app_assoc. reflexivity.
  - congruence.
Qed.

End LocalStore.

Section LocalCost.

Import Local.

Context {W : Type} {P : Primitives W}.
Variable app : app_config.

Lemma fetched_ranges_app a b :
  fetched_ranges (a ++ b) = fetched_ranges a ++ fetched_ranges b.
Proof.
  induction a as [| [] a IH]; cbn [List.app fetched_ranges]; rewrite ?IH;
    reflexivity.
Qed.

Lemma count_fetches_app a b :
  count_fetches (a ++ b) = (count_fetches a + count_fetches b)%nat.
Proof. unfold count_fetches. rewrite fetched_ranges_app. apply length_app. Qed.

Lemma count_uploads_app a b :
  count_uploads (a ++ b) = (count_uploads a + count_uploads b)%nat.
Proof. unfold count_uploads. rewrite filter_app. apply length_app. Qed.

Lemma count_firstn_save_events logs timestamp k :
  count_fetches (firstn k (save_events app logs timestamp)) = 0%nat
  /\ count_uploads (firstn k (save_events app logs timestamp)) = 0%nat.
Proof.
  unfold save_events.
  destruct k as [| [| [| k]]]; cbn [firstn]; rewrite ?firstn_nil; split;
    reflexivity.
Qed.

Lemma process_time_range_budget delete_after_upload (n : nat) :
  forall s e depth st,
    3 - depth <= Z.of_nat n ->
    post (process_time_range app s e depth delete_after_upload) st
         (fun _ st' => within_budget n st st').
Proof.
  assert (Hpow : forall m, (1 <= 2 ^ m)%nat).
  { intros m. induction m; cbn [Nat.pow]; lia. }
  assert (Hnil : forall m (st : state W), within_budget m st st).
  { intros m st. exists []. rewrite app_nil_r. cbn.
    specialize (Hpow m). repeat split; lia. }
  induction n as [| n IH]; intros s e depth st Hn.
  - rewrite process_time_range_deep by lia. apply post_ret, Hnil.
  - destruct (Z_lt_le_dec 2 depth) as [Hd | Hd].
    { rewrite process_time_range_deep by lia. apply post_ret, Hnil. }
    rewrite process_time_range_unfold by assumption.
    assert (Hone : forall (st1 : state W) rest,
               trace st1 = trace st ++ EvGenerateAccessLogs s e :: rest ->
               (rest = [] \/ exists url, rest = [EvHttpGet url]) ->
               stats st1 = stats st ->
               within_budget (S n) st st1).
    { intros st1 rest Ht Hr Hs. exists (EvGenerateAccessLogs s e :: rest).
      split; [exact Ht |]. rewrite Hs. specialize (Hpow n).
      destruct Hr as [-> | [url ->]]; cbn; lia. }
    apply post_try, post_bind.
    eapply post_weaken; [apply get_amplify_logs_spec |].
    intros r st1 (logs & rest & -> & Ht1 & Hrest & Hst1). cbv beta iota.
    assert (Hg : count_fetches (EvGenerateAccessLogs s e :: rest) = 1%nat
                 /\ count_uploads (EvGenerateAccessLogs s e :: rest) = 0%nat).
    { destruct Hrest as [-> | [url ->]]; split; reflexivity. }
    destruct Hg as [Hgf Hgu].
    destruct (py_eq_str logs "REDUCE_RANGE").
    + apply post_bind.
      eapply post_weaken; [apply (IH _ _ (depth + 1)); lia |].
      intros r1 st2 (evs1 & Ht2 & Hf1 & Hu1 & Hup1).
      assert (Hb : within_budget (S n) st
                     (logged st2 (time_sleep 1 (world st2)) (EvSleep 1)) ->
                   forall (r2 : result (bool * bool)) st3,
                     within_budget n
                       (logged st2 (time_sleep 1 (world st2)) (EvSleep 1)) st3 ->
                     within_budget (S n) st st3).
      { intros _ r2 st3 (evs2 & Ht3 & Hf2 & Hu2 & Hup2).
        exists ((EvGenerateAccessLogs s e :: rest) ++ evs1 ++ [EvSleep 1] ++ evs2).
        split.
        { rewrite Ht3. cbn [logged trace]. rewrite Ht2, Ht1.
          repeat rewrite <- app_assoc. reflexivity. }
        cbn [logged stats] in Hup2.
        rewrite !count_fetches_app, !count_uploads_app, Hgf, Hgu.
        change (count_fetches [EvSleep 1]) with 0%nat.
        change (count_uploads [EvSleep 1]) with 0%nat.
        cbn [Nat.pow]. rewrite Hst1 in Hup1. repeat split; lia. }
      assert (Hmid : within_budget (S n) st
                       (logged st2 (time_sleep 1 (world st2)) (EvSleep 1))).
      { exists ((EvGenerateAccessLogs s e :: rest) ++ evs1 ++ [EvSleep 1]).
        split.
        { cbn [logged trace]. rewrite Ht2, Ht1.
          repeat rewrite <- app_assoc. reflexivity. }
        cbn [logged stats].
        rewrite !count_fetches_app, !count_uploads_app, Hgf, Hgu.
        change (count_fetches [EvSleep 1]) with 0%nat.
        change (count_uploads [EvSleep 1]) with 0%nat.
        cbn [Nat.pow]. rewrite Hst1 in Hup1. specialize (Hpow n).
        repeat split; lia. }
      assert (Hfirst : within_budget (S n) st st2).
      { exists ((EvGenerateAccessLogs s e :: rest) ++ evs1).
        split; [rewrite Ht2, Ht1, <- app_assoc; reflexivity |].
        rewrite !count_fetches_app, !count_uploads_app, Hgf, Hgu.
        cbn [Nat.pow]. rewrite Hst1 in Hup1. specialize (Hpow n).
        repeat split; lia. }
      destruct r1 as [r1 | ex |]; [| apply post_ret; exact Hfirst | exact Hfirst].
      apply post_bind, post_sleep, post_bind.
      eapply post_weaken; [apply (IH _ _ (depth + 1)); lia |].
      intros r2 st3 H3. specialize (Hb Hmid r2 st3 H3).
      destruct r2 as [r2 | ex |]; [apply post_ret | apply post_ret |]; exact Hb.
    + destruct (negb (py_is_none logs));
        [| apply post_ret; eapply Hone; eassumption].
      destruct (is_empty_logs logs);
        [apply post_ret; eapply Hone; eassumption |].
      apply post_bind.
      pose proof (save_logs_locally_cases app logs e st1) as Hsave.
      unfold post.
      destruct (save_logs_locally app logs e st1) as [[[f |] | ex |] st2];
        cbn [fst snd]; try contradiction.
      * destruct Hsave as (_ & -> & Ht2 & Hst2).
        apply post_bind.
        destruct (upload_to_s3_cases app (log_file_of app e) e
                    delete_after_upload st2) as (ok & st3 & Hup & Hcase).
        unfold post. rewrite Hup. cbn [fst snd]. apply post_ret.
        assert (Hevs : exists evs3,
                   trace st3 = trace st2 ++ evs3
                   /\ count_fetches evs3 = 0%nat /\ count_uploads evs3 = 1%nat
                   /\ upload_failures (stats st3) <= upload_failures (stats st2) + 1).
        { destruct (run_s3_cp (log_file_of app e) (s3_uri_of app e) (world st2))
            as [[out | ex] w3].
          - destruct Hcase as (_ & Hs3 & Ht3). eexists. split; [exact Ht3 |].
            rewrite Hs3. destruct delete_after_upload; cbn; repeat split; lia.
          - destruct Hcase as (_ & Hs3 & Ht3 & _). eexists. split; [exact Ht3 |].
            rewrite Hs3. cbn. repeat split; lia. }
        destruct Hevs as (evs3 & Ht3 & Hf3 & Hu3 & Hup3).
        exists ((EvGenerateAccessLogs s e :: rest)
                ++ save_events app logs e ++ evs3).
        split.
        { rewrite Ht3, Ht2, Ht1. repeat rewrite <- app_assoc. reflexivity. }
        rewrite !count_fetches_app, !count_uploads_app, Hgf, Hgu, Hf3, Hu3.
        assert (Hsf : count_fetches (save_events app logs e) = 0%nat)
          by reflexivity.
        assert (Hsu : count_uploads (save_events app logs e) = 0%nat)
          by reflexivity.
        rewrite Hsf, Hsu.
        cbn [Nat.pow]. specialize (Hpow n). rewrite Hst2, Hst1 in Hup3.
        repeat split; lia.
      * destruct Hsave as (_ & ->). unfold bind, ret. cbn [fst snd].
        eapply Hone; [exact Ht1 | exact Hrest | exact Hst1].
      * destruct Hsave as (_ & (k & _ & Ht2) & Hst2).
        unfold ret. cbn [fst snd].
        exists ((EvGenerateAccessLogs s e :: rest)
                ++ firstn k (save_events app logs e)).
        split; [rewrite Ht2, Ht1, <- app_assoc; reflexivity |].
        rewrite !count_fetches_app, !count_uploads_app, Hgf, Hgu.
        destruct (count_firstn_save_events logs e k) as [-> ->].
        cbn [Nat.pow]. specialize (Hpow n). rewrite Hst2, Hst1.
        repeat split; lia.
Qed.

(** X9: whatever the world does, the processing of one chunk makes at
    most 7 fetches and at most 4 uploads, and the upload failures grow by no
    more than the number of uploads made. *)
Theorem chunk_cost_is_bounded delete_after_upload s e st :
  exists result st' evs,
    process_time_range app s e 0 delete_after_upload st = (Ret result, st')
    /\ trace st' = trace st ++ evs
    /\ (count_fetches evs <= 7)%nat
    /\ (count_uploads evs <= 4)%nat
    /\ upload_failures (stats st')
       <= upload_failures (stats st) + Z.of_nat (count_uploads evs).
Proof.
  destruct (process_time_range_returns app s e 0 delete_after_upload st)
    as (success & is_empty & st' & Hrun & _).
  pose proof (process_time_range_budget delete_after_upload 3 s e 0 st
                ltac:(discriminate)) as Hb.
  unfold post in Hb. rewrite Hrun in Hb. cbn [fst snd] in Hb.
  destruct Hb as (evs & Ht & Hf & Hu & Hup).
  exists (success, is_empty), st', evs. cbn [Nat.pow] in Hf, Hu.
  repeat split; try assumption; lia.
Qed.

(** X10: [process_time_range], at any depth and whatever the world
    does, leaves the chunk counters and the failed ranges of [self.stats]
    alone, never lowers the upload failures, and never reports a range as
    empty without reporting it as successful. *)
Theorem process_time_range_keeps_counters delete_after_upload s e depth st :
  exists success is_empty st',
    process_time_range app s e depth delete_after_upload st
    = (Ret (success, is_empty), st')
    /\ (is_empty = true -> success = true)
    /\ total_chunks (stats st') = total_chunks (stats st)
    /\ successful_chunks (stats st') = successful_chunks (stats st)
    /\ failed_chunks (stats st') = failed_chunks (stats st)
    /\ empty_logs_chunks (stats st') = empty_logs_chunks (stats st)
    /\ failed_ranges (stats st') = failed_ranges (stats st)
    /\ upload_failures (stats st) <= upload_failures (stats st').
Proof.
  destruct (process_time_range_returns app s e depth delete_after_upload st)
    as (success & is_empty & st' & Hrun & Himp & Hc).
  exists success, is_empty, st'. split; [exact Hrun |]. split.
  - destruct success; [reflexivity |]. intros He. rewrite Himp in He; congruence.
  - exact Hc.
Qed.

End LocalCost.

(** ** Further properties of the range generation *)

Lemma datetime_add_ret t d r :
  datetime_add t d = Ret r -> r = t + d /\ datetime_min <= r <= datetime_max.
Proof.
  unfold datetime_add. cbv zeta.
  destruct (Z.leb_spec datetime_min (t + d)); cbn [andb]; [| discriminate].
  destruct (Z.leb_spec (t + d) datetime_max); [| discriminate].
  intros Heq. injection Heq as <-. lia.
Qed.

Lemma timedelta_days_ret n d : timedelta_days n = Ret d -> d = n * US_PER_DAY.
Proof.
  unfold timedelta_days.
  destruct ((-999999999 <=? n) && (n <=? 999999999)); [| discriminate].
  intros H. injection H as <-. reflexivity.
Qed.

(** Whatever list the loop returns is the list of chunks from where it
    started. *)
Lemma generate_loop_ret c end_time fuel : forall cur acc l,
  Local.generate_loop c fuel end_time cur acc = Ret l ->
  exists l', l = acc ++ l' /\ chunks_from (c * US_PER_DAY) end_time cur l'.
Proof.
  induction fuel as [| fuel IH]; intros cur acc l H; [discriminate |].
  rewrite generate_loop_unfold in H.
  destruct (Z.leb_spec cur end_time) as [Hle | Hgt].
  - destruct (timedelta_days c) as [d | |] eqn:Hd; cbn [rbind] in H;
      try discriminate.
    apply timedelta_days_ret in Hd. subst d.
    destruct (datetime_add cur (c * US_PER_DAY)) as [t1 | |] eqn:H1;
      cbn [rbind] in H; try discriminate.
    apply datetime_add_ret in H1 as [-> _].
    unfold datetime_sub in H.
    destruct (datetime_add (cur + c * US_PER_DAY) (- timedelta_seconds 1))
      as [t2 | |] eqn:H2; cbn [rbind] in H; try discriminate.
    apply datetime_add_ret in H2 as [-> _].
    destruct (datetime_add
                (Z.min (cur + c * US_PER_DAY + - timedelta_seconds 1) end_time)
                (timedelta_seconds 1)) as [next | |] eqn:H3;
      cbn [rbind] in H; try discriminate.
    apply datetime_add_ret in H3 as [-> _].
    destruct (IH _ _ _ H) as (l' & -> & Hl').
    replace (cur + c * US_PER_DAY + - timedelta_seconds 1)
      with (cur + c * US_PER_DAY - timedelta_seconds 1) in * by lia.
    eexists. split; [rewrite <- app_assoc; reflexivity |].
    cbn [List.app chunks_from]. auto.
  - injection H as <-. exists []. split; [symmetry; apply app_nil_r |].
    cbn [chunks_from]. lia.
Qed.

Lemma chunks_from_length span end_time l : forall cur,
  timedelta_seconds 1 <= span ->
  chunks_from span end_time cur l -> cur <= end_time ->
  Z.of_nat (List.length l) = (end_time - cur) / span + 1.
Proof.
  induction l as [| r l IH]; intros cur Hspan H Hle; cbn [chunks_from] in H;
    [lia |].
  destruct H as (_ & -> & H).
  destruct (Z_lt_ge_dec end_time (cur + span)) as [Hlast | Hmore].
  - destruct l as [| b l].
    + rewrite Z.div_small by lia. reflexivity.
    + cbn [chunks_from] in H. exfalso. revert H. tlia.
  - replace (Z.min (cur + span - timedelta_seconds 1) end_time
             + timedelta_seconds 1) with (cur + span) in H by tlia.
    cbn [List.length]. rewrite Nat2Z.inj_succ, (IH _ Hspan H) by lia.
    replace (end_time - cur) with (end_time - (cur + span) + 1 * span) by lia.
    rewrite Z.div_add by (revert Hspan; tlia). lia.
Qed.

Lemma whole_days_quotient c sd ed :
  1 <= c -> sd <= ed ->
  (end_of_day ed - start_of_day sd) / (c * US_PER_DAY) = (ed - sd) / c.
Proof.
  intros Hc Hle. symmetry.
  pose proof (Z.div_mod (ed - sd) c ltac:(lia)) as Hdm.
  pose proof (Z.mod_pos_bound (ed - sd) c ltac:(lia)) as Hm.
  apply Z.div_unique
    with (r := ((ed - sd) mod c) * US_PER_DAY + 86399 * US_PER_SECOND).
  - left. unfold_time. nia.
  - unfold_time. nia.
Qed.

(** X11: for an end date before the start date [generate_time_ranges]
    returns the empty list at once, whatever the chunk size, and
    [download_logs] returns a report of zero chunks without a single call
    into the world: [total_chunks] is set to 0 and nothing else changes. *)
Theorem generate_time_ranges_degenerate
    {W : Type} {P : Local.Primitives W} (app : Local.app_config)
    chunk_size_days fuel start_date end_date :
  end_date < start_date ->
  Local.generate_time_ranges chunk_size_days (S fuel) start_date end_date = Ret []
  /\ forall delete_after_upload (st : Local.state W),
       Local.download_logs app chunk_size_days (S fuel) start_date end_date
                           delete_after_upload st
       = (Ret {| Local.report_overall_stats := Local.set_total 0 (Local.stats st);
                 Local.report_app_stats :=
                   Local.app_set_total 0 (Local.init_app_stats app) |},
          with_total 0 st).
Proof.
  intros H.
  assert (Hgen : Local.generate_time_ranges chunk_size_days (S fuel) start_date
                   end_date = Ret []).
  { unfold Local.generate_time_ranges. rewrite generate_loop_unfold.
    destruct (Z.leb_spec (start_of_day start_date) (end_of_day end_date));
      [exfalso; tlia | reflexivity]. }
  split; [exact Hgen |].
  intros delete_after_upload st. unfold Local.download_logs.
  unfold bind at 1. unfold lift. rewrite Hgen. reflexivity.
Qed.

(** X12: for a positive chunk size and [start_date <= end_date], a list
    returned by [generate_time_ranges] has
    [(end_date - start_date) // chunk_size_days + 1] ranges: the number of
    days, divided by the chunk size and rounded up. *)
Theorem generate_time_ranges_count chunk_size_days fuel start_date end_date ranges :
  1 <= chunk_size_days -> start_date <= end_date ->
  Local.generate_time_ranges chunk_size_days fuel start_date end_date = Ret ranges ->
  Z.of_nat (List.length ranges) = (end_date - start_date) / chunk_size_days + 1.
Proof.
  intros Hc Hle H. unfold Local.generate_time_ranges in H.
  destruct (generate_loop_ret _ _ _ _ _ _ H) as (l & -> & Hl).
  cbn [List.app].
  assert (Hspan : timedelta_seconds 1 <= chunk_size_days * US_PER_DAY) by tlia.
  assert (Hstart : start_of_day start_date <= end_of_day end_date) by tlia.
  rewrite (chunks_from_length _ _ _ _ Hspan Hl Hstart).
  rewrite whole_days_quotient by assumption. reflexivity.
Qed.

(** With a negative chunk size the loop walks backwards until the datetime
    arithmetic overflows. *)
Lemma generate_loop_negative c end_time fuel : forall cur acc,
  c <= -1 -> 0 <= cur <= end_time -> end_time <= datetime_max ->
  cur < Z.of_nat fuel ->
  Local.generate_loop c fuel end_time cur acc = Raise OverflowError.
Proof.
  induction fuel as [| fuel IH]; intros cur acc Hc Hcur Hend Hfuel;
    [exfalso; change (Z.of_nat 0) with 0 in Hfuel; lia |].
  rewrite generate_loop_unfold.
  destruct (Z.leb_spec cur end_time); [| lia].
  unfold timedelta_days.
  destruct ((-999999999 <=? c) && (c <=? 999999999)); [| reflexivity].
  cbn [rbind]. unfold datetime_sub, datetime_add. cbv zeta.
  destruct (Z.leb_spec datetime_min (cur + c * US_PER_DAY)); cbn [andb];
    [| reflexivity].
  destruct (Z.leb_spec (cur + c * US_PER_DAY) datetime_max); [| reflexivity].
  cbn [rbind].
  destruct (Z.leb_spec datetime_min (cur + c * US_PER_DAY + - timedelta_seconds 1));
    cbn [andb]; [| reflexivity].
  destruct (Z.leb_spec (cur + c * US_PER_DAY + - timedelta_seconds 1) datetime_max);
    [| reflexivity].
  cbn [rbind].
  replace (Z.min (cur + c * US_PER_DAY + - timedelta_seconds 1) end_time
           + timedelta_seconds 1) with (cur + c * US_PER_DAY) by tlia.
  destruct (Z.leb_spec datetime_min (cur + c * US_PER_DAY)); [| lia].
  destruct (Z.leb_spec (cur + c * US_PER_DAY) datetime_max); [| lia].
  cbn [andb rbind].
  apply IH; try assumption.
  - revert Hc. tlia.
  - revert Hc Hfuel. tlia.
Qed.

(** X13: with a negative chunk size and valid dates
    [start_date <= end_date], [generate_time_ranges] neither returns nor
    loops for ever: it raises [OverflowError], and [download_logs] raises it
    in turn before any call is made and before [self.stats] is touched. *)
Theorem negative_chunk_size_overflows
    {W : Type} {P : Local.Primitives W} (app : Local.app_config)
    chunk_size_days start_date end_date :
  chunk_size_days <= -1 ->
  1 <= start_date -> start_date <= end_date -> end_date <= MAXORDINAL ->
  exists fuel0,
    forall fuel, (fuel0 <= fuel)%nat ->
      Local.generate_time_ranges chunk_size_days fuel start_date end_date
      = Raise OverflowError
      /\ forall delete_after_upload (st : Local.state W),
           Local.download_logs app chunk_size_days fuel start_date end_date
                               delete_after_upload st
           = (Raise OverflowError, st).
Proof.
  intros Hc Hsd Hle Hmax.
  exists (S (Z.to_nat (start_of_day start_date))). intros fuel Hfuel.
  assert (Hgen : Local.generate_time_ranges chunk_size_days fuel start_date end_date
                 = Raise OverflowError).
  { unfold Local.generate_time_ranges. apply generate_loop_negative.
    - assumption.
    - tlia.
    - tlia.
    - assert (0 <= start_of_day start_date) by tlia. lia. }
  split; [exact Hgen |].
  intros delete_after_upload st. unfold Local.download_logs.
  unfold bind at 1. unfold lift. rewrite Hgen. reflexivity.
Qed.

Section Report.

Import Local.

Context {W : Type} {P : Primitives W}.
Variable app : app_config.
Variable chunk_size_days : Z.

Lemma subsequence_refl_nil {A} (l : list A) : subsequence [] l.
Proof. induction l; constructor; assumption. Qed.

(** The loop appends the chunks that failed, in their order, to both lists
    of failed ranges. *)
Lemma chunk_loop_failed_ranges delete_after_upload ranges : forall acc st acc' st',
  chunk_loop app delete_after_upload ranges acc st = (Ret acc', st') ->
  exists failed,
    subsequence failed ranges
    /\ app_failed_ranges acc' = app_failed_ranges acc ++ failed
    /\ failed_ranges (stats st')
       = failed_ranges (stats st) ++ map (failed_entry app) failed.
Proof.
  induction ranges as [| r ranges IH]; intros acc st acc' st' H.
  - cbn [chunk_loop] in H. injection H as <- <-.
    exists []. rewrite !app_nil_r. repeat split. constructor.
  - destruct (process_time_range_returns app (fst r) (snd r) 0
                delete_after_upload st)
      as (success & is_empty & st1 & Hrun & _ & Hc).
    cbn [chunk_loop] in H.
    rewrite (bind_ret_run _ _ _ _ _
               (process_chunk_run app delete_after_upload acc r st _ _ _ Hrun))
      in H.
    destruct (IH _ _ _ _ H) as (failed & Hsub & Ha & Hs).
    cbn [stats] in Hs. destruct Hc as (_ & _ & _ & _ & Hfr & _).
    destruct success.
    + exists failed. split; [constructor; exact Hsub |].
      split.
      * rewrite Ha. destruct is_empty; reflexivity.
      * rewrite Hs, <- Hfr. destruct is_empty; reflexivity.
    + exists (r :: failed). split; [constructor; exact Hsub |].
      split.
      * rewrite Ha. cbn [app_tally app_record_failed app_failed_ranges].
        rewrite <- app_assoc. reflexivity.
      * rewrite Hs. cbn [tally record_failed failed_ranges map].
        rewrite <- app_assoc, Hfr. reflexivity.
Qed.

(** X14: in the report of [download_logs] the failed ranges of
    [app_stats] are chunks returned by [generate_time_ranges], in their
    order, and the failed ranges added to [self.stats] are these same ranges,
    in the same order, with their bounds in ISO format. *)
Theorem failed_ranges_are_generated_chunks
    fuel start_date end_date delete_after_upload st rep st' :
  download_logs app chunk_size_days fuel start_date end_date
                delete_after_upload st
  = (Ret rep, st') ->
  exists ranges,
    generate_time_ranges chunk_size_days fuel start_date end_date = Ret ranges
    /\ subsequence (app_failed_ranges (report_app_stats rep)) ranges
    /\ failed_ranges (report_overall_stats rep)
       = failed_ranges (stats st)
         ++ map (failed_entry app) (app_failed_ranges (report_app_stats rep)).
Proof.
  intros Hrun.
  unfold download_logs in Hrun. unfold bind at 1 in Hrun. unfold lift in Hrun.
  destruct (generate_time_ranges chunk_size_days fuel start_date end_date)
    as [ranges | ex |]; try discriminate.
  cbv zeta in Hrun. unfold bind at 1 in Hrun.
  unfold modify_stats at 1 in Hrun. unfold bind at 1 in Hrun.
  match type of Hrun with
  | context [chunk_loop app delete_after_upload ranges ?a ?s] =>
      destruct (chunk_loop app delete_after_upload ranges a s)
        as [[acc | ex |] st1] eqn:Hloop; try discriminate
  end.
  injection Hrun as <- <-.
  destruct (chunk_loop_failed_ranges _ _ _ _ _ _ Hloop)
    as (failed & Hsub & Ha & Hs).
  cbn [app_set_total init_app_stats app_failed_ranges List.app] in Ha.
  cbn [stats set_total failed_ranges] in Hs.
  exists ranges. cbn [report_app_stats report_overall_stats].
  rewrite Ha. auto.
Qed.

(** X15: [download_logs] on a downloader that has run before adds the
    new chunks to the successful and failed counters of [self.stats] but
    overwrites [total_chunks] with the number of chunks of this call alone;
    [app_stats] starts afresh each time. *)
Theorem download_logs_accumulates
    fuel start_date end_date delete_after_upload st rep st' :
  download_logs app chunk_size_days fuel start_date end_date
                delete_after_upload st
  = (Ret rep, st') ->
  exists ranges,
    generate_time_ranges chunk_size_days fuel start_date end_date = Ret ranges
    /\ total_chunks (report_overall_stats rep) = Z.of_nat (List.length ranges)
    /\ successful_chunks (report_overall_stats rep)
       + failed_chunks (report_overall_stats rep)
       = successful_chunks (stats st) + failed_chunks (stats st)
         + Z.of_nat (List.length ranges)
    /\ app_total_chunks (report_app_stats rep) = Z.of_nat (List.length ranges)
    /\ app_successful_chunks (report_app_stats rep)
       + app_failed_chunks (report_app_stats rep)
       = Z.of_nat (List.length ranges).
Proof.
  intros Hrun.
  unfold download_logs in Hrun. unfold bind at 1 in Hrun. unfold lift in Hrun.
  destruct (generate_time_ranges chunk_size_days fuel start_date end_date)
    as [ranges | ex |]; try discriminate.
  cbv zeta in Hrun. unfold bind at 1 in Hrun.
  unfold modify_stats at 1 in Hrun. unfold bind at 1 in Hrun.
  fold (with_total (Z.of_nat (List.length ranges)) st) in Hrun.
  destruct (chunk_loop_returns app delete_after_upload ranges
              (app_set_total (Z.of_nat (List.length ranges)) (init_app_stats app))
              (with_total (Z.of_nat (List.length ranges)) st))
    as (acc & st1 & Hloop & Ha & Hs & Ht & HT).
  rewrite Hloop in Hrun. injection Hrun as <- <-.
  exists ranges. cbn [report_overall_stats report_app_stats].
  cbn [with_total stats set_total total_chunks successful_chunks failed_chunks
       app_set_total init_app_stats app_total_chunks app_successful_chunks
       app_failed_chunks] in Ha, Hs, Ht, HT.
  repeat split; try assumption; lia.
Qed.

End Report.

Section LambdaRuns.

Context {W : Type} {P : Lambda.Primitives W}.

Lemma post_lambda_call {A} ev (prim : W -> completed A * W) st
    (Q : result A -> Lambda.state W -> Prop) :
  (forall c w', prim (Lambda.world st) = (c, w') ->
     match c with
     | Done a => Q (Ret a) (noted st w' ev)
     | Failed e => Q (Raise e) (noted st w' ev)
     end) ->
  post (Lambda.call ev prim) st Q.
Proof.
  unfold post, Lambda.call. intros H.
  destruct (prim (Lambda.world st)) as [c w'] eqn:Hp.
  specialize (H c w' eq_refl). destruct c; exact H.
Qed.

Lemma post_lambda_sleep seconds st (Q : result unit -> Lambda.state W -> Prop) :
  match sleep_error seconds with
  | Some ex => Q (Raise ex) (noted st (Lambda.world st) (Lambda.EvSleep seconds))
  | None => Q (Ret tt) (noted st (Lambda.time_sleep seconds (Lambda.world st))
                              (Lambda.EvSleep seconds))
  end ->
  post (Lambda.sleep seconds) st Q.
Proof.
  unfold post, Lambda.sleep. destruct (sleep_error seconds); auto.
Qed.

End LambdaRuns.

Section LambdaPaths.

Context {W : Type} {P : Lambda.Primitives W}.
Variable app : Lambda.app_config.

Lemma written_app_l evs evs' p : written evs p -> written (evs ++ evs') p.
Proof. intros (c & H). exists c. apply in_or_app. auto. Qed.

Lemma written_app_r evs evs' p : written evs' p -> written (evs ++ evs') p.
Proof. intros (c & H). exists c. apply in_or_app. auto. Qed.

Lemma returns_written_nothing {A} (paths_of : A -> list string)
    (st : Lambda.state W) (r : result A) :
  (forall a, r = Ret a -> paths_of a = []) ->
  returns_written paths_of st r st.
Proof.
  intros H. exists []. rewrite app_nil_r. split; [reflexivity |].
  intros a Ha. rewrite (H a Ha). constructor.
Qed.

(** A step that returns no paths of its own leaves the property to what
    follows. *)
Lemma returns_written_after {A} (paths_of : A -> list string)
    (st st1 : Lambda.state W) evs1 (r : result A) st' :
  Lambda.trace st1 = Lambda.trace st ++ evs1 ->
  returns_written paths_of st1 r st' ->
  returns_written paths_of st r st'.
Proof.
  intros H1 (evs & Ht & Hw). exists (evs1 ++ evs). split.
  - rewrite Ht, H1, app_assoc. reflexivity.
  - intros a Ha. eapply Forall_impl; [| exact (Hw a Ha)].
    intros p. apply written_app_r.
Qed.

Lemma returns_written_noted {A} (paths_of : A -> list string)
    (st : Lambda.state W) w' ev (r : result A) st' :
  returns_written paths_of (noted st w' ev) r st' ->
  returns_written paths_of st r st'.
Proof. apply returns_written_after with (evs1 := [ev]). reflexivity. Qed.

Lemma retry_or_give_up_written retry max_retries retry_delay (st0 st : Lambda.state W) evs0 :
  Lambda.trace st = Lambda.trace st0 ++ evs0 ->
  post (Lambda.retry_or_give_up retry max_retries retry_delay) st
       (returns_written paths_of_option st0).
Proof.
  intros H0. unfold post. rewrite retry_or_give_up_run.
  destruct (retry <? max_retries - 1); cbn [fst snd].
  - destruct (sleep_error (retry_delay * 2 ^ retry)); cbn [fst snd].
    + eexists. cbn [Lambda.trace]. rewrite H0, <- app_assoc.
      split; [reflexivity |]. discriminate.
    + eexists. cbn [Lambda.trace]. rewrite H0, <- app_assoc.
      split; [reflexivity |]. intros a Ha. injection Ha as <-. constructor.
  - exists evs0. split; [exact H0 |]. intros a Ha. injection Ha as <-.
    constructor.
Qed.

Lemma attempt_written handle_large s e path max_retries retry_delay retry :
  (forall st : Lambda.state W,
      post handle_large st (returns_written (fun l => l) st)) ->
  forall st,
    post (Lambda.attempt app handle_large s e path max_retries retry_delay retry)
         st (returns_written paths_of_option st).
Proof.
  intros Hh st. unfold Lambda.attempt.
  assert (Hhandler : forall ex st1 evs1,
             Lambda.trace st1 = Lambda.trace st ++ evs1 ->
             post (match ex with
                   | BadRequestException msg =>
                       if contains "reduce time range" msg
                          || contains "Too many records" msg
                       then paths <- handle_large ;; ret (Some paths)
                       else Lambda.retry_or_give_up retry max_retries retry_delay
                   | ResourceNotFoundException _ => ret (Some [])
                   | _ => Lambda.retry_or_give_up retry max_retries retry_delay
                   end) st1 (returns_written paths_of_option st)).
  { intros ex st1 evs1 H1.
    destruct ex; try (eapply retry_or_give_up_written; exact H1).
    - destruct (contains "reduce time range" msg || contains "Too many records" msg);
        [| eapply retry_or_give_up_written; exact H1].
      apply post_bind. eapply post_weaken; [apply Hh |].
      intros r st2 Hr. cbv beta in Hr.
      apply (returns_written_after _ st st1 evs1) in Hr; [| exact H1].
      destruct Hr as (evs & Ht & Hw).
      destruct r as [paths | ex |].
      + apply post_ret. exists evs. split; [exact Ht |].
        intros a Ha. injection Ha as <-. apply Hw. reflexivity.
      + exists evs. split; [exact Ht |]. discriminate.
      + exists evs. split; [exact Ht |]. discriminate.
    - apply post_ret. exists evs1. split; [exact H1 |].
      intros a Ha. injection Ha as <-. constructor. }
  apply post_try. apply post_bind.
  apply post_lambda_call. intros [response | ex] w1 _.
  2:{ eapply Hhandler. reflexivity. }
  apply post_bind. apply post_lift.
  destruct (py_contains "logUrl" response) as [[|] | ex |] eqn:Hc.
  - apply post_bind. apply post_lift.
    destruct (py_getitem response "logUrl") as [url | ex |] eqn:Hg.
    + apply post_bind. apply post_lambda_call. intros [log_response | ex] w2 _.
      2:{ eapply Hhandler. cbn [noted Lambda.trace]. rewrite <- app_assoc.
          reflexivity. }
      destruct (fst log_response =? 200).
      * apply post_bind. apply post_lambda_call. intros [[] | ex] w3 _.
        -- apply post_ret. eexists. cbn [noted Lambda.trace].
           rewrite <- !app_assoc. split; [reflexivity |].
           intros r Hr. injection Hr as <-. cbn [paths_of_option].
           constructor; [| constructor].
           eexists. cbn [List.app]. right. right. left. reflexivity.
        -- eapply Hhandler. cbn [noted Lambda.trace]. rewrite <- !app_assoc.
           reflexivity.
      * unfold post at 1. rewrite retry_or_give_up_run.
        destruct (retry <? max_retries - 1);
          [destruct (sleep_error (retry_delay * 2 ^ retry)) |]; cbn [fst snd].
        -- eapply Hhandler. cbn [noted Lambda.trace]. rewrite <- !app_assoc.
           reflexivity.
        -- eexists. cbn [noted Lambda.trace]. rewrite <- !app_assoc.
           split; [reflexivity |]. intros a Ha. injection Ha as <-. constructor.
        -- eexists. cbn [noted Lambda.trace]. rewrite <- !app_assoc.
           split; [reflexivity |]. intros a Ha. injection Ha as <-. constructor.
    + eapply Hhandler. reflexivity.
    + destruct (py_getitem_returns _ _ Hg).
  - apply post_bind. apply post_lambda_call. intros [[] | ex] w2 _.
    + apply post_ret. eexists. cbn [noted Lambda.trace].
      rewrite <- !app_assoc. split; [reflexivity |].
      intros r Hr. injection Hr as <-. cbn [paths_of_option].
      constructor; [| constructor].
      eexists. cbn [List.app]. right. left. reflexivity.
    + eapply Hhandler. cbn [noted Lambda.trace]. rewrite <- !app_assoc.
      reflexivity.
  - eapply Hhandler. reflexivity.
  - destruct (py_contains_returns _ _ Hc).
Qed.

Lemma retry_loop_written attempt_at retries :
  (forall retry (st : Lambda.state W),
      post (attempt_at retry) st (returns_written paths_of_option st)) ->
  forall st,
    post (Lambda.retry_loop attempt_at retries) st
         (returns_written (fun l => l) st).
Proof.
  intros Ha. induction retries as [| retry rest IH]; intros st.
  - cbn [Lambda.retry_loop]. apply post_ret.
    apply returns_written_nothing. intros a H. injection H as <-. reflexivity.
  - cbn [Lambda.retry_loop]. apply post_bind.
    eapply post_weaken; [apply Ha |]. intros r st1 (evs & Ht & Hw).
    destruct r as [[paths |] | ex |].
    + apply post_ret. exists evs. split; [exact Ht |].
      intros a H. injection H as <-. apply (Hw (Some paths)). reflexivity.
    + eapply post_weaken; [apply IH |]. intros r st2 Hr.
      eapply returns_written_after; eassumption.
    + exists evs. split; [exact Ht |]. discriminate.
    + exists evs. split; [exact Ht |]. discriminate.
Qed.

(** Whatever the two halves do, the function around them does not raise. *)
Lemma download_with_written handle_large s e temp_dir max_retries retry_delay :
  (forall st : Lambda.state W,
      post handle_large st (returns_written (fun l => l) st)) ->
  forall st,
    post (Lambda.download_with app handle_large s e temp_dir max_retries retry_delay)
         st (fun r st' => returns_written (fun l => l) st r st'
                          /\ forall ex, r <> Raise ex).
Proof.
  intros Hh st. unfold Lambda.download_with.
  assert (Hgive : forall st1 evs1,
             Lambda.trace st1 = Lambda.trace st ++ evs1 ->
             post (ret (S := Lambda.state W) (@nil string)) st1
                  (fun r st' => returns_written (fun l => l) st r st'
                                /\ forall ex, r <> Raise ex)).
  { intros st1 evs1 H1. apply post_ret. split; [| discriminate].
    exists evs1. split; [exact H1 |]. intros a Ha. injection Ha as <-.
    constructor. }
  apply post_try. apply post_bind.
  apply post_lambda_call. intros [[] | ex] w1 _.
  2:{ eapply Hgive. reflexivity. }
  apply post_bind. apply post_lambda_call. intros [[] | ex] w2 _.
  2:{ eapply Hgive. cbn [noted Lambda.trace]. rewrite <- app_assoc. reflexivity. }
  eapply post_weaken.
  { apply retry_loop_written. intros retry st1. apply attempt_written. exact Hh. }
  intros r st1 Hr. cbv beta in Hr.
  do 2 apply returns_written_noted in Hr.
  destruct r as [paths | ex |].
  - split; [exact Hr | discriminate].
  - destruct Hr as (evs & Ht & _). eapply Hgive. exact Ht.
  - split; [exact Hr | discriminate].
Qed.

Lemma handle_large_written download s e depth max_depth :
  (forall s e (st : Lambda.state W),
      post (download s e) st (returns_written (fun l => l) st)) ->
  forall st,
    post (Lambda.handle_large_time_range download s e depth max_depth) st
         (returns_written (fun l => l) st).
Proof.
  intros Hd st. unfold Lambda.handle_large_time_range.
  destruct (max_depth <=? depth).
  - apply post_ret. apply returns_written_nothing.
    intros a H. injection H as <-. reflexivity.
  - apply post_bind. eapply post_weaken; [apply Hd |].
    intros r1 st1 (evs1 & Ht1 & Hw1). destruct r1 as [first_half | ex |].
    + apply post_bind. apply post_lambda_sleep. apply post_bind.
      eapply post_weaken; [apply Hd |].
      intros r2 st2 (evs2 & Ht2 & Hw2). cbn [noted Lambda.trace] in Ht2.
      destruct r2 as [second_half | ex |].
      * apply post_ret. exists (evs1 ++ [Lambda.EvSleep 1] ++ evs2). split.
        -- rewrite Ht2, Ht1, <- !app_assoc. reflexivity.
        -- intros a H. injection H as <-. apply Forall_app. split.
           ++ eapply Forall_impl; [| exact (Hw1 _ eq_refl)].
              intros p. apply written_app_l.
           ++ eapply Forall_impl; [| exact (Hw2 _ eq_refl)].
              intros p Hp. apply written_app_r, written_app_r. exact Hp.
      * eexists. split; [| discriminate].
        rewrite Ht2, Ht1, <- !app_assoc. reflexivity.
      * eexists. split; [| discriminate].
        rewrite Ht2, Ht1, <- !app_assoc. reflexivity.
    + exists evs1. split; [exact Ht1 | discriminate].
    + exists evs1. split; [exact Ht1 | discriminate].
Qed.

Lemma download_amplify_logs_written fuel :
  forall s e temp_dir max_retries retry_delay st,
    post (Lambda.download_amplify_logs app fuel s e temp_dir max_retries retry_delay)
         st (fun r st' => returns_written (fun l => l) st r st'
                          /\ forall ex, r <> Raise ex).
Proof.
  induction fuel as [| fuel IH]; intros s e temp_dir max_retries retry_delay st.
  - cbn [Lambda.download_amplify_logs]. unfold post, diverge. cbn [fst snd].
    split; [| discriminate]. exists []. rewrite app_nil_r.
    split; [reflexivity | discriminate].
  - cbn [Lambda.download_amplify_logs]. apply download_with_written.
    intros st1. apply handle_large_written. intros s1 e1 st2.
    eapply post_weaken; [apply IH |]. intros r st3 H. apply H.
Qed.

(** X16: [download_amplify_logs] of the Lambda raises nothing, whatever the
    calls into the world do, and every path in the list it returns is a file
    that one of the calls made during this run opened for writing. *)
Theorem lambda_download_returns_written_files
    fuel s e temp_dir max_retries retry_delay (st : Lambda.state W) r st' :
  Lambda.download_amplify_logs app fuel s e temp_dir max_retries retry_delay st
  = (r, st') ->
  (forall ex, r <> Raise ex)
  /\ exists evs,
       Lambda.trace st' = Lambda.trace st ++ evs
       /\ forall paths, r = Ret paths -> Forall (written evs) paths.
Proof.
  intros Hrun.
  pose proof (download_amplify_logs_written fuel s e temp_dir max_retries
                retry_delay st) as H.
  unfold post in H. rewrite Hrun in H. cbn [fst snd] in H.
  destruct H as (Hw & Hr). split; [exact Hr | exact Hw].
Qed.

End LambdaPaths.

Section LambdaOutcomes.

Context {W : Type} {P : Lambda.Primitives W}.
Variable app : Lambda.app_config.

Lemma py_range_pos n : 1 <= n -> py_range n = 0 :: map Z.of_nat (seq 1 (Z.to_nat n - 1)).
Proof.
  intros H. unfold py_range.
  destruct (Z.to_nat n) as [| k] eqn:Hk; [lia |].
  cbn [seq map Nat.sub]. rewrite Nat.sub_0_r. reflexivity.
Qed.

(** X17: when the API answers the first call with
    [ResourceNotFoundException], [download_amplify_logs] returns the empty
    list at once: one API call, no sleep, no retry, nothing written,
    whatever [max_retries] allows. *)
Theorem resource_not_found_is_not_retried
    fuel s e temp_dir max_retries retry_delay (st : Lambda.state W) w1 w2 msg w3 :
  1 <= max_retries ->
  Lambda.os_makedirs (Lambda.output_dir_of app temp_dir s) (Lambda.world st)
  = (Done tt, w1) ->
  Lambda.boto3_client (Lambda.region app) w1 = (Done tt, w2) ->
  Lambda.generate_access_logs app s e w2
  = (Failed (ResourceNotFoundException msg), w3) ->
  Lambda.download_amplify_logs app (S fuel) s e temp_dir max_retries retry_delay st
  = (Ret [],
     {| Lambda.world := w3;
        Lambda.trace :=
          Lambda.trace st
          ++ [ Lambda.EvMakedirs (Lambda.output_dir_of app temp_dir s);
               Lambda.EvClient (Lambda.region app);
               Lambda.EvGenerateAccessLogs s e ] |}).
Proof.
  intros Hmax Hmk Hcl Hapi.
  cbn [Lambda.download_amplify_logs]. unfold Lambda.download_with.
  unfold try_except at 1. unfold bind at 1. unfold Lambda.call at 1.
  rewrite Hmk. unfold bind at 1. unfold Lambda.call at 1.
  cbn [Lambda.world Lambda.trace]. rewrite Hcl.
  rewrite (py_range_pos _ Hmax). cbn [Lambda.retry_loop].
  unfold bind at 1. unfold Lambda.attempt at 1.
  unfold try_except at 1. unfold bind at 1. unfold Lambda.call at 1.
  cbn [Lambda.world Lambda.trace]. rewrite Hapi.
  unfold ret. rewrite <- !app_assoc. reflexivity.
Qed.

(** X18: an answered first attempt ends the function without a retry or a
    sleep.  With a log URL whose download answers 200, the body is written,
    empty or not, to the file named after the START of the range, and that
    one path is returned; a response without [logUrl] writes a one-line note
    to the same file and returns its path as well. *)
Theorem lambda_download_stores_under_start_time
    fuel s e temp_dir max_retries retry_delay (st : Lambda.state W) w1 w2
    response w3 :
  1 <= max_retries ->
  Lambda.os_makedirs (Lambda.output_dir_of app temp_dir s) (Lambda.world st)
  = (Done tt, w1) ->
  Lambda.boto3_client (Lambda.region app) w1 = (Done tt, w2) ->
  Lambda.generate_access_logs app s e w2 = (Done response, w3) ->
  let path := Lambda.log_file_path_of app temp_dir s in
  let setup := [ Lambda.EvMakedirs (Lambda.output_dir_of app temp_dir s);
                 Lambda.EvClient (Lambda.region app);
                 Lambda.EvGenerateAccessLogs s e ] in
  (forall url text w4 w5,
      py_contains "logUrl" response = Ret true ->
      py_getitem response "logUrl" = Ret url ->
      Lambda.requests_get url w3 = (Done (200, text), w4) ->
      Lambda.write_text path text w4 = (Done tt, w5) ->
      Lambda.download_amplify_logs app (S fuel) s e temp_dir max_retries
                                   retry_delay st
      = (Ret [path],
         {| Lambda.world := w5;
            Lambda.trace :=
              Lambda.trace st ++ setup
              ++ [Lambda.EvHttpGet url; Lambda.EvWriteFile path text] |}))
  /\ (forall w4,
        py_contains "logUrl" response = Ret false ->
        let note := ("# No logs found for " ++ Lambda.appName app ++ " from "
                     ++ Lambda.str_datetime s ++ " to "
                     ++ Lambda.str_datetime e ++ String "010" EmptyString)%string in
        Lambda.write_text path note w3 = (Done tt, w4) ->
        Lambda.download_amplify_logs app (S fuel) s e temp_dir max_retries
                                     retry_delay st
        = (Ret [path],
           {| Lambda.world := w4;
              Lambda.trace :=
                Lambda.trace st ++ setup ++ [Lambda.EvWriteFile path note] |})).
Proof.
  intros Hmax Hmk Hcl Hapi path setup.
  split.
  - intros url text w4 w5 Hc Hg Hget Hwr.
    cbn [Lambda.download_amplify_logs]. unfold Lambda.download_with.
    unfold try_except at 1. unfold bind at 1. unfold Lambda.call at 1.
    rewrite Hmk. unfold bind at 1. unfold Lambda.call at 1.
    cbn [Lambda.world Lambda.trace]. rewrite Hcl.
    rewrite (py_range_pos _ Hmax). cbn [Lambda.retry_loop].
    unfold bind at 1. unfold Lambda.attempt at 1.
    unfold try_except at 1. unfold bind at 1. unfold Lambda.call at 1.
    cbn [Lambda.world Lambda.trace]. rewrite Hapi.
    unfold bind at 1. unfold lift at 1. rewrite Hc.
    unfold bind at 1. unfold lift at 1. rewrite Hg.
    unfold bind at 1. unfold Lambda.call at 1.
    cbn [Lambda.world Lambda.trace]. rewrite Hget. cbn [fst snd].
    change (200 =? 200) with true. cbv iota.
    unfold bind at 1. unfold Lambda.call at 1.
    cbn [Lambda.world Lambda.trace]. fold path. rewrite Hwr.
    unfold ret. unfold setup. rewrite <- !app_assoc. reflexivity.
  - intros w4 Hc note Hwr.
    cbn [Lambda.download_amplify_logs]. unfold Lambda.download_with.
    unfold try_except at 1. unfold bind at 1. unfold Lambda.call at 1.
    rewrite Hmk. unfold bind at 1. unfold Lambda.call at 1.
    cbn [Lambda.world Lambda.trace]. rewrite Hcl.
    rewrite (py_range_pos _ Hmax). cbn [Lambda.retry_loop].
    unfold bind at 1. unfold Lambda.attempt at 1.
    unfold try_except at 1. unfold bind at 1. unfold Lambda.call at 1.
    cbn [Lambda.world Lambda.trace]. rewrite Hapi.
    unfold bind at 1. unfold lift at 1. rewrite Hc.
    unfold bind at 1. unfold Lambda.call at 1.
    cbn [Lambda.world Lambda.trace]. fold path. fold note. rewrite Hwr.
    unfold ret. unfold setup. rewrite <- !app_assoc. reflexivity.
Qed.

(** What [handle_large_time_range] runs for the range [(s, e)]. *)
Lemma split_never_raises fuel s e temp_dir (st : Lambda.state W) :
  forall ex,
    fst ((first_half <- Lambda.download_amplify_logs app fuel s
                          (Lambda.mid_time_of s e) temp_dir 3 2 ;;
          _ <- Lambda.sleep 1 ;;
          second_half <- Lambda.download_amplify_logs app fuel
                           (Lambda.mid_time_of s e) e temp_dir 3 2 ;;
          ret (first_half ++ second_half)%list) st) <> Raise ex.
Proof.
  intros ex. unfold bind at 1.
  pose proof (download_amplify_logs_written app fuel s (Lambda.mid_time_of s e)
                temp_dir 3 2 st) as H1.
  unfold post in H1.
  destruct (Lambda.download_amplify_logs app fuel s (Lambda.mid_time_of s e)
              temp_dir 3 2 st) as [[first_half | ex1 |] st1];
    cbn [fst snd] in H1.
  - unfold bind at 1. unfold Lambda.sleep at 1.
    change (sleep_error 1) with (@None exn). cbv iota. unfold bind at 1.
    match goal with
    | |- context [Lambda.download_amplify_logs app fuel ?a ?b ?c ?d ?f ?g] =>
        pose proof (download_amplify_logs_written app fuel a b c d f g) as H2;
        unfold post in H2;
        destruct (Lambda.download_amplify_logs app fuel a b c d f g)
          as [[second_half | ex2 |] st2]; cbn [fst snd] in H2
    end.
    + discriminate.
    + destruct H2 as (_ & H2). destruct (H2 ex2 eq_refl).
    + discriminate.
  - destruct H1 as (_ & H1). destruct (H1 ex1 eq_refl).
  - discriminate.
Qed.

(** X19: when the API answers the first call on [(s, e)] with a
    [BadRequestException] that asks to reduce the range, the function is
    the download of the first half, a sleep of one second, and the download
    of the second half, its result the two lists of paths put together.  The
    range itself is not retried, and the halves run with the default
    [max_retries=3] and [retry_delay=2], not with the caller's values. *)
Theorem lambda_split_uses_default_retries
    fuel s e temp_dir max_retries retry_delay (st : Lambda.state W) w1 w2 msg w3 :
  1 <= max_retries ->
  Lambda.os_makedirs (Lambda.output_dir_of app temp_dir s) (Lambda.world st)
  = (Done tt, w1) ->
  Lambda.boto3_client (Lambda.region app) w1 = (Done tt, w2) ->
  Lambda.generate_access_logs app s e w2
  = (Failed (BadRequestException msg), w3) ->
  contains "reduce time range" msg || contains "Too many records" msg = true ->
  Lambda.download_amplify_logs app (S fuel) s e temp_dir max_retries retry_delay st
  = (first_half <- Lambda.download_amplify_logs app fuel s
                     (Lambda.mid_time_of s e) temp_dir 3 2 ;;
     _ <- Lambda.sleep 1 ;;
     second_half <- Lambda.download_amplify_logs app fuel
                      (Lambda.mid_time_of s e) e temp_dir 3 2 ;;
     ret (first_half ++ second_half)%list)
      {| Lambda.world := w3;
         Lambda.trace :=
           Lambda.trace st
           ++ [ Lambda.EvMakedirs (Lambda.output_dir_of app temp_dir s);
                Lambda.EvClient (Lambda.region app);
                Lambda.EvGenerateAccessLogs s e ] |}.
Proof.
  intros Hmax Hmk Hcl Hapi Hmsg.
  cbn [Lambda.download_amplify_logs]. unfold Lambda.download_with.
  unfold try_except at 1. unfold bind at 1. unfold Lambda.call at 1.
  rewrite Hmk. unfold bind at 1. unfold Lambda.call at 1.
  cbn [Lambda.world Lambda.trace]. rewrite Hcl.
  rewrite (py_range_pos _ Hmax). cbn [Lambda.retry_loop].
  unfold bind at 1. unfold Lambda.attempt at 1.
  unfold try_except at 1. unfold bind at 1. unfold Lambda.call at 1.
  cbn [Lambda.world Lambda.trace]. rewrite Hapi, Hmsg.
  unfold bind at 1. unfold Lambda.handle_large_time_range at 1.
  change (3 <=? 0) with false. cbv iota.
  rewrite <- !app_assoc. cbn [List.app].
  match goal with
  | |- context [bind (Lambda.download_amplify_logs app fuel s ?m temp_dir 3 2) ?k ?st3] =>
      pose proof (split_never_raises fuel s e temp_dir st3) as Hnr;
      destruct (bind (Lambda.download_amplify_logs app fuel s m temp_dir 3 2) k st3)
        as [[paths | ex |] st4]
  end.
  - reflexivity.
  - destruct (Hnr ex). reflexivity.
  - reflexivity.
Qed.

End LambdaOutcomes.

(** ** The ranges of the orchestration Lambda *)

Section OrchestrationFacts.

Variable isoformat : datetime -> string.
Variable c : Z.

Lemma orchestration_loop_unfold fuel end_date cur acc :
  Orchestration.generate_loop isoformat c (S fuel) end_date cur acc
  = if cur <? end_date then
      d <~ timedelta_days c ;;
      t <~ datetime_add cur d ;;
      let chunk_end := if end_date <? t then end_date else t in
      Orchestration.generate_loop isoformat c fuel end_date chunk_end
        (acc ++ [Orchestration.range_dict isoformat (cur, chunk_end)])
    else Ret acc.
Proof. reflexivity. Qed.

Lemma chunk_end_min end_date t :
  (if end_date <? t then end_date else t) = Z.min t end_date.
Proof. destruct (Z.ltb_spec end_date t); lia. Qed.

(** Whatever list the loop returns is the list of slices from where it
    started. *)
Lemma orchestration_loop_ret end_date fuel : forall cur acc l,
  Orchestration.generate_loop isoformat c fuel end_date cur acc = Ret l ->
  exists ranges,
    l = acc ++ map (Orchestration.range_dict isoformat) ranges
    /\ slices_from (c * US_PER_DAY) end_date cur ranges.
Proof.
  induction fuel as [| fuel IH]; intros cur acc l H; [discriminate |].
  rewrite orchestration_loop_unfold in H.
  destruct (Z.ltb_spec cur end_date) as [Hlt | Hge].
  - destruct (timedelta_days c) as [d | |] eqn:Hd; cbn [rbind] in H;
      try discriminate.
    apply timedelta_days_ret in Hd. subst d.
    destruct (datetime_add cur (c * US_PER_DAY)) as [t | |] eqn:Ht;
      cbn [rbind] in H; try discriminate.
    apply datetime_add_ret in Ht as [-> _].
    cbv zeta in H. rewrite chunk_end_min in H.
    destruct (IH _ _ _ H) as (ranges & -> & Hr).
    exists ((cur, Z.min (cur + c * US_PER_DAY) end_date) :: ranges).
    split; [rewrite <- app_assoc; reflexivity |].
    cbn [slices_from]. auto.
  - injection H as <-. exists []. split; [symmetry; apply app_nil_r |].
    cbn [slices_from]. lia.
Qed.

(** With room before [datetime.max] and enough fuel the loop returns. *)
Lemma orchestration_loop_returns end_date fuel : forall cur acc,
  1 <= c <= 999999999 -> 0 <= cur ->
  end_date + c * US_PER_DAY <= datetime_max ->
  Z.max 0 (end_date - cur) < Z.of_nat fuel ->
  exists l, Orchestration.generate_loop isoformat c fuel end_date cur acc = Ret l.
Proof.
  induction fuel as [| fuel IH]; intros cur acc Hc Hcur Hroom Hfuel.
  - change (Z.of_nat 0) with 0 in Hfuel. lia.
  - rewrite orchestration_loop_unfold.
    destruct (Z.ltb_spec cur end_date) as [Hlt | Hge]; [| eexists; reflexivity].
    rewrite timedelta_days_ok by lia. cbn [rbind].
    rewrite datetime_add_ok by (revert Hc; tlia). cbn [rbind]. cbv zeta.
    rewrite chunk_end_min. apply IH; try assumption.
    + revert Hc; tlia.
    + rewrite Nat2Z.inj_succ in Hfuel. revert Hc Hfuel; tlia.
Qed.

Lemma orchestration_loop_mono end_date fuel : forall cur acc l,
  Orchestration.generate_loop isoformat c fuel end_date cur acc = Ret l ->
  Orchestration.generate_loop isoformat c (S fuel) end_date cur acc = Ret l.
Proof.
  induction fuel as [| fuel IH]; intros cur acc l H; [discriminate |].
  rewrite orchestration_loop_unfold in H. rewrite orchestration_loop_unfold.
  destruct (cur <? end_date); [| assumption].
  destruct (timedelta_days c) as [d | |]; cbn [rbind] in *; try discriminate.
  destruct (datetime_add cur d) as [t | |]; cbn [rbind] in *; try discriminate.
  apply IH. assumption.
Qed.

Lemma orchestration_mono sd ed fuel fuel' l :
  (fuel <= fuel')%nat ->
  Orchestration.generate_time_ranges isoformat fuel sd ed c = Ret l ->
  Orchestration.generate_time_ranges isoformat fuel' sd ed c = Ret l.
Proof.
  intros Hle H. induction Hle as [| fuel' Hle IH]; [assumption |].
  unfold Orchestration.generate_time_ranges in *.
  apply orchestration_loop_mono. assumption.
Qed.

Section Slices.

Variable end_date : datetime.
Hypothesis Hc : 1 <= c.

Lemma slices_adjacent l : forall cur,
  slices_from (c * US_PER_DAY) end_date cur l -> adjacent_by 0 l.
Proof.
  induction l as [| a l IH]; intros cur H; [exact I |].
  cbn [slices_from] in H. destruct H as (_ & -> & H).
  destruct l as [| b l]; [exact I |].
  cbn [adjacent_by]. split; [| eapply IH; exact H].
  cbn [slices_from] in H. destruct H as (_ & -> & _). cbn [fst snd]. lia.
Qed.

Lemma slices_bounds l : forall cur r,
  slices_from (c * US_PER_DAY) end_date cur l -> In r l ->
  cur <= fst r /\ fst r < snd r <= fst r + c * US_PER_DAY /\ snd r <= end_date.
Proof.
  induction l as [| a l IH]; intros cur r H Hin; [destruct Hin |].
  cbn [slices_from] in H. destruct H as (Hlt & -> & H).
  destruct Hin as [<- | Hin].
  - cbn [fst snd]. tlia.
  - destruct (IH _ _ H Hin) as (H1 & H2 & H3).
    split; [revert H1; tlia | auto].
Qed.

Lemma slices_last l : forall cur,
  slices_from (c * US_PER_DAY) end_date cur l -> cur < end_date ->
  snd (last l (0, 0)) = end_date.
Proof.
  induction l as [| a l IH]; intros cur H Hlt; cbn [slices_from] in H; [lia |].
  destruct H as (_ & -> & H).
  destruct l as [| b l].
  - cbn [slices_from] in H. cbn [last snd]. lia.
  - change (last (?x :: b :: l) ?d) with (last (b :: l) d).
    apply (IH _ H). cbn [slices_from] in H. lia.
Qed.

Lemma slices_covers l : forall cur t,
  slices_from (c * US_PER_DAY) end_date cur l ->
  cur <= t < end_date ->
  exists r, In r l /\ fst r <= t < snd r.
Proof.
  induction l as [| a l IH]; intros cur t H Ht; cbn [slices_from] in H; [lia |].
  destruct H as (Hlt & -> & H).
  destruct (Z_lt_ge_dec t (Z.min (cur + c * US_PER_DAY) end_date)) as [Hin | Hout].
  - eexists. split; [left; reflexivity |]. cbn [fst snd]. lia.
  - destruct (IH _ t H ltac:(lia)) as (r & Hr & Hb).
    exists r. split; [right; exact Hr | exact Hb].
Qed.

Lemma slices_length l : forall cur,
  slices_from (c * US_PER_DAY) end_date cur l -> cur <= end_date ->
  Z.of_nat (List.length l)
  = (end_date - cur + c * US_PER_DAY - 1) / (c * US_PER_DAY).
Proof.
  assert (Hspan : 0 < c * US_PER_DAY) by tlia.
  induction l as [| a l IH]; intros cur H Hle; cbn [slices_from] in H.
  - replace cur with end_date by lia.
    replace (end_date - end_date + c * US_PER_DAY - 1) with (c * US_PER_DAY - 1)
      by lia.
    rewrite Z.div_small by lia. reflexivity.
  - destruct H as (Hlt & -> & H).
    cbn [List.length]. rewrite Nat2Z.inj_succ.
    rewrite (IH _ H) by lia.
    destruct (Z_le_gt_dec (cur + c * US_PER_DAY) end_date) as [Hmore | Hlast].
    + rewrite Z.min_l by lia.
      replace (end_date - cur + c * US_PER_DAY - 1)
        with (end_date - (cur + c * US_PER_DAY) + c * US_PER_DAY - 1
              + 1 * (c * US_PER_DAY)) by lia.
      rewrite Z.div_add by lia. lia.
    + rewrite Z.min_r by lia.
      replace (end_date - end_date + c * US_PER_DAY - 1)
        with (c * US_PER_DAY - 1) by lia.
      rewrite Z.div_small by lia.
      replace (end_date - cur + c * US_PER_DAY - 1)
        with (end_date - cur - 1 + 1 * (c * US_PER_DAY)) by lia.
      rewrite Z.div_add by lia. rewrite Z.div_small by lia. reflexivity.
Qed.

End Slices.

(** With a chunk size of zero or less the start of the next range never
    passes [end_date]. *)
Lemma orchestration_loop_stuck end_date fuel : forall cur acc l,
  c <= 0 -> cur < end_date ->
  Orchestration.generate_loop isoformat c fuel end_date cur acc <> Ret l.
Proof.
  induction fuel as [| fuel IH]; intros cur acc l Hc Hlt; [discriminate |].
  rewrite orchestration_loop_unfold.
  destruct (Z.ltb_spec cur end_date); [| lia].
  destruct (timedelta_days c) as [d | |] eqn:Hd; cbn [rbind]; try discriminate.
  apply timedelta_days_ret in Hd. subst d.
  destruct (datetime_add cur (c * US_PER_DAY)) as [t | |] eqn:Ht;
    cbn [rbind]; try discriminate.
  apply datetime_add_ret in Ht as [-> _].
  cbv zeta. rewrite chunk_end_min. apply IH; [assumption |].
  revert Hc. tlia.
Qed.

End OrchestrationFacts.

(** X20: for a chunk size of at least one day, [generate_time_ranges] of
    the orchestration Lambda returns, given room before [datetime.max], and
    the list it returns holds one dict per range, in order: each range
    starts exactly where the one before it ends, is not empty and at most
    [chunk_size_days] long; the ranges cover every instant from
    [start_date] up to [end_date], the last one ending at [end_date]; there
    are as many of them as the span divided by the chunk size, rounded up,
    and none when [start_date] is not before [end_date]. *)
Theorem orchestration_ranges_tile
    (isoformat : datetime -> string) chunk_size_days start_date end_date :
  1 <= chunk_size_days <= 999999999 ->
  0 <= start_date ->
  end_date + chunk_size_days * US_PER_DAY <= datetime_max ->
  exists fuel0 ranges,
    (forall fuel, (fuel0 <= fuel)%nat ->
       Orchestration.generate_time_ranges isoformat fuel start_date end_date
                                          chunk_size_days
       = Ret (map (Orchestration.range_dict isoformat) ranges))
    /\ adjacent_by 0 ranges
    /\ (forall r, In r ranges ->
          start_date <= fst r
          /\ fst r < snd r <= fst r + chunk_size_days * US_PER_DAY
          /\ snd r <= end_date)
    /\ (forall t, start_date <= t < end_date ->
          exists r, In r ranges /\ fst r <= t < snd r)
    /\ (start_date < end_date ->
          (exists r, hd_error ranges = Some r /\ fst r = start_date)
          /\ snd (last ranges (0, 0)) = end_date
          /\ Z.of_nat (List.length ranges)
             = (end_date - start_date + chunk_size_days * US_PER_DAY - 1)
               / (chunk_size_days * US_PER_DAY))
    /\ (end_date <= start_date -> ranges = []).
Proof.
  intros Hc Hsd Hroom.
  set (fuel0 := S (Z.to_nat (end_date - start_date))).
  destruct (orchestration_loop_returns isoformat chunk_size_days end_date fuel0
              start_date [] Hc Hsd Hroom) as (l & Hrun).
  { subst fuel0. rewrite Nat2Z.inj_succ. lia. }
  destruct (orchestration_loop_ret _ _ _ _ _ _ _ Hrun) as (ranges & -> & Hs).
  cbn [List.app] in Hrun.
  assert (Hc1 : 1 <= chunk_size_days) by lia.
  exists fuel0, ranges.
  split; [| split; [| split; [| split; [| split]]]].
  - intros fuel Hfuel.
    apply (orchestration_mono isoformat chunk_size_days _ _ fuel0 fuel _ Hfuel).
    exact Hrun.
  - eapply slices_adjacent; eassumption.
  - intros r Hin. eapply slices_bounds; eassumption.
  - intros t Ht. eapply slices_covers; eassumption.
  - intros Hlt. split; [| split].
    + destruct ranges as [| a ranges]; cbn [slices_from] in Hs; [lia |].
      destruct Hs as (_ & -> & _). eexists. split; reflexivity.
    + eapply slices_last; eassumption.
    + eapply slices_length; try eassumption. lia.
  - intros Hge. destruct ranges as [| a ranges]; [reflexivity |].
    cbn [slices_from] in Hs. lia.
Qed.

(** X21: with a chunk size of zero or less and [start_date] before
    [end_date], [generate_time_ranges] of the orchestration Lambda returns
    no list, however long it runs: the start of the next range never passes
    [end_date]. *)
Theorem orchestration_needs_positive_chunk
    (isoformat : datetime -> string) fuel chunk_size_days start_date end_date l :
  chunk_size_days <= 0 -> start_date < end_date ->
  Orchestration.generate_time_ranges isoformat fuel start_date end_date
                                     chunk_size_days
  <> Ret l.
Proof.
  intros Hc Hlt. unfold Orchestration.generate_time_ranges.
  apply orchestration_loop_stuck; assumption.
Qed.

(** ** The upload of the logging Lambda *)

Section HandlerRuns.

Context {W : Type} {P : Handler.Primitives W}.

Lemma post_handler_call {A} ev (prim : W -> completed A * W) st
    (Q : result A -> Handler.state W -> Prop) :
  (forall c w', prim (Handler.world st) = (c, w') ->
     match c with
     | Done a => Q (Ret a) (marked st w' ev)
     | Failed e => Q (Raise e) (marked st w' ev)
     end) ->
  post (Handler.call ev prim) st Q.
Proof.
  unfold post, Handler.call. intros H.
  destruct (prim (Handler.world st)) as [c w'] eqn:Hp.
  specialize (H c w' eq_refl). destruct c; exact H.
Qed.

Lemma post_handler_call_total {A} ev (prim : W -> A * W) st
    (Q : result A -> Handler.state W -> Prop) :
  (forall a w', prim (Handler.world st) = (a, w') -> Q (Ret a) (marked st w' ev)) ->
  post (Handler.call_total ev prim) st Q.
Proof.
  unfold post, Handler.call_total. intros H.
  destruct (prim (Handler.world st)) as [a w'] eqn:Hp.
  exact (H a w' eq_refl).
Qed.

Lemma post_handler_sleep seconds st
    (Q : result unit -> Handler.state W -> Prop) :
  match sleep_error seconds with
  | Some ex => Q (Raise ex) (marked st (Handler.world st) (Handler.EvSleep seconds))
  | None =>
      Q (Ret tt)
        (marked st (Lambda.time_sleep (Primitives := Handler.fetcher) seconds
                                      (Handler.world st))
                (Handler.EvSleep seconds))
  end ->
  post (Handler.sleep seconds) st Q.
Proof.
  unfold post, Handler.sleep. destruct (sleep_error seconds); auto.
Qed.

End HandlerRuns.

Lemma subsequence_refl {A} (l : list A) : subsequence l l.
Proof. induction l; constructor; assumption. Qed.

Lemma subsequence_app {A} (l1 m1 : list A) :
  subsequence l1 m1 ->
  forall l2 m2, subsequence l2 m2 -> subsequence (l1 ++ l2) (m1 ++ m2).
Proof.
  induction 1 as [| x l1 m1 H IH | x l1 m1 H IH]; intros l2 m2 H2;
    cbn [List.app].
  - exact H2.
  - apply subsequence_skip. apply IH. exact H2.
  - apply subsequence_take. apply IH. exact H2.
Qed.

Lemma subsequence_length {A} (l m : list A) :
  subsequence l m -> (List.length l <= List.length m)%nat.
Proof. induction 1; cbn [List.length]; lia. Qed.

Lemma upload_keys_app a b : upload_keys (a ++ b) = upload_keys a ++ upload_keys b.
Proof.
  induction a as [| [] a IH]; cbn [List.app upload_keys]; rewrite ?IH;
    reflexivity.
Qed.

Lemma pauses_app a b : pauses (a ++ b) = pauses a ++ pauses b.
Proof.
  induction a as [| [] a IH]; cbn [List.app pauses]; rewrite ?IH; reflexivity.
Qed.

Lemma lstrip_slash_stripped s :
  Handler.starts_with_slash (Handler.lstrip_slash s) = false.
Proof.
  induction s as [| c s IH]; [reflexivity |].
  cbn [Handler.lstrip_slash].
  destruct (Ascii.eqb c "/") eqn:Hc; [exact IH |].
  cbn [Handler.starts_with_slash]. exact Hc.
Qed.

Section UploadFacts.

Context {W : Type} {P : Handler.Primitives W}.

Lemma uploaded_by_refl (st : Handler.state W) : uploaded_by st st [].
Proof.
  exists []. rewrite !app_nil_r. repeat split; constructor.
Qed.

Lemma uploaded_by_trans (st st1 st2 : Handler.state W) k1 k2 :
  uploaded_by st st1 k1 -> uploaded_by st1 st2 k2 ->
  uploaded_by st st2 (k1 ++ k2).
Proof.
  intros (e1 & Ht1 & Hu1 & Hs1 & Hk1 & Hf1) (e2 & Ht2 & Hu2 & Hs2 & Hk2 & Hf2).
  exists (e1 ++ e2). split; [| split; [| split; [| split]]].
  - rewrite Ht2, Ht1, app_assoc. reflexivity.
  - rewrite Hu2, Hu1, app_assoc. reflexivity.
  - rewrite upload_keys_app. apply subsequence_app; assumption.
  - apply Forall_app. auto.
  - rewrite forallb_app, Hf1, Hf2. reflexivity.
Qed.

Lemma uploaded_by_step (st : Handler.state W) w' ev :
  is_upload_step ev = true ->
  uploaded_by st (marked st w' ev) [].
Proof.
  intros Hev. exists [ev]. cbn [marked Handler.trace Handler.uploaded_files].
  rewrite app_nil_r. split; [reflexivity |]. split; [reflexivity |].
  split; [| split].
  - destruct ev; cbn [upload_keys]; repeat constructor.
  - constructor.
  - cbn [forallb]. rewrite Hev. reflexivity.
Qed.

Lemma uploaded_by_mark (st st1 : Handler.state W) w' ev :
  is_upload_step ev = true ->
  uploaded_by st st1 [] ->
  uploaded_by st (marked st1 w' ev) [].
Proof.
  intros Hev H. apply (uploaded_by_trans st st1 _ [] [] H).
  apply uploaded_by_step. exact Hev.
Qed.

Lemma uploaded_by_then (st st1 st2 : Handler.state W) keys :
  uploaded_by st st1 [] -> uploaded_by st1 st2 keys -> uploaded_by st st2 keys.
Proof. intros H1 H2. exact (uploaded_by_trans _ _ _ _ _ H1 H2). Qed.

(** The retries of one file end, having appended its key at most once. *)
Lemma upload_retries_spec local_file_path s3_key content_type s3_config
    max_retries retry_delay retries :
  Handler.starts_with_slash s3_key = false ->
  forall st : Handler.state W,
    post (Handler.upload_retries local_file_path s3_key content_type s3_config
                                 max_retries retry_delay retries) st
         (fun r st' =>
            r <> Diverge
            /\ exists keys, uploaded_by st st' keys /\ (List.length keys <= 1)%nat).
Proof.
  intros Hkey. induction retries as [| retry rest IH]; intros st.
  - cbn [Handler.upload_retries]. apply post_ret.
    split; [discriminate |]. exists []. split; [apply uploaded_by_refl |].
    cbn [List.length]. lia.
  - cbn [Handler.upload_retries].
    assert (Hhandler : forall st1 : Handler.state W,
               uploaded_by st st1 [] ->
               post (if retry <? max_retries - 1
                     then _ <- Handler.sleep (retry_delay * 2 ^ retry) ;;
                          ret false
                     else ret false) st1
                    (fun r st' =>
                       match r with
                       | Ret done =>
                           post (if done : bool then ret tt
                                 else Handler.upload_retries local_file_path
                                        s3_key content_type s3_config
                                        max_retries retry_delay rest) st'
                                (fun r st' =>
                                   r <> Diverge
                                   /\ exists keys,
                                        uploaded_by st st' keys
                                        /\ (List.length keys <= 1)%nat)
                       | Raise e => (Raise e : result unit) <> Diverge
                                    /\ exists keys,
                                         uploaded_by st st' keys
                                         /\ (List.length keys <= 1)%nat
                       | Diverge => (Diverge : result unit) <> Diverge
                                    /\ exists keys,
                                         uploaded_by st st' keys
                                         /\ (List.length keys <= 1)%nat
                       end)).
    { intros st1 H1.
      destruct (retry <? max_retries - 1).
      - apply post_bind. apply post_handler_sleep.
        destruct (sleep_error (retry_delay * 2 ^ retry)) as [ex |].
        + split; [discriminate |]. exists []. split; [| cbn; lia].
          apply uploaded_by_mark; [reflexivity | exact H1].
        + apply post_ret. eapply post_weaken; [apply IH |].
          intros r st' (Hr & keys & Hk & Hlen). split; [exact Hr |].
          exists keys. split; [| exact Hlen].
          eapply uploaded_by_then; [exact H1 |].
          eapply uploaded_by_then; [| exact Hk].
          apply uploaded_by_step. reflexivity.
      - apply post_ret. eapply post_weaken; [apply IH |].
        intros r st' (Hr & keys & Hk & Hlen). split; [exact Hr |].
        exists keys. split; [| exact Hlen].
        eapply uploaded_by_then; eassumption. }
    apply post_bind. apply post_try. apply post_bind. apply post_lift.
    destruct (Handler.getitem s3_config "bucket") as [bucket | ex |] eqn:Hb.
    + apply post_bind. apply post_handler_call. intros [[] | ex] w1 _.
      * apply post_bind. unfold post, Handler.append_uploaded. cbn [fst snd].
        apply post_ret. apply post_ret.
        split; [discriminate |]. exists [s3_key]. split; [| cbn; lia].
        eexists. cbn [marked Handler.trace Handler.uploaded_files].
        split; [reflexivity |]. split; [reflexivity |].
        split; [| split].
        -- cbn [upload_keys]. apply subsequence_refl.
        -- constructor; [exact Hkey | constructor].
        -- reflexivity.
      * apply Hhandler. apply uploaded_by_step. reflexivity.
    + apply Hhandler. apply uploaded_by_refl.
    + unfold Handler.getitem in Hb.
      destruct (find _ s3_config); discriminate.
Qed.

Lemma upload_one_spec local_file_path temp_dir s3_config max_retries retry_delay
    (st : Handler.state W) :
  post (Handler.upload_one local_file_path temp_dir s3_config max_retries
                           retry_delay) st
       (fun r st' =>
          r <> Diverge
          /\ exists keys, uploaded_by st st' keys /\ (List.length keys <= 1)%nat).
Proof.
  unfold Handler.upload_one.
  assert (Hnone : forall st1 : Handler.state W,
             uploaded_by st st1 [] ->
             exists keys, uploaded_by st st1 keys /\ (List.length keys <= 1)%nat).
  { intros st1 H. exists []. split; [exact H | cbn; lia]. }
  apply post_bind. apply post_handler_call_total. intros found w1 _.
  destruct found; cbn [negb].
  2:{ apply post_ret. split; [discriminate |].
      apply Hnone, uploaded_by_step. reflexivity. }
  apply post_bind. apply post_handler_call. intros [size | ex] w2 _.
  2:{ split; [discriminate |]. apply Hnone.
      repeat (apply uploaded_by_mark; [reflexivity |]). apply uploaded_by_refl. }
  destruct (size =? 0).
  { apply post_ret. split; [discriminate |]. apply Hnone.
    repeat (apply uploaded_by_mark; [reflexivity |]). apply uploaded_by_refl. }
  apply post_bind. apply post_handler_call. intros [relative_path | ex] w3 _.
  2:{ split; [discriminate |]. apply Hnone.
      repeat (apply uploaded_by_mark; [reflexivity |]). apply uploaded_by_refl. }
  eapply post_weaken.
  { apply upload_retries_spec. apply lstrip_slash_stripped. }
  intros r st' (Hr & keys & Hk & Hlen). split; [exact Hr |].
  exists keys. split; [| exact Hlen].
  eapply uploaded_by_then; [| exact Hk].
  repeat (apply uploaded_by_mark; [reflexivity |]). apply uploaded_by_refl.
Qed.

Lemma upload_loop_spec temp_dir s3_config max_retries retry_delay
    log_file_paths : forall st : Handler.state W,
  post (Handler.upload_loop log_file_paths temp_dir s3_config max_retries
                            retry_delay) st
       (fun r st' =>
          r <> Diverge
          /\ exists keys, uploaded_by st st' keys
                          /\ (List.length keys <= List.length log_file_paths)%nat).
Proof.
  induction log_file_paths as [| p rest IH]; intros st.
  - cbn [Handler.upload_loop]. apply post_ret. split; [discriminate |].
    exists []. split; [apply uploaded_by_refl | cbn; lia].
  - cbn [Handler.upload_loop]. apply post_bind.
    eapply post_weaken; [apply upload_one_spec |].
    intros r st1 (Hr & k1 & Hk1 & Hl1).
    destruct r as [[] | ex |].
    + eapply post_weaken; [apply IH |].
      intros r st2 (Hr2 & k2 & Hk2 & Hl2). split; [exact Hr2 |].
      exists (k1 ++ k2). split; [eapply uploaded_by_trans; eassumption |].
      rewrite length_app. cbn [List.length]. lia.
    + split; [discriminate |]. exists k1. split; [exact Hk1 |].
      cbn [List.length]. lia.
    + destruct (Hr eq_refl).
Qed.

Lemma upload_logs_to_s3_spec log_file_paths temp_dir s3_config max_retries
    retry_delay (st : Handler.state W) :
  exists keys st' evs,
    Handler.upload_logs_to_s3 log_file_paths temp_dir s3_config max_retries
                              retry_delay st
    = (Ret keys, st')
    /\ Handler.trace st' = Handler.trace st ++ evs
    /\ Handler.uploaded_files st' = keys
    /\ subsequence keys (upload_keys evs)
    /\ Forall (fun key => Handler.starts_with_slash key = false) keys
    /\ forallb is_upload_step evs = true
    /\ (List.length keys <= List.length log_file_paths)%nat.
Proof.
  unfold Handler.upload_logs_to_s3. unfold bind at 1.
  unfold Handler.reset_uploaded at 1.
  match goal with
  | |- context [try_except _ _ ?st0] => set (st1 := st0)
  end.
  pose proof (upload_loop_spec temp_dir s3_config max_retries retry_delay
                log_file_paths st1) as H.
  unfold post in H. unfold try_except, bind.
  destruct (Handler.upload_loop log_file_paths temp_dir s3_config max_retries
              retry_delay st1) as [[[] | ex |] st'];
    cbn [fst snd] in H; destruct H as (Hr & keys & (evs & Ht & Hu & Hs & Hk & Hf) & Hl);
    try (destruct (Hr eq_refl));
    unfold Handler.get_uploaded;
    (exists keys, st', evs; subst st1;
     cbn [Handler.trace Handler.uploaded_files List.app] in Ht, Hu;
     rewrite Hu; repeat split; assumption).
Qed.

End UploadFacts.

(** X22: [upload_logs_to_s3] returns a list whatever the calls into the
    world do: it raises nothing.  Every key it returns was the key of an
    [upload_file] call of this run, the keys standing in the order of these
    calls; no key starts with a slash; there are no more keys than files;
    and the run makes no calls but [exists], [getsize], [relpath],
    [upload_file] and [sleep]. *)
Theorem upload_returns_uploaded_keys
    {W : Type} {P : Handler.Primitives W}
    log_file_paths temp_dir s3_config max_retries retry_delay
    (st : Handler.state W) :
  exists keys st' evs,
    Handler.upload_logs_to_s3 log_file_paths temp_dir s3_config max_retries
                              retry_delay st
    = (Ret keys, st')
    /\ Handler.trace st' = Handler.trace st ++ evs
    /\ subsequence keys (upload_keys evs)
    /\ Forall (fun key => Handler.starts_with_slash key = false) keys
    /\ (List.length keys <= List.length log_file_paths)%nat
    /\ forallb is_upload_step evs = true.
Proof.
  destruct (upload_logs_to_s3_spec log_file_paths temp_dir s3_config max_retries
              retry_delay st)
    as (keys & st' & evs & Hrun & Ht & _ & Hs & Hk & Hf & Hl).
  exists keys, st', evs. auto 10.
Qed.

Section UploadOutcomes.

Context {W : Type} {P : Handler.Primitives W}.

Variable temp_dir : string.
Variable s3_config : Handler.sdict.
Variable max_retries retry_delay : Z.

(** The attempts [k], [k+1], ..., [k+n-1] on a file whose every upload
    fails, the last of them attempt [max_retries - 1]. *)
Lemma upload_retries_failing local_file_path s3_key content_type bucket (n : nat) :
  delays_accepted max_retries retry_delay ->
  Handler.getitem s3_config "bucket" = Ret bucket ->
  (forall w, exists ex w',
      Handler.upload_file local_file_path bucket s3_key content_type w
      = (Failed ex, w')) ->
  forall (k : nat) (st : Handler.state W),
    Z.of_nat k + Z.of_nat n = max_retries ->
    exists st' evs,
      Handler.upload_retries local_file_path s3_key content_type s3_config
        max_retries retry_delay (map Z.of_nat (seq k n)) st
      = (Ret tt, st')
      /\ Handler.trace st' = Handler.trace st ++ evs
      /\ Handler.uploaded_files st' = Handler.uploaded_files st
      /\ upload_keys evs = repeat s3_key n
      /\ pauses evs = map (fun i => retry_delay * 2 ^ Z.of_nat i) (seq k (n - 1)).
Proof.
  intros Hacc Hb Hfail. induction n as [| n IH]; intros k st Hk.
  - exists st, []. cbn. rewrite app_nil_r. auto.
  - cbn [seq map Handler.upload_retries].
    unfold bind at 1. unfold try_except at 1. unfold bind at 1.
    unfold lift at 1. rewrite Hb.
    unfold bind at 1. unfold Handler.call at 1.
    destruct (Hfail (Handler.world st)) as (ex & w1 & ->).
    destruct (Z.ltb_spec (Z.of_nat k) (max_retries - 1)) as [Hlt | Hge].
    + destruct n as [| n]; [lia |].
      unfold bind at 1. unfold Handler.sleep at 1.
      rewrite (Hacc (Z.of_nat k)) by lia. unfold ret at 1.
      cbv iota.
      match goal with
      | |- context [Handler.upload_retries _ _ _ _ _ _ _ ?st2] =>
          destruct (IH (Datatypes.S k) st2 ltac:(lia))
            as (st' & evs & Hloop & Ht & Hu & Hkeys & Hp)
      end.
      rewrite Hloop. cbn [Handler.trace Handler.uploaded_files] in Ht, Hu.
      exists st'.
      exists ([Handler.EvUploadFile local_file_path bucket s3_key content_type]
              ++ [Handler.EvSleep (retry_delay * 2 ^ Z.of_nat k)] ++ evs).
      split; [reflexivity |]. split; [| split; [| split]].
      * rewrite Ht. rewrite <- !app_assoc. reflexivity.
      * exact Hu.
      * cbn [List.app upload_keys]. rewrite Hkeys. reflexivity.
      * cbn [List.app pauses]. rewrite Hp. cbn [Nat.sub].
        rewrite Nat.sub_0_r. reflexivity.
    + assert (n = 0%nat) by lia. subst n.
      unfold ret. cbn [seq map Handler.upload_retries]. unfold ret.
      eexists. exists [Handler.EvUploadFile local_file_path bucket s3_key
                         content_type].
      split; [reflexivity |]. cbn [Handler.trace Handler.uploaded_files].
      repeat split.
Qed.

(** X23: with a [retry_delay] that is not negative and whose longest
    delay, [retry_delay * 2 ** (max_retries - 2)], is one [time.sleep]
    accepts, a file whose every upload fails is tried [max_retries] times,
    with a sleep of [retry_delay * 2 ** retry] after each attempt but the
    last; then it is dropped without a word to the caller: nothing is
    appended to the uploaded files, nothing is raised, and the loop goes on
    with the next file. *)
Theorem failing_upload_is_retried_then_dropped
    local_file_path rest (st : Handler.state W) w1 size w2 relative_path w3 bucket :
  1 <= max_retries ->
  0 <= retry_delay ->
  retry_delay * 2 ^ (max_retries - 2) <= MAX_SLEEP ->
  Handler.path_exists local_file_path (Handler.world st) = (true, w1) ->
  Handler.path_getsize local_file_path w1 = (Done size, w2) ->
  size <> 0 ->
  Handler.path_relpath local_file_path temp_dir w2 = (Done relative_path, w3) ->
  Handler.getitem s3_config "bucket" = Ret bucket ->
  (forall w, exists ex w',
      Handler.upload_file local_file_path bucket
        (Handler.s3_key_of s3_config relative_path)
        (Handler.content_type_of local_file_path) w
      = (Failed ex, w')) ->
  exists st' evs,
    Handler.upload_loop (local_file_path :: rest) temp_dir s3_config
                        max_retries retry_delay st
    = Handler.upload_loop rest temp_dir s3_config max_retries retry_delay st'
    /\ Handler.trace st'
       = Handler.trace st
         ++ [ Handler.EvExists local_file_path;
              Handler.EvGetsize local_file_path;
              Handler.EvRelpath local_file_path temp_dir ] ++ evs
    /\ Handler.uploaded_files st' = Handler.uploaded_files st
    /\ upload_keys evs
       = repeat (Handler.s3_key_of s3_config relative_path)
                (Z.to_nat max_retries)
    /\ pauses evs
       = map (fun retry => retry_delay * 2 ^ retry) (py_range (max_retries - 1)).
Proof.
  intros Hmax Hdelay Hbound Hex Hsize Hnz Hrel Hb Hfail.
  cbn [Handler.upload_loop]. unfold bind at 1. unfold Handler.upload_one.
  unfold bind at 1. unfold Handler.call_total at 1. rewrite Hex. cbn [negb].
  unfold bind at 1. unfold Handler.call at 1.
  cbn [Handler.world Handler.trace Handler.uploaded_files]. rewrite Hsize.
  destruct (Z.eqb_spec size 0) as [| _]; [contradiction |].
  unfold bind at 1. unfold Handler.call at 1.
  cbn [Handler.world Handler.trace Handler.uploaded_files]. rewrite Hrel.
  unfold py_range.
  match goal with
  | |- context [Handler.upload_retries ?p ?key ?ct _ _ _ _ ?st2] =>
      destruct (upload_retries_failing p key ct bucket (Z.to_nat max_retries)
                  (delays_accepted_bound _ _ Hdelay Hbound)
                  Hb Hfail 0%nat st2 ltac:(lia))
        as (st' & evs & Hloop & Ht & Hu & Hkeys & Hp)
  end.
  rewrite Hloop. exists st', evs. split; [reflexivity |].
  cbn [Handler.trace Handler.uploaded_files] in Ht, Hu.
  split; [| split; [| split]].
  - rewrite Ht. rewrite <- !app_assoc. reflexivity.
  - exact Hu.
  - exact Hkeys.
  - rewrite Hp, map_map. f_equal. f_equal. lia.
Qed.

(** What the function does between its first and its last line. *)
Lemma upload_logs_to_s3_run log_file_paths (st : Handler.state W) r st' :
  Handler.upload_loop log_file_paths temp_dir s3_config max_retries retry_delay
    {| Handler.world := Handler.world st; Handler.trace := Handler.trace st;
       Handler.uploaded_files := [] |}
  = (r, st') ->
  r <> Diverge ->
  Handler.upload_logs_to_s3 log_file_paths temp_dir s3_config max_retries
                            retry_delay st
  = (Ret (Handler.uploaded_files st'), st').
Proof.
  intros Hrun Hr. unfold Handler.upload_logs_to_s3.
  unfold bind at 1. unfold Handler.reset_uploaded at 1.
  unfold try_except, bind. rewrite Hrun.
  destruct r as [[] | ex |]; try reflexivity. destruct (Hr eq_refl).
Qed.

Lemma upload_loop_app l1 l2 : forall st : Handler.state W,
  Handler.upload_loop (l1 ++ l2) temp_dir s3_config max_retries retry_delay st
  = bind (Handler.upload_loop l1 temp_dir s3_config max_retries retry_delay)
         (fun _ => Handler.upload_loop l2 temp_dir s3_config max_retries
                     retry_delay) st.
Proof.
  induction l1 as [| p l1 IH]; intros st.
  - reflexivity.
  - cbn [List.app Handler.upload_loop]. unfold bind in *.
    destruct (Handler.upload_one p temp_dir s3_config max_retries retry_delay st)
      as [[[] | ex |] st1]; try reflexivity.
    apply IH.
Qed.

Lemma in_py_range retry n : In retry (py_range n) -> 0 <= retry < n.
Proof.
  unfold py_range. intros H. apply in_map_iff in H.
  destruct H as (i & <- & Hi). apply in_seq in Hi. lia.
Qed.

(** The retries of one file raise only out of a sleep: the delay after a
    failed attempt is one [time.sleep] refuses. *)
Lemma upload_retries_raises local_file_path s3_key content_type retries :
  forall st : Handler.state W,
    post (Handler.upload_retries local_file_path s3_key content_type s3_config
                                 max_retries retry_delay retries) st
         (fun r st' =>
            forall ex, r = Raise ex ->
              exists retry evs,
                In retry retries /\ retry < max_retries - 1
                /\ sleep_error (retry_delay * 2 ^ retry) = Some ex
                /\ Handler.trace st'
                   = Handler.trace st
                     ++ evs ++ [Handler.EvSleep (retry_delay * 2 ^ retry)]
                /\ Handler.uploaded_files st' = Handler.uploaded_files st).
Proof.
  induction retries as [| retry rest IH]; intros st.
  - cbn [Handler.upload_retries]. apply post_ret. discriminate.
  - cbn [Handler.upload_retries].
    pose (Q := fun (r : result unit) (st' : Handler.state W) =>
            forall ex, r = Raise ex ->
              exists retry0 evs,
                In retry0 (retry :: rest) /\ retry0 < max_retries - 1
                /\ sleep_error (retry_delay * 2 ^ retry0) = Some ex
                /\ Handler.trace st'
                   = Handler.trace st
                     ++ evs ++ [Handler.EvSleep (retry_delay * 2 ^ retry0)]
                /\ Handler.uploaded_files st' = Handler.uploaded_files st).
    assert (Hhandler : forall (st1 : Handler.state W) evs1,
               Handler.trace st1 = Handler.trace st ++ evs1 ->
               Handler.uploaded_files st1 = Handler.uploaded_files st ->
               post (if retry <? max_retries - 1
                     then _ <- Handler.sleep (retry_delay * 2 ^ retry) ;;
                          ret false
                     else ret false) st1
                    (fun r st' =>
                       match r with
                       | Ret done =>
                           post (if done : bool then ret tt
                                 else Handler.upload_retries local_file_path
                                        s3_key content_type s3_config
                                        max_retries retry_delay rest) st' Q
                       | Raise e => Q (Raise e) st'
                       | Diverge => Q Diverge st'
                       end)).
    { intros st1 evs1 Ht1 Hu1.
      destruct (Z.ltb_spec retry (max_retries - 1)) as [Hlt | Hge].
      - apply post_bind. apply post_handler_sleep.
        destruct (sleep_error (retry_delay * 2 ^ retry)) as [ex0 |] eqn:Hs.
        + intros ex Hex. injection Hex as <-.
          exists retry, evs1. cbn [marked Handler.trace Handler.uploaded_files].
          split; [left; reflexivity |]. split; [exact Hlt |].
          split; [exact Hs |]. split; [| exact Hu1].
          rewrite Ht1, <- app_assoc. reflexivity.
        + apply post_ret. eapply post_weaken; [apply IH |].
          intros r st' H ex Hex.
          destruct (H ex Hex) as (retry0 & evs & Hin & Hlt0 & Hs0 & Ht & Hu).
          cbn [marked Handler.trace Handler.uploaded_files] in Ht, Hu.
          exists retry0,
            (evs1 ++ [Handler.EvSleep (retry_delay * 2 ^ retry)] ++ evs).
          split; [right; exact Hin |]. split; [exact Hlt0 |].
          split; [exact Hs0 |]. split.
          * rewrite Ht, Ht1, <- !app_assoc. reflexivity.
          * rewrite Hu. exact Hu1.
      - apply post_ret. eapply post_weaken; [apply IH |].
        intros r st' H ex Hex.
        destruct (H ex Hex) as (retry0 & evs & Hin & Hlt0 & Hs0 & Ht & Hu).
        exists retry0, (evs1 ++ evs).
        split; [right; exact Hin |]. split; [exact Hlt0 |].
        split; [exact Hs0 |]. split.
        + rewrite Ht, Ht1, <- !app_assoc. reflexivity.
        + rewrite Hu. exact Hu1. }
    apply post_bind. apply post_try. apply post_bind. apply post_lift.
    destruct (Handler.getitem s3_config "bucket") as [bucket | ex0 |] eqn:Hb.
    + apply post_bind. apply post_handler_call. intros [[] | ex0] w1 _.
      * apply post_bind. unfold post, Handler.append_uploaded. cbn [fst snd].
        apply post_ret. apply post_ret. discriminate.
      * apply (Hhandler _ [Handler.EvUploadFile local_file_path bucket s3_key
                             content_type]); reflexivity.
    + apply (Hhandler _ []); [| reflexivity].
      rewrite app_nil_r. reflexivity.
    + unfold Handler.getitem in Hb.
      destruct (find _ s3_config); discriminate.
Qed.

(** An exception leaves the body of the loop before the first upload of the
    file, or out of a sleep between two uploads of it. *)
Lemma upload_one_raises local_file_path (st : Handler.state W) ex st' :
  Handler.upload_one local_file_path temp_dir s3_config max_retries retry_delay st
  = (Raise ex, st') ->
  exists w1,
    Handler.path_exists local_file_path (Handler.world st) = (true, w1)
    /\ ((exists w2,
           Handler.path_getsize local_file_path w1 = (Failed ex, w2)
           /\ st' = marked (marked st w1 (Handler.EvExists local_file_path)) w2
                           (Handler.EvGetsize local_file_path))
        \/ (exists size w2 w3,
              Handler.path_getsize local_file_path w1 = (Done size, w2)
              /\ size <> 0
              /\ Handler.path_relpath local_file_path temp_dir w2 = (Failed ex, w3)
              /\ st' = marked (marked (marked st w1
                                         (Handler.EvExists local_file_path)) w2
                                      (Handler.EvGetsize local_file_path)) w3
                              (Handler.EvRelpath local_file_path temp_dir))
        \/ (exists size w2 relative_path w3 retry evs,
              Handler.path_getsize local_file_path w1 = (Done size, w2)
              /\ size <> 0
              /\ Handler.path_relpath local_file_path temp_dir w2
                 = (Done relative_path, w3)
              /\ 0 <= retry < max_retries - 1
              /\ sleep_error (retry_delay * 2 ^ retry) = Some ex
              /\ Handler.trace st'
                 = Handler.trace st
                   ++ [ Handler.EvExists local_file_path;
                        Handler.EvGetsize local_file_path;
                        Handler.EvRelpath local_file_path temp_dir ]
                   ++ evs ++ [Handler.EvSleep (retry_delay * 2 ^ retry)]
              /\ Handler.uploaded_files st' = Handler.uploaded_files st)).
Proof.
  unfold Handler.upload_one.
  unfold bind at 1. unfold Handler.call_total at 1.
  destruct (Handler.path_exists local_file_path (Handler.world st))
    as [found w1].
  destruct found; cbn [negb]; [| discriminate].
  unfold bind at 1. unfold Handler.call at 1.
  cbn [Handler.world Handler.trace Handler.uploaded_files].
  destruct (Handler.path_getsize local_file_path w1) as [[size | ex1] w2] eqn:Hg.
  - destruct (Z.eqb_spec size 0) as [| Hnz]; [discriminate |].
    unfold bind at 1. unfold Handler.call at 1.
    cbn [Handler.world Handler.trace Handler.uploaded_files].
    destruct (Handler.path_relpath local_file_path temp_dir w2)
      as [[relative_path | ex2] w3] eqn:Hr.
    + intros H.
      match type of H with
      | Handler.upload_retries ?p ?key ?ct _ _ _ ?l ?st2 = _ =>
          pose proof (upload_retries_raises p key ct l st2) as Hs
      end.
      unfold post in Hs. rewrite H in Hs. cbn [fst snd] in Hs.
      destruct (Hs ex eq_refl) as (retry & evs & Hin & Hlt & Hse & Ht & Hu).
      cbn [Handler.trace Handler.uploaded_files] in Ht, Hu.
      apply in_py_range in Hin.
      exists w1. split; [reflexivity |]. right. right.
      exists size, w2, relative_path, w3, retry, evs.
      split; [exact Hg |]. split; [exact Hnz |]. split; [exact Hr |].
      split; [lia |]. split; [exact Hse |]. split; [| exact Hu].
      rewrite Ht, <- !app_assoc. reflexivity.
    + intros H. injection H as <- <-. exists w1. split; [reflexivity |].
      right. left. exists size, w2, w3. repeat split; assumption.
  - intros H. injection H as <- <-. exists w1. split; [reflexivity |].
    left. exists w2. split; [assumption | reflexivity].
Qed.

(** X24: when the body of the loop raises for a file, the whole upload
    ends there: [upload_logs_to_s3] returns the keys uploaded for the files
    before it, and the files after it are neither examined nor uploaded.
    The body raises for one of three reasons, and for nothing else:
    [getsize] raised; [relpath] raised; or, after an upload of the file
    failed on an attempt before the last, [time.sleep] refused the delay
    [retry_delay * 2 ** retry] (a negative delay or one too long), no key
    of the file having been appended. *)
Theorem upload_error_drops_the_remaining_files
    done_files local_file_path rest (st st1 st2 : Handler.state W) ex :
  Handler.upload_loop done_files temp_dir s3_config max_retries retry_delay
    {| Handler.world := Handler.world st; Handler.trace := Handler.trace st;
       Handler.uploaded_files := [] |}
  = (Ret tt, st1) ->
  Handler.upload_one local_file_path temp_dir s3_config max_retries retry_delay st1
  = (Raise ex, st2) ->
  Handler.upload_logs_to_s3 (done_files ++ local_file_path :: rest) temp_dir
                            s3_config max_retries retry_delay st
  = (Ret (Handler.uploaded_files st1), st2)
  /\ exists w1,
       Handler.path_exists local_file_path (Handler.world st1) = (true, w1)
       /\ ((exists w2,
              Handler.path_getsize local_file_path w1 = (Failed ex, w2)
              /\ Handler.trace st2
                 = Handler.trace st1
                   ++ [ Handler.EvExists local_file_path;
                        Handler.EvGetsize local_file_path ])
           \/ (exists size w2 w3,
                 Handler.path_getsize local_file_path w1 = (Done size, w2)
                 /\ Handler.path_relpath local_file_path temp_dir w2
                    = (Failed ex, w3)
                 /\ Handler.trace st2
                    = Handler.trace st1
                      ++ [ Handler.EvExists local_file_path;
                           Handler.EvGetsize local_file_path;
                           Handler.EvRelpath local_file_path temp_dir ])
           \/ (exists size w2 relative_path w3 retry evs,
                 Handler.path_getsize local_file_path w1 = (Done size, w2)
                 /\ size <> 0
                 /\ Handler.path_relpath local_file_path temp_dir w2
                    = (Done relative_path, w3)
                 /\ 0 <= retry < max_retries - 1
                 /\ sleep_error (retry_delay * 2 ^ retry) = Some ex
                 /\ Handler.trace st2
                    = Handler.trace st1
                      ++ [ Handler.EvExists local_file_path;
                           Handler.EvGetsize local_file_path;
                           Handler.EvRelpath local_file_path temp_dir ]
                      ++ evs ++ [Handler.EvSleep (retry_delay * 2 ^ retry)])).
Proof.
  intros Hdone Hone.
  destruct (upload_one_raises _ _ _ _ Hone) as (w1 & Hex & Hcases).
  assert (Hu : Handler.uploaded_files st2 = Handler.uploaded_files st1).
  { destruct Hcases
      as [(w2 & _ & ->) | [(size & w2 & w3 & _ & _ & _ & ->)
                          | (size & w2 & rp & w3 & retry & evs & _ & _ & _ & _
                             & _ & _ & Hu)]];
      [reflexivity | reflexivity | exact Hu]. }
  split.
  - rewrite <- Hu.
    apply upload_logs_to_s3_run with (r := Raise ex); [| discriminate].
    rewrite upload_loop_app. unfold bind at 1. rewrite Hdone.
    cbn [Handler.upload_loop]. unfold bind at 1. rewrite Hone. reflexivity.
  - exists w1. split; [exact Hex |].
    destruct Hcases
      as [(w2 & Hg & ->) | [(size & w2 & w3 & Hg & _ & Hr & ->)
                           | (size & w2 & rp & w3 & retry & evs & Hg & Hnz & Hr
                              & Hlt & Hs & Ht & _)]].
    + left. exists w2. split; [exact Hg |].
      cbn [marked Handler.trace]. rewrite <- app_assoc. reflexivity.
    + right. left. exists size, w2, w3. split; [exact Hg |]. split; [exact Hr |].
      cbn [marked Handler.trace]. rewrite <- !app_assoc. reflexivity.
    + right. right. exists size, w2, rp, w3, retry, evs. auto 10.
Qed.

(** X25: files that do not exist and files of size zero are passed
    over: for a list of such files [upload_logs_to_s3] returns the empty
    list, having asked for no relative path, uploaded nothing and slept
    never. *)
Theorem missing_and_empty_files_are_skipped
    log_file_paths (st : Handler.state W) :
  (forall p w, In p log_file_paths ->
     (exists w', Handler.path_exists p w = (false, w'))
     \/ (exists w1 w2, Handler.path_exists p w = (true, w1)
                       /\ Handler.path_getsize p w1 = (Done 0, w2))) ->
  exists st' evs,
    Handler.upload_logs_to_s3 log_file_paths temp_dir s3_config max_retries
                              retry_delay st
    = (Ret [], st')
    /\ Handler.trace st' = Handler.trace st ++ evs
    /\ Forall (fun ev => exists p, In p log_file_paths
                                   /\ (ev = Handler.EvExists p
                                       \/ ev = Handler.EvGetsize p)) evs.
Proof.
  intros Hskip.
  assert (Hloop : forall st0 : Handler.state W,
             exists st' evs,
               Handler.upload_loop log_file_paths temp_dir s3_config max_retries
                                   retry_delay st0 = (Ret tt, st')
               /\ Handler.trace st' = Handler.trace st0 ++ evs
               /\ Handler.uploaded_files st' = Handler.uploaded_files st0
               /\ Forall (fun ev => exists p, In p log_file_paths
                                              /\ (ev = Handler.EvExists p
                                                  \/ ev = Handler.EvGetsize p))
                         evs).
  { induction log_file_paths as [| p rest IH]; intros st0.
    - exists st0, []. cbn [Handler.upload_loop]. rewrite app_nil_r.
      repeat split. constructor.
    - assert (Hrest : forall q w, In q rest ->
                (exists w', Handler.path_exists q w = (false, w'))
                \/ (exists w1 w2, Handler.path_exists q w = (true, w1)
                                  /\ Handler.path_getsize q w1 = (Done 0, w2))).
      { intros q w Hq. apply Hskip. right. exact Hq. }
      specialize (IH Hrest).
      cbn [Handler.upload_loop]. unfold bind at 1. unfold Handler.upload_one.
      unfold bind at 1. unfold Handler.call_total at 1.
      destruct (Hskip p (Handler.world st0) (or_introl eq_refl))
        as [(w1 & ->) | (w1 & w2 & -> & Hsize)]; cbn [negb].
      + unfold ret at 1.
        match goal with
        | |- context [Handler.upload_loop rest _ _ _ _ ?st1] =>
            destruct (IH st1) as (st' & evs & Hrun & Ht & Hu & Hev)
        end.
        exists st', (Handler.EvExists p :: evs). split; [exact Hrun |].
        cbn [Handler.trace Handler.uploaded_files] in Ht, Hu.
        split; [| split].
        * rewrite Ht, <- app_assoc. reflexivity.
        * exact Hu.
        * constructor.
          -- exists p. split; [left; reflexivity | left; reflexivity].
          -- eapply Forall_impl; [| exact Hev].
             intros ev (q & Hq & Hev'). exists q. split; [right; exact Hq | exact Hev'].
      + unfold bind at 1. unfold Handler.call at 1.
        cbn [Handler.world Handler.trace Handler.uploaded_files]. rewrite Hsize.
        change (0 =? 0) with true. cbv iota. unfold ret at 1.
        match goal with
        | |- context [Handler.upload_loop rest _ _ _ _ ?st1] =>
            destruct (IH st1) as (st' & evs & Hrun & Ht & Hu & Hev)
        end.
        exists st', (Handler.EvExists p :: Handler.EvGetsize p :: evs).
        split; [exact Hrun |].
        cbn [Handler.trace Handler.uploaded_files] in Ht, Hu.
        split; [| split].
        * rewrite Ht, <- !app_assoc. reflexivity.
        * exact Hu.
        * constructor; [| constructor].
          -- exists p. split; [left; reflexivity | left; reflexivity].
          -- exists p. split; [left; reflexivity | right; reflexivity].
          -- eapply Forall_impl; [| exact Hev].
             intros ev (q & Hq & Hev'). exists q. split; [right; exact Hq | exact Hev']. }
  destruct (Hloop {| Handler.world := Handler.world st;
                     Handler.trace := Handler.trace st;
                     Handler.uploaded_files := [] |})
    as (st' & evs & Hrun & Ht & Hu & Hev).
  exists st', evs.
  rewrite (upload_logs_to_s3_run _ _ _ _ Hrun) by discriminate.
  cbn [Handler.trace Handler.uploaded_files] in Ht, Hu. rewrite Hu.
  auto.
Qed.

End UploadOutcomes.

(** ** The handler of the logging Lambda *)

Lemma getitem_get d key default :
  Handler.has_key key d = true ->
  Handler.getitem d key = Ret (Handler.get d key default).
Proof.
  unfold Handler.has_key, Handler.getitem, Handler.get. intros H.
  destruct (find (fun p => String.eqb (fst p) key) d) as [p |] eqn:Hf;
    [reflexivity |].
  apply existsb_exists in H. destruct H as (p & Hin & Hp).
  pose proof (find_none _ _ Hf p Hin) as Hn. cbv beta in Hn.
  rewrite Hp in Hn. discriminate.
Qed.

Lemma getitem_has_key d key v :
  Handler.getitem d key = Ret v -> Handler.has_key key d = true.
Proof.
  unfold Handler.has_key, Handler.getitem. intros H.
  destruct (find (fun p => String.eqb (fst p) key) d) as [p |] eqn:Hf;
    [| discriminate].
  apply find_some in Hf. apply existsb_exists. exists p. exact Hf.
Qed.

Lemma validate_parameters_cases app time_range s3_config :
  match Handler.validate_parameters app time_range s3_config with
  | Ret _ =>
      (forall key, In key ["region"; "appId"; "domainName"; "appName"]%string ->
         Handler.has_key key app = true)
      /\ (forall key, In key ["startTime"; "endTime"]%string ->
            Handler.has_key key time_range = true)
      /\ Handler.has_key "bucket" s3_config = true
  | Raise ex =>
      (exists msg, ex = OtherException msg)
      /\ ((exists key, In key ["region"; "appId"; "domainName"; "appName"]%string
                       /\ Handler.has_key key app = false)
          \/ (exists key, In key ["startTime"; "endTime"]%string
                          /\ Handler.has_key key time_range = false)
          \/ Handler.has_key "bucket" s3_config = false)
  | Diverge => False
  end.
Proof.
  unfold Handler.validate_parameters.
  destruct app as [| a app]; cbn [Handler.is_empty].
  { split; [eexists; reflexivity |]. left. exists "region"%string.
    split; [left; reflexivity | reflexivity]. }
  cbn [Handler.require_keys].
  destruct (Handler.has_key "region" (a :: app)) eqn:H1; cbn [rbind].
  2:{ split; [eexists; reflexivity |]. left. exists "region"%string.
      split; [left; reflexivity | exact H1]. }
  destruct (Handler.has_key "appId" (a :: app)) eqn:H2; cbn [rbind].
  2:{ split; [eexists; reflexivity |]. left. exists "appId"%string.
      split; [right; left; reflexivity | exact H2]. }
  destruct (Handler.has_key "domainName" (a :: app)) eqn:H3; cbn [rbind].
  2:{ split; [eexists; reflexivity |]. left. exists "domainName"%string.
      split; [right; right; left; reflexivity | exact H3]. }
  destruct (Handler.has_key "appName" (a :: app)) eqn:H4; cbn [rbind].
  2:{ split; [eexists; reflexivity |]. left. exists "appName"%string.
      split; [right; right; right; left; reflexivity | exact H4]. }
  destruct time_range as [| t time_range]; cbn [Handler.is_empty].
  { split; [eexists; reflexivity |]. right. left. exists "startTime"%string.
    split; [left; reflexivity | reflexivity]. }
  destruct (Handler.has_key "startTime" (t :: time_range)) eqn:H5; cbn [rbind].
  2:{ split; [eexists; reflexivity |]. right. left. exists "startTime"%string.
      split; [left; reflexivity | exact H5]. }
  destruct (Handler.has_key "endTime" (t :: time_range)) eqn:H6; cbn [rbind].
  2:{ split; [eexists; reflexivity |]. right. left. exists "endTime"%string.
      split; [right; left; reflexivity | exact H6]. }
  destruct s3_config as [| s s3_config]; cbn [Handler.is_empty].
  { split; [eexists; reflexivity |]. right. right. reflexivity. }
  destruct (Handler.has_key "bucket" (s :: s3_config)) eqn:H7.
  2:{ split; [eexists; reflexivity |]. right. right. reflexivity. }
  split; [| split; [| reflexivity]].
  - intros key [<- | [<- | [<- | [<- | []]]]]; assumption.
  - intros key [<- | [<- | []]]; assumption.
Qed.

Lemma validate_parameters_well_formed ev :
  Handler.validate_parameters (Handler.entry (Handler.ev_app ev))
                              (Handler.entry (Handler.ev_timeRange ev))
                              (Handler.entry (Handler.ev_s3 ev)) = Ret tt
  <-> well_formed ev.
Proof.
  pose proof (validate_parameters_cases (Handler.entry (Handler.ev_app ev))
                (Handler.entry (Handler.ev_timeRange ev))
                (Handler.entry (Handler.ev_s3 ev))) as H.
  unfold well_formed. split.
  - intros Hv. rewrite Hv in H. exact H.
  - intros (Ha & Ht & Hs).
    destruct (Handler.validate_parameters _ _ _) as [[] | ex |];
      [reflexivity | | destruct H].
    destruct H as (_ & [(key & Hin & Hk) | [(key & Hin & Hk) | Hk]]).
    + rewrite (Ha key Hin) in Hk. discriminate.
    + rewrite (Ht key Hin) in Hk. discriminate.
    + rewrite Hs in Hk. discriminate.
Qed.

Section HandlerFacts.

Context {W : Type} {P : Handler.Primitives W}.

(** X26: the handler goes to work on an event exactly when the event has
    the four keys of [app], the two of [timeRange] and the bucket of [s3];
    any other event is answered with status 500 and the message of the
    [ValueError], before any call is made: no directory is created, no
    client, nothing is fetched. *)
Theorem invalid_event_is_refused_untouched fuel ev (st : Handler.state W) :
  (Handler.validate_parameters (Handler.entry (Handler.ev_app ev))
                               (Handler.entry (Handler.ev_timeRange ev))
                               (Handler.entry (Handler.ev_s3 ev)) = Ret tt
   <-> well_formed ev)
  /\ (~ well_formed ev ->
      exists msg,
        Handler.lambda_handler fuel ev st
        = (Ret {| Handler.statusCode := 500;
                  Handler.response_body := Handler.BodyError (OtherException msg) |},
           st)).
Proof.
  split; [apply validate_parameters_well_formed |].
  intros Hbad.
  pose proof (validate_parameters_cases (Handler.entry (Handler.ev_app ev))
                (Handler.entry (Handler.ev_timeRange ev))
                (Handler.entry (Handler.ev_s3 ev))) as H.
  unfold Handler.lambda_handler, try_except. cbv zeta.
  unfold bind at 1. unfold lift at 1.
  destruct (Handler.validate_parameters _ _ _) as [[] | ex |] eqn:Hv.
  - destruct Hbad. apply validate_parameters_well_formed. exact Hv.
  - destruct H as ((msg & ->) & _). exists msg. reflexivity.
  - destruct H.
Qed.

End HandlerFacts.

Section HandlerCleanup.

Context {W : Type} {P : Handler.Primitives W}.

Lemma post_call_fetch {A} (m : M (Lambda.state W) A) st
    (Q : result A -> Handler.state W -> Prop) :
  (forall r fetched,
      m {| Lambda.world := Handler.world st; Lambda.trace := [] |} = (r, fetched) ->
      Q r {| Handler.world := Lambda.world fetched;
             Handler.trace :=
               Handler.trace st ++ map Handler.EvFetch (Lambda.trace fetched);
             Handler.uploaded_files := Handler.uploaded_files st |}) ->
  post (Handler.call_fetch m) st Q.
Proof.
  unfold post, Handler.call_fetch. intros H.
  destruct (m {| Lambda.world := Handler.world st; Lambda.trace := [] |})
    as [r fetched] eqn:Hm.
  exact (H r fetched eq_refl).
Qed.

Lemma extends_by_refl ok (st : Handler.state W) : extends_by ok st st.
Proof. exists []. rewrite app_nil_r. split; reflexivity. Qed.

Lemma extends_by_trans ok (st st1 st2 : Handler.state W) :
  extends_by ok st st1 -> extends_by ok st1 st2 -> extends_by ok st st2.
Proof.
  intros (e1 & H1 & F1) (e2 & H2 & F2). exists (e1 ++ e2). split.
  - rewrite H2, H1, app_assoc. reflexivity.
  - rewrite forallb_app, F1, F2. reflexivity.
Qed.

Lemma extends_by_mark ok (st st1 : Handler.state W) w' ev :
  ok ev = true -> extends_by ok st st1 -> extends_by ok st (marked st1 w' ev).
Proof.
  intros Hev H. apply (extends_by_trans ok st st1); [exact H |].
  exists [ev]. split; [reflexivity |]. cbn [forallb]. rewrite Hev. reflexivity.
Qed.

Lemma forallb_fetch l : forallb no_cleanup (map Handler.EvFetch l) = true.
Proof. induction l as [| a l IH]; [reflexivity | exact IH]. Qed.

Lemma forallb_upload_steps evs :
  forallb is_upload_step evs = true -> forallb no_cleanup evs = true.
Proof.
  induction evs as [| ev evs IH]; [reflexivity |].
  cbn [forallb]. intros H. apply andb_true_iff in H. destruct H as (H1 & H2).
  rewrite (IH H2), andb_true_r. destruct ev; try reflexivity; discriminate.
Qed.

Lemma getitem_returns d key : Handler.getitem d key <> Diverge.
Proof. unfold Handler.getitem. destruct (find _ d); discriminate. Qed.

Lemma parse_time_returns s : Handler.parse_time s <> Diverge.
Proof. unfold Handler.parse_time. destruct (Handler.fromisoformat _); discriminate. Qed.

Lemma app_config_of_returns app : Handler.app_config_of app <> Diverge.
Proof.
  unfold Handler.app_config_of.
  destruct (Handler.getitem app "region") as [a | |] eqn:H1; cbn [rbind];
    [| discriminate | destruct (getitem_returns _ _ H1)].
  destruct (Handler.getitem app "appId") as [b | |] eqn:H2; cbn [rbind];
    [| discriminate | destruct (getitem_returns _ _ H2)].
  destruct (Handler.getitem app "domainName") as [c | |] eqn:H3; cbn [rbind];
    [| discriminate | destruct (getitem_returns _ _ H3)].
  destruct (Handler.getitem app "appName") as [d | |] eqn:H4; cbn [rbind];
    [| discriminate | destruct (getitem_returns _ _ H4)].
  discriminate.
Qed.

(** The inner [try] of the handler removes nothing. *)
Lemma handle_no_cleanup fuel app time_range s3_config temp_dir
    (st : Handler.state W) :
  post (Handler.handle fuel app time_range s3_config temp_dir) st
       (fun _ st' => extends_by no_cleanup st st').
Proof.
  unfold Handler.handle.
  apply post_bind. apply post_lift.
  destruct (Handler.getitem time_range "startTime"); try apply extends_by_refl.
  apply post_bind. apply post_lift.
  destruct (Handler.parse_time a); try apply extends_by_refl.
  apply post_bind. apply post_lift.
  destruct (Handler.getitem time_range "endTime"); try apply extends_by_refl.
  apply post_bind. apply post_lift.
  destruct (Handler.parse_time a1); try apply extends_by_refl.
  apply post_bind. apply post_lift.
  destruct (Handler.getitem app "region") as [region | |];
    try apply extends_by_refl.
  apply post_bind. apply post_handler_call. intros [[] | ex] w1 _.
  2:{ apply extends_by_mark; [reflexivity | apply extends_by_refl]. }
  set (st1 := marked st w1 (Handler.EvS3Client region)).
  assert (H1 : extends_by no_cleanup st st1).
  { apply extends_by_mark; [reflexivity | apply extends_by_refl]. }
  clearbody st1.
  apply post_bind. unfold Handler.check_bucket.
  apply post_try. apply post_bind. apply post_lift.
  assert (Hrefuse : forall st2 : Handler.state W,
             extends_by no_cleanup st st2 ->
             post (bucket <- lift (Handler.getitem s3_config "bucket") ;;
                   ret (Some {| Handler.statusCode := 500;
                                Handler.response_body := Handler.BodyBucket bucket |}))
                  st2
                  (fun r st' =>
                     match r with
                     | Ret a =>
                         post match a with
                              | Some answer => ret answer
                              | None =>
                                  config <- lift (Handler.app_config_of app) ;;
                                  log_file_paths <-
                                    Handler.call_fetch
                                      (Lambda.download_amplify_logs
                                         (P := Handler.fetcher) config fuel a0 a2
                                         temp_dir 3 2) ;;
                                  match log_file_paths with
                                  | [] =>
                                      app_name <- lift (Handler.getitem app "appName") ;;
                                      ret {| Handler.statusCode := 200;
                                             Handler.response_body :=
                                               Handler.BodyNoLogs app_name time_range |}
                                  | _ :: _ =>
                                      uploaded <-
                                        Handler.upload_logs_to_s3 log_file_paths
                                          temp_dir s3_config 3 2 ;;
                                      app_name <- lift (Handler.getitem app "appName") ;;
                                      ret {| Handler.statusCode := 200;
                                             Handler.response_body :=
                                               Handler.BodyUploaded app_name
                                                 time_range uploaded |}
                                  end
                              end st'
                              (fun _ st'' => extends_by no_cleanup st st'')
                     | Raise _ => extends_by no_cleanup st st'
                     | Diverge => extends_by no_cleanup st st'
                     end)).
  { intros st2 H2. apply post_bind. apply post_lift.
    destruct (Handler.getitem s3_config "bucket"); exact H2. }
  destruct (Handler.getitem s3_config "bucket") as [bucket | ex |] eqn:Hb.
  2:{ apply Hrefuse. exact H1. }
  2:{ exact H1. }
  apply post_bind. apply post_handler_call. intros [[] | ex] w2 _.
  2:{ apply Hrefuse. apply extends_by_mark; [reflexivity | exact H1]. }
  apply post_ret.
  set (st2 := marked st1 w2 (Handler.EvHeadBucket bucket)).
  assert (H2 : extends_by no_cleanup st st2).
  { apply extends_by_mark; [reflexivity | exact H1]. }
  clearbody st2. clear Hrefuse.
  apply post_bind. apply post_lift.
  destruct (Handler.app_config_of app) as [config | |]; try exact H2.
  apply post_bind. apply post_call_fetch. intros r fetched _.
  match goal with
  | |- match r with Ret _ => _ | Raise _ => ?Q _ ?s | Diverge => _ end =>
      set (st3 := s)
  end.
  assert (H3 : extends_by no_cleanup st st3).
  { apply (extends_by_trans _ st st2); [exact H2 |].
    exists (map Handler.EvFetch (Lambda.trace fetched)).
    split; [reflexivity | apply forallb_fetch]. }
  clearbody st3.
  destruct r as [[| p paths] | ex |]; try exact H3.
  - apply post_bind. apply post_lift.
    destruct (Handler.getitem app "appName"); exact H3.
  - apply post_bind.
    destruct (upload_logs_to_s3_spec (p :: paths) temp_dir s3_config 3 2 st3)
      as (keys & st4 & evs & Hrun & Ht & _ & _ & _ & Hf & _).
    unfold post at 1. rewrite Hrun. cbn [fst snd].
    assert (H4 : extends_by no_cleanup st st4).
    { apply (extends_by_trans _ st st3); [exact H3 |].
      exists evs. split; [exact Ht | apply forallb_upload_steps; exact Hf]. }
    apply post_bind. apply post_lift.
    destruct (Handler.getitem app "appName"); exact H4.
Qed.

(** X27: the handler raises nothing.  When [mkdtemp] fails it answers
    500 and there is nothing to remove.  Once the temporary directory is
    made, every run that ends removes it, as its last call and only then,
    whatever happened in between. *)
Theorem handler_always_cleans_up fuel ev (st : Handler.state W) :
  (forall ex, fst (Handler.lambda_handler fuel ev st) <> Raise ex)
  /\ (forall ex w1,
        well_formed ev ->
        Handler.tempfile_mkdtemp (Handler.world st) = (Failed ex, w1) ->
        Handler.lambda_handler fuel ev st
        = (Ret {| Handler.statusCode := 500;
                  Handler.response_body := Handler.BodyError ex |},
           marked st w1 Handler.EvMkdtemp))
  /\ (forall temp_dir w1 r st',
        well_formed ev ->
        Handler.tempfile_mkdtemp (Handler.world st) = (Done temp_dir, w1) ->
        Handler.lambda_handler fuel ev st = (r, st') ->
        r <> Diverge ->
        exists evs,
          Handler.trace st'
          = Handler.trace st ++ [Handler.EvMkdtemp] ++ evs
            ++ [Handler.EvRmtree temp_dir]
          /\ forallb no_cleanup evs = true).
Proof.
  split; [| split].
  - intros ex. unfold Handler.lambda_handler, try_except.
    match goal with
    | |- fst (match ?b with _ => _ end) <> _ =>
        destruct b as [[resp | ex1 |] st1]; discriminate
    end.
  - intros ex w1 Hwf Hmk. apply validate_parameters_well_formed in Hwf.
    unfold Handler.lambda_handler, try_except. cbv zeta.
    unfold bind at 1. unfold lift at 1. rewrite Hwf.
    unfold bind at 1. unfold Handler.call at 1. rewrite Hmk. reflexivity.
  - intros temp_dir w1 r st' Hwf Hmk Hrun Hr.
    apply validate_parameters_well_formed in Hwf.
    unfold Handler.lambda_handler, try_except in Hrun. cbv zeta in Hrun.
    unfold bind at 1 in Hrun. unfold lift at 1 in Hrun. rewrite Hwf in Hrun.
    unfold bind at 1 in Hrun. unfold Handler.call at 1 in Hrun.
    rewrite Hmk in Hrun. unfold try_finally in Hrun.
    match type of Hrun with
    | context [Handler.handle ?f ?a ?t ?s ?d ?st1] =>
        pose proof (handle_no_cleanup f a t s d st1) as Hh;
        unfold post in Hh;
        destruct (Handler.handle f a t s d st1) as [r1 st2];
        cbn [fst snd] in Hh
    end.
    destruct Hh as (evs & Ht & Hf). cbn [Handler.trace] in Ht.
    assert (Hend : forall c w2,
               Handler.shutil_rmtree temp_dir (Handler.world st2) = (c, w2) ->
               Handler.trace (marked st2 w2 (Handler.EvRmtree temp_dir))
               = Handler.trace st ++ [Handler.EvMkdtemp] ++ evs
                 ++ [Handler.EvRmtree temp_dir]).
    { intros c w2 _. cbn [marked Handler.trace]. rewrite Ht.
      rewrite <- !app_assoc. reflexivity. }
    unfold Handler.call in Hrun.
    destruct (Handler.shutil_rmtree temp_dir (Handler.world st2))
      as [c w2] eqn:Hrm.
    specialize (Hend c w2 eq_refl).
    exists evs. split; [| exact Hf].
    destruct r1 as [resp | ex1 |]; destruct c as [[] | ex2];
      cbn [ret] in Hrun; injection Hrun as Hr1 Hst; subst;
      try exact Hend; destruct (Hr eq_refl).
Qed.

End HandlerCleanup.

Section HandlerOutcomes.

Context {W : Type} {P : Handler.Primitives W}.

Variable ev : Handler.event.

Lemma well_formed_items :
  well_formed ev ->
  let app := Handler.entry (Handler.ev_app ev) in
  let time_range := Handler.entry (Handler.ev_timeRange ev) in
  let s3_config := Handler.entry (Handler.ev_s3 ev) in
  Handler.getitem time_range "startTime"
  = Ret (Handler.get time_range "startTime" EmptyString)
  /\ Handler.getitem time_range "endTime"
     = Ret (Handler.get time_range "endTime" EmptyString)
  /\ Handler.getitem app "region" = Ret (Handler.get app "region" EmptyString)
  /\ Handler.getitem app "appName" = Ret (Handler.get app "appName" EmptyString)
  /\ Handler.getitem s3_config "bucket"
     = Ret (Handler.get s3_config "bucket" EmptyString)
  /\ exists config, Handler.app_config_of app = Ret config.
Proof.
  intros (Ha & Ht & Hs). cbv zeta.
  assert (H1 : Handler.has_key "region" (Handler.entry (Handler.ev_app ev)) = true)
    by (apply Ha; cbn; auto).
  assert (H2 : Handler.has_key "appId" (Handler.entry (Handler.ev_app ev)) = true)
    by (apply Ha; cbn; auto).
  assert (H3 : Handler.has_key "domainName" (Handler.entry (Handler.ev_app ev))
               = true) by (apply Ha; cbn; auto).
  assert (H4 : Handler.has_key "appName" (Handler.entry (Handler.ev_app ev))
               = true) by (apply Ha; cbn; auto 6).
  assert (H5 : Handler.has_key "startTime"
                 (Handler.entry (Handler.ev_timeRange ev)) = true)
    by (apply Ht; cbn; auto).
  assert (H6 : Handler.has_key "endTime"
                 (Handler.entry (Handler.ev_timeRange ev)) = true)
    by (apply Ht; cbn; auto).
  split; [apply getitem_get; exact H5 |].
  split; [apply getitem_get; exact H6 |].
  split; [apply getitem_get; exact H1 |].
  split; [apply getitem_get; exact H4 |].
  split; [apply getitem_get; exact Hs |].
  unfold Handler.app_config_of.
  rewrite (getitem_get _ "region" EmptyString H1).
  rewrite (getitem_get _ "appId" EmptyString H2).
  rewrite (getitem_get _ "domainName" EmptyString H3).
  rewrite (getitem_get _ "appName" EmptyString H4).
  cbn [rbind]. eexists. reflexivity.
Qed.

(** X28: when [head_bucket] raises, the handler answers 500 with the
    message about the bucket and has called neither the Amplify API nor
    [upload_file]: its calls are [mkdtemp], the S3 client, [head_bucket] and
    the removal of the temporary directory; when that removal raises as
    well, the answer is its error. *)
Theorem inaccessible_bucket_stops_before_fetch
    fuel (st : Handler.state W) temp_dir w1 start_time end_time w2 ex w3 c w4 :
  let app := Handler.entry (Handler.ev_app ev) in
  let time_range := Handler.entry (Handler.ev_timeRange ev) in
  let s3_config := Handler.entry (Handler.ev_s3 ev) in
  let region := Handler.get app "region" EmptyString in
  let bucket := Handler.get s3_config "bucket" EmptyString in
  well_formed ev ->
  Handler.tempfile_mkdtemp (Handler.world st) = (Done temp_dir, w1) ->
  Handler.parse_time (Handler.get time_range "startTime" EmptyString)
  = Ret start_time ->
  Handler.parse_time (Handler.get time_range "endTime" EmptyString)
  = Ret end_time ->
  Handler.boto3_client_s3 region w1 = (Done tt, w2) ->
  Handler.head_bucket bucket w2 = (Failed ex, w3) ->
  Handler.shutil_rmtree temp_dir w3 = (c, w4) ->
  Handler.lambda_handler fuel ev st
  = (Ret {| Handler.statusCode := 500;
            Handler.response_body :=
              match c with
              | Done _ => Handler.BodyBucket bucket
              | Failed ex' => Handler.BodyError ex'
              end |},
     {| Handler.world := w4;
        Handler.trace :=
          Handler.trace st
          ++ [ Handler.EvMkdtemp; Handler.EvS3Client region;
               Handler.EvHeadBucket bucket; Handler.EvRmtree temp_dir ];
        Handler.uploaded_files := Handler.uploaded_files st |}).
Proof.
  intros app time_range s3_config region bucket Hwf Hmk Hstart Hend Hcl Hhead Hrm.
  subst app time_range s3_config region bucket.
  destruct (well_formed_items Hwf) as (Hs & He & Hr & Hn & Hb & config & Hc).
  apply validate_parameters_well_formed in Hwf.
  unfold Handler.lambda_handler, try_except. cbv zeta.
  unfold bind at 1. unfold lift at 1. rewrite Hwf.
  unfold bind at 1. unfold Handler.call at 1. rewrite Hmk.
  unfold try_finally. unfold Handler.handle.
  unfold bind at 1. unfold lift at 1. rewrite Hs.
  unfold bind at 1. unfold lift at 1. rewrite Hstart.
  unfold bind at 1. unfold lift at 1. rewrite He.
  unfold bind at 1. unfold lift at 1. rewrite Hend.
  unfold bind at 1. unfold lift at 1. rewrite Hr.
  unfold bind at 1. unfold Handler.call at 1.
  cbn [Handler.world Handler.trace Handler.uploaded_files].
  rewrite Hcl.
  unfold bind at 1. unfold Handler.check_bucket.
  unfold try_except at 1. unfold bind at 1. unfold lift at 1.
  rewrite Hb.
  unfold bind at 1. unfold Handler.call at 1.
  cbn [Handler.world Handler.trace Handler.uploaded_files].
  rewrite Hhead.
  unfold bind at 1. unfold lift at 1. unfold ret at 1 2.
  unfold Handler.call.
  cbn [Handler.world Handler.trace Handler.uploaded_files]. rewrite Hrm.
  destruct c as [[] | ex']; unfold ret; rewrite <- !app_assoc; reflexivity.
Qed.

(** X29: once the event is well formed, the directory made, both times
    parsed, the S3 client made, the bucket found and the directory
    removable, the handler answers 200 whenever it answers: whatever the
    Amplify API and the uploads do, no failure of theirs turns into a 500 or
    an exception.  The body names the app and the time range; it is the
    message that no logs were found or the list of uploaded keys, none of
    which starts with a slash. *)
Theorem fetch_and_upload_failures_answer_200
    fuel (st : Handler.state W) temp_dir w1 start_time end_time w2 w3 r st' :
  let app := Handler.entry (Handler.ev_app ev) in
  let time_range := Handler.entry (Handler.ev_timeRange ev) in
  let s3_config := Handler.entry (Handler.ev_s3 ev) in
  let app_name := Handler.get app "appName" EmptyString in
  well_formed ev ->
  Handler.tempfile_mkdtemp (Handler.world st) = (Done temp_dir, w1) ->
  Handler.parse_time (Handler.get time_range "startTime" EmptyString)
  = Ret start_time ->
  Handler.parse_time (Handler.get time_range "endTime" EmptyString)
  = Ret end_time ->
  Handler.boto3_client_s3 (Handler.get app "region" EmptyString) w1
  = (Done tt, w2) ->
  Handler.head_bucket (Handler.get s3_config "bucket" EmptyString) w2
  = (Done tt, w3) ->
  (forall w, exists w', Handler.shutil_rmtree temp_dir w = (Done tt, w')) ->
  Handler.lambda_handler fuel ev st = (r, st') ->
  r = Diverge
  \/ r = Ret {| Handler.statusCode := 200;
                Handler.response_body := Handler.BodyNoLogs app_name time_range |}
  \/ exists uploaded,
       r = Ret {| Handler.statusCode := 200;
                  Handler.response_body :=
                    Handler.BodyUploaded app_name time_range uploaded |}
       /\ Forall (fun key => Handler.starts_with_slash key = false) uploaded.
Proof.
  intros app time_range s3_config app_name Hwf Hmk Hstart Hend Hcl Hhead Hrm.
  subst app time_range s3_config app_name.
  destruct (well_formed_items Hwf) as (Hs & He & Hr & Hn & Hb & config & Hc).
  apply validate_parameters_well_formed in Hwf.
  unfold Handler.lambda_handler, try_except. cbv zeta.
  unfold bind at 1. unfold lift at 1. rewrite Hwf.
  unfold bind at 1. unfold Handler.call at 1. rewrite Hmk.
  unfold try_finally. unfold Handler.handle.
  unfold bind at 1. unfold lift at 1. rewrite Hs.
  unfold bind at 1. unfold lift at 1. rewrite Hstart.
  unfold bind at 1. unfold lift at 1. rewrite He.
  unfold bind at 1. unfold lift at 1. rewrite Hend.
  unfold bind at 1. unfold lift at 1. rewrite Hr.
  unfold bind at 1. unfold Handler.call at 1.
  cbn [Handler.world Handler.trace Handler.uploaded_files]. rewrite Hcl.
  unfold bind at 1. unfold Handler.check_bucket.
  unfold try_except at 1. unfold bind at 1. unfold lift at 1.
  rewrite Hb.
  unfold bind at 1. unfold Handler.call at 1.
  cbn [Handler.world Handler.trace Handler.uploaded_files]. rewrite Hhead.
  unfold ret at 1.
  unfold bind at 1. unfold lift at 1. rewrite Hc.
  unfold bind at 1. unfold Handler.call_fetch at 1.
  cbn [Handler.world Handler.trace Handler.uploaded_files].
  match goal with
  | |- context [Lambda.download_amplify_logs ?cfg ?f ?s ?e ?d ?a ?b ?lst] =>
      pose proof (download_amplify_logs_written (P := Handler.fetcher)
                    cfg f s e d a b lst) as Hd;
      unfold post in Hd;
      destruct (Lambda.download_amplify_logs cfg f s e d a b lst)
        as [[[| p paths] | ex1 |] fetched]; cbn [fst snd] in Hd
  end.
  - unfold bind at 1. unfold lift at 1. rewrite Hn. unfold ret at 1.
    unfold Handler.call.
    cbn [Handler.world Handler.trace Handler.uploaded_files].
    destruct (Hrm (Lambda.world fetched)) as (w5 & ->).
    intros H. injection H as <- _. right. left. reflexivity.
  - unfold bind at 1.
    match goal with
    | |- context [Handler.upload_logs_to_s3 ?l ?d ?c ?a ?b ?st3] =>
        destruct (upload_logs_to_s3_spec l d c a b st3)
          as (keys & st4 & evs & Hrun & _ & _ & _ & Hk & _)
    end.
    rewrite Hrun.
    unfold bind at 1. unfold lift at 1. rewrite Hn. unfold ret at 1.
    unfold Handler.call.
    destruct (Hrm (Handler.world st4)) as (w5 & ->).
    intros H. injection H as <- _. right. right. exists keys.
    split; [reflexivity | exact Hk].
  - destruct Hd as (_ & Hd). destruct (Hd ex1 eq_refl).
  - intros H. injection H as <- _. left. reflexivity.
Qed.

End HandlerOutcomes.

(** ** The S3 key of an uploaded file *)

Lemma lstrip_slash_id s :
  Handler.starts_with_slash s = false -> Handler.lstrip_slash s = s.
Proof.
  destruct s as [| c s]; [reflexivity |].
  cbn [Handler.starts_with_slash Handler.lstrip_slash]. intros ->. reflexivity.
Qed.

Lemma starts_with_slash_append a b :
  a <> EmptyString ->
  Handler.starts_with_slash (a ++ b) = Handler.starts_with_slash a.
Proof. destruct a as [| c a]; [congruence | reflexivity]. Qed.

(** X30: the S3 key of a file is its path relative to the temporary
    directory, behind the prefix of the [s3] configuration: as it is when
    there is no prefix or an empty one, after the prefix and one slash
    otherwise, the slash being added only when the prefix does not end in
    one.  This holds for a relative path and a prefix that do not start with
    a slash. *)
Theorem s3_key_layout (s3_config : Handler.sdict) (relative_path : string) :
  let prefix := Handler.get s3_config "prefix" EmptyString in
  Handler.starts_with_slash relative_path = false ->
  Handler.starts_with_slash prefix = false ->
  Handler.s3_key_of s3_config relative_path
  = (if String.eqb prefix EmptyString then relative_path
     else if Handler.ends_with "/" prefix then prefix ++ relative_path
     else prefix ++ "/" ++ relative_path)%string
  /\ (Handler.has_key "prefix" s3_config = false ->
      Handler.s3_key_of s3_config relative_path = relative_path).
Proof.
  intros prefix Hrel Hpre.
  assert (Hkey : Handler.s3_key_of s3_config relative_path
                 = (if String.eqb prefix EmptyString then relative_path
                    else if Handler.ends_with "/" prefix then prefix ++ relative_path
                    else prefix ++ "/" ++ relative_path)%string).
  { unfold Handler.s3_key_of, Handler.path_join. fold prefix. rewrite Hrel.
    destruct (String.eqb_spec prefix EmptyString) as [-> | Hne]; cbn [orb].
    - cbn [String.append]. apply lstrip_slash_id. exact Hrel.
    - destruct (Handler.ends_with "/" prefix);
        apply lstrip_slash_id; rewrite starts_with_slash_append; assumption. }
  split; [exact Hkey |].
  intros Hno. rewrite Hkey.
  assert (Hp : prefix = EmptyString).
  { subst prefix. unfold Handler.get, Handler.has_key in *.
    destruct (find (fun p => String.eqb (fst p) "prefix") s3_config) as [p |] eqn:Hf;
      [| reflexivity].
    apply find_some in Hf.
    assert (He : existsb (fun p => String.eqb (fst p) "prefix") s3_config = true)
      by (apply existsb_exists; exists p; exact Hf).
    congruence. }
  rewrite Hp. reflexivity.
Qed.

(** ** The further properties at concrete inputs *)

Section LocalWitnesses.

Import Scenarios MoreScenarios.

Lemma get_amplify_logs_cli_error_witness :
  Local.get_amplify_logs (P := always_split_world) demo_app day1_start day1_end fresh
  = (Ret (PStr "REDUCE_RANGE"),
     logged fresh tt (Local.EvGenerateAccessLogs day1_start day1_end))
  /\ Local.get_amplify_logs (P := always_transient_world) demo_app
       day1_start day1_end fresh
     = (Ret PNone, logged fresh tt (Local.EvGenerateAccessLogs day1_start day1_end)).
Proof.
  split.
  - exact (proj1 (get_amplify_logs_cli_error (P := always_split_world) demo_app
                    day1_start day1_end fresh reduce_error tt eq_refl)).
  - exact (proj1 (get_amplify_logs_cli_error (P := always_transient_world) demo_app
                    day1_start day1_end fresh network_error tt eq_refl)).
Defined.

Lemma get_amplify_logs_cli_output_witness :
  Local.get_amplify_logs (P := always_ok_world) demo_app day1_start day1_end fresh
  = (Ret (PStr "GET / 200"),
     logged (logged fresh tt (Local.EvGenerateAccessLogs day1_start day1_end)) tt
            (Local.EvHttpGet (PStr "https://logs/1")))
  /\ Local.get_amplify_logs (P := no_url_world) demo_app day1_start day1_end fresh
     = (Ret (PDict []),
        logged fresh tt (Local.EvGenerateAccessLogs day1_start day1_end)).
Proof.
  split.
  - refine (proj2 (proj2 (proj2
              (get_amplify_logs_cli_output (P := always_ok_world) demo_app
                 day1_start day1_end fresh "https://logs/1"%string tt eq_refl)))
              [("logUrl"%string, PStr "https://logs/1")] "logUrl"%string
              (PStr "https://logs/1") 200 "GET / 200"%string tt
              _ eq_refl eq_refl eq_refl).
    discriminate.
  - refine (proj1 (proj2 (proj2
              (get_amplify_logs_cli_output (P := no_url_world) demo_app
                 day1_start day1_end fresh "{}"%string tt eq_refl)))
              [] _ eq_refl eq_refl).
    discriminate.
Defined.

Lemma split_attempts_both_halves_witness :
  Local.get_amplify_logs (P := always_split_world) demo_app day1_start day1_end fresh
  = (Ret (PStr "REDUCE_RANGE"),
     logged fresh tt (Local.EvGenerateAccessLogs day1_start day1_end))
  /\ exists success1 empty1 st2 success2 empty2 st3,
       Local.process_time_range (P := always_split_world) demo_app day1_start
         day1_mid 1 false
         (logged fresh tt (Local.EvGenerateAccessLogs day1_start day1_end))
       = (Ret (success1, empty1), st2)
       /\ Local.process_time_range (P := always_split_world) demo_app day1_mid
            day1_end 1 false (slept (P := always_split_world) st2)
          = (Ret (success2, empty2), st3)
       /\ Local.process_time_range (P := always_split_world) demo_app
            day1_start day1_end 0 false fresh
          = (Ret (success1 || success2, empty1 && empty2), st3).
Proof.
  split; [reflexivity |].
  exact (split_attempts_both_halves (P := always_split_world) demo_app false
           day1_start day1_end 0 fresh
           (logged fresh tt (Local.EvGenerateAccessLogs day1_start day1_end))
           ltac:(discriminate) eq_refl).
Defined.

Lemma save_failure_fails_without_upload_witness :
  Local.get_amplify_logs (P := disk_full_world) demo_app day1_start day1_end fresh
  = (Ret (PStr "GET / 200"),
     snd (Local.get_amplify_logs (P := disk_full_world) demo_app
            day1_start day1_end fresh))
  /\ Local.process_time_range (P := disk_full_world) demo_app
       day1_start day1_end 0 false fresh
     = (Ret (false, false),
        snd (Local.save_logs_locally (P := disk_full_world) demo_app
               (PStr "GET / 200") day1_end
               (snd (Local.get_amplify_logs (P := disk_full_world) demo_app
                       day1_start day1_end fresh)))).
Proof.
  split; [reflexivity |].
  exact (proj1 (save_failure_fails_without_upload (P := disk_full_world) demo_app
                  false day1_start day1_end 0 fresh (PStr "GET / 200") _
                  (OtherException "No space left on device") _
                  ltac:(discriminate) eq_refl eq_refl eq_refl eq_refl)).
Defined.

Lemma text_payload_is_stored_under_end_time_witness :
  (exists st',
     Local.process_time_range (P := dated always_ok_world) demo_app
       chunk2_start chunk2_end 0 true fresh
     = (Ret (true, false), st')
     /\ Local.trace st'
        = [ Local.EvGenerateAccessLogs chunk2_start chunk2_end;
            Local.EvHttpGet (PStr "https://logs/1");
            Local.EvMkdir
              "/home/hylmarj/_scratch/type=amplify_logs/app=danse_tech/date_export=2024-01-28";
            Local.EvWriteFile
              "/home/hylmarj/_scratch/type=amplify_logs/app=danse_tech/date_export=2024-01-28/log_20240128_235959"
              "GET / 200";
            Local.EvGetsize
              "/home/hylmarj/_scratch/type=amplify_logs/app=danse_tech/date_export=2024-01-28/log_20240128_235959";
            Local.EvS3Cp
              "/home/hylmarj/_scratch/type=amplify_logs/app=danse_tech/date_export=2024-01-28/log_20240128_235959"
              "s3://amplifylogs-logging-intite-ss1-inftes-182059100462/type=amplify_logs/app=danse_tech/date_export=2024-01-28/log_20240128_235959";
            Local.EvRemove
              "/home/hylmarj/_scratch/type=amplify_logs/app=danse_tech/date_export=2024-01-28/log_20240128_235959" ]
     /\ Local.stats st' = Local.stats fresh)
  /\ (exists st',
        Local.process_time_range (P := dated always_ok_world) nested_app
          chunk2_start chunk2_end 0 false fresh
        = (Ret (true, false), st')
        /\ Local.trace st'
           = [ Local.EvGenerateAccessLogs chunk2_start chunk2_end;
               Local.EvHttpGet (PStr "https://logs/1");
               Local.EvMkdir
                 "/home/hylmarj/_scratch/type=amplify_logs/app=danse/tech/date_export=2024-01-28";
               Local.EvWriteFile
                 "/home/hylmarj/_scratch/type=amplify_logs/app=danse/tech/date_export=2024-01-28/log_20240128_235959"
                 "GET / 200";
               Local.EvGetsize
                 "/home/hylmarj/_scratch/type=amplify_logs/app=danse/tech/date_export=2024-01-28/log_20240128_235959";
               Local.EvS3Cp
                 "/home/hylmarj/_scratch/type=amplify_logs/app=danse/tech/date_export=2024-01-28/log_20240128_235959"
                 "s3://amplifylogs-logging-intite-ss1-inftes-182059100462/type=amplify_logs/app=danse//tech/date_export=2024-01-28/log_20240128_235959" ]).
Proof.
  split.
  - destruct (text_payload_is_stored_under_end_time (P := dated always_ok_world)
                demo_app true chunk2_start chunk2_end 0 fresh "GET / 200"%string
                _ tt tt 1 tt "upload ok"%string tt
                ltac:(discriminate) eq_refl ltac:(discriminate)
                ltac:(discriminate) eq_refl eq_refl eq_refl eq_refl)
      as (Hnames & _ & _ & _ & st' & Hrun & Ht & Hs).
    exists st'. split; [exact Hrun |]. split; [| exact Hs].
    rewrite Ht. destruct (Hnames eq_refl eq_refl eq_refl) as (-> & -> & ->).
    reflexivity.
  - destruct (text_payload_is_stored_under_end_time (P := dated always_ok_world)
                nested_app false chunk2_start chunk2_end 0 fresh
                "GET / 200"%string _ tt tt 1 tt "upload ok"%string tt
                ltac:(discriminate) eq_refl ltac:(discriminate)
                ltac:(discriminate) eq_refl eq_refl eq_refl eq_refl)
      as (_ & Hdir & Hfile & Huri & st' & Hrun & Ht & _).
    exists st'. split; [exact Hrun |].
    rewrite Ht, Hdir, Hfile, Huri. reflexivity.
Defined.

Lemma generate_time_ranges_degenerate_witness :
  Local.generate_time_ranges 14 1 (ymd2ord 2024 1 31) (ymd2ord 2024 1 1) = Ret []
  /\ Local.download_logs (P := all_raise_world) demo_app 14 1 (ymd2ord 2024 1 31)
       (ymd2ord 2024 1 1) false fresh
     = (Ret {| Local.report_overall_stats := Local.init_stats;
               Local.report_app_stats := Local.init_app_stats demo_app |},
        fresh).
Proof.
  destruct (generate_time_ranges_degenerate (P := all_raise_world) demo_app 14 0
              (ymd2ord 2024 1 31) (ymd2ord 2024 1 1) eq_refl) as (Hg & Hd).
  split; [exact Hg | exact (Hd false fresh)].
Defined.

Lemma generate_time_ranges_count_witness :
  Local.generate_time_ranges 14 4 (ymd2ord 2024 1 1) (ymd2ord 2024 1 31)
  = Ret [ (mk_datetime 2024 1 1 0 0 0, mk_datetime 2024 1 14 23 59 59);
          (mk_datetime 2024 1 15 0 0 0, mk_datetime 2024 1 28 23 59 59);
          (mk_datetime 2024 1 29 0 0 0, mk_datetime 2024 1 31 23 59 59) ]
  /\ 3 = (ymd2ord 2024 1 31 - ymd2ord 2024 1 1) / 14 + 1.
Proof.
  split; [reflexivity |].
  exact (generate_time_ranges_count 14 4 (ymd2ord 2024 1 1) (ymd2ord 2024 1 31) _
           ltac:(discriminate) ltac:(discriminate) eq_refl).
Defined.

Lemma negative_chunk_size_overflows_witness :
  exists fuel0,
    forall fuel, (fuel0 <= fuel)%nat ->
      Local.generate_time_ranges (-1) fuel 1 1 = Raise OverflowError
      /\ Local.download_logs (P := always_ok_world) demo_app (-1) fuel 1 1 false fresh
         = (Raise OverflowError, fresh).
Proof.
  destruct (negative_chunk_size_overflows (P := always_ok_world) demo_app (-1) 1 1
              ltac:(discriminate) ltac:(discriminate) ltac:(discriminate)
              ltac:(discriminate)) as (fuel0 & H).
  exists fuel0. intros fuel Hfuel. destruct (H fuel Hfuel) as (Hg & Hd).
  split; [exact Hg | apply Hd].
Defined.

Lemma failed_ranges_are_generated_chunks_witness :
  exists rep st',
    Local.download_logs (P := all_raise_world) demo_app 14 5 1 20 false fresh
    = (Ret rep, st')
    /\ subsequence (Local.app_failed_ranges (Local.report_app_stats rep))
                   [ (start_of_day 1, end_of_day 14);
                     (start_of_day 15, end_of_day 20) ]
    /\ Local.failed_ranges (Local.report_overall_stats rep)
       = map (failed_entry (P := all_raise_world) demo_app)
             (Local.app_failed_ranges (Local.report_app_stats rep)).
Proof.
  assert (H : exists rep st',
             Local.download_logs (P := all_raise_world) demo_app 14 5 1 20
                                 false fresh
             = (Ret rep, st'))
    by (do 2 eexists; vm_compute; reflexivity).
  destruct H as (rep & st' & H). exists rep, st'. split; [exact H |].
  destruct (failed_ranges_are_generated_chunks (P := all_raise_world) demo_app 14
              5%nat 1 20 false fresh rep st' H) as (ranges & Hg & Hsub & Hf).
  assert (Hr : ranges = [ (start_of_day 1, end_of_day 14);
                          (start_of_day 15, end_of_day 20) ]).
  { assert (Hgen : Local.generate_time_ranges 14 5 1 20
                   = Ret [ (start_of_day 1, end_of_day 14);
                           (start_of_day 15, end_of_day 20) ]) by reflexivity.
    rewrite Hgen in Hg. injection Hg as <-. reflexivity. }
  subst ranges. split; [exact Hsub | exact Hf].
Defined.

Lemma download_logs_accumulates_witness :
  exists rep st',
    Local.download_logs (P := all_raise_world) demo_app 14 5 1 20 false
      (snd (Local.download_logs (P := all_raise_world) demo_app 14 5 1 20 false
              fresh))
    = (Ret rep, st')
    /\ Local.total_chunks (Local.report_overall_stats rep) = 2
    /\ Local.successful_chunks (Local.report_overall_stats rep)
       + Local.failed_chunks (Local.report_overall_stats rep) = 4.
Proof.
  assert (H : exists rep st',
             Local.download_logs (P := all_raise_world) demo_app 14 5 1 20 false
               (snd (Local.download_logs (P := all_raise_world) demo_app 14 5 1 20
                       false fresh))
             = (Ret rep, st'))
    by (do 2 eexists; vm_compute; reflexivity).
  destruct H as (rep & st' & H). exists rep, st'. split; [exact H |].
  destruct (download_logs_accumulates (P := all_raise_world) demo_app 14
              5%nat 1 20 false _ rep st' H) as (ranges & Hg & Ht & Hs & _).
  assert (Hgen : Local.generate_time_ranges 14 5 1 20
                 = Ret [ (start_of_day 1, end_of_day 14);
                         (start_of_day 15, end_of_day 20) ]) by reflexivity.
  rewrite Hgen in Hg. injection Hg as <-.
  split; [exact Ht |]. rewrite Hs. reflexivity.
Defined.

End LocalWitnesses.

Section LambdaWitnesses.

Import Scenarios MoreScenarios.

Lemma lambda_download_returns_written_files_witness :
  Lambda.download_amplify_logs (P := lambda_no_url_world) lambda_app 1
    day1_start day1_end "/tmp/logs" 3 2 lambda_init
  = (Ret [Lambda.log_file_path_of (P := lambda_no_url_world) lambda_app
            "/tmp/logs" day1_start],
     snd (Lambda.download_amplify_logs (P := lambda_no_url_world) lambda_app 1
            day1_start day1_end "/tmp/logs" 3 2 lambda_init))
  /\ exists evs,
       Lambda.trace
         (snd (Lambda.download_amplify_logs (P := lambda_no_url_world)
                 lambda_app 1 day1_start day1_end "/tmp/logs" 3 2 lambda_init))
       = Lambda.trace lambda_init ++ evs
       /\ written evs (Lambda.log_file_path_of (P := lambda_no_url_world)
                         lambda_app "/tmp/logs" day1_start).
Proof.
  assert (H : Lambda.download_amplify_logs (P := lambda_no_url_world) lambda_app 1
                day1_start day1_end "/tmp/logs" 3 2 lambda_init
              = (Ret [Lambda.log_file_path_of (P := lambda_no_url_world)
                        lambda_app "/tmp/logs" day1_start],
                 snd (Lambda.download_amplify_logs (P := lambda_no_url_world)
                        lambda_app 1 day1_start day1_end "/tmp/logs" 3 2
                        lambda_init)))
    by reflexivity.
  split; [exact H |].
  destruct (lambda_download_returns_written_files (P := lambda_no_url_world)
              lambda_app 1%nat day1_start day1_end "/tmp/logs"%string 3 2
              lambda_init _ _ H) as (_ & evs & Ht & Hw).
  exists evs. split; [exact Ht |].
  exact (Forall_inv (Hw _ eq_refl)).
Defined.

Lemma resource_not_found_is_not_retried_witness :
  Lambda.download_amplify_logs (P := lambda_not_found_world) lambda_app 1
    day1_start day1_end "/tmp/logs" 3 2 lambda_init
  = (Ret [],
     {| Lambda.world := tt;
        Lambda.trace :=
          [ Lambda.EvMakedirs
              (Lambda.output_dir_of (P := lambda_not_found_world) lambda_app
                 "/tmp/logs" day1_start);
            Lambda.EvClient "eu-west-1";
            Lambda.EvGenerateAccessLogs day1_start day1_end ] |}).
Proof.
  exact (resource_not_found_is_not_retried (P := lambda_not_found_world)
           lambda_app 0%nat day1_start day1_end "/tmp/logs"%string 3 2
           lambda_init tt tt "App not found"%string tt
           ltac:(discriminate) eq_refl eq_refl eq_refl).
Defined.

Lemma lambda_download_stores_under_start_time_witness :
  (exists st',
      Lambda.download_amplify_logs (P := lambda_ok_world) lambda_app 1
        day1_start day1_end "/tmp/logs" 3 2 lambda_init
      = (Ret [Lambda.log_file_path_of (P := lambda_ok_world) lambda_app
                "/tmp/logs" day1_start], st')
      /\ Lambda.api_calls (Lambda.trace st') = [(day1_start, day1_end)]
      /\ Lambda.sleeps (Lambda.trace st') = [])
  /\ exists st',
       Lambda.download_amplify_logs (P := lambda_no_url_world) lambda_app 1
         day1_start day1_end "/tmp/logs" 3 2 lambda_init
       = (Ret [Lambda.log_file_path_of (P := lambda_no_url_world) lambda_app
                 "/tmp/logs" day1_start], st')
       /\ Lambda.api_calls (Lambda.trace st') = [(day1_start, day1_end)].
Proof.
  split.
  - eexists. split; [| split].
    + refine (proj1 (lambda_download_stores_under_start_time
                       (P := lambda_ok_world) lambda_app 0%nat day1_start
                       day1_end "/tmp/logs"%string 3 2 lambda_init tt tt
                       (PDict [("logUrl"%string, PStr "https://logs/1")]) tt
                       ltac:(discriminate) eq_refl eq_refl eq_refl)
                    (PStr "https://logs/1") "GET / 200"%string tt tt
                    eq_refl eq_refl eq_refl eq_refl).
    + reflexivity.
    + reflexivity.
  - eexists. split.
    + refine (proj2 (lambda_download_stores_under_start_time
                       (P := lambda_no_url_world) lambda_app 0%nat day1_start
                       day1_end "/tmp/logs"%string 3 2 lambda_init tt tt
                       (PDict []) tt
                       ltac:(discriminate) eq_refl eq_refl eq_refl)
                    tt eq_refl eq_refl).
    + reflexivity.
Defined.

Lemma lambda_split_uses_default_retries_witness :
  Lambda.download_amplify_logs (P := lambda_split_world) lambda_app 2
    day1_start day1_end "/tmp/logs" 5 7 lambda_init
  = (first_half <- Lambda.download_amplify_logs (P := lambda_split_world)
                     lambda_app 1 day1_start
                     (Lambda.mid_time_of day1_start day1_end) "/tmp/logs" 3 2 ;;
     _ <- Lambda.sleep (P := lambda_split_world) 1 ;;
     second_half <- Lambda.download_amplify_logs (P := lambda_split_world)
                      lambda_app 1 (Lambda.mid_time_of day1_start day1_end)
                      day1_end "/tmp/logs" 3 2 ;;
     ret (first_half ++ second_half)%list)
      {| Lambda.world := tt;
         Lambda.trace :=
           [ Lambda.EvMakedirs
               (Lambda.output_dir_of (P := lambda_split_world) lambda_app
                  "/tmp/logs" day1_start);
             Lambda.EvClient "eu-west-1";
             Lambda.EvGenerateAccessLogs day1_start day1_end ] |}.
Proof.
  exact (lambda_split_uses_default_retries (P := lambda_split_world) lambda_app
           1%nat day1_start day1_end "/tmp/logs"%string 5 7 lambda_init tt tt
           "Too many records, reduce time range"%string tt
           ltac:(discriminate) eq_refl eq_refl eq_refl eq_refl).
Defined.

Lemma orchestration_ranges_tile_witness :
  exists fuel0 ranges,
    (forall fuel, (fuel0 <= fuel)%nat ->
       Orchestration.generate_time_ranges show_seconds fuel
         (mk_datetime 2024 1 1 0 0 0) (mk_datetime 2024 1 31 12 0 0) 14
       = Ret (map (Orchestration.range_dict show_seconds) ranges))
    /\ adjacent_by 0 ranges
    /\ snd (last ranges (0, 0)) = mk_datetime 2024 1 31 12 0 0
    /\ Z.of_nat (List.length ranges) = 3.
Proof.
  destruct (orchestration_ranges_tile show_seconds 14
              (mk_datetime 2024 1 1 0 0 0) (mk_datetime 2024 1 31 12 0 0)
              ltac:(split; discriminate) ltac:(discriminate) ltac:(discriminate))
    as (fuel0 & ranges & Hrun & Hadj & _ & _ & Hne & _).
  destruct (Hne eq_refl) as (_ & Hlast & Hlen).
  exists fuel0, ranges. split; [exact Hrun |]. split; [exact Hadj |].
  split; [exact Hlast |]. rewrite Hlen. reflexivity.
Defined.

Lemma orchestration_needs_positive_chunk_witness :
  Orchestration.generate_time_ranges show_seconds 1000
    (mk_datetime 2024 1 1 0 0 0) (mk_datetime 2024 1 31 12 0 0) 0
  <> Ret [].
Proof.
  apply (orchestration_needs_positive_chunk show_seconds 1000 0
           (mk_datetime 2024 1 1 0 0 0) (mk_datetime 2024 1 31 12 0 0) []).
  - discriminate.
  - reflexivity.
Defined.

End LambdaWitnesses.

Section HandlerWitnesses.

Import Scenarios MoreScenarios.

Lemma demo_event_well_formed : well_formed demo_event.
Proof. apply validate_parameters_well_formed. reflexivity. Qed.

Lemma failing_upload_is_retried_then_dropped_witness :
  exists st' evs,
    Handler.upload_loop (P := upload_refused_world)
      ["/tmp/tmpdir/app=danse_tech/log_1"; "/tmp/tmpdir/app=danse_tech/log_2"]%string
      "/tmp/tmpdir" demo_s3 3 2 handler_init
    = Handler.upload_loop (P := upload_refused_world)
        ["/tmp/tmpdir/app=danse_tech/log_2"%string] "/tmp/tmpdir" demo_s3 3 2 st'
    /\ Handler.trace st'
       = [ Handler.EvExists "/tmp/tmpdir/app=danse_tech/log_1";
           Handler.EvGetsize "/tmp/tmpdir/app=danse_tech/log_1";
           Handler.EvRelpath "/tmp/tmpdir/app=danse_tech/log_1" "/tmp/tmpdir" ]
         ++ evs
    /\ Handler.uploaded_files st' = []
    /\ upload_keys evs
       = [ "app=danse_tech/log_1"; "app=danse_tech/log_1";
           "app=danse_tech/log_1" ]%string
    /\ pauses evs = [2; 4].
Proof.
  exact (failing_upload_is_retried_then_dropped (P := upload_refused_world)
           "/tmp/tmpdir"%string demo_s3 3 2
           "/tmp/tmpdir/app=danse_tech/log_1"%string
           ["/tmp/tmpdir/app=danse_tech/log_2"%string] handler_init tt 9 tt
           "app=danse_tech/log_1"%string tt
           "amplifylogs-logging-intite-ss2-inftes-182059100462"%string
           ltac:(discriminate) ltac:(discriminate) ltac:(discriminate)
           eq_refl eq_refl ltac:(discriminate) eq_refl eq_refl
           (fun w => ex_intro _ access_denied (ex_intro _ w eq_refl))).
Defined.

Lemma upload_error_drops_the_remaining_files_witness :
  Handler.upload_logs_to_s3 (P := unreadable_world)
    ["/tmp/tmpdir/app=danse_tech/log_1"; "/tmp/tmpdir/app=danse_tech/log_2"]%string
    "/tmp/tmpdir" demo_s3 3 2 handler_init
  = (Ret [],
     {| Handler.world := tt;
        Handler.trace :=
          [ Handler.EvExists "/tmp/tmpdir/app=danse_tech/log_1";
            Handler.EvGetsize "/tmp/tmpdir/app=danse_tech/log_1" ];
        Handler.uploaded_files := [] |})
  /\ Handler.upload_logs_to_s3 (P := upload_refused_world)
       ["/tmp/tmpdir/app=danse_tech/log_1"; "/tmp/tmpdir/app=danse_tech/log_2"]%string
       "/tmp/tmpdir" demo_s3 3 (-2) handler_init
     = (Ret [],
        {| Handler.world := tt;
           Handler.trace :=
             [ Handler.EvExists "/tmp/tmpdir/app=danse_tech/log_1";
               Handler.EvGetsize "/tmp/tmpdir/app=danse_tech/log_1";
               Handler.EvRelpath "/tmp/tmpdir/app=danse_tech/log_1" "/tmp/tmpdir";
               Handler.EvUploadFile "/tmp/tmpdir/app=danse_tech/log_1"
                 "amplifylogs-logging-intite-ss2-inftes-182059100462"
                 "app=danse_tech/log_1" "text/plain";
               Handler.EvSleep (-2) ];
           Handler.uploaded_files := [] |}).
Proof.
  split.
  - exact (proj1 (upload_error_drops_the_remaining_files (P := unreadable_world)
                    "/tmp/tmpdir"%string demo_s3 3 2 []
                    "/tmp/tmpdir/app=danse_tech/log_1"%string
                    ["/tmp/tmpdir/app=danse_tech/log_2"%string]
                    handler_init handler_init
                    {| Handler.world := tt;
                       Handler.trace :=
                         [ Handler.EvExists "/tmp/tmpdir/app=danse_tech/log_1";
                           Handler.EvGetsize "/tmp/tmpdir/app=danse_tech/log_1" ];
                       Handler.uploaded_files := [] |}
                    (OtherException "No such file or directory")
                    eq_refl eq_refl)).
  - exact (proj1 (upload_error_drops_the_remaining_files
                    (P := upload_refused_world)
                    "/tmp/tmpdir"%string demo_s3 3 (-2) []
                    "/tmp/tmpdir/app=danse_tech/log_1"%string
                    ["/tmp/tmpdir/app=danse_tech/log_2"%string]
                    handler_init handler_init
                    {| Handler.world := tt;
                       Handler.trace :=
                         [ Handler.EvExists "/tmp/tmpdir/app=danse_tech/log_1";
                           Handler.EvGetsize "/tmp/tmpdir/app=danse_tech/log_1";
                           Handler.EvRelpath "/tmp/tmpdir/app=danse_tech/log_1"
                             "/tmp/tmpdir";
                           Handler.EvUploadFile "/tmp/tmpdir/app=danse_tech/log_1"
                             "amplifylogs-logging-intite-ss2-inftes-182059100462"
                             "app=danse_tech/log_1" "text/plain";
                           Handler.EvSleep (-2) ];
                       Handler.uploaded_files := [] |}
                    (OtherException "sleep length must be non-negative")
                    eq_refl eq_refl)).
Defined.

Lemma missing_and_empty_files_are_skipped_witness :
  exists st' evs,
    Handler.upload_logs_to_s3 (P := no_file_world)
      ["/tmp/tmpdir/app=danse_tech/log_1"; "/tmp/tmpdir/app=danse_tech/log_2"]%string
      "/tmp/tmpdir" demo_s3 3 2 handler_init
    = (Ret [], st')
    /\ Handler.trace st' = Handler.trace handler_init ++ evs
    /\ upload_keys evs = [].
Proof.
  destruct (missing_and_empty_files_are_skipped (P := no_file_world)
              "/tmp/tmpdir"%string demo_s3 3 2
              ["/tmp/tmpdir/app=danse_tech/log_1";
               "/tmp/tmpdir/app=danse_tech/log_2"]%string handler_init
              (fun p w _ => or_introl (ex_intro _ w eq_refl)))
    as (st' & evs & Hrun & Ht & Hev).
  exists st', evs. split; [exact Hrun |]. split; [exact Ht |].
  clear Hrun Ht. induction Hev as [| ev evs (p & _ & [-> | ->]) _ IH];
    [reflexivity | exact IH | exact IH].
Defined.

Lemma invalid_event_is_refused_untouched_witness :
  ~ well_formed event_without_s3
  /\ exists msg,
       Handler.lambda_handler (P := handler_ok_world) 1 event_without_s3
                              handler_init
       = (Ret {| Handler.statusCode := 500;
                 Handler.response_body := Handler.BodyError (OtherException msg) |},
          handler_init).
Proof.
  assert (H : ~ well_formed event_without_s3).
  { intros (_ & _ & H). discriminate H. }
  split; [exact H |].
  exact (proj2 (invalid_event_is_refused_untouched (P := handler_ok_world) 1%nat
                  event_without_s3 handler_init) H).
Defined.

Lemma handler_always_cleans_up_witness :
  exists resp st' evs,
    Handler.lambda_handler (P := upload_refused_world) 1 demo_event handler_init
    = (Ret resp, st')
    /\ Handler.trace st'
       = [Handler.EvMkdtemp] ++ evs ++ [Handler.EvRmtree "/tmp/tmpdir"]
    /\ forallb no_cleanup evs = true.
Proof.
  assert (H : exists resp st',
             Handler.lambda_handler (P := upload_refused_world) 1 demo_event
                                    handler_init
             = (Ret resp, st'))
    by (do 2 eexists; vm_compute; reflexivity).
  destruct H as (resp & st' & H).
  destruct (proj2 (proj2 (handler_always_cleans_up (P := upload_refused_world)
                            1%nat demo_event handler_init))
              "/tmp/tmpdir"%string tt (Ret resp) st' demo_event_well_formed
              eq_refl H ltac:(discriminate)) as (evs & Ht & Hf).
  exists resp, st', evs. split; [exact H |]. split; [exact Ht | exact Hf].
Defined.

Lemma inaccessible_bucket_stops_before_fetch_witness :
  Handler.lambda_handler (P := no_bucket_world) 1 demo_event handler_init
  = (Ret {| Handler.statusCode := 500;
            Handler.response_body :=
              Handler.BodyBucket
                "amplifylogs-logging-intite-ss2-inftes-182059100462" |},
     {| Handler.world := tt;
        Handler.trace :=
          [ Handler.EvMkdtemp; Handler.EvS3Client "eu-west-1";
            Handler.EvHeadBucket
              "amplifylogs-logging-intite-ss2-inftes-182059100462";
            Handler.EvRmtree "/tmp/tmpdir" ];
        Handler.uploaded_files := [] |}).
Proof.
  exact (inaccessible_bucket_stops_before_fetch (P := no_bucket_world) demo_event
           1%nat handler_init "/tmp/tmpdir"%string tt
           (mk_datetime 2023 10 1 0 0 0) (mk_datetime 2023 10 1 23 59 59) tt
           access_denied tt (Done tt) tt
           demo_event_well_formed eq_refl eq_refl eq_refl eq_refl eq_refl eq_refl).
Defined.

Lemma fetch_and_upload_failures_answer_200_witness :
  fst (Handler.lambda_handler (P := upload_refused_world) 1 demo_event
                              handler_init)
  = Ret {| Handler.statusCode := 200;
           Handler.response_body :=
             Handler.BodyUploaded "danse_tech"
               (Handler.entry (Handler.ev_timeRange demo_event)) [] |}.
Proof.
  destruct (fetch_and_upload_failures_answer_200 (P := upload_refused_world)
              demo_event 1%nat handler_init "/tmp/tmpdir"%string tt
              (mk_datetime 2023 10 1 0 0 0) (mk_datetime 2023 10 1 23 59 59)
              tt tt _ _
              demo_event_well_formed eq_refl eq_refl eq_refl eq_refl eq_refl
              (fun w => ex_intro _ w eq_refl)
              (surjective_pairing _)) as [H | [H | (uploaded & H & _)]].
  - vm_compute in H. discriminate H.
  - vm_compute in H. discriminate H.
  - rewrite H. f_equal. f_equal. f_equal.
    vm_compute in H. injection H as <-. reflexivity.
Defined.

End HandlerWitnesses.

Section KeyWitnesses.

Import Scenarios MoreScenarios.

Lemma s3_key_layout_witness :
  Handler.s3_key_of demo_s3 "app=danse_tech/log_1" = "app=danse_tech/log_1"%string
  /\ Handler.s3_key_of [("prefix", "raw")]%string "app=danse_tech/log_1"
     = "raw/app=danse_tech/log_1"%string
  /\ Handler.s3_key_of [("prefix", "raw/")]%string "app=danse_tech/log_1"
     = "raw/app=danse_tech/log_1"%string.
Proof.
  split; [| split].
  - exact (proj1 (s3_key_layout demo_s3 "app=danse_tech/log_1"%string
                    eq_refl eq_refl)).
  - exact (proj1 (s3_key_layout [("prefix", "raw")]%string
                    "app=danse_tech/log_1"%string eq_refl eq_refl)).
  - exact (proj1 (s3_key_layout [("prefix", "raw/")]%string
                    "app=danse_tech/log_1"%string eq_refl eq_refl)).
Defined.

End KeyWitnesses.
